(* ===== verification/_CoqProject ===== *)
-Q . S2P
Prelude.v
Riscv.v
Machine.v
Spinlock.v
KString.v
Kalloc.v
Vm.v
PageTable.v
UserMem.v
Sched.v
Keeps.v
FsIface.v
File.v
PipeSpec.v
Proc.v
Shmem.v
ShmemInv.v
ProcInv.v
ShmemSpec.v
ShmemRefine.v
ShmemLimits.v
FsState.v
Quiet.v
Sleeplock.v
Bio.v
BioSpec.v
Log.v
LogSpec.v
BlockSpec.v
Console.v
UserLib.v
UMalloc.v
UProg.v
UPrograms.v
UPwd.v
UShmem.v
Sh.v
ShSpec.v
ShText.v
Fs.v
FsFormat.v
Mkfs.v
MkfsSpec.v
MkfsImage.v
FsRead.v
MkfsKernel.v
FsInst.v
Virtio.v
VirtioSpec.v
SysArgs.v
Exec.v
Sysfile.v
ShRun.v
Syscall.v
Trap.v
SysKeeps.v
Kernel.v
Asm.v
Examples.v
ExamplesMem.v
ExamplesFs.v
ExamplesAsm.v
