(* ===== verification/Prelude.v ===== *)
(** * xv6-riscv with shared memory: a verification development

    The program is a RISC-V teaching kernel, xv6, extended with SHMEM pages of
    physical memory that the processes of one group (a program started by exec()
    and the children it forks) share. This development models the kernel as
    executable Rocq functions and proves what makes its parts correct.

    ** The program and its model

    The files follow the kernel's layers; each requires the ones it calls.

    - Prelude: C integers of a given width as [Z] with their wrap-around, byte-
      addressed memory ([gmap Z Z]) with little-endian words, and the monad [K] of
      kernel code. A command takes the state to an outcome: [Ret] (it returns),
      [Panic] (panic() with its message), [Spin] (it waits for a lock of another
      hart), [Swtch] (it gave up the CPU; the continuation is the rest of the code)
      or [OutOfFuel]. [post] is the logic of these outcomes.
    - Riscv: constants and address macros of param.h, memlayout.h, riscv.h, fs.h.
    - Machine: the kernel's state as a record ([kstate]) of the C tables and structs.
    - Spinlock, Sched: spinlock.c; sched(), sleep(), wakeup(), kill(), scheduler().
    - KString, Kalloc, Vm, PageTable, UserMem: string.c, kalloc.c, vm.c; what a page
      table denotes; copies between kernel and user memory.
    - File, PipeSpec: file.c and pipe.c; the ring of a pipe as a queue.
    - Proc, Shmem: process creation, exit and wait, and the shared pages, of proc.c.
    - Keeps, ShmemInv, ProcInv, ShmemSpec, ShmemRefine, ShmemLimits: the invariant
      of the shared-memory table, the behaviour of each operation on each branch,
      the abstract specification of a page, and the limits of the facility.
    - FsState, Quiet, Sleeplock, Bio, BioSpec, Log, LogSpec, BlockSpec, Virtio,
      VirtioSpec: the file-system and device state, sleeplock.c, bio.c, log.c and
      virtio_disk.c with their specifications.
    - Console, Fs, FsFormat, FsInst: console.c, uart.c, printf.c, fs.c; on-disk
      formats and paths; the file system as an instance of the interface [FsOps]
      (FsIface) through which processes and files use it.
    - SysArgs, Exec, Sysfile, Syscall, Trap: syscall.c, exec.c, sysfile.c, sysproc.c,
      trap.c, plic.c, main.c. SysKeeps and Kernel: the kernel as a system of threads.
    - Asm: trampoline.S, swtch.S, kernelvec.S, entry.S and start.c, run by an
      interpreter of their instructions with address translation.
    - UserLib: the functions of user/ulib.c on strings and memory, the matcher of
      user/grep.c. UMalloc: the allocator of user/umalloc.c.
    - UProg: user programs as trees of system calls ([uprog]); user/printf.c, gets().
      UPrograms, UPwd: cat, echo, echoecho, grep, init, is_top, kill, ln, ls, mkdir,
      pwd, rm, wc, zombie, call_opendfd of user/. UShmem: the shmem_ programs of
      user/, and processes that run them over the abstract pages of ShmemRefine.
    - Sh, ShSpec, ShText, ShRun: user/sh.c; the grammar of its commands, the parser
      on tokens and on text, and what a command means.
    - Mkfs, MkfsSpec, MkfsImage: mkfs/mkfs.c; the blocks of a file in the order of
      their allocation, and the image with its inodes.
    - FsRead, MkfsKernel: what fsinit(), bmap(), readi(), iget(), ilock() and
      dirlookup() of fs.c do on a disk with files, over the buffer cache; namei() and
      readi() on the image of mkfs.
    - Examples, ExamplesMem, ExamplesFs, ExamplesAsm: concrete layouts, states and
      devices, on which the theorems are applied.

    Parameters stand for what is not C code of the kernel: the addresses the
    linker fixes ([Layout], [TrapSyms], [BootSyms]), the registers of the disk
    ([VirtioRegs]) and the device behind its rings ([VirtioDevice], with the
    documented behaviour [VirtioDeviceOk]), the value a void system-call handler
    leaves in a0 ([Unspec]), the rest of the machine while a thread is switched out
    ([World]), kerneltrap() as seen from kernelvec, whether the kernel has
    memory for sbrk() ([UserHeap]), which files open and which programs run for the
    shell ([opens], [execs] in ShRun), the answers to the other user programs'
    system calls (the handler of [interp]), and the host's files that mkfs reads.

    ** What the theorems show

    - Shared memory: in every configuration reachable from boot the table of shared
      pages agrees with the process table (Kernel.reachable_shmem_inv); the seven
      operations implement the abstract page (ShmemRefine.shmem_refines); words
      written are read back, and the last user's release wipes the page
      (ShmemSpec). ShmemLimits proves three defects: the first mapping of a page
      halts the kernel, the index of a word is not confined to the page, and a
      process that called exec() leaves its page set when it exits. Under every
      interleaving shmem_test is safe and prints what its child stored if it ends,
      which it does not in one of them (UShmem.shmem_test_runs).
    - Locks and scheduling: mutual exclusion under all interleavings of the lock's
      single accesses, nesting of interrupt-off sections, the outcome of acquire()
      in every lock state; no lost wakeups, exact wakeups, kill, the scheduler.
    - Memory: the allocator's list, mappages() and uvmunmap() as updates of the
      address space, copyout()/copyin() round trip and totality.
    - File system: the disk driver and its interrupt handler form a disk; the
      buffer cache is coherent from boot on and is a store of blocks; a transaction
      is durable after end_op() and atomic across a crash after any disk write;
      on-disk inodes round trip; the free map; path parsing.
    - Traps: user registers survive a trap; swtch() suspends and resumes a thread;
      kernel interrupts are transparent; start-up arms the timer, and timervec
      keeps it running.
    - Strings, pipes and user space: memmove(), safestrcpy(), strncmp(), printint()
      with atoi(), the pipe's queue, grep's matcher and filter; malloc() and free()
      keep the blocks of a program apart and intact (UMalloc.malloc_safe); what cat,
      wc and pwd write.
    - The shell: its parser accepts exactly the grammar of commands and inverts the
      printer of commands (ShText); a line run by a child of the shell starts the
      processes it means, with the files its redirections and pipes say (ShRun).
    - mkfs: the image holds the host's files under their names, no block is shared,
      and the bitmap marks the blocks in use (MkfsImage). A kernel that boots from
      the image finds each file under its name and reads its bytes
      (MkfsKernel.boot_reads_file): mkfs and the kernel agree on the format.

    ** Bounds and fuel

    Loops bounded by the data carry their bound (table sizes, list lengths, the
    number of pages of a range), and a theorem says that it suffices. Loops that
    wait for other threads (sleeping in a loop, the scheduler, reading the console)
    use the class [Fuel]; theorems on them are invariants, which hold for every
    fuel, or concern code that does not wait. The witnesses use 100. readi() has a
    step per block and dirlookup() one per entry, which FsRead shows to suffice.
    The recursive descent of the shell's parser descends at most four functions per
    byte: the theorems have 4 * length + 5 steps, 404 for the 100 bytes of its
    buffer. The loops of user programs that read to the end of a file have fuel for
    more steps than there are pieces to read; the waiting loops of the shmem_
    programs have any fuel, and the theorem on shmem_test holds for all of it.
    Theorems on the file system are for code that runs without contention ([quiet])
    but for the waits for the disk, which are resolved.

    ** Not modelled

    Memory is sequentially consistent; between two switches kernel code runs without
    interleaving with other harts, except in Spinlock.Contention. Hence the races of
    code that omits a lock (such as fork()'s count of users) are not visible. In
    reachable configurations a process that calls exec() is assumed to hold no
    shared page: exec() changes its group but keeps its pages, which breaks the
    invariant. The TLB, instruction fetch and device timing are not modelled, nor
    are lock names beyond their text, whose storage the code takes from a stack
    frame. ramdisk.c is not compiled into the kernel, which does not
    define what it refers to (b->flags, B_VALID, B_DIRTY, RAMDISK). Of user space, the tests
    (usertests, grind, forktest, stressfs, prim_test) are programs that
    exercise the system and have no specification of their own; prim.c is a network of
    processes for the host's C library. The structures the shell takes from malloc()
    are values: that malloc() may return 0, which the shell does not check, is not
    modelled. A theorem on a user program is about one process and its calls, but in
    UShmem, where the processes of one group interleave call by call and do not call
    exec(); in ShRun
    the events of the processes of a command are listed child before parent, not
    interleaved. *)
From stdpp Require Export base tactics numbers list gmap strings.

#[export] Set Default Goal Selector "!".
Open Scope Z_scope.

(** ** Machine integers

    A C integer is a [Z] kept in the range of its type; the conversions below
    are what an assignment to a variable of that type does. *)

Definition u8 (z : Z) : Z := z `mod` 2 ^ 8.
Definition u16 (z : Z) : Z := z `mod` 2 ^ 16.
Definition u32 (z : Z) : Z := z `mod` 2 ^ 32.
Definition u64 (z : Z) : Z := z `mod` 2 ^ 64.
Definition s32 (z : Z) : Z := (z + 2 ^ 31) `mod` 2 ^ 32 - 2 ^ 31.
Definition s16 (z : Z) : Z := (z + 2 ^ 15) `mod` 2 ^ 16 - 2 ^ 15.
Definition s8 (z : Z) : Z := (z + 2 ^ 7) `mod` 2 ^ 8 - 2 ^ 7.

Lemma u64_range z : 0 <= u64 z < 2 ^ 64.
Proof. apply Z.mod_pos_bound. lia. Qed.

Lemma u32_range z : 0 <= u32 z < 2 ^ 32.
Proof. apply Z.mod_pos_bound. lia. Qed.

Lemma u8_range z : 0 <= u8 z < 2 ^ 8.
Proof. apply Z.mod_pos_bound. lia. Qed.

Lemma s32_range z : - 2 ^ 31 <= s32 z < 2 ^ 31.
Proof. unfold s32. pose proof (Z.mod_pos_bound (z + 2 ^ 31) (2 ^ 32)). lia. Qed.

Lemma u64_small z : 0 <= z < 2 ^ 64 -> u64 z = z.
Proof. apply Z.mod_small. Qed.

Lemma u32_small z : 0 <= z < 2 ^ 32 -> u32 z = z.
Proof. apply Z.mod_small. Qed.

Lemma s32_small z : - 2 ^ 31 <= z < 2 ^ 31 -> s32 z = z.
Proof. intros. unfold s32. rewrite Z.mod_small; lia. Qed.

Lemma s32_u32 z : s32 (u32 z) = s32 z.
Proof.
  unfold s32, u32. f_equal.
  rewrite Zplus_mod_idemp_l. done.
Qed.

Lemma s32_u64 z : s32 (u64 z) = s32 z.
Proof.
  unfold s32, u64. f_equal.
  rewrite (Z.div_mod z (2 ^ 64)) at 2 by lia.
  replace (2 ^ 64 * (z / 2 ^ 64) + z `mod` 2 ^ 64 + 2 ^ 31)
    with (z `mod` 2 ^ 64 + 2 ^ 31 + (2 ^ 32 * (z / 2 ^ 64)) * 2 ^ 32) by ring.
  by rewrite Z_mod_plus_full.
Qed.

(** ** Bits *)

Lemma land_ones_mod a n : 0 <= n -> Z.land a (Z.ones n) = a `mod` 2 ^ n.
Proof. intros. by apply Z.land_ones. Qed.

(** Clearing the low [n] bits, the [x & ~(2^n - 1)] idiom. *)
Lemma land_lnot_ones a n :
  0 <= n -> Z.land a (Z.lnot (Z.ones n)) = a / 2 ^ n * 2 ^ n.
Proof.
  intros. rewrite <- Z.ldiff_land, Z.ldiff_ones_r by done.
  by rewrite Z.shiftr_div_pow2, Z.shiftl_mul_pow2 by done.
Qed.

Lemma shift_down_up a n m :
  0 <= n -> 0 <= m -> Z.shiftl (Z.shiftr a n) m = a / 2 ^ n * 2 ^ m.
Proof. intros. by rewrite Z.shiftr_div_pow2, Z.shiftl_mul_pow2. Qed.

(** ** Physical memory

    Memory is a finite map from addresses to bytes; an address never written
    reads as zero. Words are little endian, as on RISC-V. *)

Abbreviation memory := (gmap Z Z).

Definition ld8 (m : memory) (a : Z) : Z := u8 (default 0 (m !! a)).

Definition st8 (m : memory) (a v : Z) : memory := <[a := u8 v]> m.

Fixpoint ld (n : nat) (m : memory) (a : Z) : Z :=
  match n with
  | O => 0
  | S n => ld8 m a + 2 ^ 8 * ld n m (a + 1)
  end.

Fixpoint st (n : nat) (m : memory) (a v : Z) : memory :=
  match n with
  | O => m
  | S n => st n (st8 m a v) (a + 1) (v / 2 ^ 8)
  end.

Abbreviation ld32 := (ld 4).
Abbreviation ld64 := (ld 8).
Abbreviation st32 := (st 4).
Abbreviation st64 := (st 8).

Lemma ld8_range m a : 0 <= ld8 m a < 2 ^ 8.
Proof. apply u8_range. Qed.

Lemma u8_idemp z : u8 (u8 z) = u8 z.
Proof. unfold u8. by rewrite Zmod_mod. Qed.

Lemma u8_ld8 m a : u8 (ld8 m a) = ld8 m a.
Proof. apply u8_idemp. Qed.

Lemma ld8_st8 m a v x : ld8 (st8 m a v) x = if decide (x = a) then u8 v else ld8 m x.
Proof.
  unfold ld8, st8. case_decide; subst.
  - rewrite lookup_insert_eq. cbn. apply u8_idemp.
  - by rewrite lookup_insert_ne by done.
Qed.

Lemma pow8_S n : 2 ^ (8 * Z.of_nat (S n)) = 2 ^ 8 * 2 ^ (8 * Z.of_nat n).
Proof. rewrite <- Z.pow_add_r by lia. f_equal. lia. Qed.

Lemma ld_range n m a : 0 <= ld n m a < 2 ^ (8 * Z.of_nat n).
Proof.
  revert a. induction n as [|n IH]; intros a; [done|].
  rewrite pow8_S. pose proof (ld8_range m a). specialize (IH (a + 1)).
  cbn [ld]. nia.
Qed.

Lemma ld_ext n m1 m2 a :
  (forall x, a <= x < a + Z.of_nat n -> ld8 m1 x = ld8 m2 x) -> ld n m1 a = ld n m2 a.
Proof.
  revert a. induction n as [|n IH]; intros a H; [done|].
  cbn. rewrite (H a), (IH (a + 1)); [done | | lia].
  intros. apply H. lia.
Qed.

Lemma ld8_st_out n m a v x :
  ~ (a <= x < a + Z.of_nat n) -> ld8 (st n m a v) x = ld8 m x.
Proof.
  revert m a v. induction n as [|n IH]; intros m a v H; [done|].
  cbn [st]. rewrite IH, ld8_st8 by lia. rewrite decide_False; [done|]. lia.
Qed.

Lemma ld_st_same n m a v : ld n (st n m a v) a = v `mod` 2 ^ (8 * Z.of_nat n).
Proof.
  revert m a v. induction n as [|n IH]; intros m a v.
  { cbn. by rewrite Z.mod_1_r. }
  cbn [ld st]. rewrite IH, ld8_st_out, ld8_st8 by lia.
  rewrite decide_True, pow8_S by done. unfold u8.
  rewrite Z.rem_mul_r by lia. lia.
Qed.

Lemma ld_st_disj n k m a b v :
  a + Z.of_nat n <= b \/ b + Z.of_nat k <= a -> ld n (st k m b v) a = ld n m a.
Proof. intros H. apply ld_ext. intros x Hx. apply ld8_st_out. lia. Qed.

Lemma ld64_st64_same m a v : 0 <= v < 2 ^ 64 -> ld64 (st64 m a v) a = v.
Proof. intros. rewrite ld_st_same. by apply Z.mod_small. Qed.

Lemma ld_0 m a : ld 0 m a = 0.
Proof. done. Qed.

Lemma ld_S n m a : ld (S n) m a = ld8 m a + 2 ^ 8 * ld n m (a + 1).
Proof. done. Qed.

Arguments ld : simpl never.
Arguments st : simpl never.
#[global] Opaque ld st.

(** The [n] bytes of a little-endian word. *)
Fixpoint le_bytes (n : nat) (v : Z) : list Z :=
  match n with
  | O => []
  | S n => u8 v :: le_bytes n (v / 2 ^ 8)
  end.

Lemma length_le_bytes n v : length (le_bytes n v) = n.
Proof. revert v. induction n as [|n IH]; intros v; cbn; [done|]. by rewrite IH. Qed.

(** ** Outcomes of kernel code

    A kernel function is a state transformer. Besides returning, it can
    - [Panic]: call [panic()], which prints a message and halts the machine;
    - [Spin]: spin for ever on a spinlock another CPU holds;
    - [Swtch]: reach [swtch()], where this thread of control stops and other
      threads run; it resumes in whatever state they leave, so the rest of the
      function is a continuation of that state;
    - [OutOfFuel]: exhaust the bound of a loop the model runs with fuel. *)

Inductive outcome (St A : Type) : Type :=
| Ret (a : A) (s : St)
| Panic (msg : string) (s : St)
| Spin (s : St)
| Swtch (s : St) (k : St -> outcome St A)
| OutOfFuel (s : St).
Arguments Ret {St A} a s.
Arguments Panic {St A} msg s.
Arguments Spin {St A} s.
Arguments Swtch {St A} s k.
Arguments OutOfFuel {St A} s.

Definition K (St A : Type) : Type := St -> outcome St A.

Definition ret {St A} (a : A) : K St A := fun s => Ret a s.

Fixpoint obind {St A B} (o : outcome St A) (f : A -> K St B) : outcome St B :=
  match o with
  | Ret a s => f a s
  | Panic msg s => Panic msg s
  | Spin s => Spin s
  | Swtch s k => Swtch s (fun s' => obind (k s') f)
  | OutOfFuel s => OutOfFuel s
  end.

Definition kbind {St A B} (c : K St A) (f : A -> K St B) : K St B :=
  fun s => obind (c s) f.

Definition panic {St A} (msg : string) : K St A := fun s => Panic msg s.
Definition gets {St A} (f : St -> A) : K St A := fun s => Ret (f s) s.
Definition modify {St} (f : St -> St) : K St unit := fun s => Ret tt (f s).
Definition out_of_fuel {St A} : K St A := fun s => OutOfFuel s.

Declare Scope kernel_scope.
Delimit Scope kernel_scope with kern.
Notation "x <- c ;; k" := (kbind c (fun x => k))
  (at level 100, c at next level, k at level 200, right associativity) : kernel_scope.
Notation "c ;; k" := (kbind c (fun _ => k))
  (at level 100, k at level 200, right associativity) : kernel_scope.
Notation "'when' b 'do' c" := (if b then c else ret tt)
  (at level 90, b at level 99, c at level 99) : kernel_scope.
Open Scope kernel_scope.

(** [for_ i n body] runs [body i], ..., [body (i + n - 1)]. *)
Fixpoint for_ {St} (i n : nat) (body : nat -> K St unit) : K St unit :=
  match n with
  | O => ret tt
  | S n => body i ;; for_ (S i) n body
  end.

(** [for_find i n body] stops at the first index whose body answers. *)
Fixpoint for_find {St A} (i n : nat) (body : nat -> K St (option A)) : K St (option A) :=
  match n with
  | O => ret None
  | S n => r <- body i ;;
           match r with
           | Some a => ret (Some a)
           | None => for_find (S i) n body
           end
  end.

(** ** Invariants across switches

    [post I R Q o]: if [o] returns, the result satisfies [Q]; at every switch
    the state satisfies [I], and whatever state [s'] the other threads leave,
    as long as they keep [I] and respect [R], the rest still satisfies [post].
    A halted or spinning machine satisfies any [post]; results that must be
    reached are stated as equations with [Ret]. *)
Fixpoint post {St A} (I : St -> Prop) (R : St -> St -> Prop) (Q : A -> St -> Prop)
    (o : outcome St A) : Prop :=
  match o with
  | Ret a s => Q a s
  | Swtch s k => I s /\ forall s', R s s' -> I s' -> post I R Q (k s')
  | _ => True
  end.

Lemma post_bind {St A B} I R (P : A -> St -> Prop) (Q : B -> St -> Prop) (c : K St A) f s :
  post I R P (c s) ->
  (forall a s', P a s' -> post I R Q (f a s')) ->
  post I R Q (kbind c f s).
Proof.
  intros Hc Hf. unfold kbind.
  induction (c s) as [| | |s0 k IH|]; cbn in *; eauto.
  destruct Hc as [HI Hk]. split; [done|]. eauto.
Qed.

Lemma post_mono {St A} I R (P Q : A -> St -> Prop) (o : outcome St A) :
  post I R P o -> (forall a s, P a s -> Q a s) -> post I R Q o.
Proof.
  intros Ho HPQ. induction o as [| | |s0 k IH|]; cbn in *; eauto.
  destruct Ho as [HI Hk]. split; [done|]. eauto.
Qed.

Lemma post_for {St} I R (P : St -> Prop) i n (body : nat -> K St unit) s :
  P s ->
  (forall j s', (i <= j < i + n)%nat -> P s' -> post I R (fun _ => P) (body j s')) ->
  post I R (fun _ => P) (for_ i n body s).
Proof.
  revert i s. induction n as [|n IH]; intros i s HP Hb; [done|].
  cbn [for_]. eapply post_bind; [apply Hb; [lia|done]|].
  cbn. intros _ s' HP'. apply IH; [done|]. intros. apply Hb; [lia|done].
Qed.

Lemma post_for_find {St A} I R (P : St -> Prop) (Q : A -> St -> Prop) i n
    (body : nat -> K St (option A)) s :
  P s ->
  (forall j s', (i <= j < i + n)%nat -> P s' ->
     post I R (fun r s'' => match r with Some a => Q a s'' | None => P s'' end) (body j s')) ->
  post I R (fun r s'' => match r with Some a => Q a s'' | None => P s'' end)
    (for_find i n body s).
Proof.
  revert i s. induction n as [|n IH]; intros i s HP Hb; [done|].
  cbn [for_find]. eapply post_bind; [apply Hb; [lia|done]|].
  intros [a|] s' H; [done|]. apply IH; [done|]. intros. apply Hb; [lia|done].
Qed.

Lemma kbind_Ret {St A B} (c : K St A) (f : A -> K St B) s a s' :
  c s = Ret a s' -> kbind c f s = f a s'.
Proof. unfold kbind. by intros ->. Qed.

Lemma kbind_gets {St A B} (g : St -> A) (f : A -> K St B) s : kbind (gets g) f s = f (g s) s.
Proof. done. Qed.

Lemma kbind_modify {St B} (g : St -> St) (f : unit -> K St B) s : kbind (modify g) f s = f tt (g s).
Proof. done. Qed.

Lemma kbind_modify3 {St B} (f g h : St -> St) (k : unit -> K St B) s :
  kbind (modify f ;; modify g ;; modify h) k s = k tt (h (g (f s))).
Proof. done. Qed.

Lemma kbind_ret {St A B} (a : A) (f : A -> K St B) s : kbind (ret a) f s = f a s.
Proof. done. Qed.

Lemma kbind_Panic {St A B} (c : K St A) (f : A -> K St B) s msg s' :
  c s = Panic msg s' -> kbind c f s = Panic msg s'.
Proof. unfold kbind. by intros ->. Qed.

Lemma kbind_Swtch {St A B} (c : K St A) (f : A -> K St B) s s' k :
  c s = Swtch s' k -> kbind c f s = Swtch s' (fun s'' => obind (k s'') f).
Proof. unfold kbind. by intros ->. Qed.

(** [kstep H] runs the first command of a sequence with the equation [H]. *)
Ltac kstep H :=
  first [ erewrite kbind_Ret; [|solve [eapply H; eauto] ]
        | erewrite kbind_Panic; [|solve [eapply H; eauto] ] ].

(** ** Lists *)

Lemma list_alter_alter {A} (f g : A -> A) (l : list A) i :
  alter f i (alter g i l) = alter (f ∘ g) i l.
Proof. revert i. induction l as [|x l IH]; intros [|i]; cbn; [done..|]. by f_equal. Qed.

Lemma list_alter_id' {A} (f : A -> A) (l : list A) i :
  (forall x, l !! i = Some x -> f x = x) -> alter f i l = l.
Proof.
  revert i. induction l as [|x l IH]; intros [|i] H; cbn; [done..| |].
  - by rewrite H.
  - f_equal. by apply IH.
Qed.

Lemma list_alter_ext' {A} (f g : A -> A) (l : list A) i :
  (forall x, l !! i = Some x -> f x = g x) -> alter f i l = alter g i l.
Proof.
  revert i. induction l as [|x l IH]; intros [|i] H; cbn; [done..| |].
  - by rewrite H.
  - f_equal. by apply IH.
Qed.

(** The number of elements of a list that satisfy a boolean test. *)
Definition count {A} (f : A -> bool) (l : list A) : Z :=
  Z.of_nat (length (List.filter f l)).

Lemma count_nil {A} (f : A -> bool) : count f [] = 0.
Proof. done. Qed.

Lemma count_cons {A} (f : A -> bool) x l :
  count f (x :: l) = Z.b2z (f x) + count f l.
Proof. unfold count. cbn. destruct (f x); cbn; lia. Qed.

Lemma count_nonneg {A} (f : A -> bool) l : 0 <= count f l.
Proof. unfold count. lia. Qed.

Lemma count_insert {A} (f : A -> bool) (l : list A) i x y :
  l !! i = Some x -> count f (<[i := y]> l) = count f l - Z.b2z (f x) + Z.b2z (f y).
Proof.
  revert i. induction l as [|z l IH]; intros [|i] H; [done|done| |].
  - injection H as ->. cbn. rewrite !count_cons. lia.
  - change (<[S i := y]> (z :: l)) with (z :: <[i := y]> l).
    rewrite !count_cons, (IH i); [lia|done].
Qed.

Lemma count_pos {A} (f : A -> bool) (l : list A) i x :
  l !! i = Some x -> f x = true -> 0 < count f l.
Proof.
  intros Hi Hf. pose proof (count_insert f l i x x Hi).
  revert i Hi H. induction l as [|z l IH]; intros [|i] Hi _; [done|done| |].
  - injection Hi as ->. rewrite count_cons, Hf. pose proof (count_nonneg f l). cbn. lia.
  - rewrite count_cons. pose proof (IH i Hi).
    destruct (f z); cbn; pose proof (count_insert f l i x x Hi); lia.
Qed.

Lemma count_none {A} (f : A -> bool) l :
  (forall i x, l !! i = Some x -> f x = false) -> count f l = 0.
Proof.
  induction l as [|x l IH]; intros H; [done|].
  rewrite count_cons, (H 0%nat x), IH; [done| |done]. intros i. apply (H (S i)).
Qed.

Lemma count_ext {A} (f g : A -> bool) l :
  (forall x, x ∈ l -> f x = g x) -> count f l = count g l.
Proof.
  induction l as [|x l IH]; intros H; [done|].
  rewrite !count_cons, (H x), IH; [done| |].
  - intros. apply H. by right.
  - by left.
Qed.

Lemma elem_of_rev {A} (x : A) l : x ∈ rev l <-> x ∈ l.
Proof. rewrite !list_elem_of_In. symmetry. apply in_rev. Qed.
