(* ===== verification/Riscv.v ===== *)
(** Constants and address arithmetic: kernel/riscv.h (page and PTE macros),
    kernel/memlayout.h, kernel/param.h, kernel/fs.h and kernel/shmem.h, with
    the lemmas on page rounding, PTE packing and page-table indices that the
    memory components share. *)
From S2P Require Import Prelude.

(** ** kernel/param.h, kernel/shmem.h *)

Definition NPROC : nat := 64.
Definition NCPU : nat := 8.
Definition NOFILE : nat := 16.
Definition NFILE : nat := 100.
Definition NINODE : nat := 50.
Abbreviation NDEV := (10) (only parsing).
Abbreviation ROOTDEV := (1) (only parsing).
Abbreviation MAXARG := (32) (only parsing).
Abbreviation MAXOPBLOCKS := (10) (only parsing).
Definition LOGSIZE : Z := MAXOPBLOCKS * 3.
Definition NBUF : nat := Z.to_nat (MAXOPBLOCKS * 3).
Definition FSSIZE : Z := 2000.
Abbreviation MAXPATH := (128) (only parsing).
Definition SHMEM : nat := 4.

Abbreviation NOT_SET := (-1) (only parsing).
Abbreviation UNWRITABLE := (0) (only parsing).
Abbreviation WRITABLE := (1) (only parsing).

(** ** kernel/riscv.h *)

Definition PGSIZE : Z := 4096.
Abbreviation PGSHIFT := (12) (only parsing).

Definition PGROUNDUP (sz : Z) : Z := Z.land (u64 (sz + PGSIZE - 1)) (Z.lnot (PGSIZE - 1)).
Definition PGROUNDDOWN (a : Z) : Z := Z.land a (Z.lnot (PGSIZE - 1)).

Definition PTE_V : Z := 1.
Abbreviation PTE_R := (2) (only parsing).
Abbreviation PTE_W := (4) (only parsing).
Abbreviation PTE_X := (8) (only parsing).
Abbreviation PTE_U := (16) (only parsing).

Definition PA2PTE (pa : Z) : Z := u64 (Z.shiftl (Z.shiftr pa 12) 10).
Definition PTE2PA (pte : Z) : Z := u64 (Z.shiftl (Z.shiftr pte 10) 12).
Definition PTE_FLAGS (pte : Z) : Z := Z.land pte 0x3FF.

(** [pte & flag], as a C condition. *)
Definition has_flag (pte flag : Z) : bool := negb (Z.land pte flag =? 0).

Abbreviation PXMASK := (0x1FF) (only parsing).
Definition PXSHIFT (level : nat) : Z := PGSHIFT + 9 * Z.of_nat level.
Definition PX (level : nat) (va : Z) : Z := Z.land (Z.shiftr va (PXSHIFT level)) PXMASK.

Definition MAXVA : Z := Z.shiftl 1 (9 + 9 + 9 + 12 - 1).

(** ** kernel/memlayout.h *)

Abbreviation UART0 := (0x10000000) (only parsing).
Abbreviation VIRTIO0 := (0x10001000) (only parsing).
Abbreviation PLIC := (0x0c000000) (only parsing).
Definition KERNBASE : Z := 0x80000000.
Definition PHYSTOP : Z := KERNBASE + 128 * 1024 * 1024.
Definition TRAMPOLINE : Z := MAXVA - PGSIZE.
Definition KSTACK (p : Z) : Z := TRAMPOLINE - (p + 1) * 2 * PGSIZE.
Definition TRAPFRAME : Z := TRAMPOLINE - PGSIZE.
Definition VASHMEM (n : Z) : Z := TRAPFRAME - PGSIZE * (n + 1).

(** ** kernel/fs.h, kernel/stat.h, kernel/fcntl.h *)

Abbreviation ROOTINO := (1) (only parsing).
Definition BSIZE : Z := 1024.
Abbreviation FSMAGIC := (0x10203040) (only parsing).
Abbreviation NDIRECT := (12) (only parsing).
Abbreviation NINDIRECT := (BSIZE / 4) (only parsing).
Abbreviation MAXFILE := (NDIRECT + NINDIRECT) (only parsing).
Abbreviation IPB := (BSIZE / 64) (only parsing).
Abbreviation BPB := (BSIZE * 8) (only parsing).
Definition DIRSIZ : nat := 14.

Abbreviation T_DIR := (1) (only parsing).
Abbreviation T_FILE := (2) (only parsing).
Abbreviation T_DEVICE := (3) (only parsing).

Abbreviation O_RDONLY := (0x000) (only parsing).
Abbreviation O_WRONLY := (0x001) (only parsing).
Abbreviation O_RDWR := (0x002) (only parsing).
Abbreviation O_CREATE := (0x200) (only parsing).
Abbreviation O_TRUNC := (0x400) (only parsing).

(** Addresses the linker script and the assembly files fix: the end of the
    kernel image, the trampoline page, and the entry points whose addresses
    the kernel stores. *)
Class Layout := {
  kend : Z;            (* end[], kernel.ld *)
  etext : Z;           (* etext[], kernel.ld *)
  trampoline : Z;      (* trampoline[], trampoline.S *)
  forkret_addr : Z     (* &forkret *)
}.

(** What kernel.ld guarantees of them: the image lies in RAM below [end], and
    the trampoline is a page of kernel text. *)
Class LayoutOk (L : Layout) := {
  kend_ram : KERNBASE < kend <= PHYSTOP;
  etext_ram : KERNBASE < etext <= kend;
  trampoline_text : KERNBASE <= trampoline /\ trampoline + PGSIZE <= kend;
  trampoline_aligned : trampoline `mod` PGSIZE = 0;
  etext_aligned : etext `mod` PGSIZE = 0
}.

(** ** Page rounding *)

Lemma PGROUNDDOWN_eq a : PGROUNDDOWN a = a / PGSIZE * PGSIZE.
Proof. apply (land_lnot_ones a 12). lia. Qed.

Lemma PGROUNDUP_eq sz :
  0 <= sz <= 2 ^ 64 - PGSIZE -> PGROUNDUP sz = (sz + 4095) / PGSIZE * PGSIZE.
Proof.
  intros H. unfold PGROUNDUP.
  change (Z.lnot (PGSIZE - 1)) with (Z.lnot (Z.ones 12)).
  rewrite land_lnot_ones by lia.
  rewrite u64_small; [|unfold PGSIZE in *; lia].
  by replace (sz + PGSIZE - 1) with (sz + 4095) by (unfold PGSIZE; lia).
Qed.

Lemma PGROUNDDOWN_aligned a : PGROUNDDOWN a `mod` PGSIZE = 0.
Proof. rewrite PGROUNDDOWN_eq. by rewrite Z_mod_mult. Qed.

Lemma PGROUNDDOWN_bounds a : PGROUNDDOWN a <= a < PGROUNDDOWN a + PGSIZE.
Proof.
  rewrite PGROUNDDOWN_eq. unfold PGSIZE.
  pose proof (Z.div_mod a 4096). pose proof (Z.mod_pos_bound a 4096). lia.
Qed.

Lemma PGROUNDDOWN_id a : a `mod` PGSIZE = 0 -> PGROUNDDOWN a = a.
Proof.
  intros H. rewrite PGROUNDDOWN_eq. unfold PGSIZE in *.
  pose proof (Z.div_mod a 4096). lia.
Qed.

Lemma PGROUNDUP_bounds sz :
  0 <= sz <= 2 ^ 64 - PGSIZE ->
  PGROUNDUP sz `mod` PGSIZE = 0 /\ sz <= PGROUNDUP sz < sz + PGSIZE.
Proof.
  intros H. rewrite PGROUNDUP_eq by done. split; [by rewrite Z_mod_mult|].
  unfold PGSIZE in *. pose proof (Z.div_mod (sz + 4095) 4096).
  pose proof (Z.mod_pos_bound (sz + 4095) 4096). lia.
Qed.

Lemma PGROUNDUP_id sz :
  0 <= sz <= 2 ^ 64 - PGSIZE -> sz `mod` PGSIZE = 0 -> PGROUNDUP sz = sz.
Proof.
  intros Hr H. destruct (PGROUNDUP_bounds sz Hr) as [Ha Hb]. revert Ha Hb.
  generalize (PGROUNDUP sz). unfold PGSIZE in *. intros z Ha Hb.
  pose proof (Z.div_mod sz 4096). pose proof (Z.div_mod z 4096). lia.
Qed.

Lemma aligned_add_mul p k : p `mod` PGSIZE = 0 -> (p + k * PGSIZE) `mod` PGSIZE = 0.
Proof. intros H. by rewrite Z_mod_plus_full. Qed.

Lemma aligned_next p : p `mod` PGSIZE = 0 -> (p + PGSIZE) `mod` PGSIZE = 0.
Proof. intros H. rewrite <- (Z.mul_1_l PGSIZE) at 1. by apply aligned_add_mul. Qed.

(** ** PTE packing *)

Lemma PTE2PA_range pte : 0 <= PTE2PA pte < 2 ^ 64.
Proof. apply u64_range. Qed.

(** A PTE built from a page-aligned address and flags below bit 10 unpacks to
    that address and those flags. *)
Lemma PA2PTE_flags pa flags :
  0 <= pa < 2 ^ 56 -> pa `mod` PGSIZE = 0 -> 0 <= flags < 2 ^ 10 ->
  Z.lor (PA2PTE pa) flags = pa / PGSIZE * 2 ^ 10 + flags /\
  0 <= Z.lor (PA2PTE pa) flags < 2 ^ 64.
Proof.
  intros Hpa Hal Hf. unfold PA2PTE. rewrite shift_down_up by lia.
  change (2 ^ 12) with PGSIZE.
  assert (0 <= pa / PGSIZE < 2 ^ 44) as Hq.
  { unfold PGSIZE. split; [apply Z.div_pos; lia|]. apply Z.div_lt_upper_bound; lia. }
  rewrite u64_small by lia.
  rewrite <- (Z.shiftl_mul_pow2 (pa / PGSIZE) 10) by lia.
  assert (Z.land (Z.shiftl (pa / PGSIZE) 10) flags = 0) as Hd.
  { apply Z.bits_inj'. intros n Hn. rewrite Z.land_spec, Z.bits_0.
    destruct (decide (n < 10)).
    - by rewrite Z.shiftl_spec_low by lia.
    - rewrite <- (Z.mod_small flags (2 ^ 10)) by lia.
      rewrite Z.mod_pow2_bits_high by lia. apply andb_false_r. }
  rewrite <- Z.lxor_lor, <- Z.add_nocarry_lxor by done.
  rewrite Z.shiftl_mul_pow2 by lia. split; [done|]. lia.
Qed.

Lemma PTE2PA_PA2PTE pa flags :
  0 <= pa < 2 ^ 56 -> pa `mod` PGSIZE = 0 -> 0 <= flags < 2 ^ 10 ->
  PTE2PA (Z.lor (PA2PTE pa) flags) = pa.
Proof.
  intros Hpa Hal Hf. destruct (PA2PTE_flags pa flags Hpa Hal Hf) as [-> _].
  unfold PTE2PA. rewrite shift_down_up by lia.
  rewrite Z.div_add_l, (Z.div_small flags), Z.add_0_r by lia.
  change (2 ^ 12) with PGSIZE.
  replace (pa / PGSIZE * PGSIZE) with pa.
  - apply u64_small. lia.
  - unfold PGSIZE in *. pose proof (Z.div_mod pa 4096). lia.
Qed.

Lemma PTE_FLAGS_PA2PTE pa flags :
  0 <= pa < 2 ^ 56 -> pa `mod` PGSIZE = 0 -> 0 <= flags < 2 ^ 10 ->
  PTE_FLAGS (Z.lor (PA2PTE pa) flags) = flags.
Proof.
  intros Hpa Hal Hf. destruct (PA2PTE_flags pa flags Hpa Hal Hf) as [-> _].
  unfold PTE_FLAGS. change 0x3FF with (Z.ones 10). rewrite Z.land_ones by lia.
  rewrite Z.add_comm, Z_mod_plus_full. apply Z.mod_small. lia.
Qed.

(** A flag test below bit 10 sees only the flags. *)
Lemma has_flag_PA2PTE pa flags f :
  0 <= pa < 2 ^ 56 -> pa `mod` PGSIZE = 0 -> 0 <= flags < 2 ^ 10 -> 0 <= f < 2 ^ 10 ->
  has_flag (Z.lor (PA2PTE pa) flags) f = has_flag flags f.
Proof.
  intros Hpa Hal Hf Hf'. unfold has_flag. do 2 f_equal.
  replace f with (Z.land 0x3FF f) at 1.
  - rewrite Z.land_assoc. f_equal. by apply PTE_FLAGS_PA2PTE.
  - rewrite Z.land_comm. change 0x3FF with (Z.ones 10).
    rewrite Z.land_ones by lia. by apply Z.mod_small.
Qed.

(** ** Page-table indices *)

Lemma PX_eq level va : PX level va = (va / 2 ^ PXSHIFT level) `mod` 512.
Proof.
  unfold PX, PXSHIFT. change PXMASK with (Z.ones 9).
  rewrite Z.land_ones, Z.shiftr_div_pow2 by lia. done.
Qed.

Lemma PX_range level va : 0 <= PX level va < 512.
Proof. rewrite PX_eq. apply Z.mod_pos_bound. lia. Qed.

(** Below [MAXVA] the three indices and the offset determine an address. *)
Lemma PX_recompose va :
  0 <= va < MAXVA ->
  va = PX 2 va * 2 ^ 30 + PX 1 va * 2 ^ 21 + PX 0 va * 2 ^ 12 + va `mod` PGSIZE.
Proof.
  intros H. rewrite !PX_eq. unfold PXSHIFT, PGSIZE in *.
  change (12 + 9 * Z.of_nat 2) with 30. change (12 + 9 * Z.of_nat 1) with 21.
  change (12 + 9 * Z.of_nat 0) with 12. change MAXVA with (2 ^ 38) in H.
  Z.div_mod_to_equations. lia.
Qed.

Lemma PX_inj va va' :
  0 <= va < MAXVA -> 0 <= va' < MAXVA ->
  PX 2 va = PX 2 va' -> PX 1 va = PX 1 va' -> PX 0 va = PX 0 va' ->
  va / PGSIZE = va' / PGSIZE.
Proof.
  intros H H' E2 E1 E0.
  pose proof (PX_recompose va H) as R. pose proof (PX_recompose va' H') as R'.
  rewrite E2, E1, E0 in R. revert R R'. generalize (PX 2 va') (PX 1 va') (PX 0 va').
  unfold PGSIZE. intros a b c R R'.
  pose proof (Z.div_mod va 4096). pose proof (Z.div_mod va' 4096). lia.
Qed.

Lemma PX_page va : PX 2 (PGROUNDDOWN va) = PX 2 va /\
  PX 1 (PGROUNDDOWN va) = PX 1 va /\ PX 0 (PGROUNDDOWN va) = PX 0 va.
Proof.
  rewrite !PX_eq, PGROUNDDOWN_eq. unfold PXSHIFT, PGSIZE.
  change (12 + 9 * Z.of_nat 2) with 30. change (12 + 9 * Z.of_nat 1) with 21.
  change (12 + 9 * Z.of_nat 0) with 12.
  change 4096 with (2 ^ 12).
  repeat split; f_equal; Z.div_mod_to_equations; lia.
Qed.
