(* ===== verification/Machine.v ===== *)
(** The kernel's global state, as C structs and arrays: CPUs and spinlocks
    (kernel/spinlock.h, kernel/proc.h), the process table, the shared-memory
    table, the file table and the pipes (kernel/proc.h, kernel/file.h,
    kernel/pipe.c), physical memory and the page allocator's list head.
    Pointers into the static tables are indices; pointers to pages are
    physical addresses, with 0 for NULL. *)
From S2P Require Import Prelude Riscv.

(** ** Locks and CPUs *)

(** The address of each [struct spinlock] the kernel declares. *)
Inductive lockid : Type :=
| L_kmem            (* kmem.lock *)
| L_pid             (* pid_lock *)
| L_wait            (* wait_lock *)
| L_ticks           (* tickslock *)
| L_ftable          (* ftable.lock *)
| L_bcache          (* bcache.lock *)
| L_log             (* log.lock *)
| L_itable          (* itable.lock *)
| L_cons            (* cons.lock *)
| L_uart            (* uart_tx_lock *)
| L_pr              (* pr.lock *)
| L_vdisk           (* disk.vdisk_lock *)
| L_proc (i : nat)  (* proc[i].lock *)
| L_shstate (i : nat)   (* shmem[i].state_lock *)
| L_shmem (i : nat)     (* shmem[i].lock *)
| L_buf (i : nat)       (* bcache.buf[i].lock.lk *)
| L_inode (i : nat)     (* itable.inode[i].lock.lk *)
| L_pipe (pa : Z).      (* the pipe's lock, by page *)

#[export] Instance lockid_eq_dec : EqDecision lockid.
Proof. solve_decision. Defined.

#[export] Instance lockid_countable : Countable lockid.
Proof.
  refine (inj_countable'
    (fun l => match l with
              | L_kmem => (0%nat, 0) | L_pid => (1%nat, 0) | L_wait => (2%nat, 0)
              | L_ticks => (3%nat, 0) | L_ftable => (4%nat, 0) | L_bcache => (5%nat, 0)
              | L_log => (6%nat, 0) | L_itable => (7%nat, 0) | L_cons => (8%nat, 0)
              | L_uart => (9%nat, 0) | L_pr => (10%nat, 0) | L_vdisk => (11%nat, 0)
              | L_proc i => (12%nat, Z.of_nat i) | L_shstate i => (13%nat, Z.of_nat i)
              | L_shmem i => (14%nat, Z.of_nat i) | L_buf i => (15%nat, Z.of_nat i)
              | L_inode i => (16%nat, Z.of_nat i) | L_pipe pa => (17%nat, pa)
              end)
    (fun x => match x with
              | (0%nat, _) => L_kmem | (1%nat, _) => L_pid | (2%nat, _) => L_wait
              | (3%nat, _) => L_ticks | (4%nat, _) => L_ftable | (5%nat, _) => L_bcache
              | (6%nat, _) => L_log | (7%nat, _) => L_itable | (8%nat, _) => L_cons
              | (9%nat, _) => L_uart | (10%nat, _) => L_pr | (11%nat, _) => L_vdisk
              | (12%nat, z) => L_proc (Z.to_nat z) | (13%nat, z) => L_shstate (Z.to_nat z)
              | (14%nat, z) => L_shmem (Z.to_nat z) | (15%nat, z) => L_buf (Z.to_nat z)
              | (16%nat, z) => L_inode (Z.to_nat z) | (_, z) => L_pipe z
              end) _).
  intros []; cbn; by rewrite ?Nat2Z.id.
Defined.

(** struct spinlock (kernel/spinlock.h); the CPU is its index, [None] for 0. *)
Record spinlock := mkspinlock {
  lk_locked : bool;
  lk_name : option string;
  lk_cpu : option nat
}.

(** Statically allocated locks start zeroed. *)
Definition zero_lock : spinlock := mkspinlock false None None.

(** struct cpu (kernel/proc.h); its context belongs to swtch.S. *)
Record cpu := mkcpu {
  c_proc : option nat;    (* index in proc[] of the running process *)
  c_noff : Z;             (* depth of push_off nesting *)
  c_intena : bool         (* interrupts enabled before push_off *)
}.

Definition zero_cpu : cpu := mkcpu None 0 false.

(** ** Processes *)

Inductive procstate := UNUSED | USED | SLEEPING | RUNNABLE | RUNNING | ZOMBIE.

#[export] Instance procstate_eq_dec : EqDecision procstate.
Proof. solve_decision. Defined.

(** The addresses the kernel sleeps on. *)
Inductive chan : Type :=
| Ch_ticks             (* &ticks *)
| Ch_proc (i : nat)    (* a struct proc *)
| Ch_buf (i : nat)     (* a struct buf *)
| Ch_buf_lock (i : nat)    (* the sleeplock of a buffer *)
| Ch_inode_lock (i : nat)  (* the sleeplock of an inode *)
| Ch_log               (* &log *)
| Ch_cons              (* &cons.r *)
| Ch_uart              (* &uart_tx_r *)
| Ch_disk              (* &disk.free[0] *)
| Ch_nread (pa : Z)    (* &pi->nread *)
| Ch_nwrite (pa : Z).  (* &pi->nwrite *)

#[export] Instance chan_eq_dec : EqDecision chan.
Proof. solve_decision. Defined.

(** struct context: ra, sp, and the callee-saved registers s0..s11. *)
Record context := mkcontext { ctx_ra : Z; ctx_sp : Z; ctx_s : list Z }.

(** struct proc (kernel/proc.h); its lock is [L_proc] of its index. *)
Record proc := mkproc {
  p_state : procstate;
  p_chan : option chan;   (* channel slept on *)
  p_killed : Z;
  p_xstate : Z;
  p_pid : Z;
  p_shmem_access_count : Z;
  p_shmem_access : list bool;
  p_parent : option nat;
  p_top_pid : Z;
  p_kstack : Z;
  p_sz : Z;
  p_pagetable : Z;   (* physical address, 0 if none *)
  p_trapframe : Z;   (* physical address, 0 if none *)
  p_context : context;
  p_ofile : list (option nat);   (* indices in ftable *)
  p_cwd : option nat;   (* index in itable *)
  p_name : list Z;
}.

Definition set_p_state (v : procstate) (p : proc) : proc :=
 mkproc v (p_chan p) (p_killed p) (p_xstate p) (p_pid p) (p_shmem_access_count p)
    (p_shmem_access p) (p_parent p) (p_top_pid p) (p_kstack p) (p_sz p) (p_pagetable p)
    (p_trapframe p) (p_context p) (p_ofile p) (p_cwd p) (p_name p).
Definition set_p_chan (v : option chan) (p : proc) : proc :=
 mkproc (p_state p) v (p_killed p) (p_xstate p) (p_pid p) (p_shmem_access_count p)
    (p_shmem_access p) (p_parent p) (p_top_pid p) (p_kstack p) (p_sz p) (p_pagetable p)
    (p_trapframe p) (p_context p) (p_ofile p) (p_cwd p) (p_name p).
Definition set_p_killed (v : Z) (p : proc) : proc :=
 mkproc (p_state p) (p_chan p) v (p_xstate p) (p_pid p) (p_shmem_access_count p)
    (p_shmem_access p) (p_parent p) (p_top_pid p) (p_kstack p) (p_sz p) (p_pagetable p)
    (p_trapframe p) (p_context p) (p_ofile p) (p_cwd p) (p_name p).
Definition set_p_xstate (v : Z) (p : proc) : proc :=
 mkproc (p_state p) (p_chan p) (p_killed p) v (p_pid p) (p_shmem_access_count p)
    (p_shmem_access p) (p_parent p) (p_top_pid p) (p_kstack p) (p_sz p) (p_pagetable p)
    (p_trapframe p) (p_context p) (p_ofile p) (p_cwd p) (p_name p).
Definition set_p_pid (v : Z) (p : proc) : proc :=
 mkproc (p_state p) (p_chan p) (p_killed p) (p_xstate p) v (p_shmem_access_count p)
    (p_shmem_access p) (p_parent p) (p_top_pid p) (p_kstack p) (p_sz p) (p_pagetable p)
    (p_trapframe p) (p_context p) (p_ofile p) (p_cwd p) (p_name p).
Definition set_p_shmem_access_count (v : Z) (p : proc) : proc :=
 mkproc (p_state p) (p_chan p) (p_killed p) (p_xstate p) (p_pid p) v (p_shmem_access p)
    (p_parent p) (p_top_pid p) (p_kstack p) (p_sz p) (p_pagetable p) (p_trapframe p)
    (p_context p) (p_ofile p) (p_cwd p) (p_name p).
Definition set_p_shmem_access (v : list bool) (p : proc) : proc :=
 mkproc (p_state p) (p_chan p) (p_killed p) (p_xstate p) (p_pid p) (p_shmem_access_count p) v
    (p_parent p) (p_top_pid p) (p_kstack p) (p_sz p) (p_pagetable p) (p_trapframe p)
    (p_context p) (p_ofile p) (p_cwd p) (p_name p).
Definition set_p_parent (v : option nat) (p : proc) : proc :=
 mkproc (p_state p) (p_chan p) (p_killed p) (p_xstate p) (p_pid p) (p_shmem_access_count p)
    (p_shmem_access p) v (p_top_pid p) (p_kstack p) (p_sz p) (p_pagetable p) (p_trapframe p)
    (p_context p) (p_ofile p) (p_cwd p) (p_name p).
Definition set_p_top_pid (v : Z) (p : proc) : proc :=
 mkproc (p_state p) (p_chan p) (p_killed p) (p_xstate p) (p_pid p) (p_shmem_access_count p)
    (p_shmem_access p) (p_parent p) v (p_kstack p) (p_sz p) (p_pagetable p) (p_trapframe p)
    (p_context p) (p_ofile p) (p_cwd p) (p_name p).
Definition set_p_kstack (v : Z) (p : proc) : proc :=
 mkproc (p_state p) (p_chan p) (p_killed p) (p_xstate p) (p_pid p) (p_shmem_access_count p)
    (p_shmem_access p) (p_parent p) (p_top_pid p) v (p_sz p) (p_pagetable p) (p_trapframe p)
    (p_context p) (p_ofile p) (p_cwd p) (p_name p).
Definition set_p_sz (v : Z) (p : proc) : proc :=
 mkproc (p_state p) (p_chan p) (p_killed p) (p_xstate p) (p_pid p) (p_shmem_access_count p)
    (p_shmem_access p) (p_parent p) (p_top_pid p) (p_kstack p) v (p_pagetable p) (p_trapframe p)
    (p_context p) (p_ofile p) (p_cwd p) (p_name p).
Definition set_p_pagetable (v : Z) (p : proc) : proc :=
 mkproc (p_state p) (p_chan p) (p_killed p) (p_xstate p) (p_pid p) (p_shmem_access_count p)
    (p_shmem_access p) (p_parent p) (p_top_pid p) (p_kstack p) (p_sz p) v (p_trapframe p)
    (p_context p) (p_ofile p) (p_cwd p) (p_name p).
Definition set_p_trapframe (v : Z) (p : proc) : proc :=
 mkproc (p_state p) (p_chan p) (p_killed p) (p_xstate p) (p_pid p) (p_shmem_access_count p)
    (p_shmem_access p) (p_parent p) (p_top_pid p) (p_kstack p) (p_sz p) (p_pagetable p) v
    (p_context p) (p_ofile p) (p_cwd p) (p_name p).
Definition set_p_context (v : context) (p : proc) : proc :=
 mkproc (p_state p) (p_chan p) (p_killed p) (p_xstate p) (p_pid p) (p_shmem_access_count p)
    (p_shmem_access p) (p_parent p) (p_top_pid p) (p_kstack p) (p_sz p) (p_pagetable p)
    (p_trapframe p) v (p_ofile p) (p_cwd p) (p_name p).
Definition set_p_ofile (v : list (option nat)) (p : proc) : proc :=
 mkproc (p_state p) (p_chan p) (p_killed p) (p_xstate p) (p_pid p) (p_shmem_access_count p)
    (p_shmem_access p) (p_parent p) (p_top_pid p) (p_kstack p) (p_sz p) (p_pagetable p)
    (p_trapframe p) (p_context p) v (p_cwd p) (p_name p).
Definition set_p_cwd (v : option nat) (p : proc) : proc :=
 mkproc (p_state p) (p_chan p) (p_killed p) (p_xstate p) (p_pid p) (p_shmem_access_count p)
    (p_shmem_access p) (p_parent p) (p_top_pid p) (p_kstack p) (p_sz p) (p_pagetable p)
    (p_trapframe p) (p_context p) (p_ofile p) v (p_name p).
Definition set_p_name (v : list Z) (p : proc) : proc :=
 mkproc (p_state p) (p_chan p) (p_killed p) (p_xstate p) (p_pid p) (p_shmem_access_count p)
    (p_shmem_access p) (p_parent p) (p_top_pid p) (p_kstack p) (p_sz p) (p_pagetable p)
    (p_trapframe p) (p_context p) (p_ofile p) (p_cwd p) v.

(** A slot of the zero-initialised process table. *)
Definition zero_proc : proc :=
  mkproc UNUSED None 0 0 0 0 (replicate SHMEM false) None 0 0 0 0 0
    (mkcontext 0 0 (replicate 12 0)) (replicate NOFILE None) None (replicate 16 0).

(** struct shmem (kernel/proc.h); its two locks are [L_shstate] and [L_shmem]. *)
Record shmem := mkshmem {
  sh_PHADDR : Z;
  sh_numberofusers : Z;
  sh_state : Z;
  sh_using_top_pid : Z;
}.

Definition set_sh_PHADDR (v : Z) (h : shmem) : shmem :=
 mkshmem v (sh_numberofusers h) (sh_state h) (sh_using_top_pid h).
Definition set_sh_numberofusers (v : Z) (h : shmem) : shmem :=
 mkshmem (sh_PHADDR h) v (sh_state h) (sh_using_top_pid h).
Definition set_sh_state (v : Z) (h : shmem) : shmem :=
 mkshmem (sh_PHADDR h) (sh_numberofusers h) v (sh_using_top_pid h).
Definition set_sh_using_top_pid (v : Z) (h : shmem) : shmem :=
 mkshmem (sh_PHADDR h) (sh_numberofusers h) (sh_state h) v.

Definition zero_shmem : shmem := mkshmem 0 0 0 0.

(** ** Files and pipes *)

Inductive ftype := FD_NONE | FD_PIPE | FD_INODE | FD_DEVICE.

#[export] Instance ftype_eq_dec : EqDecision ftype.
Proof. solve_decision. Defined.

(** struct file (kernel/file.h). *)
Record file := mkfile {
  f_type : ftype;
  f_ref : Z;
  f_readable : Z;
  f_writable : Z;
  f_pipe : Z;   (* page of the pipe *)
  f_ip : option nat;   (* index in itable *)
  f_off : Z;
  f_major : Z;
}.

Definition set_f_type (v : ftype) (f : file) : file :=
 mkfile v (f_ref f) (f_readable f) (f_writable f) (f_pipe f) (f_ip f) (f_off f) (f_major f).
Definition set_f_ref (v : Z) (f : file) : file :=
 mkfile (f_type f) v (f_readable f) (f_writable f) (f_pipe f) (f_ip f) (f_off f) (f_major f).
Definition set_f_readable (v : Z) (f : file) : file :=
 mkfile (f_type f) (f_ref f) v (f_writable f) (f_pipe f) (f_ip f) (f_off f) (f_major f).
Definition set_f_writable (v : Z) (f : file) : file :=
 mkfile (f_type f) (f_ref f) (f_readable f) v (f_pipe f) (f_ip f) (f_off f) (f_major f).
Definition set_f_pipe (v : Z) (f : file) : file :=
 mkfile (f_type f) (f_ref f) (f_readable f) (f_writable f) v (f_ip f) (f_off f) (f_major f).
Definition set_f_ip (v : option nat) (f : file) : file :=
 mkfile (f_type f) (f_ref f) (f_readable f) (f_writable f) (f_pipe f) v (f_off f) (f_major f).
Definition set_f_off (v : Z) (f : file) : file :=
 mkfile (f_type f) (f_ref f) (f_readable f) (f_writable f) (f_pipe f) (f_ip f) v (f_major f).
Definition set_f_major (v : Z) (f : file) : file :=
 mkfile (f_type f) (f_ref f) (f_readable f) (f_writable f) (f_pipe f) (f_ip f) (f_off f) v.

Definition zero_file : file := mkfile FD_NONE 0 0 0 0 None 0 0.

Definition PIPESIZE : Z := 512.

(** struct pipe (kernel/pipe.c); its lock is [L_pipe] of its page. *)
Record pipe := mkpipe {
  pi_data : list Z;   (* data[PIPESIZE] *)
  pi_nread : Z;
  pi_nwrite : Z;
  pi_readopen : Z;
  pi_writeopen : Z;
}.

Definition set_pi_data (v : list Z) (pi : pipe) : pipe :=
 mkpipe v (pi_nread pi) (pi_nwrite pi) (pi_readopen pi) (pi_writeopen pi).
Definition set_pi_nread (v : Z) (pi : pipe) : pipe :=
 mkpipe (pi_data pi) v (pi_nwrite pi) (pi_readopen pi) (pi_writeopen pi).
Definition set_pi_nwrite (v : Z) (pi : pipe) : pipe :=
 mkpipe (pi_data pi) (pi_nread pi) v (pi_readopen pi) (pi_writeopen pi).
Definition set_pi_readopen (v : Z) (pi : pipe) : pipe :=
 mkpipe (pi_data pi) (pi_nread pi) (pi_nwrite pi) v (pi_writeopen pi).
Definition set_pi_writeopen (v : Z) (pi : pipe) : pipe :=
 mkpipe (pi_data pi) (pi_nread pi) (pi_nwrite pi) (pi_readopen pi) v.

(** ** The kernel

    [F] is the state of the inode and log layers, which the components of this
    file reach only through their interface. *)
Record kstate (F : Type) := mkkstate {
  k_mem : memory;   (* physical memory *)
  k_freelist : Z;   (* kmem.freelist *)
  k_locks : gmap lockid spinlock;   (* every struct spinlock *)
  k_cpus : list cpu;   (* cpus[NCPU] *)
  k_hart : nat;   (* tp register of the running hart *)
  k_sie : bool;   (* SSTATUS_SIE of the running hart *)
  k_procs : list proc;   (* proc[NPROC] *)
  k_initproc : option nat;   (* initproc *)
  k_nextpid : Z;   (* nextpid *)
  k_shmem : list shmem;   (* shmem[SHMEM] *)
  k_ticks : Z;   (* ticks *)
  k_files : list file;   (* ftable.file[NFILE] *)
  k_pipes : gmap Z pipe;   (* pipes, by the address of their page *)
  k_out : list Z;   (* bytes given to the UART *)
  k_fs : F;   (* inode and log layers *)
}.
Arguments mkkstate {F}.
Arguments k_mem {F} s : rename.
Arguments k_freelist {F} s : rename.
Arguments k_locks {F} s : rename.
Arguments k_cpus {F} s : rename.
Arguments k_hart {F} s : rename.
Arguments k_sie {F} s : rename.
Arguments k_procs {F} s : rename.
Arguments k_initproc {F} s : rename.
Arguments k_nextpid {F} s : rename.
Arguments k_shmem {F} s : rename.
Arguments k_ticks {F} s : rename.
Arguments k_files {F} s : rename.
Arguments k_pipes {F} s : rename.
Arguments k_out {F} s : rename.
Arguments k_fs {F} s : rename.

Definition set_k_mem {F} (v : memory) (s : kstate F) : kstate F :=
 mkkstate v (k_freelist s) (k_locks s) (k_cpus s) (k_hart s) (k_sie s) (k_procs s)
    (k_initproc s) (k_nextpid s) (k_shmem s) (k_ticks s) (k_files s) (k_pipes s) (k_out s)
    (k_fs s).
Definition set_k_freelist {F} (v : Z) (s : kstate F) : kstate F :=
 mkkstate (k_mem s) v (k_locks s) (k_cpus s) (k_hart s) (k_sie s) (k_procs s) (k_initproc s)
    (k_nextpid s) (k_shmem s) (k_ticks s) (k_files s) (k_pipes s) (k_out s) (k_fs s).
Definition set_k_locks {F} (v : gmap lockid spinlock) (s : kstate F) : kstate F :=
 mkkstate (k_mem s) (k_freelist s) v (k_cpus s) (k_hart s) (k_sie s) (k_procs s) (k_initproc s)
    (k_nextpid s) (k_shmem s) (k_ticks s) (k_files s) (k_pipes s) (k_out s) (k_fs s).
Definition set_k_cpus {F} (v : list cpu) (s : kstate F) : kstate F :=
 mkkstate (k_mem s) (k_freelist s) (k_locks s) v (k_hart s) (k_sie s) (k_procs s) (k_initproc s)
    (k_nextpid s) (k_shmem s) (k_ticks s) (k_files s) (k_pipes s) (k_out s) (k_fs s).
Definition set_k_hart {F} (v : nat) (s : kstate F) : kstate F :=
 mkkstate (k_mem s) (k_freelist s) (k_locks s) (k_cpus s) v (k_sie s) (k_procs s) (k_initproc s)
    (k_nextpid s) (k_shmem s) (k_ticks s) (k_files s) (k_pipes s) (k_out s) (k_fs s).
Definition set_k_sie {F} (v : bool) (s : kstate F) : kstate F :=
 mkkstate (k_mem s) (k_freelist s) (k_locks s) (k_cpus s) (k_hart s) v (k_procs s)
    (k_initproc s) (k_nextpid s) (k_shmem s) (k_ticks s) (k_files s) (k_pipes s) (k_out s)
    (k_fs s).
Definition set_k_procs {F} (v : list proc) (s : kstate F) : kstate F :=
 mkkstate (k_mem s) (k_freelist s) (k_locks s) (k_cpus s) (k_hart s) (k_sie s) v (k_initproc s)
    (k_nextpid s) (k_shmem s) (k_ticks s) (k_files s) (k_pipes s) (k_out s) (k_fs s).
Definition set_k_initproc {F} (v : option nat) (s : kstate F) : kstate F :=
 mkkstate (k_mem s) (k_freelist s) (k_locks s) (k_cpus s) (k_hart s) (k_sie s) (k_procs s) v
    (k_nextpid s) (k_shmem s) (k_ticks s) (k_files s) (k_pipes s) (k_out s) (k_fs s).
Definition set_k_nextpid {F} (v : Z) (s : kstate F) : kstate F :=
 mkkstate (k_mem s) (k_freelist s) (k_locks s) (k_cpus s) (k_hart s) (k_sie s) (k_procs s)
    (k_initproc s) v (k_shmem s) (k_ticks s) (k_files s) (k_pipes s) (k_out s) (k_fs s).
Definition set_k_shmem {F} (v : list shmem) (s : kstate F) : kstate F :=
 mkkstate (k_mem s) (k_freelist s) (k_locks s) (k_cpus s) (k_hart s) (k_sie s) (k_procs s)
    (k_initproc s) (k_nextpid s) v (k_ticks s) (k_files s) (k_pipes s) (k_out s) (k_fs s).
Definition set_k_ticks {F} (v : Z) (s : kstate F) : kstate F :=
 mkkstate (k_mem s) (k_freelist s) (k_locks s) (k_cpus s) (k_hart s) (k_sie s) (k_procs s)
    (k_initproc s) (k_nextpid s) (k_shmem s) v (k_files s) (k_pipes s) (k_out s) (k_fs s).
Definition set_k_files {F} (v : list file) (s : kstate F) : kstate F :=
 mkkstate (k_mem s) (k_freelist s) (k_locks s) (k_cpus s) (k_hart s) (k_sie s) (k_procs s)
    (k_initproc s) (k_nextpid s) (k_shmem s) (k_ticks s) v (k_pipes s) (k_out s) (k_fs s).
Definition set_k_pipes {F} (v : gmap Z pipe) (s : kstate F) : kstate F :=
 mkkstate (k_mem s) (k_freelist s) (k_locks s) (k_cpus s) (k_hart s) (k_sie s) (k_procs s)
    (k_initproc s) (k_nextpid s) (k_shmem s) (k_ticks s) (k_files s) v (k_out s) (k_fs s).
Definition set_k_out {F} (v : list Z) (s : kstate F) : kstate F :=
 mkkstate (k_mem s) (k_freelist s) (k_locks s) (k_cpus s) (k_hart s) (k_sie s) (k_procs s)
    (k_initproc s) (k_nextpid s) (k_shmem s) (k_ticks s) (k_files s) (k_pipes s) v (k_fs s).
Definition set_k_fs {F} (v : F) (s : kstate F) : kstate F :=
 mkkstate (k_mem s) (k_freelist s) (k_locks s) (k_cpus s) (k_hart s) (k_sie s) (k_procs s)
    (k_initproc s) (k_nextpid s) (k_shmem s) (k_ticks s) (k_files s) (k_pipes s) (k_out s) v.

(** Reading and updating one slot of a table. *)
Definition get_proc {F} (i : nat) (s : kstate F) : proc := default zero_proc (k_procs s !! i).
Definition get_shmem {F} (i : nat) (s : kstate F) : shmem := default zero_shmem (k_shmem s !! i).
Definition get_file {F} (i : nat) (s : kstate F) : file := default zero_file (k_files s !! i).
Definition get_lock {F} (l : lockid) (s : kstate F) : spinlock := default zero_lock (k_locks s !! l).
Definition get_cpu {F} (s : kstate F) : cpu := default zero_cpu (k_cpus s !! k_hart s).

Definition upd_proc {F} (i : nat) (f : proc -> proc) (s : kstate F) : kstate F :=
  set_k_procs (alter f i (k_procs s)) s.
Definition upd_shmem {F} (i : nat) (f : shmem -> shmem) (s : kstate F) : kstate F :=
  set_k_shmem (alter f i (k_shmem s)) s.
Definition upd_file {F} (i : nat) (f : file -> file) (s : kstate F) : kstate F :=
  set_k_files (alter f i (k_files s)) s.
Definition upd_cpu {F} (f : cpu -> cpu) (s : kstate F) : kstate F :=
  set_k_cpus (alter f (k_hart s) (k_cpus s)) s.
Definition upd_mem {F} (f : memory -> memory) (s : kstate F) : kstate F :=
  set_k_mem (f (k_mem s)) s.

Lemma get_proc_upd {F} i j f (s : kstate F) :
  (j < length (k_procs s))%nat ->
  get_proc i (upd_proc j f s) = if decide (i = j) then f (get_proc i s) else get_proc i s.
Proof.
  intros Hj. unfold get_proc, upd_proc. cbn. case_decide as E; subst.
  - rewrite list_lookup_alter_eq. by destruct (lookup_lt_is_Some_2 _ _ Hj) as [p ->].
  - by rewrite list_lookup_alter_ne by done.
Qed.

Lemma get_shmem_upd {F} i j f (s : kstate F) :
  (j < length (k_shmem s))%nat ->
  get_shmem i (upd_shmem j f s) = if decide (i = j) then f (get_shmem i s) else get_shmem i s.
Proof.
  intros Hj. unfold get_shmem, upd_shmem. cbn. case_decide as E; subst.
  - rewrite list_lookup_alter_eq. by destruct (lookup_lt_is_Some_2 _ _ Hj) as [p ->].
  - by rewrite list_lookup_alter_ne by done.
Qed.

Lemma get_file_upd {F} i j f (s : kstate F) :
  (j < length (k_files s))%nat ->
  get_file i (upd_file j f s) = if decide (i = j) then f (get_file i s) else get_file i s.
Proof.
  intros Hj. unfold get_file, upd_file. cbn. case_decide as E; subst.
  - rewrite list_lookup_alter_eq. by destruct (lookup_lt_is_Some_2 _ _ Hj) as [p ->].
  - by rewrite list_lookup_alter_ne by done.
Qed.

(** Two states are equal when their fields are. *)
Lemma kstate_ext {F} (s s' : kstate F) :
  k_mem s = k_mem s' ->
  k_freelist s = k_freelist s' ->
  k_locks s = k_locks s' ->
  k_cpus s = k_cpus s' ->
  k_hart s = k_hart s' ->
  k_sie s = k_sie s' ->
  k_procs s = k_procs s' ->
  k_initproc s = k_initproc s' ->
  k_nextpid s = k_nextpid s' ->
  k_shmem s = k_shmem s' ->
  k_ticks s = k_ticks s' ->
  k_files s = k_files s' ->
  k_pipes s = k_pipes s' ->
  k_out s = k_out s' ->
  k_fs s = k_fs s' ->
  s = s'.
Proof. destruct s, s'. cbn. by intros -> -> -> -> -> -> -> -> -> -> -> -> -> -> ->. Qed.

(** [kst] proves an equation of states field by field; [kret] the equation
    [c s = Ret a s'] of a command that reads or writes fields. *)
Ltac kst := apply kstate_ext; unfold get_lock, get_cpu, get_proc, get_shmem, get_file; cbn; reflexivity.
Ltac kret := apply (f_equal (Ret _)); kst.
