(* ===== verification/Spinlock.v ===== *)
(** kernel/spinlock.c, and the per-CPU accessors of kernel/proc.c it uses.

    [Section Ops] translates the functions; the lemmas after it describe a
    critical section in closed form: [hold l s] is [s] after [acquire] of the
    free lock [l], and releasing it gives [settle s], which is [s] but for the
    scratch field [c_intena] that the outermost [push_off] writes.
    [Module Contention] models one lock under several harts, at the granularity
    of single memory accesses, as a step relation. *)
From S2P Require Import Prelude Riscv Machine.

Section Ops.
Context {F : Type}.
Abbreviation KM := (K (kstate F)).

Definition cpuid : KM nat := gets k_hart.

(** mycpu(): a pointer to this hart's struct cpu; here, its contents. *)
Definition mycpu : KM cpu := gets get_cpu.

Definition intr_get : KM bool := gets k_sie.
Definition intr_off : KM unit := modify (set_k_sie false).
Definition intr_on : KM unit := modify (set_k_sie true).

Definition set_c_noff (v : Z) (c : cpu) : cpu := mkcpu (c_proc c) v (c_intena c).
Definition set_c_intena (v : bool) (c : cpu) : cpu := mkcpu (c_proc c) (c_noff c) v.
Definition set_c_proc (v : option nat) (c : cpu) : cpu := mkcpu v (c_noff c) (c_intena c).

Definition initlock (l : lockid) (name : string) : KM unit :=
  modify (fun s => set_k_locks (<[l := mkspinlock false (Some name) None]> (k_locks s)) s).

Definition holding (l : lockid) : KM bool :=
  lk <- gets (get_lock l) ;;
  id <- cpuid ;;
  ret (lk_locked lk && bool_decide (lk_cpu lk = Some id)).

Definition push_off : KM unit :=
  old <- intr_get ;;
  intr_off ;;
  c <- mycpu ;;
  when c_noff c =? 0 do modify (upd_cpu (set_c_intena old)) ;;
  modify (upd_cpu (fun c => set_c_noff (c_noff c + 1) c)).

Definition pop_off : KM unit :=
  c <- mycpu ;;
  on <- intr_get ;;
  if on then panic "pop_off - interruptible" else
  if c_noff c <? 1 then panic "pop_off" else
  modify (upd_cpu (fun c => set_c_noff (c_noff c - 1) c)) ;;
  c <- mycpu ;;
  when (c_noff c =? 0) && c_intena c do intr_on.

(** __sync_lock_test_and_set(&lk->locked, 1) in a loop: the lock is taken if
    it is free, and otherwise this hart spins. *)
Definition spin_until_locked (l : lockid) : KM unit := fun s =>
  let lk := get_lock l s in
  if lk_locked lk then Spin s
  else Ret tt (set_k_locks (<[l := mkspinlock true (lk_name lk) (lk_cpu lk)]> (k_locks s)) s).

Definition set_lock_cpu (l : lockid) (c : option nat) (s : kstate F) : kstate F :=
  let lk := get_lock l s in
  set_k_locks (<[l := mkspinlock (lk_locked lk) (lk_name lk) c]> (k_locks s)) s.

Definition acquire (l : lockid) : KM unit :=
  push_off ;;
  h <- holding l ;;
  if h then panic "acquire" else
  spin_until_locked l ;;
  id <- cpuid ;;
  modify (set_lock_cpu l (Some id)).

(** __sync_lock_release(&lk->locked) *)
Definition clear_locked (l : lockid) (s : kstate F) : kstate F :=
  let lk := get_lock l s in
  set_k_locks (<[l := mkspinlock false (lk_name lk) (lk_cpu lk)]> (k_locks s)) s.

Definition release (l : lockid) : KM unit :=
  h <- holding l ;;
  if negb h then panic "release" else
  modify (set_lock_cpu l None) ;;
  modify (clear_locked l) ;;
  pop_off.

Definition myproc : KM (option nat) :=
  push_off ;;
  c <- mycpu ;;
  pop_off ;;
  ret (c_proc c).

(** ** Closed forms *)

(** The running hart has a struct cpu, and interrupts are off while some
    [push_off] is not yet undone. *)
Definition cpu_ok (s : kstate F) : Prop :=
  (k_hart s < length (k_cpus s))%nat /\ 0 <= c_noff (get_cpu s) /\
  (0 < c_noff (get_cpu s) -> k_sie s = false).

Definition lock_free (l : lockid) (s : kstate F) : Prop :=
  exists name, k_locks s !! l = Some (mkspinlock false name None).

(** The struct cpu after [push_off] with interrupts [old]. *)
Definition pushed (old : bool) (c : cpu) : cpu :=
  mkcpu (c_proc c) (c_noff c + 1) (if c_noff c =? 0 then old else c_intena c).

Definition off (s : kstate F) : kstate F :=
  set_k_sie false (upd_cpu (pushed (k_sie s)) s).

Definition hold (l : lockid) (s : kstate F) : kstate F :=
  set_k_locks (<[l := mkspinlock true (lk_name (get_lock l s)) (Some (k_hart s))]> (k_locks s))
    (off s).

(** The struct cpu after a balanced [push_off]/[pop_off] pair. *)
Definition settled (old : bool) (c : cpu) : cpu :=
  mkcpu (c_proc c) (c_noff c) (if c_noff c =? 0 then old else c_intena c).

Definition settle (s : kstate F) : kstate F := upd_cpu (settled (k_sie s)) s.

Lemma get_cpu_upd f (s : kstate F) :
  (k_hart s < length (k_cpus s))%nat -> get_cpu (upd_cpu f s) = f (get_cpu s).
Proof.
  intros H. unfold get_cpu, upd_cpu. cbn. rewrite list_lookup_alter_eq.
  by destruct (lookup_lt_is_Some_2 _ _ H) as [c ->].
Qed.

Lemma upd_cpu_upd f g (s : kstate F) :
  upd_cpu f (upd_cpu g s) = upd_cpu (f ∘ g) s.
Proof. unfold upd_cpu, set_k_cpus. cbn. by rewrite list_alter_alter. Qed.

Lemma upd_cpu_ext f g (s : kstate F) :
  (forall c, k_cpus s !! k_hart s = Some c -> f c = g c) -> upd_cpu f s = upd_cpu g s.
Proof. intros H. unfold upd_cpu. by rewrite (list_alter_ext' f g). Qed.

Lemma upd_cpu_id f (s : kstate F) :
  (forall c, k_cpus s !! k_hart s = Some c -> f c = c) -> upd_cpu f s = s.
Proof. intros H. unfold upd_cpu. rewrite list_alter_id' by done. by destruct s. Qed.

Lemma push_off_spec (s : kstate F) :
  (k_hart s < length (k_cpus s))%nat -> push_off s = Ret tt (off s).
Proof.
  intros Hh. unfold push_off, kbind, intr_get, intr_off, mycpu, gets, modify. cbn.
  assert (get_cpu (set_k_sie false s) = get_cpu s) as Eg by done. rewrite Eg.
  unfold off. destruct (c_noff (get_cpu s) =? 0) eqn:E; cbn; f_equal.
  - rewrite upd_cpu_upd.
    transitivity (upd_cpu (pushed (k_sie s)) (set_k_sie false s)); [|done].
    apply upd_cpu_ext. intros c Hc. cbn in Hc.
    unfold get_cpu in E. rewrite Hc in E. cbn in E. unfold pushed. cbn. by rewrite E.
  - transitivity (upd_cpu (pushed (k_sie s)) (set_k_sie false s)); [|done].
    apply upd_cpu_ext. intros c Hc. cbn in Hc.
    unfold get_cpu in E. rewrite Hc in E. cbn in E. unfold pushed. cbn. by rewrite E.
Qed.

Lemma get_cpu_off (s : kstate F) :
  (k_hart s < length (k_cpus s))%nat -> get_cpu (off s) = pushed (k_sie s) (get_cpu s).
Proof. intros H. unfold off. by rewrite <- get_cpu_upd by done. Qed.

Lemma pop_off_spec (s : kstate F) : cpu_ok s -> pop_off (off s) = Ret tt (settle s).
Proof.
  intros (Hh & Hn & Hs). unfold pop_off, kbind, mycpu, intr_get, gets, modify. cbn.
  rewrite get_cpu_off by done. cbn.
  destruct (c_noff (get_cpu s) + 1 <? 1) eqn:E; [lia|]. cbn.
  rewrite get_cpu_upd, get_cpu_off by (cbn; by rewrite ?length_alter). cbn.
  replace (c_noff (get_cpu s) + 1 - 1) with (c_noff (get_cpu s)) by lia.
  assert (forall b, set_k_sie b (upd_cpu (fun c => set_c_noff (c_noff c - 1) c) (off s)) =
     set_k_sie b (settle s)) as Hset.
  { intros b. transitivity (set_k_sie b (upd_cpu (fun c => set_c_noff (c_noff c - 1) c)
       (upd_cpu (pushed (k_sie s)) s))); [done|].
    rewrite upd_cpu_upd. unfold settle. f_equal. apply upd_cpu_ext. intros c _.
    unfold pushed, settled, set_c_noff. cbn. f_equal. lia. }
  assert (settle s = set_k_sie (k_sie s) (settle s)) as Hid by (by destruct s).
  destruct (c_noff (get_cpu s) =? 0) eqn:E0; cbn.
  - destruct (k_sie s) eqn:Es; cbn; unfold intr_on, modify, ret; f_equal.
    + rewrite Hset. by rewrite Hid at 2.
    + transitivity (set_k_sie false (upd_cpu (fun c => set_c_noff (c_noff c - 1) c) (off s)));
        [done|]. rewrite Hset. by rewrite Hid at 2.
  - unfold ret. f_equal.
    transitivity (set_k_sie false (upd_cpu (fun c => set_c_noff (c_noff c - 1) c) (off s)));
      [done|]. rewrite Hset. rewrite Hid at 2. rewrite Hs by lia. done.
Qed.

Lemma get_lock_free l (s : kstate F) :
  lock_free l s -> exists name, get_lock l s = mkspinlock false name None.
Proof. intros [name H]. exists name. unfold get_lock. by rewrite H. Qed.

(** Taking a free lock. *)
Lemma acquire_free l (s : kstate F) :
  cpu_ok s -> lock_free l s -> acquire l s = Ret tt (hold l s).
Proof.
  intros (Hh & _) Hl. unfold acquire. rewrite (kbind_Ret _ _ _ _ _ (push_off_spec s Hh)).
  destruct (get_lock_free l s Hl) as [name El].
  assert (get_lock l (off s) = mkspinlock false name None) as Eo by done.
  unfold kbind, holding, cpuid, gets, ret, kbind. cbn. rewrite Eo. cbn.
  unfold spin_until_locked. rewrite Eo. cbn. unfold modify. f_equal.
  unfold set_lock_cpu, hold, get_lock, set_k_locks. cbn.
  rewrite lookup_insert_eq. cbn. rewrite insert_insert_eq.
  unfold get_lock in El. by rewrite El.
Qed.

(** Taking it again on the same hart halts the kernel. *)
Lemma acquire_again l (s : kstate F) :
  (k_hart s < length (k_cpus s))%nat ->
  lk_locked (get_lock l s) = true -> lk_cpu (get_lock l s) = Some (k_hart s) ->
  acquire l s = Panic "acquire" (off s).
Proof.
  intros Hh Hl Hc. unfold acquire. rewrite (kbind_Ret _ _ _ _ _ (push_off_spec s Hh)).
  unfold kbind, holding, cpuid, gets, ret, kbind. cbn.
  assert (get_lock l (off s) = get_lock l s) as -> by done.
  rewrite Hl, Hc, bool_decide_true by done. done.
Qed.

(** Taking it while another hart holds it spins. *)
Lemma acquire_busy l (s : kstate F) :
  (k_hart s < length (k_cpus s))%nat ->
  lk_locked (get_lock l s) = true -> lk_cpu (get_lock l s) <> Some (k_hart s) ->
  acquire l s = Spin (off s).
Proof.
  intros Hh Hl Hc. unfold acquire. rewrite (kbind_Ret _ _ _ _ _ (push_off_spec s Hh)).
  unfold kbind, holding, cpuid, gets, ret, kbind. cbn.
  assert (get_lock l (off s) = get_lock l s) as E by done. rewrite E, Hl, bool_decide_false by done.
  cbn. unfold spin_until_locked. by rewrite E, Hl.
Qed.

Lemma release_hold l (s : kstate F) :
  cpu_ok s -> lock_free l s -> release l (hold l s) = Ret tt (settle s).
Proof.
  intros Hok Hl. destruct (Hl) as [name El]. unfold release, kbind, holding, cpuid, gets, ret, kbind.
  assert (get_lock l (hold l s) = mkspinlock true name (Some (k_hart s))) as ->.
  { unfold get_lock, hold. cbn. rewrite lookup_insert_eq. cbn. unfold get_lock. by rewrite El. }
  cbn. rewrite bool_decide_true by done. cbn.
  rewrite <- (pop_off_spec s Hok). f_equal.
  unfold clear_locked, set_lock_cpu, hold, get_lock, set_k_locks. cbn.
  rewrite !lookup_insert_eq, !insert_insert_eq. cbn. rewrite El. cbn.
  rewrite insert_id by done. done.
Qed.

(** Releasing a lock this hart does not hold halts the kernel. *)
Lemma release_not_held l (s : kstate F) :
  lk_locked (get_lock l s) = false \/ lk_cpu (get_lock l s) <> Some (k_hart s) ->
  release l s = Panic "release" s.
Proof.
  intros H. unfold release, kbind, holding, cpuid, gets, ret, kbind. cbn.
  destruct H as [H|H]; [by rewrite H|]. rewrite bool_decide_false, andb_false_r by done. done.
Qed.

Lemma myproc_spec (s : kstate F) :
  cpu_ok s -> myproc s = Ret (c_proc (get_cpu s)) (settle s).
Proof.
  intros Hok. pose proof Hok as (Hh & _). unfold myproc.
  rewrite (kbind_Ret _ _ _ _ _ (push_off_spec s Hh)).
  rewrite (kbind_Ret mycpu _ _ (get_cpu (off s)) (off s)) by done.
  rewrite (kbind_Ret _ _ _ _ _ (pop_off_spec s Hok)). rewrite get_cpu_off by done. done.
Qed.

(** ** Algebra of [hold] and [settle] *)

Lemma get_cpu_settle (s : kstate F) :
  (k_hart s < length (k_cpus s))%nat -> get_cpu (settle s) = settled (k_sie s) (get_cpu s).
Proof. intros H. unfold settle. by rewrite get_cpu_upd. Qed.

Lemma cpu_ok_settle (s : kstate F) : cpu_ok s -> cpu_ok (settle s).
Proof.
  intros (Hh & Hn & Hs). unfold cpu_ok. rewrite get_cpu_settle by done.
  cbn. by rewrite length_alter.
Qed.

Lemma cpu_ok_hold l (s : kstate F) : cpu_ok s -> cpu_ok (hold l s).
Proof.
  intros (Hh & Hn & Hs). unfold cpu_ok.
  assert (get_cpu (hold l s) = pushed (k_sie s) (get_cpu s)) as -> by (by apply get_cpu_off).
  cbn. rewrite length_alter. repeat split; [done|lia].
Qed.

Lemma lock_free_settle l (s : kstate F) : lock_free l (settle s) <-> lock_free l s.
Proof. done. Qed.

Lemma lock_free_hold l l' (s : kstate F) :
  l <> l' -> lock_free l s -> lock_free l (hold l' s).
Proof.
  intros Hne [name H]. exists name. unfold hold. cbn. by rewrite lookup_insert_ne.
Qed.

Lemma settle_settle (s : kstate F) : settle (settle s) = settle s.
Proof.
  unfold settle at 1. unfold settle at 2. rewrite upd_cpu_upd.
  apply upd_cpu_ext. intros c _. unfold settled. cbn. by destruct (c_noff c =? 0).
Qed.

(** Inside a critical section a balanced pair leaves the state unchanged. *)
Lemma settle_nested (s : kstate F) : 0 < c_noff (get_cpu s) -> settle s = s.
Proof.
  intros H. apply upd_cpu_id. intros c Hc. unfold get_cpu in H. rewrite Hc in H. cbn in H.
  unfold settled. destruct (c_noff c =? 0) eqn:E; [lia|]. by destruct c.
Qed.

Lemma noff_hold l (s : kstate F) :
  cpu_ok s -> c_noff (get_cpu (hold l s)) = c_noff (get_cpu s) + 1.
Proof.
  intros (Hh & _).
  assert (get_cpu (hold l s) = pushed (k_sie s) (get_cpu s)) as -> by (by apply get_cpu_off).
  done.
Qed.

Lemma settle_hold l (s : kstate F) : cpu_ok s -> settle (hold l s) = hold l s.
Proof. intros H. apply settle_nested. rewrite noff_hold by done. destruct H. lia. Qed.

Lemma hold_settle l (s : kstate F) : hold l (settle s) = hold l s.
Proof.
  apply kstate_ext; try reflexivity. cbn. rewrite list_alter_alter.
  apply list_alter_ext'. intros c _. unfold pushed, settled. cbn. by destruct (c_noff c =? 0).
Qed.

Lemma hold_comm l l' (s : kstate F) : l <> l' -> hold l (hold l' s) = hold l' (hold l s).
Proof.
  intros Hne. apply kstate_ext; try reflexivity. cbn. unfold get_lock. cbn.
  rewrite !lookup_insert_ne by done. by rewrite insert_insert_ne by done.
Qed.

(** A critical section that runs [c] under [l]. *)
Lemma critical {A B} l (c : KM A) (k : A -> KM B) (s s' : kstate F) a :
  cpu_ok s -> lock_free l s -> c (hold l s) = Ret a (hold l s') ->
  cpu_ok s' -> lock_free l s' ->
  (acquire l ;; x <- c ;; release l ;; k x) s = k a (settle s').
Proof.
  intros Hok Hl Hc Hok' Hl'. rewrite (kbind_Ret _ _ _ _ _ (acquire_free l s Hok Hl)).
  rewrite (kbind_Ret _ _ _ _ _ Hc). by rewrite (kbind_Ret _ _ _ _ _ (release_hold l s' Hok' Hl')).
Qed.
End Ops.

(** ** Nesting of push_off and pop_off *)

Fixpoint iterK {S} (n : nat) (c : K S unit) : K S unit :=
  match n with
  | O => ret tt
  | S n => c ;; iterK n c
  end.

Lemma iterK_last {S} n (c : K S unit) s s' s'' :
  iterK n c s = Ret tt s' -> c s' = Ret tt s'' -> iterK (Datatypes.S n) c s = Ret tt s''.
Proof.
  revert s. induction n as [|n IH]; intros s H Hc; cbn [iterK] in *.
  - injection H as <-. by rewrite (kbind_Ret _ _ _ _ _ Hc).
  - unfold kbind in H at 1. destruct (c s) as [[] s1| | | |] eqn:E; try discriminate H.
    rewrite (kbind_Ret _ _ _ _ _ E). by apply IH.
Qed.

Fixpoint offs {F} (n : nat) (s : kstate F) : kstate F :=
  match n with
  | O => s
  | S n => offs n (off s)
  end.

Section Nesting.
Context {F : Type}.
Implicit Types s : kstate F.

Lemma cpu_ok_off s : cpu_ok s -> cpu_ok (off s).
Proof.
  intros (Hh & Hn & Hs). unfold cpu_ok. rewrite get_cpu_off by done. cbn.
  rewrite length_alter. repeat split; [done|lia].
Qed.

Lemma iter_push_off n s :
  (k_hart s < length (k_cpus s))%nat -> iterK n push_off s = Ret tt (offs n s).
Proof.
  revert s. induction n as [|n IH]; intros s H; [done|]. cbn [iterK offs].
  rewrite (kbind_Ret _ _ _ _ _ (push_off_spec s H)). apply IH. cbn. by rewrite length_alter.
Qed.

Lemma offs_off n s : offs n (off s) = off (offs n s).
Proof. revert s. induction n as [|n IH]; intros s; [done|]. cbn. by rewrite IH. Qed.

Lemma offs_cpu n s :
  cpu_ok s -> cpu_ok (offs n s) /\ c_noff (get_cpu (offs n s)) = c_noff (get_cpu s) + Z.of_nat n.
Proof.
  revert s. induction n as [|n IH]; intros s H; [split; [done|cbn; lia]|]. cbn [offs].
  destruct (IH (off s) (cpu_ok_off s H)) as [H1 H2]. split; [done|].
  rewrite H2, get_cpu_off by apply H. cbn. lia.
Qed.

Lemma pop_offs n s :
  cpu_ok s -> pop_off (offs (S (S n)) s) = Ret tt (offs (S n) s).
Proof.
  intros H. cbn [offs]. rewrite offs_off.
  destruct (offs_cpu n (off s) (cpu_ok_off s H)) as [H1 H2].
  rewrite pop_off_spec by done. f_equal. apply settle_nested. rewrite H2, get_cpu_off by apply H.
  cbn. destruct H as (_ & ? & _). lia.
Qed.

Lemma iter_pop_offs m n s :
  cpu_ok s -> (m <= n)%nat -> iterK m pop_off (offs (S n) s) = Ret tt (offs (S n - m) s).
Proof.
  revert n. induction m as [|m IH]; intros n Hok Hle; [done|].
  destruct n as [|n]; [lia|]. cbn [iterK].
  rewrite (kbind_Ret _ _ _ _ _ (pop_offs n s Hok)). apply IH; [done|lia].
Qed.

Lemma offs_sie n s : k_sie (offs (S n) s) = false.
Proof. revert s. induction n as [|n IH]; intros s; [done|]. apply (IH (off s)). Qed.

(** [n] calls of push_off followed by [m] calls of pop_off. *)
Definition push_pop (n m : nat) : K (kstate F) unit := iterK n push_off ;; iterK m pop_off.
End Nesting.

(** ** One lock, several harts *)

Module Contention.

(** Where a hart is in [acquire] or [release], one constructor per point
    between two accesses to the lock's fields. *)
Inductive pc :=
| Idle            (* not using the lock *)
| Acq_locked      (* in acquire(): holding() reads lk->locked *)
| Acq_cpu         (* holding() reads lk->cpu *)
| Acq_swap        (* the amoswap loop *)
| Acq_setcpu      (* lk->cpu = mycpu() *)
| Critical        (* acquire() has returned *)
| Rel_locked      (* in release(): holding() reads lk->locked *)
| Rel_cpu         (* holding() reads lk->cpu *)
| Rel_clearcpu    (* lk->cpu = 0 *)
| Rel_unlock      (* __sync_lock_release(&lk->locked) *)
| Panicked.

#[export] Instance pc_eq_dec : EqDecision pc.
Proof. solve_decision. Defined.

Record state := mkstate { locked : bool; owner : option nat; at_ : nat -> pc }.

Definition goto (h : nat) (p : pc) (f : nat -> pc) : nat -> pc :=
  fun h' => if decide (h' = h) then p else f h'.

Inductive step : state -> state -> Prop :=
| s_call l o f h : f h = Idle ->
    step (mkstate l o f) (mkstate l o (goto h Acq_locked f))
| s_acq_locked l o f h : f h = Acq_locked ->
    step (mkstate l o f) (mkstate l o (goto h (if l : bool then Acq_cpu else Acq_swap) f))
| s_acq_cpu l o f h : f h = Acq_cpu ->
    step (mkstate l o f)
         (mkstate l o (goto h (if bool_decide (o = Some h) then Panicked else Acq_swap) f))
| s_swap l o f h : f h = Acq_swap ->
    step (mkstate l o f) (mkstate true o (goto h (if l : bool then Acq_swap else Acq_setcpu) f))
| s_setcpu l o f h : f h = Acq_setcpu ->
    step (mkstate l o f) (mkstate l (Some h) (goto h Critical f))
| s_leave l o f h : f h = Critical ->
    step (mkstate l o f) (mkstate l o (goto h Rel_locked f))
| s_rel_locked l o f h : f h = Rel_locked ->
    step (mkstate l o f) (mkstate l o (goto h (if l : bool then Rel_cpu else Panicked) f))
| s_rel_cpu l o f h : f h = Rel_cpu ->
    step (mkstate l o f)
         (mkstate l o (goto h (if bool_decide (o = Some h) then Rel_clearcpu else Panicked) f))
| s_clearcpu l o f h : f h = Rel_clearcpu ->
    step (mkstate l o f) (mkstate l None (goto h Rel_unlock f))
| s_unlock l o f h : f h = Rel_unlock ->
    step (mkstate l o f) (mkstate false o (goto h Idle f)).

Inductive reachable : state -> Prop :=
| r_init : reachable (mkstate false None (fun _ => Idle))
| r_step s s' : reachable s -> step s s' -> reachable s'.

(** A hart owns the lock from its successful swap to its unlock. *)
Definition owns (p : pc) : bool :=
  match p with
  | Acq_setcpu | Critical | Rel_locked | Rel_cpu | Rel_clearcpu | Rel_unlock => true
  | _ => false
  end.

(** Between [lk->cpu = mycpu()] and [lk->cpu = 0]. *)
Definition named (p : pc) : bool :=
  match p with
  | Critical | Rel_locked | Rel_cpu | Rel_clearcpu => true
  | _ => false
  end.

Definition inv (s : state) : Prop :=
  (forall h, at_ s h <> Panicked) /\
  (forall h, owns (at_ s h) = true -> locked s = true) /\
  (forall h h', owns (at_ s h) = true -> owns (at_ s h') = true -> h = h') /\
  (forall h, named (at_ s h) = true <-> owner s = Some h).

Lemma goto_eq h p f : goto h p f h = p.
Proof. unfold goto. by rewrite decide_True. Qed.

Lemma goto_ne h h' p f : h' <> h -> goto h p f h' = f h'.
Proof. intros. unfold goto. by rewrite decide_False. Qed.

Ltac use_goto :=
  repeat match goal with
  | |- context [goto ?h ?p ?f ?x] =>
      destruct (decide (x = h)) as [->|?];
      [rewrite (goto_eq h p f) in * | rewrite (goto_ne h x p f) in * by done]
  | H : context [goto ?h ?p ?f ?x] |- _ =>
      destruct (decide (x = h)) as [->|?];
      [rewrite (goto_eq h p f) in * | rewrite (goto_ne h x p f) in * by done]
  end.

(** A step of hart [h] to [p] keeps the invariant when [p] is compatible with
    the new fields of the lock. *)
Lemma inv_goto l o l' o' f h p :
  inv (mkstate l o f) ->
  p <> Panicked ->
  (owns p = true -> l' = true) ->
  (forall h', h' <> h -> owns (f h') = true -> l' = true /\ owns p = false) ->
  (named p = true <-> o' = Some h) ->
  (forall h', h' <> h -> o' = Some h' <-> o = Some h') ->
  inv (mkstate l' o' (goto h p f)).
Proof.
  intros (Hp & Hl & Hu & Hn) H1 H2 H3 H4 H5. cbn in *. split; [|split; [|split]]; cbn.
  - intros h'. use_goto; [done|]. apply Hp.
  - intros h' Ho. use_goto; [by apply H2|]. by destruct (H3 h').
  - intros x y Hx Hy. unfold goto in *. destruct (decide (x = h)) as [Ex|Ex], (decide (y = h)) as [Ey|Ey]; [congruence| | |by apply Hu].
    + destruct (H3 y) as [_ E]; [done..|]. congruence.
    + destruct (H3 x) as [_ E]; [done..|]. congruence.
  - intros h'. use_goto; [done|]. rewrite Hn. symmetry. by apply H5.
Qed.

(** Moves that change neither the lock nor the hart's part in it. *)
Lemma inv_same l o f h p :
  inv (mkstate l o f) -> p <> Panicked ->
  owns p = owns (f h) -> named p = named (f h) -> inv (mkstate l o (goto h p f)).
Proof.
  intros Hinv Hp Ho Hn. pose proof Hinv as (_ & Hl & Hu & Hm).
  apply (inv_goto l o); [done|done| | |by rewrite Hn; apply Hm|done].
  - rewrite Ho. apply Hl.
  - intros h' Hne Ho'. split; [by eapply Hl|]. rewrite Ho.
    destruct (owns (f h)) eqn:E; [|done]. destruct Hne. by apply Hu.
Qed.

(** Nobody else owns the lock while [h] does. *)
Lemma inv_alone l o f h h' :
  inv (mkstate l o f) -> owns (f h) = true -> h' <> h -> owns (f h') = false.
Proof.
  intros (_ & _ & Hu & _) Ho Hne. destruct (owns (f h')) eqn:E; [|done].
  destruct Hne. by apply Hu.
Qed.

Lemma named_owns p : named p = true -> owns p = true.
Proof. by destruct p. Qed.

Lemma inv_step s s' : inv s -> step s s' -> inv s'.
Proof.
  intros Hinv Hst. pose proof Hinv as (Hp & Hl & Hu & Hn).
  destruct Hst as [l o f h E|l o f h E|l o f h E|l o f h E
    |l o f h E|l o f h E|l o f h E|l o f h E|l o f h E|l o f h E]; cbn in *;
    pose proof (Hl h) as Hlh; pose proof (Hn h) as Hnh; rewrite E in Hlh, Hnh; cbn in Hlh, Hnh;
    try (apply inv_same; [done|done|by rewrite E|by rewrite E]).
  - destruct l; apply inv_same; (done || by rewrite E).
  - case_bool_decide as Hc; [by apply Hnh in Hc|]. apply inv_same; (done || by rewrite E).
  - destruct l; [apply inv_same; (done || by rewrite E)|].
    apply (inv_goto _ _ _ _ _ _ _ Hinv); cbn; [done|done| |done|done].
    intros h' _ Ho. by apply Hl in Ho.
  - apply (inv_goto _ _ _ _ _ _ _ Hinv); cbn; [done|by intros _; apply Hlh| |done|].
    + intros h' Hne Ho. rewrite (inv_alone _ _ _ h h' Hinv) in Ho; [done|by rewrite E|done].
    + intros h' Hne. split; [congruence|]. intros Ho. apply Hn, named_owns in Ho.
      rewrite (inv_alone _ _ _ h h' Hinv) in Ho; [done|by rewrite E|done].
  - rewrite Hlh by done. apply inv_same; [|done|by rewrite E|by rewrite E].
    by rewrite Hlh in Hinv.
  - rewrite bool_decide_true by (by apply Hnh). apply inv_same; (done || by rewrite E).
  - apply (inv_goto _ _ _ _ _ _ _ Hinv); cbn; [done|by intros _; apply Hlh| |done|].
    + intros h' Hne Ho. rewrite (inv_alone _ _ _ h h' Hinv) in Ho; [done|by rewrite E|done].
    + intros h' Hne. split; [done|]. intros ->. destruct Hnh as [Hnh _].
      by injection (Hnh eq_refl).
  - apply (inv_goto _ _ _ _ _ _ _ Hinv); cbn; [done|done| |done|done].
    intros h' Hne Ho. rewrite (inv_alone _ _ _ h h' Hinv) in Ho; [done|by rewrite E|done].
Qed.

Lemma reachable_inv s : reachable s -> inv s.
Proof.
  induction 1 as [|s s' _ IH Hst]; [|by eapply inv_step].
  split; [done|]. split; [done|]. split; [done|]. done.
Qed.


(** One hart takes the lock. *)
Lemma critical_reachable : exists s, reachable s /\ at_ s 0%nat = Critical.
Proof.
  eexists. split; [|shelve].
  eapply r_step; [eapply r_step; [eapply r_step; [eapply r_step; [apply r_init|]|]|]|].
  - by apply (s_call _ _ _ 0%nat).
  - by apply (s_acq_locked _ _ _ 0%nat).
  - by apply (s_swap _ _ _ 0%nat).
  - by apply (s_setcpu _ _ _ 0%nat).
  Unshelve. done.
Qed.

End Contention.

(** acquire() is decided by the lock word: a free lock is taken, with
    interrupts off and the hart recorded as its holder; a lock this hart already
    holds is a panic; a lock another hart holds is spun on, with interrupts
    off. *)
Theorem acquire_outcome {F} l (s : kstate F) :
  cpu_ok s ->
  match k_locks s !! l with
  | Some (mkspinlock false name None) =>
      acquire l s = Ret tt (hold l s) /\ k_sie (hold l s) = false /\
      k_locks (hold l s) !! l = Some (mkspinlock true name (Some (k_hart s)))
  | Some (mkspinlock true _ (Some h)) =>
      acquire l s = if decide (h = k_hart s) then Panic "acquire" (off s) else Spin (off s)
  | _ => True
  end.
Proof.
  intros Hok. destruct (k_locks s !! l) as [[[] name [h|]]|] eqn:E; try done.
  - assert (get_lock l s = mkspinlock true name (Some h)) as Eg by (unfold get_lock; by rewrite E).
    case_decide as Eh.
    + subst h. apply acquire_again; [apply Hok|by rewrite Eg|by rewrite Eg].
    + apply acquire_busy; [apply Hok|by rewrite Eg|rewrite Eg; cbn; congruence].
  - split; [apply acquire_free; [done|by exists name]|]. split; [done|].
    cbn. rewrite lookup_insert_eq. unfold get_lock. by rewrite E.
Qed.

(** Interrupt-off sections nest: after n calls of push_off() and m calls of
    pop_off() with m <= n, interrupts are off as long as m < n, and are as they
    were before the first push_off() when m = n. *)
Theorem push_pop_nesting {F} (s : kstate F) n m :
  cpu_ok s -> c_noff (get_cpu s) = 0 -> (m <= S n)%nat ->
  exists s', push_pop (S n) m s = Ret tt s' /\
    k_sie s' = (if decide (m = S n) then k_sie s else false) /\
    c_noff (get_cpu s') = Z.of_nat (S n) - Z.of_nat m.
Proof.
  intros Hok H0 Hm. unfold push_pop.
  rewrite (kbind_Ret _ _ _ _ _ (iter_push_off (S n) s (proj1 Hok))).
  case_decide as E.
  - subst m. exists (settle s). split; [|split; [done|]].
    + apply (iterK_last _ _ _ _ _ (iter_pop_offs n n s Hok ltac:(lia))).
      replace (S n - n)%nat with 1%nat by lia. by apply pop_off_spec.
    + rewrite get_cpu_settle by apply Hok. cbn. lia.
  - exists (offs (S n - m) s). split; [apply iter_pop_offs; [done|lia]|].
    replace (S n - m)%nat with (S (n - m)) by lia. split; [apply offs_sie|].
    rewrite (proj2 (offs_cpu _ s Hok)). lia.
Qed.
