(* ===== verification/KString.v ===== *)
(** kernel/string.c. The [mem*] functions act on physical memory; the [str*]
    functions read a C pointer as the function from offsets to bytes that it
    denotes ([cptr]) and write buffers ([list Z], one byte per element). *)
From S2P Require Import Prelude.

(** ** Byte operations on memory *)

Fixpoint memset_loop (m : memory) (cdst c : Z) (n : nat) : memory :=
  match n with
  | O => m
  | S n => memset_loop (st8 m cdst c) (cdst + 1) c n
  end.

Definition memset (m : memory) (dst c n : Z) : memory :=
  memset_loop m dst c (Z.to_nat (u32 n)).

Fixpoint memcmp_loop (m : memory) (s1 s2 : Z) (n : nat) : Z :=
  match n with
  | O => 0
  | S n => if negb (ld8 m s1 =? ld8 m s2) then ld8 m s1 - ld8 m s2
           else memcmp_loop m (s1 + 1) (s2 + 1) n
  end.

Definition memcmp (m : memory) (v1 v2 n : Z) : Z := memcmp_loop m v1 v2 (Z.to_nat (u32 n)).

(** while(n-- > 0) *d++ = *s++; *)
Fixpoint copy_forward (m : memory) (d s : Z) (n : nat) : memory :=
  match n with
  | O => m
  | S n => copy_forward (st8 m d (ld8 m s)) (d + 1) (s + 1) n
  end.

(** while(n-- > 0) *--d = *--s; *)
Fixpoint copy_backward (m : memory) (d s : Z) (n : nat) : memory :=
  match n with
  | O => m
  | S n => copy_backward (st8 m (d - 1) (ld8 m (s - 1))) (d - 1) (s - 1) n
  end.

Definition memmove (m : memory) (dst src n : Z) : memory :=
  let n := u32 n in
  if n =? 0 then m else
  if (src <? dst) && (src + n >? dst)
  then copy_backward m (dst + n) (src + n) (Z.to_nat n)
  else copy_forward m dst src (Z.to_nat n).

Definition memcpy (m : memory) (dst src n : Z) : memory := memmove m dst src n.

(** ** Strings *)

Abbreviation cptr := (nat -> Z).

Definition in_buf (l : list Z) : cptr := fun i => nth i l 0.

Fixpoint strncmp (p q : cptr) (n : nat) : Z :=
  match n with
  | O => 0
  | S n' => if negb (p 0%nat =? 0) && (p 0%nat =? q 0%nat)
            then strncmp (p ∘ S) (q ∘ S) n'
            else u8 (p 0%nat) - u8 (q 0%nat)
  end.

(** The padding loop: n more zero bytes at offset i. *)
Fixpoint strncpy_pad (s : list Z) (i n : nat) : list Z :=
  match n with
  | O => s
  | S n => strncpy_pad (<[i := 0]> s) (S i) n
  end.

Fixpoint strncpy_from (s : list Z) (t : cptr) (i n : nat) : list Z :=
  match n with
  | O => s
  | S n => let s := <[i := t i]> s in
           if t i =? 0 then strncpy_pad s (S i) n else strncpy_from s t (S i) n
  end.

Definition strncpy (s : list Z) (t : cptr) (n : nat) : list Z := strncpy_from s t 0 n.

(** The copy loop and the final terminator, from offset i, with n already
    decremented. *)
Fixpoint safestrcpy_from (s : list Z) (t : cptr) (i n : nat) : list Z :=
  match n with
  | O => <[i := 0]> s
  | S n => let s := <[i := t i]> s in
           if t i =? 0 then <[S i := 0]> s else safestrcpy_from s t (S i) n
  end.

Definition safestrcpy (s : list Z) (t : cptr) (n : nat) : list Z :=
  match n with
  | O => s
  | S n => safestrcpy_from s t 0 n
  end.

Fixpoint strlen_from (s : cptr) (n fuel : nat) : option nat :=
  match fuel with
  | O => None
  | S fuel => if s n =? 0 then Some n else strlen_from s (S n) fuel
  end.

(** strlen(s), run for at most [fuel] bytes. *)
Definition strlen (fuel : nat) (s : cptr) : option nat := strlen_from s 0 fuel.

(** ** Lemmas *)

Lemma ld8_memset_loop m d c n x :
  ld8 (memset_loop m d c n) x = if decide (d <= x < d + Z.of_nat n) then u8 c else ld8 m x.
Proof.
  revert m d. induction n as [|n IH]; intros m d; cbn [memset_loop].
  { rewrite decide_False; [done|lia]. }
  rewrite IH, ld8_st8. repeat case_decide; (done || lia).
Qed.

Lemma ld8_memset m d c n x :
  0 <= n < 2 ^ 32 ->
  ld8 (memset m d c n) x = if decide (d <= x < d + n) then u8 c else ld8 m x.
Proof.
  intros H. unfold memset. rewrite ld8_memset_loop, u32_small, Z2Nat.id by lia. done.
Qed.

Lemma ld8_copy_forward m d s n x :
  ~ (s < d < s + Z.of_nat n) ->
  ld8 (copy_forward m d s n) x =
    if decide (d <= x < d + Z.of_nat n) then ld8 m (s + (x - d)) else ld8 m x.
Proof.
  revert m d s. induction n as [|n IH]; intros m d s H; cbn [copy_forward].
  { rewrite decide_False; [done|lia]. }
  rewrite IH by lia. rewrite !ld8_st8, !u8_ld8. repeat case_decide; try lia; try done; f_equal; lia.
Qed.

Lemma ld8_copy_backward m d s n x :
  s <= d ->
  ld8 (copy_backward m d s n) x =
    if decide (d - Z.of_nat n <= x < d) then ld8 m (s + (x - d)) else ld8 m x.
Proof.
  revert m d s. induction n as [|n IH]; intros m d s H; cbn [copy_backward].
  { rewrite decide_False; [done|lia]. }
  rewrite IH by lia. rewrite !ld8_st8, !u8_ld8. repeat case_decide; try lia; try done; f_equal; lia.
Qed.

(** memmove copies correctly whether or not the ranges overlap. *)
Lemma ld8_memmove m d s n x :
  0 <= n < 2 ^ 32 ->
  ld8 (memmove m d s n) x = if decide (d <= x < d + n) then ld8 m (s + (x - d)) else ld8 m x.
Proof.
  intros H. unfold memmove. rewrite u32_small by lia.
  destruct (n =? 0) eqn:E0. { rewrite decide_False; [done|lia]. }
  destruct ((s <? d) && (s + n >? d)) eqn:E.
  - rewrite ld8_copy_backward, Z2Nat.id by lia.
    repeat case_decide; try lia; try done. f_equal. lia.
  - rewrite ld8_copy_forward, Z2Nat.id by lia. done.
Qed.

Lemma ld_memset_out k m d c n a :
  0 <= n < 2 ^ 32 -> a + Z.of_nat k <= d \/ d + n <= a -> ld k (memset m d c n) a = ld k m a.
Proof.
  intros Hn H. apply ld_ext. intros x Hx. rewrite ld8_memset by done.
  rewrite decide_False; [done|lia].
Qed.

Lemma ld_memset_zero k m d n a :
  0 <= n < 2 ^ 32 -> d <= a -> a + Z.of_nat k <= d + n -> ld k (memset m d 0 n) a = 0.
Proof.
  intros Hn. revert a. induction k as [|k IH]; intros a H1 H2; [by rewrite ld_0|].
  rewrite ld_S, IH by lia. rewrite ld8_memset, decide_True by lia. done.
Qed.

Lemma ld_memmove_out k m d s n a :
  0 <= n < 2 ^ 32 -> a + Z.of_nat k <= d \/ d + n <= a -> ld k (memmove m d s n) a = ld k m a.
Proof.
  intros Hn H. apply ld_ext. intros x Hx. rewrite ld8_memmove by done.
  rewrite decide_False; [done|lia].
Qed.

(** ** Strings *)

Lemma safestrcpy_from_spec s t i n :
  (i + n < length s)%nat ->
  exists k, (i <= k <= i + n)%nat /\ length (safestrcpy_from s t i n) = length s /\
    (forall j, (i <= j < k)%nat -> t j <> 0 /\ safestrcpy_from s t i n !! j = Some (t j)) /\
    safestrcpy_from s t i n !! k = Some 0 /\ (k = (i + n)%nat \/ t k = 0) /\
    (forall j, (j < i \/ i + n < j)%nat -> safestrcpy_from s t i n !! j = s !! j).
Proof.
  revert s i. induction n as [|n IH]; intros s i Hl; cbn [safestrcpy_from].
  - exists i. rewrite length_insert, list_lookup_insert_eq by lia. repeat split; try lia.
    intros j Hj. by rewrite list_lookup_insert_ne by lia.
  - destruct (t i =? 0) eqn:E.
    + exists i. rewrite !length_insert. repeat split; try lia.
      * rewrite list_lookup_insert_ne, list_lookup_insert_eq by lia. f_equal. lia.
      * intros j Hj. by rewrite !list_lookup_insert_ne by lia.
    + destruct (IH (<[i := t i]> s) (S i)) as (k & Hk & H1 & H2 & H3 & H4 & H5);
        [by rewrite length_insert; lia|].
      exists k. rewrite H1, length_insert. split; [lia|]. split; [done|]. split; [|split; [done|split]].
      * intros j Hj. destruct (decide (j = i)) as [->|Hne]; [|apply H2; lia].
        rewrite H5, list_lookup_insert_eq by lia. split; [lia|done].
      * lia.
      * intros j Hj. rewrite H5, list_lookup_insert_ne by lia. done.
Qed.

Arguments memset : simpl never.
Arguments memmove : simpl never.
#[global] Opaque memset memmove.

(** memmove() copies a range of bytes correctly however source and
    destination overlap: afterwards each byte of the destination is the byte the
    source held before the call, and no other byte has changed. *)
Theorem memmove_overlap m dst src n x :
  0 <= n < 2 ^ 32 ->
  ld8 (memmove m dst src n) x =
    if decide (dst <= x < dst + n) then ld8 m (src + (x - dst)) else ld8 m x.
Proof. apply ld8_memmove. Qed.

Lemma memmove_overlap_witness :
  ld8 (memmove (st8 (st8 ∅ 100 7) 101 8) 101 100 2) 102 = 8.
Proof.
  rewrite (memmove_overlap (st8 (st8 ∅ 100 7) 101 8) 101 100 2 102 ltac:(lia)). by vm_compute.
Defined.

(** safestrcpy() into a buffer of at least n > 0 bytes always leaves a
    NUL-terminated string in its first n bytes: the longest prefix of the source
    that fits in n - 1 bytes and contains no NUL, then a NUL; the bytes from n on
    are untouched. *)
Theorem safestrcpy_terminated s t n :
  (0 < n <= length s)%nat ->
  exists k, (k < n)%nat /\
    (forall j, (j < k)%nat -> t j <> 0 /\ safestrcpy s t n !! j = Some (t j)) /\
    safestrcpy s t n !! k = Some 0 /\ (k = (n - 1)%nat \/ t k = 0) /\
    (forall j, (n <= j)%nat -> safestrcpy s t n !! j = s !! j) /\
    length (safestrcpy s t n) = length s.
Proof.
  intros H. destruct n as [|n]; [lia|]. unfold safestrcpy.
  destruct (safestrcpy_from_spec s t 0 n) as (k & Hk & H1 & H2 & H3 & H4 & H5); [lia|].
  exists k. repeat split; try done; try lia.
  - apply H2. lia.
  - apply H2. lia.
  - intros j Hj. apply H5. lia.
Qed.

Lemma safestrcpy_terminated_witness :
  exists k, (k < 3)%nat /\ safestrcpy [1; 1; 1; 1] (in_buf [104; 105; 33; 0]) 3 !! k = Some 0.
Proof.
  destruct (safestrcpy_terminated [1; 1; 1; 1] (in_buf [104; 105; 33; 0]) 3 ltac:(cbn; lia))
    as (k & Hk & _ & H & _).
  exists k. exact (conj Hk H).
Defined.

(** strncmp(p, q, n) is zero exactly when the two strings agree up to their
    first NUL or up to n bytes, whichever comes first. *)
Theorem strncmp_zero p q n :
  (forall i, 0 <= p i < 256 /\ 0 <= q i < 256) ->
  strncmp p q n = 0 <->
  (forall i, (i < n)%nat -> (forall j, (j < i)%nat -> p j <> 0) -> p i = q i).
Proof.
  revert p q. induction n as [|n IH]; intros p q Hb; cbn [strncmp]; [split; [lia|done]|].
  destruct (Hb 0%nat) as [Hp Hq].
  assert (u8 (p 0%nat) = p 0%nat /\ u8 (q 0%nat) = q 0%nat) as [Ep Eq]
    by (split; apply Z.mod_small; lia).
  destruct (p 0%nat =? 0) eqn:E0; cbn [negb andb].
  - rewrite Ep, Eq. split.
    + intros H i Hi Hj. destruct i as [|i]; [lia|]. specialize (Hj 0%nat). lia.
    + intros H. rewrite (H 0%nat); [lia|lia|lia].
  - destruct (p 0%nat =? q 0%nat) eqn:E1.
    + rewrite IH by (intros i; apply Hb). split.
      * intros H [|i] Hi Hj; [lia|]. apply H; [lia|]. intros j ?. apply (Hj (S j)). lia.
      * intros H i Hi Hj. apply (H (S i)); [lia|]. intros [|j] ?; [lia|]. apply Hj. lia.
    + rewrite Ep, Eq. split; [lia|]. intros H. rewrite (H 0%nat); [lia|lia|lia].
Qed.

Lemma strncmp_zero_witness : strncmp (in_buf [97; 0; 98]) (in_buf [97; 0; 99]) 3 = 0.
Proof.
  apply (strncmp_zero (in_buf [97; 0; 98]) (in_buf [97; 0; 99]) 3).
  - intros [|[|[|[|]]]]; cbn; lia.
  - intros i Hi Hj. destruct i as [|[|[|]]]; [done|done| |lia].
    exfalso. apply (Hj 1%nat); [lia|done].
Defined.
