(* ===== verification/Kalloc.v ===== *)
(** kernel/kalloc.c: the physical page allocator.

    Free pages form a linked list threaded through the pages themselves.
    [free_pages s l] says that the list starting at [kmem.freelist] visits
    exactly the pages of [l]; [kalloc] and [kfree] are then the pop and the push
    of that list, and touch no memory but the page concerned. *)
From S2P Require Import Prelude Riscv Machine Spinlock KString.

Section Kalloc.
Context {F : Type} `{L : Layout}.
Abbreviation KM := (K (kstate F)).
Implicit Types s : kstate F.

Definition kfree (pa : Z) : KM unit :=
  if negb (pa `mod` PGSIZE =? 0) || (pa <? kend) || (pa >=? PHYSTOP) then panic "kfree" else
  modify (upd_mem (fun m => memset m pa 1 PGSIZE)) ;;
  acquire L_kmem ;;
  next <- gets k_freelist ;;
  modify (upd_mem (fun m => st64 m pa next)) ;;
  modify (set_k_freelist pa) ;;
  release L_kmem.

Definition kalloc : KM Z :=
  acquire L_kmem ;;
  r <- gets k_freelist ;;
  when negb (r =? 0) do modify (fun s => set_k_freelist (ld64 (k_mem s) r) s) ;;
  release L_kmem ;;
  when negb (r =? 0) do modify (upd_mem (fun m => memset m r 5 PGSIZE)) ;;
  ret r.

Fixpoint freerange_loop (fuel : nat) (p pa_end : Z) : KM unit :=
  match fuel with
  | O => out_of_fuel
  | S fuel => if p + PGSIZE <=? pa_end
              then kfree p ;; freerange_loop fuel (p + PGSIZE) pa_end
              else ret tt
  end.

(** One unit of fuel per page of the range, and one for the exit test. *)
Definition freerange (pa_start pa_end : Z) : KM unit :=
  let p := PGROUNDUP pa_start in
  freerange_loop (S (Z.to_nat ((pa_end - p) / PGSIZE))) p pa_end.

Definition kinit : KM unit :=
  initlock L_kmem "kmem" ;;
  freerange kend PHYSTOP.

(** ** The free list *)

Definition is_page (p : Z) : Prop := p `mod` PGSIZE = 0 /\ kend <= p < PHYSTOP.

Fixpoint chain (m : memory) (head : Z) (l : list Z) : Prop :=
  match l with
  | [] => head = 0
  | p :: l => head = p /\ chain m (ld64 m p) l
  end.

Definition free_pages (s : kstate F) (l : list Z) : Prop :=
  chain (k_mem s) (k_freelist s) l /\ NoDup l /\ Forall is_page l.

(** [s'] is [s] but for memory, the list head and the scratch field that a
    balanced critical section writes. *)
Definition mem_step (s s' : kstate F) : Prop :=
  exists m fl t, (t = s \/ t = settle s) /\ s' = set_k_freelist fl (set_k_mem m t).

Lemma mem_step_refl s : mem_step s s.
Proof. exists (k_mem s), (k_freelist s), s. split; [by left|]. by destruct s. Qed.

Lemma settle_set_mem m fl s :
  settle (set_k_freelist fl (set_k_mem m s)) = set_k_freelist fl (set_k_mem m (settle s)).
Proof. done. Qed.

Lemma mem_step_trans s1 s2 s3 : mem_step s1 s2 -> mem_step s2 s3 -> mem_step s1 s3.
Proof.
  intros (m & fl & t & Ht & ->) (m' & fl' & t' & Ht' & ->).
  exists m', fl'. destruct Ht' as [-> | ->].
  - exists t. done.
  - exists (settle t). rewrite settle_set_mem. split; [|done].
    destruct Ht as [-> | ->]; [by right|]. right. apply settle_settle.
Qed.

Lemma mem_step_mem m s : mem_step s (set_k_mem m s).
Proof. exists m, (k_freelist s), s. split; [by left|]. by destruct s. Qed.

Lemma mem_step_settle s : mem_step s (settle s).
Proof. exists (k_mem s), (k_freelist s), (settle s). split; [by right|]. by destruct s. Qed.

(** Everything but memory is the same after a [mem_step]. *)
Lemma mem_step_rest s s' :
  mem_step s s' ->
  k_procs s' = k_procs s /\ k_shmem s' = k_shmem s /\ k_locks s' = k_locks s /\
  k_hart s' = k_hart s /\ k_sie s' = k_sie s /\ k_files s' = k_files s /\
  k_pipes s' = k_pipes s /\ k_fs s' = k_fs s /\ k_ticks s' = k_ticks s /\
  k_initproc s' = k_initproc s /\ k_nextpid s' = k_nextpid s /\ k_out s' = k_out s.
Proof. by intros (m & fl & t & [-> | ->] & ->). Qed.

Lemma mem_step_cpu s s' :
  mem_step s s' -> cpu_ok s ->
  cpu_ok s' /\ c_proc (get_cpu s') = c_proc (get_cpu s) /\ c_noff (get_cpu s') = c_noff (get_cpu s).
Proof.
  intros (m & fl & t & Ht & ->) Hok.
  change (cpu_ok t /\ c_proc (get_cpu t) = c_proc (get_cpu s) /\
          c_noff (get_cpu t) = c_noff (get_cpu s)).
  destruct Ht as [-> | ->]; [done|]. split; [by apply cpu_ok_settle|].
  by rewrite get_cpu_settle by apply Hok.
Qed.

Lemma mem_step_cpu_ok s s' : mem_step s s' -> cpu_ok s -> cpu_ok s'.
Proof. intros H Hok. by destruct (mem_step_cpu s s' H Hok). Qed.

Lemma mem_step_lock l s s' : mem_step s s' -> lock_free l s -> lock_free l s'.
Proof. intros H [name E]. exists name. apply mem_step_rest in H. by destruct H as (_&_&->&_). Qed.

Lemma mem_step_settle_l s s' : mem_step s s' -> mem_step s (settle s').
Proof. intros H. eapply mem_step_trans; [done|]. apply mem_step_settle. Qed.

Lemma chain_ext m m' head l :
  (forall p, p ∈ l -> ld64 m' p = ld64 m p) -> chain m head l -> chain m' head l.
Proof.
  revert head. induction l as [|p l IH]; intros head H; [done|].
  intros [-> Hc]. split; [done|]. rewrite H by (by left). apply IH; [|done].
  intros q Hq. apply H. by right.
Qed.

Lemma is_page_disjoint p q :
  is_page p -> is_page q -> p <> q -> p + PGSIZE <= q \/ q + PGSIZE <= p.
Proof.
  intros [Hp _] [Hq _] Hne. unfold PGSIZE in *.
  pose proof (Z.div_mod p 4096). pose proof (Z.div_mod q 4096). lia.
Qed.

(** Writing inside a page that is not free does not disturb the list. *)
Lemma chain_write m m' head l p :
  Forall is_page l -> is_page p -> p ∉ l ->
  (forall x, ~ (p <= x < p + PGSIZE) -> ld8 m' x = ld8 m x) ->
  chain m head l -> chain m' head l.
Proof.
  intros Hl Hp Hnin Hx. apply chain_ext. intros q Hq. apply ld_ext. intros x Hxq. apply Hx.
  rewrite Forall_forall in Hl. pose proof (Hl q Hq).
  assert (p <> q) by (by intros ->).
  destruct (is_page_disjoint p q) as [?|?]; [done..| |]; unfold PGSIZE in *; lia.
Qed.

Lemma is_page_nonzero `{!LayoutOk L} p : is_page p -> p <> 0.
Proof. intros [_ H]. pose proof kend_ram. unfold KERNBASE in *. lia. Qed.

Lemma is_page_bounds `{!LayoutOk L} p :
  is_page p -> p `mod` PGSIZE = 0 /\ KERNBASE < p /\ p + PGSIZE <= PHYSTOP.
Proof.
  intros [Hal Hr]. pose proof kend_ram. split; [done|]. unfold PGSIZE, PHYSTOP, KERNBASE in *.
  pose proof (Z.div_mod p 4096). lia.
Qed.

(** ** kalloc and kfree as operations on the list of free pages *)

Lemma kalloc_cons `{!LayoutOk L} s p l :
  cpu_ok s -> lock_free L_kmem s -> free_pages s (p :: l) ->
  exists s', kalloc s = Ret p s' /\ mem_step s s' /\ free_pages s' l /\
             k_mem s' = memset (k_mem s) p 5 PGSIZE.
Proof.
  intros Hok Hl ((Hh & Hc) & Hnd & Hp).
  apply NoDup_cons in Hnd as [Hnin Hnd]. apply Forall_cons in Hp as [Hp Hall].
  pose proof (is_page_nonzero p Hp) as Hnz.
  exists (upd_mem (fun m => memset m p 5 PGSIZE) (settle (set_k_freelist (ld64 (k_mem s) p) s))).
  split; [|split; [|split]].
  - unfold kalloc. rewrite (kbind_Ret _ _ _ _ _ (acquire_free _ s Hok Hl)).
    unfold kbind at 1, gets. cbn [obind]. change (k_freelist (hold L_kmem s)) with (k_freelist s).
    rewrite Hh. destruct (p =? 0) eqn:E; [lia|]. cbn [negb].
    set (s1 := set_k_freelist (ld64 (k_mem s) p) s).
    rewrite (kbind_Ret _ _ _ tt (hold L_kmem s1)) by kret.
    rewrite (kbind_Ret _ _ _ _ _ (release_hold L_kmem s1 Hok Hl)). done.
  - eapply mem_step_trans; [|apply mem_step_mem].
    exists (k_mem s), (ld64 (k_mem s) p), (settle s). split; [by right|]. by destruct s.
  - split; [|done]. cbn. apply (chain_write (k_mem s) _ _ l p); [done|done|done| |done].
    intros x Hx. rewrite ld8_memset, decide_False by (unfold PGSIZE in *; lia). done.
  - done.
Qed.

Lemma kalloc_nil s :
  cpu_ok s -> lock_free L_kmem s -> free_pages s [] -> kalloc s = Ret 0 (settle s).
Proof.
  intros Hok Hl (Hh & _). unfold kalloc.
  rewrite (kbind_Ret _ _ _ _ _ (acquire_free _ s Hok Hl)).
  unfold kbind at 1, gets. cbn [obind]. change (k_freelist (hold L_kmem s)) with (k_freelist s).
  cbn in Hh. rewrite Hh. cbn [Z.eqb negb].
  rewrite (kbind_Ret _ _ _ tt (hold L_kmem s)) by done.
  rewrite (kbind_Ret _ _ _ _ _ (release_hold L_kmem _ Hok Hl)). done.
Qed.

Lemma kfree_page `{!LayoutOk L} s p l :
  cpu_ok s -> lock_free L_kmem s -> free_pages s l -> is_page p -> p ∉ l ->
  exists s', kfree p s = Ret tt s' /\ mem_step s s' /\ free_pages s' (p :: l) /\
             (forall x, ~ (p <= x < p + PGSIZE) -> ld8 (k_mem s') x = ld8 (k_mem s) x).
Proof.
  intros Hok Hl (Hc & Hnd & Hall) Hp Hnin.
  set (m' := st64 (memset (k_mem s) p 1 PGSIZE) p (k_freelist s)).
  exists (settle (set_k_freelist p (set_k_mem m' s))).
  assert (forall x, ~ (p <= x < p + PGSIZE) -> ld8 m' x = ld8 (k_mem s) x) as Hout.
  { intros x Hx. unfold m'. rewrite ld8_st_out by (unfold PGSIZE in *; lia).
    rewrite ld8_memset, decide_False by (unfold PGSIZE in *; lia). done. }
  split; [|split; [|split]].
  - unfold kfree. destruct Hp as [Hal Hr].
    destruct (p `mod` PGSIZE =? 0) eqn:E; [|lia]. destruct (p <? kend) eqn:E1; [lia|].
    destruct (p >=? PHYSTOP) eqn:E2; [lia|]. cbn [negb orb].
    rewrite (kbind_Ret _ _ s tt (set_k_mem (memset (k_mem s) p 1 PGSIZE) s)) by kret.
    set (s1 := set_k_mem _ s).
    rewrite (kbind_Ret _ _ _ _ _ (acquire_free L_kmem s1 Hok Hl)).
    rewrite (kbind_Ret _ _ _ (k_freelist s) (hold L_kmem s1)) by done.
    rewrite (kbind_Ret _ _ _ tt (hold L_kmem (set_k_mem m' s))) by kret.
    rewrite (kbind_Ret _ _ _ tt (hold L_kmem (set_k_freelist p (set_k_mem m' s)))) by kret.
    by apply release_hold.
  - exists m', p, (settle s). split; [by right|]. kst.
  - split; [|split; [by constructor|by constructor]]. cbn. split; [done|].
    replace (ld64 m' p) with (k_freelist s).
    + by apply (chain_write (k_mem s) _ _ l p).
    + unfold m'. rewrite ld_st_same. symmetry. apply Z.mod_small.
      change (2 ^ (8 * Z.of_nat 8)) with (2 ^ 64).
      destruct l as [|q l]; cbn in Hc; [lia|]. destruct Hc as [-> _].
      apply Forall_cons in Hall as [[_ ?] _]. pose proof kend_ram.
      unfold PHYSTOP, KERNBASE in *. lia.
  - done.
Qed.

Lemma kfree_bad s pa :
  ~ is_page pa -> kfree pa s = Panic "kfree" s.
Proof.
  intros H. unfold kfree.
  destruct (negb (pa `mod` PGSIZE =? 0) || (pa <? kend) || (pa >=? PHYSTOP)) eqn:E; [done|].
  destruct H. split; lia.
Qed.

(** ** Boot *)

(** The pages freerange visits, first to last. *)
Fixpoint pages_from (p : Z) (n : nat) : list Z :=
  match n with
  | O => []
  | S n => p :: pages_from (p + PGSIZE) n
  end.

Lemma pages_from_elem p n x : x ∈ pages_from p n -> p <= x < p + Z.of_nat n * PGSIZE.
Proof.
  revert p. induction n as [|n IH]; intros p H; cbn in H; [by apply not_elem_of_nil in H|].
  unfold PGSIZE in *. apply elem_of_cons in H as [->|H]; [lia|]. specialize (IH _ H). lia.
Qed.

Lemma pages_from_iff p n x :
  p `mod` PGSIZE = 0 ->
  x ∈ pages_from p n <-> x `mod` PGSIZE = 0 /\ p <= x < p + Z.of_nat n * PGSIZE.
Proof.
  revert p. induction n as [|n IH]; intros p Hp; cbn [pages_from].
  - rewrite elem_of_nil. lia.
  - rewrite elem_of_cons, IH by (by apply aligned_next). unfold PGSIZE in *.
    pose proof (Z.div_mod x 4096). pose proof (Z.div_mod p 4096).
    split; [intros [->|H']; [split; [done|lia]|lia]|].
    intros [Hx Hr]. destruct (decide (x = p)); [by left|right]. split; [done|lia].
Qed.

Lemma freerange_loop_spec `{!LayoutOk L} s l p n pa_end fuel :
  cpu_ok s -> lock_free L_kmem s -> free_pages s l ->
  p `mod` PGSIZE = 0 -> kend <= p -> pa_end <= PHYSTOP ->
  p + Z.of_nat n * PGSIZE <= pa_end < p + (Z.of_nat n + 1) * PGSIZE ->
  (forall x, x ∈ l -> x < p) -> (n < fuel)%nat ->
  exists s', freerange_loop fuel p pa_end s = Ret tt s' /\ mem_step s s' /\
             free_pages s' (rev (pages_from p n) ++ l).
Proof.
  revert s l p fuel. induction n as [|n IH]; intros s l p fuel Hok Hl Hf Hal Hlo Hhi Hn Hlt Hfu;
    (destruct fuel as [|fuel]; [lia|]); cbn [freerange_loop].
  - destruct (p + PGSIZE <=? pa_end) eqn:E; [unfold PGSIZE in *; lia|].
    exists s. split; [done|]. split; [apply mem_step_refl|done].
  - destruct (p + PGSIZE <=? pa_end) eqn:E; [|unfold PGSIZE in *; lia].
    destruct (kfree_page s p l) as (s1 & E1 & Hm1 & Hf1 & _); [done..| |  |].
    { split; [done|]. unfold PGSIZE in *. lia. }
    { intros Hin. apply Hlt in Hin. lia. }
    rewrite (kbind_Ret _ _ _ _ _ E1).
    destruct (IH s1 (p :: l) (p + PGSIZE) fuel) as (s2 & E2 & Hm2 & Hf2).
    { by eapply mem_step_cpu_ok. }
    { by eapply mem_step_lock. }
    { done. }
    { by apply aligned_next. }
    { unfold PGSIZE in *. lia. }
    { done. }
    { unfold PGSIZE in *. lia. }
    { intros x [->|Hx]%elem_of_cons; [unfold PGSIZE; lia|]. apply Hlt in Hx. unfold PGSIZE. lia. }
    { lia. }
    exists s2. split; [done|]. split; [by eapply mem_step_trans|].
    cbn. by rewrite <- app_assoc.
Qed.
End Kalloc.

(** C21: Allocation. With a non-empty free list kalloc() returns its first page
    filled with the byte 5, and the page is no longer on the list; freeing it
    again restores the list. With an empty list kalloc() returns 0 and changes
    nothing. No page that is still on the free list is ever returned. *)
Theorem kalloc_kfree {F} `{L : Layout} `{!LayoutOk L} (s : kstate F) l :
  cpu_ok s -> lock_free L_kmem s -> free_pages s l ->
  match l with
  | [] => kalloc s = Ret 0 (settle s)
  | p :: l' =>
      exists s', kalloc s = Ret p s' /\ is_page p /\ (p ∉ l') /\ free_pages s' l' /\
        (forall x, ld8 (k_mem s') x = if decide (p <= x < p + PGSIZE) then 5 else ld8 (k_mem s) x) /\
        exists s'', kfree p s' = Ret tt s'' /\ free_pages s'' l
  end.
Proof.
  intros Hok Hl Hf. destruct l as [|p l]; [by apply kalloc_nil|].
  destruct (kalloc_cons s p l Hok Hl Hf) as (s' & E & Hm & Hf' & Em).
  destruct Hf as (_ & [Hnin _]%NoDup_cons & [Hp _]%Forall_cons).
  destruct (kfree_page s' p l) as (s'' & E' & _ & Hf'' & _);
    [by eapply mem_step_cpu_ok|by eapply mem_step_lock|assumption..|].
  exists s'. split; [assumption|]. split; [assumption|]. split; [assumption|]. split; [assumption|].
  split; [|exists s''; split; assumption].
  intros x. rewrite Em, ld8_memset by (unfold PGSIZE; lia). reflexivity.
Qed.

(** C22: Boot. kinit() puts exactly the page-aligned frames between the end of
    the kernel image and PHYSTOP on the free list, each once. *)
Theorem kinit_all_pages {F} `{L : Layout} `{!LayoutOk L} (s : kstate F) :
  cpu_ok s -> k_freelist s = 0 ->
  exists s' l, kinit s = Ret tt s' /\ free_pages s' l /\ (forall p, p ∈ l <-> is_page p).
Proof.
  intros Hok Hf. unfold kinit. pose proof kend_ram as Hk.
  destruct (PGROUNDUP_bounds kend) as [Hal Hb]; [unfold PHYSTOP, KERNBASE, PGSIZE in *; lia|].
  set (p0 := PGROUNDUP kend) in *. set (n := Z.to_nat ((PHYSTOP - p0) / PGSIZE)).
  assert (p0 + Z.of_nat n * PGSIZE = PHYSTOP) as Hn.
  { assert ((PHYSTOP - p0) `mod` PGSIZE = 0) as Hm by by rewrite Zminus_mod, Hal.
    assert (p0 <= PHYSTOP).
    { unfold PGSIZE, PHYSTOP, KERNBASE in *. pose proof (Z.div_mod p0 4096). lia. }
    unfold n, PGSIZE in *. pose proof (Z.div_mod (PHYSTOP - p0) 4096). lia. }
  set (s1 := set_k_locks (<[L_kmem := mkspinlock false (Some "kmem"%string) None]> (k_locks s)) s).
  rewrite (kbind_Ret _ _ s tt s1) by done.
  destruct (freerange_loop_spec s1 [] p0 n PHYSTOP (S n)) as (s' & E & _ & Hf');
    [done|eexists; apply lookup_insert_eq|by split_and!; [|constructor|]|done|lia|lia
    |unfold PGSIZE in *; lia|intros x Hx; by apply not_elem_of_nil in Hx|lia|].
  exists s', (rev (pages_from p0 n) ++ []). split; [done|]. split; [done|].
  intros p. rewrite app_nil_r, elem_of_rev, pages_from_iff by done. unfold is_page.
  pose proof (Z.div_mod p PGSIZE). pose proof (Z.div_mod p0 PGSIZE).
  split; intros [Hp Hr]; (split; [done|]); unfold PGSIZE in *; lia.
Qed.
