(* ===== verification/Vm.v ===== *)
(** kernel/vm.c: page tables and user address spaces.

    The definitions translate the file function by function; a PTE pointer is
    the physical address of the PTE. [PageTable.v] relates them to the address
    space a page table stands for. *)
From S2P Require Import Prelude Riscv Machine Spinlock KString Kalloc.

Section Vm.
Context {F : Type} `{L : Layout}.
Abbreviation KM := (K (kstate F)).

Definition load64 (a : Z) : KM Z := gets (fun s => ld64 (k_mem s) a).
Definition store64 (a v : Z) : KM unit := modify (upd_mem (fun m => st64 m a v)).
Definition do_memset (dst c n : Z) : KM unit := modify (upd_mem (fun m => memset m dst c n)).
Definition do_memmove (dst src n : Z) : KM unit := modify (upd_mem (fun m => memmove m dst src n)).

(** The loop of walk(), from [level] down to 1. *)
Fixpoint walk_loop (level : nat) (pagetable va : Z) (alloc : bool) : KM Z :=
  match level with
  | O => ret (pagetable + 8 * PX 0 va)
  | S below =>
      let pte := pagetable + 8 * PX level va in
      v <- load64 pte ;;
      if has_flag v PTE_V then walk_loop below (PTE2PA v) va alloc
      else if negb alloc then ret 0
      else pagetable <- kalloc ;;
           if pagetable =? 0 then ret 0
           else do_memset pagetable 0 PGSIZE ;;
                store64 pte (Z.lor (PA2PTE pagetable) PTE_V) ;;
                walk_loop below pagetable va alloc
  end.

Definition walk (pagetable va : Z) (alloc : bool) : KM Z :=
  if va >=? MAXVA then panic "walk" else walk_loop 2 pagetable va alloc.

Definition walkaddr (pagetable va : Z) : KM Z :=
  if va >=? MAXVA then ret 0 else
  pte <- walk pagetable va false ;;
  if pte =? 0 then ret 0 else
  v <- load64 pte ;;
  if negb (has_flag v PTE_V) then ret 0 else
  if negb (has_flag v PTE_U) then ret 0 else
  ret (PTE2PA v).

Fixpoint mappages_loop (fuel : nat) (pagetable a last pa perm : Z) : KM Z :=
  match fuel with
  | O => out_of_fuel
  | S fuel =>
      pte <- walk pagetable a true ;;
      if pte =? 0 then ret (-1) else
      v <- load64 pte ;;
      if has_flag v PTE_V then panic "mappages: remap" else
      store64 pte (Z.lor (Z.lor (PA2PTE pa) perm) PTE_V) ;;
      if a =? last then ret 0
      else mappages_loop fuel pagetable (u64 (a + PGSIZE)) last (u64 (pa + PGSIZE)) perm
  end.

(** One unit of fuel per page from [va] to [va + size - 1]. *)
Definition mappages (pagetable va size pa perm : Z) : KM Z :=
  if size =? 0 then panic "mappages: size" else
  let a := PGROUNDDOWN va in
  let last := PGROUNDDOWN (u64 (va + size - 1)) in
  mappages_loop (S (Z.to_nat ((last - a) / PGSIZE))) pagetable a last pa perm.

Definition kvmmap (kpgtbl va pa sz perm : Z) : KM unit :=
  r <- mappages kpgtbl va sz pa perm ;;
  when negb (r =? 0) do panic "kvmmap".

Fixpoint uvmunmap_loop (fuel : nat) (pagetable a stop : Z) (do_free : bool) : KM unit :=
  match fuel with
  | O => out_of_fuel
  | S fuel =>
      if negb (a <? stop) then ret tt else
      pte <- walk pagetable a false ;;
      if pte =? 0 then panic "uvmunmap: walk" else
      v <- load64 pte ;;
      if negb (has_flag v PTE_V) then panic "uvmunmap: not mapped" else
      if PTE_FLAGS v =? PTE_V then panic "uvmunmap: not a leaf" else
      when do_free do kfree (PTE2PA v) ;;
      store64 pte 0 ;;
      uvmunmap_loop fuel pagetable (u64 (a + PGSIZE)) stop do_free
  end.

Definition uvmunmap (pagetable va npages : Z) (do_free : bool) : KM unit :=
  if negb (va `mod` PGSIZE =? 0) then panic "uvmunmap: not aligned" else
  uvmunmap_loop (S (Z.to_nat npages)) pagetable va (u64 (va + npages * PGSIZE)) do_free.

Definition uvmcreate : KM Z :=
  pagetable <- kalloc ;;
  if pagetable =? 0 then ret 0 else
  do_memset pagetable 0 PGSIZE ;;
  ret pagetable.

(** memmove(dst, src, n) from a kernel object given by its bytes. *)
Fixpoint write_bytes (m : memory) (a : Z) (bs : list Z) : memory :=
  match bs with
  | [] => m
  | b :: bs => write_bytes (st8 m a b) (a + 1) bs
  end.

(** The [n] bytes at [a]. *)
Fixpoint read_bytes (m : memory) (a : Z) (n : nat) : list Z :=
  match n with
  | O => []
  | S n => ld8 m a :: read_bytes m (a + 1) n
  end.

Definition uvmfirst (pagetable : Z) (src : list Z) : KM unit :=
  if Z.of_nat (length src) >=? PGSIZE then panic "uvmfirst: more than a page" else
  mem <- kalloc ;;
  do_memset mem 0 PGSIZE ;;
  mappages pagetable 0 PGSIZE mem (Z.lor (Z.lor (Z.lor PTE_W PTE_R) PTE_X) PTE_U) ;;
  modify (upd_mem (fun m => write_bytes m mem src)).

Definition uvmdealloc (pagetable oldsz newsz : Z) : KM Z :=
  if newsz >=? oldsz then ret oldsz else
  (if PGROUNDUP newsz <? PGROUNDUP oldsz then
     let npages := s32 (u64 (PGROUNDUP oldsz - PGROUNDUP newsz) / PGSIZE) in
     uvmunmap pagetable (PGROUNDUP newsz) (u64 npages) true
   else ret tt) ;;
  ret newsz.

Fixpoint uvmalloc_loop (fuel : nat) (pagetable a oldsz newsz xperm : Z) : KM Z :=
  match fuel with
  | O => out_of_fuel
  | S fuel =>
      if negb (a <? newsz) then ret newsz else
      mem <- kalloc ;;
      if mem =? 0 then uvmdealloc pagetable a oldsz ;; ret 0 else
      do_memset mem 0 PGSIZE ;;
      r <- mappages pagetable a PGSIZE mem (Z.lor (Z.lor PTE_R PTE_U) xperm) ;;
      if negb (r =? 0) then kfree mem ;; uvmdealloc pagetable a oldsz ;; ret 0
      else uvmalloc_loop fuel pagetable (u64 (a + PGSIZE)) oldsz newsz xperm
  end.

(** One unit of fuel per page to allocate, and one for the exit test. *)
Definition uvmalloc (pagetable oldsz newsz xperm : Z) : KM Z :=
  if newsz <? oldsz then ret oldsz else
  let oldsz := PGROUNDUP oldsz in
  uvmalloc_loop (S (Z.to_nat ((newsz - oldsz + 4095) / PGSIZE))) pagetable oldsz oldsz newsz xperm.

(** The recursion is bounded by the three levels of Sv39. *)
Fixpoint freewalk_level (levels : nat) (pagetable : Z) : KM unit :=
  match levels with
  | O => out_of_fuel
  | S levels =>
      for_ 0 512 (fun i =>
        pte <- load64 (pagetable + 8 * Z.of_nat i) ;;
        if has_flag pte PTE_V && negb (has_flag pte (Z.lor (Z.lor PTE_R PTE_W) PTE_X)) then
          freewalk_level levels (PTE2PA pte) ;;
          store64 (pagetable + 8 * Z.of_nat i) 0
        else when has_flag pte PTE_V do panic "freewalk: leaf") ;;
      kfree pagetable
  end.

Definition freewalk (pagetable : Z) : KM unit := freewalk_level 3 pagetable.

Definition uvmfree (pagetable sz : Z) : KM unit :=
  when sz >? 0 do uvmunmap pagetable 0 (PGROUNDUP sz / PGSIZE) true ;;
  freewalk pagetable.

Fixpoint uvmcopy_loop (fuel : nat) (old new i sz : Z) : KM Z :=
  match fuel with
  | O => out_of_fuel
  | S fuel =>
      if negb (i <? sz) then ret 0 else
      pte <- walk old i false ;;
      if pte =? 0 then panic "uvmcopy: pte should exist" else
      v <- load64 pte ;;
      if negb (has_flag v PTE_V) then panic "uvmcopy: page not present" else
      let pa := PTE2PA v in
      let flags := PTE_FLAGS v in
      mem <- kalloc ;;
      if mem =? 0 then uvmunmap new 0 (i / PGSIZE) true ;; ret (-1) else
      do_memmove mem pa PGSIZE ;;
      r <- mappages new i PGSIZE mem flags ;;
      if negb (r =? 0) then kfree mem ;; uvmunmap new 0 (i / PGSIZE) true ;; ret (-1)
      else uvmcopy_loop fuel old new (u64 (i + PGSIZE)) sz
  end.

Definition uvmcopy (old new sz : Z) : KM Z :=
  uvmcopy_loop (S (Z.to_nat ((sz + 4095) / PGSIZE))) old new 0 sz.

Definition uvmclear (pagetable va : Z) : KM unit :=
  pte <- walk pagetable va false ;;
  if pte =? 0 then panic "uvmclear" else
  v <- load64 pte ;;
  store64 pte (Z.land v (Z.lnot PTE_U)).

Fixpoint copyout_loop (fuel : nat) (pagetable dstva : Z) (src : list Z) : KM Z :=
  match fuel with
  | O => out_of_fuel
  | S fuel =>
      let len := Z.of_nat (length src) in
      if negb (len >? 0) then ret 0 else
      let va0 := PGROUNDDOWN dstva in
      pa0 <- walkaddr pagetable va0 ;;
      if pa0 =? 0 then ret (-1) else
      let n := Z.min (PGSIZE - (dstva - va0)) len in
      modify (upd_mem (fun m => write_bytes m (pa0 + (dstva - va0)) (take (Z.to_nat n) src))) ;;
      copyout_loop fuel pagetable (u64 (va0 + PGSIZE)) (drop (Z.to_nat n) src)
  end.

(** copyout(pagetable, dstva, src, len), with the source given by its bytes.
    Every iteration but the first starts on a page boundary, so it consumes a
    whole page or all that is left. *)
Definition copyout (pagetable dstva : Z) (src : list Z) : KM Z :=
  copyout_loop (S (S (length src))) pagetable dstva src.

Fixpoint copyin_loop (fuel : nat) (pagetable srcva len : Z) (dst : list Z) : KM (Z * list Z) :=
  match fuel with
  | O => out_of_fuel
  | S fuel =>
      if negb (len >? 0) then ret (0, dst) else
      let va0 := PGROUNDDOWN srcva in
      pa0 <- walkaddr pagetable va0 ;;
      if pa0 =? 0 then ret (-1, dst) else
      let n := Z.min (PGSIZE - (srcva - va0)) len in
      bs <- gets (fun s => read_bytes (k_mem s) (pa0 + (srcva - va0)) (Z.to_nat n)) ;;
      copyin_loop fuel pagetable (u64 (va0 + PGSIZE)) (len - n) (dst ++ bs)
  end.

(** copyin(pagetable, dst, srcva, len): the status, and the bytes stored to
    [dst] (all [len] of them on success, a prefix on failure). *)
Definition copyin (pagetable srcva len : Z) : KM (Z * list Z) :=
  copyin_loop (S (S (Z.to_nat len))) pagetable srcva len [].

(** The inner loop of copyinstr: scan at most [n] bytes at [p]; the bytes
    stored, and whether a NUL was among them. *)
Fixpoint copyinstr_scan (m : memory) (p : Z) (n : nat) : list Z * bool :=
  match n with
  | O => ([], false)
  | S n => if ld8 m p =? 0 then ([0], true)
           else let '(bs, got_null) := copyinstr_scan m (p + 1) n in (ld8 m p :: bs, got_null)
  end.

Fixpoint copyinstr_loop (fuel : nat) (pagetable srcva max : Z) (dst : list Z) : KM (Z * list Z) :=
  match fuel with
  | O => out_of_fuel
  | S fuel =>
      if negb (max >? 0) then ret (-1, dst) else
      let va0 := PGROUNDDOWN srcva in
      pa0 <- walkaddr pagetable va0 ;;
      if pa0 =? 0 then ret (-1, dst) else
      let n := Z.min (PGSIZE - (srcva - va0)) max in
      r <- gets (fun s => copyinstr_scan (k_mem s) (pa0 + (srcva - va0)) (Z.to_nat n)) ;;
      let '(bs, got_null) := r in
      if got_null then ret (0, dst ++ bs)
      else copyinstr_loop fuel pagetable (u64 (va0 + PGSIZE)) (max - n) (dst ++ bs)
  end.

Definition copyinstr (pagetable srcva max : Z) : KM (Z * list Z) :=
  copyinstr_loop (S (S (Z.to_nat max))) pagetable srcva max [].

(** proc_mapstacks() of kernel/proc.c, which kvmmake() calls. *)
Definition proc_mapstacks (kpgtbl : Z) : KM unit :=
  for_ 0 NPROC (fun i =>
    pa <- kalloc ;;
    if pa =? 0 then panic "kalloc" else
    kvmmap kpgtbl (KSTACK (Z.of_nat i)) pa PGSIZE (Z.lor PTE_R PTE_W)).

Definition kvmmake : KM Z :=
  kpgtbl <- kalloc ;;
  do_memset kpgtbl 0 PGSIZE ;;
  kvmmap kpgtbl UART0 UART0 PGSIZE (Z.lor PTE_R PTE_W) ;;
  kvmmap kpgtbl VIRTIO0 VIRTIO0 PGSIZE (Z.lor PTE_R PTE_W) ;;
  kvmmap kpgtbl PLIC PLIC 0x400000 (Z.lor PTE_R PTE_W) ;;
  kvmmap kpgtbl KERNBASE KERNBASE (etext - KERNBASE) (Z.lor PTE_R PTE_X) ;;
  kvmmap kpgtbl etext etext (PHYSTOP - etext) (Z.lor PTE_R PTE_W) ;;
  kvmmap kpgtbl TRAMPOLINE trampoline PGSIZE (Z.lor PTE_R PTE_X) ;;
  proc_mapstacks kpgtbl ;;
  ret kpgtbl.
End Vm.
