(* ===== verification/PageTable.v ===== *)
(** The address space a page table stands for, and what walk(), mappages() and
    uvmunmap() of kernel/vm.c do to it.

    [pt_at m root p] follows the indices [p] from the root table; [pt_wf] says
    that the tables so reached are distinct pages; [leaf m root va] is the leaf
    PTE of [va], 0 where there is none. The operations act on [leaf] as updates
    of a function, and change no memory outside the tables and the free pages
    ([owned]). *)
From S2P Require Import Prelude Riscv Machine Spinlock KString Kalloc Vm.

Section PageTable.
Context {F : Type} `{L : Layout} `{!LayoutOk L}.
Implicit Types (s : kstate F) (m : memory).

Definition pte_at m (t i : Z) : Z := ld64 m (t + 8 * i).

Definition child m (t i : Z) : option Z :=
  if has_flag (pte_at m t i) PTE_V then Some (PTE2PA (pte_at m t i)) else None.

Fixpoint pt_at m (t : Z) (p : list Z) : option Z :=
  match p with
  | [] => Some t
  | i :: p => match child m t i with Some t' => pt_at m t' p | None => None end
  end.

Definition idx (i : Z) : Prop := 0 <= i < 512.
Definition path (p : list Z) : Prop := (length p <= 2)%nat /\ Forall idx p.
Definition is_table m (root a : Z) : Prop := exists p, path p /\ pt_at m root p = Some a.

Definition pt_wf m (root : Z) : Prop :=
  forall p a, path p -> pt_at m root p = Some a ->
    is_page a /\ forall q, path q -> pt_at m root q = Some a -> q = p.

Definition leaf_addr m (root va : Z) : Z :=
  match pt_at m root [PX 2 va; PX 1 va] with
  | Some t0 => t0 + 8 * PX 0 va
  | None => 0
  end.

Definition leaf m (root va : Z) : Z :=
  match pt_at m root [PX 2 va; PX 1 va] with
  | Some t0 => pte_at m t0 (PX 0 va)
  | None => 0
  end.

(** ** Looking up *)

Lemma walk_lookup s root va :
  va < MAXVA -> walk root va false s = Ret (leaf_addr (k_mem s) root va) s.
Proof.
  intros H. unfold walk. destruct (va >=? MAXVA) eqn:E; [lia|]. cbn [walk_loop].
  unfold leaf_addr. cbn [pt_at]. unfold child, pte_at, kbind, load64, gets. cbn [obind].
  set (e2 := ld64 (k_mem s) (root + 8 * PX 2 va)).
  destruct (has_flag e2 PTE_V); [|reflexivity].
  by destruct (has_flag (ld64 (k_mem s) (PTE2PA e2 + 8 * PX 1 va)) PTE_V).
Qed.

Lemma path_px va : path [PX 2 va; PX 1 va].
Proof.
  split; [done|]. repeat constructor; apply PX_range.
Qed.

Lemma path_px1 va : path [PX 2 va].
Proof. split; [cbn; lia|]. repeat constructor; apply PX_range. Qed.

Lemma path_nil : path [].
Proof. split; [cbn; lia|constructor]. Qed.

Lemma pt_at_app m t p q :
  pt_at m t (p ++ q) = match pt_at m t p with Some t' => pt_at m t' q | None => None end.
Proof.
  revert t. induction p as [|i p IH]; intros t; [done|]. cbn. by destruct (child m t i).
Qed.

Lemma leaf_addr_nonzero m root va :
  pt_wf m root -> leaf_addr m root va <> 0 ->
  exists t0, pt_at m root [PX 2 va; PX 1 va] = Some t0 /\
             leaf_addr m root va = t0 + 8 * PX 0 va /\ leaf m root va = pte_at m t0 (PX 0 va).
Proof.
  intros _. unfold leaf_addr, leaf. destruct (pt_at _ _ _) as [t0|]; [|done]. eauto.
Qed.

Lemma leaf_addr_zero m root va :
  pt_wf m root -> leaf_addr m root va = 0 -> leaf m root va = 0.
Proof.
  intros Hwf. unfold leaf_addr, leaf. destruct (pt_at _ _ _) as [t0|] eqn:E; [|done].
  destruct (Hwf _ _ (path_px va) E) as [Hp _]. apply is_page_bounds in Hp.
  pose proof (PX_range 0 va). unfold KERNBASE in *. lia.
Qed.

(** ** Writing *)

(** Two entries of tables do not overlap unless they are the same entry. *)
Lemma entry_disjoint t t' i i' :
  is_page t -> is_page t' -> idx i -> idx i' -> (t, i) <> (t', i') ->
  t + 8 * i + 8 <= t' + 8 * i' \/ t' + 8 * i' + 8 <= t + 8 * i.
Proof.
  intros Ht Ht' Hi Hi' Hne. unfold idx in *. destruct (decide (t = t')) as [->|Hd].
  - assert (i <> i') by congruence. lia.
  - pose proof (is_page_disjoint t t' Ht Ht' Hd). unfold PGSIZE in *. lia.
Qed.

Lemma pte_at_same m m' t i :
  (forall x, t + 8 * i <= x < t + 8 * i + 8 -> ld8 m' x = ld8 m x) ->
  pte_at m' t i = pte_at m t i.
Proof. intros H. apply ld_ext. intros x Hx. apply H. lia. Qed.

Lemma pte_at_zero m t i :
  (forall x, t <= x < t + PGSIZE -> ld8 m x = 0) -> idx i -> pte_at m t i = 0.
Proof.
  intros H [? ?]. unfold pte_at.
  rewrite (ld_ext 8 m (memset m t 0 PGSIZE)).
  - apply ld_memset_zero; unfold PGSIZE; lia.
  - intros x Hx. unfold PGSIZE in *. rewrite H, ld8_memset, decide_True by lia. done.
Qed.

(** Memory that agrees on the upper tables has the same tables. *)
Lemma pt_at_ext m m' root :
  (forall p a i, path p -> (length p <= 1)%nat -> pt_at m root p = Some a -> idx i ->
     pte_at m' a i = pte_at m a i) ->
  forall p, path p -> pt_at m' root p = pt_at m root p.
Proof.
  intros H p [Hlen Hp].
  assert (forall p a i, path p -> (length p <= 1)%nat -> pt_at m root p = Some a -> idx i ->
     child m' a i = child m a i) as Hc.
  { intros. unfold child. by erewrite H. }
  destruct p as [|i [|j [|? ?]]]; cbn in Hlen; [done| | |lia].
  - apply Forall_cons in Hp as [Hi _]. cbn. by rewrite (Hc [] root i); [|apply path_nil|cbn; lia|..].
  - apply Forall_cons in Hp as [Hi Hp]. apply Forall_cons in Hp as [Hj _]. cbn.
    rewrite (Hc [] root i); [|apply path_nil|cbn; lia|done|done].
    destruct (child m root i) as [t1|] eqn:E; [|done].
    rewrite (Hc [i] t1 j); [done| |done| |done].
    + split; [cbn; lia|]. by apply Forall_singleton.
    + cbn. by rewrite E.
Qed.

(** Storing a leaf PTE. *)
Section SetLeaf.
Context (m : memory) (root va t0 v : Z).
Hypothesis Hwf : pt_wf m root.
Hypothesis Ht0 : pt_at m root [PX 2 va; PX 1 va] = Some t0.
Hypothesis Hv : 0 <= v < 2 ^ 64.
Let m' := st64 m (t0 + 8 * PX 0 va) v.

Lemma set_leaf_other a i p :
  path p -> pt_at m root p = Some a -> idx i -> (a, i) <> (t0, PX 0 va) ->
  pte_at m' a i = pte_at m a i.
Proof using All.
  intros Hp Ha Hi Hne. apply pte_at_same. intros x Hx. apply ld8_st_out.
  destruct (Hwf _ _ Hp Ha) as [Hpa _]. destruct (Hwf _ _ (path_px va) Ht0) as [Hpt _].
  pose proof (entry_disjoint a t0 i (PX 0 va) Hpa Hpt Hi (PX_range 0 va) Hne). lia.
Qed.

Lemma set_leaf_pt_at p : path p -> pt_at m' root p = pt_at m root p.
Proof using All.
  apply pt_at_ext. intros q a i Hq Hlen Ha Hi. apply (set_leaf_other a i q Hq Ha Hi).
  intros [= -> ->]. destruct (Hwf _ _ (path_px va) Ht0) as [_ Hu].
  rewrite (Hu q Hq Ha) in Hlen. cbn in Hlen. lia.
Qed.

Lemma set_leaf_wf : pt_wf m' root.
Proof using All.
  intros p a Hp Ha. rewrite set_leaf_pt_at in Ha by done.
  destruct (Hwf p a Hp Ha) as [H1 H2]. split; [done|].
  intros q Hq Ha'. rewrite set_leaf_pt_at in Ha' by done. by apply H2.
Qed.

Lemma set_leaf_table a : is_table m' root a <-> is_table m root a.
Proof using All.
  split; intros (p & Hp & Ha); exists p; [rewrite set_leaf_pt_at in Ha by done|
    rewrite set_leaf_pt_at by done]; done.
Qed.

Lemma set_leaf_eq va' :
  0 <= va < MAXVA -> 0 <= va' < MAXVA ->
  leaf m' root va' = if decide (va' / PGSIZE = va / PGSIZE) then v else leaf m root va'.
Proof using All.
  intros Hr Hr'. unfold leaf. rewrite set_leaf_pt_at by apply path_px.
  case_decide as Hd.
  - assert (PX 2 va' = PX 2 va /\ PX 1 va' = PX 1 va /\ PX 0 va' = PX 0 va) as (-> & -> & ->).
    { destruct (PX_page va') as (<- & <- & <-). destruct (PX_page va) as (<- & <- & <-).
      by rewrite !PGROUNDDOWN_eq, Hd. }
    rewrite Ht0. unfold pte_at, m'. by rewrite ld64_st64_same.
  - destruct (pt_at m root [PX 2 va'; PX 1 va']) as [t0'|] eqn:E; [|done].
    apply (set_leaf_other t0' _ _ (path_px va') E); [apply PX_range|].
    intros [= -> E0]. destruct (Hwf _ _ (path_px va) Ht0) as [_ Hu].
    injection (Hu _ (path_px va') E) as E2 E1. destruct Hd. by apply PX_inj.
Qed.
End SetLeaf.

(** [m'] is [m] with a fresh zeroed table [f] hung below entry [i] of the table
    [t] at path [p]. *)
Record grows m m' (root : Z) (p : list Z) (t i f : Z) : Prop := {
  g_wf : pt_wf m root;
  g_path : path p;
  g_len : (length p <= 1)%nat;
  g_at : pt_at m root p = Some t;
  g_idx : idx i;
  g_none : child m t i = None;
  g_page : is_page f;
  g_fresh : ~ is_table m root f;
  g_entry : pte_at m' t i = Z.lor (PA2PTE f) PTE_V;
  g_zero : forall x, f <= x < f + PGSIZE -> ld8 m' x = 0;
  g_same : forall x, ~ (f <= x < f + PGSIZE) ->
    ~ (t + 8 * i <= x < t + 8 * i + 8) -> ld8 m' x = ld8 m x
}.

Lemma grow_entry m m' root p t i f q a j :
  grows m m' root p t i f ->
  path q -> pt_at m root q = Some a -> idx j -> (a, j) <> (t, i) ->
  pte_at m' a j = pte_at m a j.
Proof.
  intros [Hwf Hp _ Ht Hi _ Hf Hfresh _ _ Hsame] Hq Ha Hj Hne.
  destruct (Hwf _ _ Hq Ha) as [Hpa _]. destruct (Hwf _ _ Hp Ht) as [Hpt _].
  assert (a <> f) as Haf by (intros ->; apply Hfresh; by exists q).
  pose proof (entry_disjoint a t j i Hpa Hpt Hj Hi Hne).
  pose proof (is_page_disjoint a f Hpa Hf Haf).
  apply pte_at_same. intros x Hx. unfold idx, PGSIZE in *. apply Hsame; unfold PGSIZE; lia.
Qed.

Lemma grow_child_new m m' root p t i f : grows m m' root p t i f -> child m' t i = Some f.
Proof.
  intros [_ _ _ _ _ _ Hf _ Hentry _ _].
  unfold child. rewrite Hentry. apply is_page_bounds in Hf as (Hal & Hr).
  unfold PHYSTOP, KERNBASE in *.
  rewrite has_flag_PA2PTE, PTE2PA_PA2PTE by (done || unfold PTE_V, PGSIZE in *; lia). done.
Qed.

Lemma grow_child_old m m' root p t i f q a j :
  grows m m' root p t i f ->
  path q -> pt_at m root q = Some a -> idx j -> (a, j) <> (t, i) -> child m' a j = child m a j.
Proof. intros. unfold child. by erewrite grow_entry. Qed.

Lemma grow_child_f m m' root p t i f j :
  grows m m' root p t i f -> idx j -> child m' f j = None.
Proof. intros H ?. unfold child. rewrite pte_at_zero; [done|apply H|done]. Qed.

Lemma path_snoc p i : path p -> (length p <= 1)%nat -> idx i -> path (p ++ [i]).
Proof.
  intros [_ Hall] Hlen Hi. split.
  - rewrite length_app. cbn. lia.
  - apply Forall_app. split; [done|]. by apply Forall_singleton.
Qed.

(** A path of at most one index is the root's or [[j]]. *)
Lemma short_path p t m root :
  (length p <= 1)%nat -> pt_at m root p = Some t ->
  (p = [] /\ root = t) \/ (exists j, p = [j] /\ child m root j = Some t).
Proof.
  intros Hl Ht. destruct p as [|j [|? ?]]; cbn in *; [left; naive_solver|right|lia].
  exists j. split; [done|]. by destruct (child m root j).
Qed.

Lemma grow_pt_at m m' root p t i f q :
  grows m m' root p t i f -> path q ->
  pt_at m' root q = if decide (q = p ++ [i]) then Some f else pt_at m root q.
Proof.
  intros G [Hql Hqi]. pose proof (g_wf _ _ _ _ _ _ _ G) as Hwf.
  destruct (short_path p t m root (g_len _ _ _ _ _ _ _ G) (g_at _ _ _ _ _ _ _ G))
    as [[-> ->]|(a & -> & Ea)].
  - (* the new table hangs below the root *)
    destruct q as [|j [|k [|? ?]]]; cbn in Hql; [done|..|lia].
    + apply Forall_cons in Hqi as [Hj _]. cbn.
      case_decide as Hd; [injection Hd as ->; by rewrite (grow_child_new _ _ _ _ _ _ _ G)|].
      rewrite (grow_child_old _ _ _ _ _ _ _ [] t j G path_nil); [done|done|done|naive_solver].
    + apply Forall_cons in Hqi as [Hj Hqi]. apply Forall_cons in Hqi as [Hk _]. cbn.
      rewrite decide_False by done. destruct (decide (j = i)) as [->|Hne].
      * rewrite (grow_child_new _ _ _ _ _ _ _ G), (g_none _ _ _ _ _ _ _ G).
        by rewrite (grow_child_f _ _ _ _ _ _ _ k G).
      * rewrite (grow_child_old _ _ _ _ _ _ _ [] t j G path_nil); [|done|done|naive_solver].
        destruct (child m t j) as [t1|] eqn:E1; [|done].
        assert (path [j]) as Hpj by (split; [cbn; lia|by apply Forall_singleton]).
        assert (pt_at m t [j] = Some t1) as Hj1 by (cbn; by rewrite E1).
        rewrite (grow_child_old _ _ _ _ _ _ _ [j] t1 k G); [done|done|done|done|].
        intros [= -> _]. by pose proof (proj2 (Hwf _ _ Hpj Hj1) [] path_nil eq_refl).
  - (* the new table hangs below the table at [a] *)
    pose proof (g_path _ _ _ _ _ _ _ G) as Hpa. pose proof (g_at _ _ _ _ _ _ _ G) as Hat.
    assert (root <> t) as Hrt.
    { intros ->. by pose proof (proj2 (Hwf _ _ Hpa Hat) [] path_nil eq_refl). }
    destruct q as [|j [|k [|? ?]]]; cbn in Hql; [done|..|lia].
    + apply Forall_cons in Hqi as [Hj _]. cbn.
      rewrite decide_False by done.
      rewrite (grow_child_old _ _ _ _ _ _ _ [] root j G path_nil); [done|done|done|naive_solver].
    + apply Forall_cons in Hqi as [Hj Hqi]. apply Forall_cons in Hqi as [Hk _]. cbn.
      rewrite (grow_child_old _ _ _ _ _ _ _ [] root j G path_nil); [|done|done|naive_solver].
      destruct (child m root j) as [t1|] eqn:E1.
      2:{ rewrite decide_False; [done|]. congruence. }
      assert (path [j]) as Hpj by (split; [cbn; lia|by apply Forall_singleton]).
      assert (pt_at m root [j] = Some t1) as Hj1 by (cbn; by rewrite E1).
      destruct (decide (t1 = t /\ k = i)) as [[-> ->]|Hne].
      * injection (proj2 (Hwf _ _ Hpa Hat) [j] Hpj Hj1) as ->.
        rewrite decide_True by done. by rewrite (grow_child_new _ _ _ _ _ _ _ G).
      * rewrite (grow_child_old _ _ _ _ _ _ _ [j] t1 k G); [|done|done|done|naive_solver].
        rewrite decide_False; [done|]. intros [= -> ->]. destruct Hne. split; [congruence|done].
Qed.

Lemma grow_table m m' root p t i f a :
  grows m m' root p t i f -> is_table m' root a <-> a = f \/ is_table m root a.
Proof.
  intros G. assert (path (p ++ [i])) as Hpi by (apply path_snoc; apply G). split.
  - intros (q & Hq & Ha). rewrite (grow_pt_at _ _ _ _ _ _ _ q G) in Ha by done. case_decide.
    + injection Ha as <-. by left.
    + right. by exists q.
  - intros [->|(q & Hq & Ha)].
    + exists (p ++ [i]). split; [done|]. rewrite (grow_pt_at _ _ _ _ _ _ _ _ G) by done.
      by rewrite decide_True.
    + exists q. split; [done|]. rewrite (grow_pt_at _ _ _ _ _ _ _ q G) by done.
      rewrite decide_False; [done|]. intros ->.
      rewrite pt_at_app, (g_at _ _ _ _ _ _ _ G) in Ha. cbn in Ha.
      by rewrite (g_none _ _ _ _ _ _ _ G) in Ha.
Qed.

Lemma grow_wf m m' root p t i f : grows m m' root p t i f -> pt_wf m' root.
Proof.
  intros G q a Hq Ha. rewrite (grow_pt_at _ _ _ _ _ _ _ q G) in Ha by done.
  case_decide as Hd.
  - injection Ha as <-. split; [apply G|]. intros q' Hq' Ha'.
    rewrite (grow_pt_at _ _ _ _ _ _ _ q' G) in Ha' by done.
    case_decide; [congruence|]. destruct (g_fresh _ _ _ _ _ _ _ G). by exists q'.
  - destruct (g_wf _ _ _ _ _ _ _ G q a Hq Ha) as [H1 H2]. split; [done|]. intros q' Hq' Ha'.
    rewrite (grow_pt_at _ _ _ _ _ _ _ q' G) in Ha' by done. case_decide; [|by apply H2].
    injection Ha' as <-. destruct (g_fresh _ _ _ _ _ _ _ G). by exists q.
Qed.

Lemma grow_leaf m m' root p t i f va :
  grows m m' root p t i f -> leaf m' root va = leaf m root va.
Proof.
  intros G. unfold leaf. rewrite (grow_pt_at _ _ _ _ _ _ _ _ G) by apply path_px.
  case_decide as Hd.
  - rewrite (pte_at_zero m' f); [|apply G|apply PX_range].
    rewrite Hd, pt_at_app, (g_at _ _ _ _ _ _ _ G). cbn. by rewrite (g_none _ _ _ _ _ _ _ G).
  - destruct (pt_at m root _) as [t0|] eqn:E; [|done].
    apply (grow_entry _ _ _ _ _ _ _ _ t0 _ G (path_px va) E); [apply PX_range|]. intros [= -> _].
    destruct (g_wf _ _ _ _ _ _ _ G _ _ (g_path _ _ _ _ _ _ _ G) (g_at _ _ _ _ _ _ _ G)) as [_ Hu].
    pose proof (g_len _ _ _ _ _ _ _ G) as Hl. rewrite <- (Hu _ (path_px va) E) in Hl. cbn in Hl. lia.
Qed.

(** ** walk with allocation *)

(** A page table with the free pages [l] beside it. *)
Definition vm_ok s (root : Z) (l : list Z) : Prop :=
  cpu_ok s /\ lock_free L_kmem s /\ free_pages s l /\ pt_wf (k_mem s) root /\
  (forall a, is_table (k_mem s) root a -> a ∉ l).

(** The bytes of the tables and of the free pages. *)
Definition owned m (root : Z) (l : list Z) (x : Z) : Prop :=
  exists a, (is_table m root a \/ a ∈ l) /\ a <= x < a + PGSIZE.

(** [s'] extends the tables of [s] with pages taken from [l]. *)
Definition vm_ext (root : Z) (l : list Z) s (l' : list Z) s' : Prop :=
  mem_step s s' /\ vm_ok s' root l' /\
  (exists l0, l = l0 ++ l') /\
  (forall a, is_table (k_mem s') root a -> is_table (k_mem s) root a \/ a ∈ l) /\
  (forall x, ~ owned (k_mem s) root l x -> ld8 (k_mem s') x = ld8 (k_mem s) x).

Lemma vm_ext_owned root l s l' s' x :
  vm_ext root l s l' s' -> owned (k_mem s') root l' x -> owned (k_mem s) root l x.
Proof.
  intros (_ & _ & (l0 & ->) & Ht & _) (a & Ha & Hx). exists a. split; [|done].
  destruct Ha as [Ha|Ha]; [by apply Ht|]. right. apply elem_of_app. by right.
Qed.

Lemma vm_ext_refl root l s : vm_ok s root l -> vm_ext root l s l s.
Proof.
  intros H. split; [apply mem_step_refl|]. split; [done|]. split; [by exists []|].
  split; [by left|done].
Qed.

Lemma vm_ext_trans root l1 s1 l2 s2 l3 s3 :
  vm_ext root l1 s1 l2 s2 -> vm_ext root l2 s2 l3 s3 -> vm_ext root l1 s1 l3 s3.
Proof.
  intros H12 H23. pose proof H12 as (M12 & _ & (k & ->) & T12 & X12).
  pose proof H23 as (M23 & O3 & (k' & ->) & T23 & X23).
  split; [by eapply mem_step_trans|]. split; [done|].
  split; [exists (k ++ k'); by rewrite app_assoc|]. split.
  - intros a Ha. destruct (T23 a Ha) as [Ha'|Ha']; [by apply T12|].
    right. apply elem_of_app. by right.
  - intros x Hx. rewrite X23; [by apply X12|]. intros Ho. apply Hx.
    by eapply vm_ext_owned.
Qed.

Lemma free_pages_write s m' l p :
  free_pages s l -> is_page p -> p ∉ l ->
  (forall x, ~ (p <= x < p + PGSIZE) -> ld8 m' x = ld8 (k_mem s) x) ->
  free_pages (set_k_mem m' s) l.
Proof.
  intros (Hc & Hnd & Hall) Hp Hnin Hx. split; [|done]. cbn.
  by apply (chain_write (k_mem s) m' _ l p).
Qed.

Lemma vm_ok_fresh s root f l :
  vm_ok s root (f :: l) -> is_page f /\ ~ is_table (k_mem s) root f /\ f ∉ l.
Proof.
  intros (_ & _ & (_ & Hnd & Hall) & _ & Hd). apply NoDup_cons in Hnd as [? _].
  apply Forall_cons in Hall as [? _]. split; [done|]. split; [|done].
  intros Ht. apply (Hd f Ht). by left.
Qed.

Lemma grow_write m root p t i f :
  pt_wf m root -> path p -> (length p <= 1)%nat -> pt_at m root p = Some t -> idx i ->
  child m t i = None -> is_page f -> ~ is_table m root f ->
  grows m (st64 (memset (memset m f 5 PGSIZE) f 0 PGSIZE) (t + 8 * i) (Z.lor (PA2PTE f) PTE_V))
    root p t i f.
Proof.
  intros Hwf Hp Hlen Ht Hi Hnone Hf Hnt. destruct (Hwf _ _ Hp Ht) as [Hpt _].
  assert (t <> f) as Htf by (intros ->; apply Hnt; exists p; split; assumption).
  pose proof (is_page_disjoint t f Hpt Hf Htf) as Hdis.
  apply is_page_bounds in Hf as Hb.
  constructor; try assumption; unfold idx, PGSIZE, PHYSTOP, KERNBASE in *.
  - unfold pte_at. apply ld64_st64_same.
    apply PA2PTE_flags; [lia|apply Hb|unfold PTE_V; lia].
  - intros x Hx. rewrite ld8_st_out by lia. by rewrite ld8_memset, decide_True by lia.
  - intros x Hx Hx'. rewrite ld8_st_out by lia. by rewrite !ld8_memset, !decide_False by lia.
Qed.

(** The allocating step of walk(): a free page becomes the table below entry
    [i] of [t]. *)
Lemma alloc_table s root p t i f l :
  vm_ok s root (f :: l) -> path p -> (length p <= 1)%nat ->
  pt_at (k_mem s) root p = Some t -> idx i -> child (k_mem s) t i = None ->
  exists s1, kalloc s = Ret f s1 /\
    let s2 := upd_mem (fun m => st64 m (t + 8 * i) (Z.lor (PA2PTE f) PTE_V))
                (upd_mem (fun m => memset m f 0 PGSIZE) s1) in
    vm_ext root (f :: l) s l s2 /\ grows (k_mem s) (k_mem s2) root p t i f.
Proof.
  intros Hvm Hp Hlen Ht Hi Hnone. pose proof Hvm as (Hok & Hlk & Hf & Hwf & Hd).
  destruct (vm_ok_fresh _ _ _ _ Hvm) as (Hpf & Hnt & Hnin).
  destruct (kalloc_cons s f l Hok Hlk Hf) as (s1 & E1 & Hm1 & Hf1 & Em).
  destruct (Hwf _ _ Hp Ht) as [Hpt _].
  assert (is_table (k_mem s) root t) as Htt by (exists p; split; assumption).
  assert (t <> f) as Htf by congruence.
  pose proof (is_page_disjoint t f Hpt Hpf Htf) as Hdis.
  assert (0 <= PGSIZE < 2 ^ 32) as Hpg by (unfold PGSIZE; lia).
  exists s1. split; [done|]. intros s2.
  assert (grows (k_mem s) (k_mem s2) root p t i f) as G.
  { cbn. rewrite Em. by apply grow_write. }
  assert (mem_step s s2) as Hm2.
  { eapply mem_step_trans; [done|]. eapply mem_step_trans; apply mem_step_mem. }
  split; [|done]. split; [done|]. split; [split; [|split; [|split; [|split]]]|split; [|split]].
  - by eapply mem_step_cpu_ok.
  - by eapply mem_step_lock.
  - apply (free_pages_write _ _ l t); [|done| |].
    + apply (free_pages_write _ _ l f); [done..|].
      intros x Hx. by rewrite ld8_memset, decide_False by lia.
    + intros Hin. apply (Hd t Htt). by right.
    + intros x Hx. unfold idx, PGSIZE in *. rewrite ld8_st_out by lia. done.
  - by eapply grow_wf.
  - intros a Ha. apply (grow_table _ _ _ _ _ _ _ _ G) in Ha as [->|Ha]; [done|].
    intros Hin. apply (Hd a Ha). by right.
  - by exists [f].
  - intros a Ha. apply (grow_table _ _ _ _ _ _ _ _ G) in Ha as [->|Ha]; [right; by left|by left].
  - intros x Hx. apply (g_same _ _ _ _ _ _ _ G); intros Hr; apply Hx.
    + exists f. split; [right; by left|done].
    + exists t. split; [by left|]. unfold idx, PGSIZE in *. lia.
Qed.

(** What [walk(pagetable, va, 1)] gives: the address of the leaf PTE of [va],
    or 0 once the allocator is exhausted; every leaf PTE is as before. *)
Definition walked (root va : Z) (l : list Z) s (r : Z) (l' : list Z) s' : Prop :=
  vm_ext root l s l' s' /\
  (forall va', leaf (k_mem s') root va' = leaf (k_mem s) root va') /\
  ((r = 0 /\ l' = []) \/
   exists t0, pt_at (k_mem s') root [PX 2 va; PX 1 va] = Some t0 /\ r = t0 + 8 * PX 0 va).

Lemma walked_trans root va l1 s1 l2 s2 r l3 s3 :
  vm_ext root l1 s1 l2 s2 ->
  (forall va', leaf (k_mem s2) root va' = leaf (k_mem s1) root va') ->
  walked root va l2 s2 r l3 s3 -> walked root va l1 s1 r l3 s3.
Proof.
  intros H H' (H1 & H2 & H3). split; [by eapply vm_ext_trans|]. split; [|done].
  intros va'. by rewrite H2.
Qed.

Lemma walk_loop_alloc root va n s l p q t :
  vm_ok s root l -> p ++ q = [PX 2 va; PX 1 va] -> length q = n ->
  pt_at (k_mem s) root p = Some t ->
  exists r l' s', walk_loop n t va true s = Ret r s' /\ walked root va l s r l' s'.
Proof.
  revert s l p q t. induction n as [|n IH]; intros s l p q t Hvm Hpq Hq Ht; cbn [walk_loop].
  - apply nil_length_inv in Hq as ->. rewrite app_nil_r in Hpq. subst p.
    exists (t + 8 * PX 0 va), l, s. split; [done|]. split; [by apply vm_ext_refl|].
    split; [done|]. right. by exists t.
  - destruct q as [|i q]; [done|]. injection Hq as Hq.
    assert (PX (S n) va = i) as Ei.
    { destruct p as [|? [|? [|? ?]]], q as [|? [|? ?]]; simplify_eq/=; done. }
    assert (path (p ++ [i]) /\ (length p <= 1)%nat /\ path p /\ idx i) as (Hpi & Hlen & Hp & Hi).
    { assert (path (p ++ i :: q)) as [Hl Hall] by (rewrite Hpq; apply path_px).
      rewrite length_app in Hl. cbn in Hl. apply Forall_app in Hall as [Ha Hb].
      apply Forall_cons in Hb as [Hb _]. split; [|split; [lia|split; [split; [lia|done]|done]]].
      split; [rewrite length_app; cbn; lia|]. apply Forall_app. split; [done|].
      by apply Forall_singleton. }
    rewrite Ei. unfold kbind at 1, load64, gets. cbn [obind].
    fold (pte_at (k_mem s) t i). destruct (child (k_mem s) t i) as [t'|] eqn:Ec.
    + unfold child in Ec. destruct (has_flag _ _) eqn:Ef; [|done].
      apply (IH s l (p ++ [i]) q); [done|by rewrite <- app_assoc|done|].
      rewrite pt_at_app, Ht. cbn. unfold child. by rewrite Ef, Ec.
    + assert (has_flag (pte_at (k_mem s) t i) PTE_V = false) as ->.
      { unfold child in Ec. by destruct (has_flag _ _). }
      cbn [negb]. destruct l as [|f l].
      * pose proof Hvm as (Hok & Hlk & Hf & _). rewrite (kbind_Ret _ _ _ _ _ (kalloc_nil s Hok Hlk Hf)).
        exists 0, [], (settle s). split; [done|]. split; [|split; [done|by left]].
        split; [apply mem_step_settle|]. split; [|by split; [exists []|split; [left|]]].
        destruct Hvm as (? & Hvm). split; [by apply cpu_ok_settle|done].
      * destruct (alloc_table s root p t i f l Hvm Hp Hlen Ht Hi Ec) as (s1 & E1 & Hext & G).
        rewrite (kbind_Ret _ _ _ _ _ E1).
        destruct (f =? 0) eqn:E0; [apply vm_ok_fresh in Hvm as (Hpf & _); apply is_page_nonzero in Hpf; lia|].
        unfold do_memset, store64. rewrite !kbind_modify.
        destruct (IH _ l (p ++ [i]) q f (proj1 (proj2 Hext))) as (r & l' & s' & E & W);
          [by rewrite <- app_assoc|done| |].
        { rewrite (grow_pt_at _ _ _ _ _ _ _ _ G Hpi). by rewrite decide_True. }
        exists r, l', s'. split; [exact E|]. eapply walked_trans; [exact Hext| |done].
        intros va'. by eapply grow_leaf.
Qed.

Lemma walk_alloc s root va l :
  vm_ok s root l -> va < MAXVA ->
  exists r l' s', walk root va true s = Ret r s' /\ walked root va l s r l' s'.
Proof.
  intros Hvm Hva. unfold walk. destruct (va >=? MAXVA) eqn:E; [lia|].
  by apply (walk_loop_alloc root va 2 s l [] [PX 2 va; PX 1 va]).
Qed.

(** ** mappages *)

Lemma store_leaf s root l va t0 v :
  vm_ok s root l -> pt_at (k_mem s) root [PX 2 va; PX 1 va] = Some t0 -> 0 <= v < 2 ^ 64 ->
  0 <= va < MAXVA ->
  let s' := upd_mem (fun m => st64 m (t0 + 8 * PX 0 va) v) s in
  vm_ext root l s l s' /\
  forall va', 0 <= va' < MAXVA ->
    leaf (k_mem s') root va' =
      if decide (va' / PGSIZE = va / PGSIZE) then v else leaf (k_mem s) root va'.
Proof.
  intros Hvm Ht Hv Hva. pose proof Hvm as (Hok & Hlk & Hf & Hwf & Hd).
  destruct (Hwf _ _ (path_px va) Ht) as [Hpt _].
  assert (is_table (k_mem s) root t0) as Htt by (exists [PX 2 va; PX 1 va]; split; [apply path_px|done]).
  pose proof (PX_range 0 va) as Hpx.
  assert (forall x, ~ (t0 <= x < t0 + PGSIZE) ->
    ld8 (st64 (k_mem s) (t0 + 8 * PX 0 va) v) x = ld8 (k_mem s) x) as Hout.
  { intros x Hx. unfold PGSIZE in *. rewrite ld8_st_out by lia. done. }
  intros s'. split; [|intros va' Hva'; by apply set_leaf_eq].
  split; [apply mem_step_mem|]. split; [split; [done|split; [done|split; [|split]]]|
    split; [by exists []|split]].
  - apply (free_pages_write s _ l t0); [done|done|by apply Hd|done].
  - by apply set_leaf_wf.
  - intros a Ha. apply set_leaf_table in Ha; [|done..]. by apply Hd.
  - intros a Ha. left. by apply set_leaf_table in Ha.
  - intros x Hx. apply Hout. intros Hr. apply Hx. exists t0. split; [by left|done].
Qed.

(** [g] is the address space [f] with the [n] pages from [a] on mapped to the
    [n] physical pages from [pa] on. *)
Definition maps_to (n a pa perm : Z) (f g : Z -> Z) : Prop :=
  forall va, 0 <= va < MAXVA ->
    g va = if decide (a <= va < a + n * PGSIZE)
           then Z.lor (Z.lor (PA2PTE (pa + (PGROUNDDOWN va - a))) perm) PTE_V
           else f va.

Lemma maps_to_0 a pa perm f : maps_to 0 a pa perm f f.
Proof. intros va _. rewrite decide_False; [done|lia]. Qed.

(** Mapping a page and then the [n] pages after it. *)
Lemma maps_to_S n a pa perm f f' g :
  0 <= n -> a `mod` PGSIZE = 0 ->
  maps_to 1 a pa perm f f' -> maps_to n (a + PGSIZE) (pa + PGSIZE) perm f' g ->
  maps_to (n + 1) a pa perm f g.
Proof.
  intros Hn Ha H1 H2 va Hva. rewrite (H2 va Hva), (H1 va Hva). unfold PGSIZE in *.
  repeat case_decide; try lia; try done. do 3 f_equal. lia.
Qed.

(** The leaf mappages() stores. *)
Lemma leaf_pte pa perm :
  0 <= pa < 2 ^ 56 -> pa `mod` PGSIZE = 0 -> 0 <= perm < 2 ^ 10 ->
  0 <= Z.lor (Z.lor (PA2PTE pa) perm) PTE_V < 2 ^ 64 /\
  PTE2PA (Z.lor (Z.lor (PA2PTE pa) perm) PTE_V) = pa /\
  PTE_FLAGS (Z.lor (Z.lor (PA2PTE pa) perm) PTE_V) = Z.lor perm PTE_V /\
  has_flag (Z.lor (Z.lor (PA2PTE pa) perm) PTE_V) PTE_V = true.
Proof.
  intros Hpa Hal Hperm. rewrite <- Z.lor_assoc.
  assert (0 <= Z.lor perm PTE_V < 2 ^ 10) as Hf.
  { split; [apply Z.lor_nonneg; unfold PTE_V; lia|].
    destruct (decide (Z.lor perm PTE_V = 0)) as [->|Hz]; [lia|].
    apply Z.log2_lt_pow2; [pose proof (proj2 (Z.lor_nonneg perm PTE_V)); unfold PTE_V in *; lia|].
    rewrite Z.log2_lor by (unfold PTE_V; lia). apply Z.max_lub_lt; [|done].
    destruct (decide (perm = 0)) as [->|]; [done|]. apply Z.log2_lt_pow2; lia. }
  split; [by apply PA2PTE_flags|]. split; [by apply PTE2PA_PA2PTE|].
  split; [by apply PTE_FLAGS_PA2PTE|].
  rewrite has_flag_PA2PTE by (done || (unfold PTE_V; lia)).
  unfold has_flag. rewrite Z.land_lor_distr_l. change (Z.land PTE_V PTE_V) with 1.
  destruct (Z.lor (Z.land perm PTE_V) 1 =? 0) eqn:E; [|done].
  apply Z.eqb_eq, Z.lor_eq_0_iff in E as [_ E]. done.
Qed.

(** One iteration: the page is mapped, or the allocator is exhausted. *)
Lemma map_page s root l a pa perm :
  vm_ok s root l -> 0 <= a < MAXVA -> a `mod` PGSIZE = 0 ->
  0 <= pa < 2 ^ 56 -> pa `mod` PGSIZE = 0 -> 0 <= perm < 2 ^ 10 ->
  has_flag (leaf (k_mem s) root a) PTE_V = false ->
  exists pte l' s', walk root a true s = Ret pte s' /\
    (pte = 0 /\ l' = [] /\ vm_ext root l s l' s' /\
       (forall va, leaf (k_mem s') root va = leaf (k_mem s) root va) \/
     pte <> 0 /\ has_flag (ld64 (k_mem s') pte) PTE_V = false /\
       let s'' := upd_mem (fun m => st64 m pte (Z.lor (Z.lor (PA2PTE pa) perm) PTE_V)) s' in
       vm_ext root l s l' s'' /\
       maps_to 1 a pa perm (leaf (k_mem s) root) (leaf (k_mem s'') root)).
Proof.
  intros Hvm Ha Hal Hpa Hpal Hperm Hun.
  destruct (walk_alloc s root a l Hvm (proj2 Ha)) as (pte & l' & s' & E & Hext & Hleaf & Hr).
  exists pte, l', s'. split; [done|]. destruct Hr as [[-> ->]|(t0 & Ht & ->)]; [by left|].
  right. pose proof (proj1 (proj2 Hext)) as Hvm'. pose proof Hvm' as (_ & _ & _ & Hwf' & _).
  destruct (Hwf' _ _ (path_px a) Ht) as [Hpt _]. apply is_page_bounds in Hpt.
  pose proof (PX_range 0 a) as Hpx. unfold KERNBASE in Hpt. split; [lia|]. split.
  { rewrite <- Hun, <- Hleaf. unfold leaf. by rewrite Ht. }
  destruct (leaf_pte pa perm Hpa Hpal Hperm) as (Hv & _).
  destruct (store_leaf s' root l' a t0 _ Hvm' Ht Hv Ha) as [Hext' Hleaf'].
  split; [by eapply vm_ext_trans|]. intros va Hva. rewrite Hleaf', Hleaf by done.
  unfold PGSIZE in *. repeat case_decide; try done.
  - f_equal. f_equal. f_equal. rewrite PGROUNDDOWN_eq. unfold PGSIZE.
    pose proof (Z.div_mod a 4096). lia.
  - pose proof (Z.div_mod a 4096). pose proof (Z.div_mod va 4096).
    pose proof (Z.mod_pos_bound va 4096). lia.
  - pose proof (Z.div_mod a 4096). pose proof (Z.div_mod va 4096).
    pose proof (Z.mod_pos_bound va 4096). lia.
Qed.

(** The outcome of mapping [n] pages: all of them with result 0, or the first
    [k < n] with result -1 when no page is left for a table. *)
Definition mapped (root : Z) (l : list Z) s (n a pa perm r : Z) (l' : list Z) s' : Prop :=
  vm_ext root l s l' s' /\
  exists k, maps_to k a pa perm (leaf (k_mem s) root) (leaf (k_mem s') root) /\
    ((r = 0 /\ k = n) \/ (r = -1 /\ 0 <= k < n /\ l' = [])).

Lemma mappages_loop_S fuel root a last pa perm :
  mappages_loop (F := F) (S fuel) root a last pa perm =
    (pte <- walk root a true ;;
     if pte =? 0 then ret (-1) else
     v <- load64 pte ;;
     if has_flag v PTE_V then panic "mappages: remap" else
     store64 pte (Z.lor (Z.lor (PA2PTE pa) perm) PTE_V) ;;
     if a =? last then ret 0
     else mappages_loop fuel root (u64 (a + PGSIZE)) last (u64 (pa + PGSIZE)) perm).
Proof. done. Qed.

Lemma mappages_loop_spec n root perm s l a pa :
  vm_ok s root l -> 0 <= a -> a + (Z.of_nat n + 1) * PGSIZE <= MAXVA -> a `mod` PGSIZE = 0 ->
  0 <= pa -> pa + (Z.of_nat n + 1) * PGSIZE <= 2 ^ 56 -> pa `mod` PGSIZE = 0 ->
  0 <= perm < 2 ^ 10 ->
  (forall va, a <= va < a + (Z.of_nat n + 1) * PGSIZE ->
     has_flag (leaf (k_mem s) root va) PTE_V = false) ->
  exists r l' s',
    mappages_loop (S n) root a (a + Z.of_nat n * PGSIZE) pa perm s = Ret r s' /\
    mapped root l s (Z.of_nat n + 1) a pa perm r l' s'.
Proof.
  revert s l a pa. induction n as [|n IH]; intros s l a pa Hvm Ha Hhi Hal Hpa Hphi Hpal Hperm Hun;
    unfold PGSIZE in Hhi, Hphi;
    destruct (map_page s root l a pa perm) as (pte & l1 & s1 & Ew & Hr); try done; try lia;
    try (apply Hun; unfold PGSIZE; lia);
    rewrite mappages_loop_S, (kbind_Ret _ _ _ _ _ Ew);
    (destruct Hr as [(-> & -> & Hext & Hsame)|(Hnz & Hv & Hext & Hmap)];
     [exists (-1), [], s1; split; [done|]; split; [done|]; exists 0; split;
      [intros va Hva; rewrite Hsame; by apply maps_to_0|right; split; [done|]; split; [lia|done] ] |]);
    destruct (pte =? 0) eqn:Ez; try lia;
    unfold load64, store64; rewrite kbind_gets, Hv, kbind_modify.
  - replace (a + Z.of_nat 0 * PGSIZE) with a by lia. rewrite Z.eqb_refl.
    exists 0, l1. eexists. split; [done|]. split; [done|]. exists 1. split; [done|]. by left.
  - destruct (a =? a + Z.of_nat (S n) * PGSIZE) eqn:E; [unfold PGSIZE in E; apply Z.eqb_eq in E; lia|].
    set (s2 := upd_mem _ s1) in *. change MAXVA with (2 ^ 38) in *.
    rewrite !u64_small by (unfold PGSIZE; lia).
    replace (a + Z.of_nat (S n) * PGSIZE) with ((a + PGSIZE) + Z.of_nat n * PGSIZE) by lia.
    destruct (IH s2 l1 (a + PGSIZE) (pa + PGSIZE)) as (r & l' & s' & E2 & Hext2 & k & Hmap2 & Hr2);
      try (by apply aligned_next); try done; try (unfold PGSIZE; lia); [apply Hext| |].
    { intros va Hva. unfold PGSIZE in *. rewrite (Hmap va) by (change MAXVA with (2 ^ 38); lia).
      rewrite decide_False by (unfold PGSIZE; lia). apply Hun. lia. }
    exists r, l', s'. split; [exact E2|]. split; [by eapply vm_ext_trans|].
    exists (k + 1). split; [|destruct Hr2 as [[-> ->]|(-> & ? & ->)]; [left|right]; split; (done || lia || (split; [lia|done]))]. apply (maps_to_S _ _ _ _ _ (leaf (k_mem s2) root)); (done || lia).
Qed.

(** C16: mappages() over n unmapped pages either installs all n leaf PTEs, mapping
    page i of the range to frame pa + i * PGSIZE with the requested permissions,
    and returns 0; or runs out of memory for page tables after k < n of them and
    returns -1 with the free list empty. Either way every other leaf is
    unchanged, the table stays well formed, and new tables come from the free
    list. *)
Theorem mappages_spec s root l va n pa perm :
  vm_ok s root l -> 0 < n -> 0 <= va -> va + n * PGSIZE <= MAXVA -> va `mod` PGSIZE = 0 ->
  0 <= pa -> pa + n * PGSIZE <= 2 ^ 56 -> pa `mod` PGSIZE = 0 -> 0 <= perm < 2 ^ 10 ->
  (forall a, va <= a < va + n * PGSIZE -> has_flag (leaf (k_mem s) root a) PTE_V = false) ->
  exists r l' s', mappages root va (n * PGSIZE) pa perm s = Ret r s' /\
    mapped root l s n va pa perm r l' s'.
Proof.
  intros Hvm Hn Hva Hhi Hal Hpa Hphi Hpal Hperm Hun. unfold mappages.
  destruct (n * PGSIZE =? 0) eqn:E; [unfold PGSIZE in E; lia|].
  assert (exists k, n = Z.of_nat k + 1) as [k ->] by (exists (Z.to_nat (n - 1)); lia).
  rewrite (PGROUNDDOWN_id va) by done. change MAXVA with (2 ^ 38) in Hhi.
  assert (PGROUNDDOWN (u64 (va + (Z.of_nat k + 1) * PGSIZE - 1)) = va + Z.of_nat k * PGSIZE) as ->.
  { rewrite u64_small by (unfold PGSIZE in *; lia).
    rewrite PGROUNDDOWN_eq. unfold PGSIZE in *. Z.div_mod_to_equations. lia. }
  replace (Z.to_nat ((va + Z.of_nat k * PGSIZE - va) / PGSIZE)) with k.
  2:{ unfold PGSIZE. Z.div_mod_to_equations. lia. }
  by apply mappages_loop_spec.
Qed.

(** Mapping over a page that is mapped already halts the kernel. *)
Lemma mappages_remap s root va size pa perm :
  pt_wf (k_mem s) root -> 0 < size -> 0 <= va < MAXVA ->
  has_flag (leaf (k_mem s) root (PGROUNDDOWN va)) PTE_V = true ->
  mappages root va size pa perm s = Panic "mappages: remap" s.
Proof.
  intros Hwf Hs Hva Hv. unfold mappages. destruct (size =? 0) eqn:E; [lia|].
  cbn [mappages_loop].
  assert (PGROUNDDOWN va < MAXVA) as Hlt by (pose proof (PGROUNDDOWN_bounds va); lia).
  assert (walk root (PGROUNDDOWN va) true s = Ret (leaf_addr (k_mem s) root (PGROUNDDOWN va)) s) as Ew.
  { revert Hv. unfold walk. destruct (PGROUNDDOWN va >=? MAXVA) eqn:E1; [lia|].
    generalize (PGROUNDDOWN va). intros a. cbn [walk_loop]. unfold leaf, leaf_addr. cbn [pt_at].
    unfold child, load64. rewrite kbind_gets. fold (pte_at (k_mem s) root (PX 2 a)).
    destruct (has_flag (pte_at (k_mem s) root (PX 2 a)) PTE_V); [|done].
    rewrite kbind_gets. fold (pte_at (k_mem s) (PTE2PA (pte_at (k_mem s) root (PX 2 a))) (PX 1 a)).
    by destruct (has_flag (pte_at (k_mem s) (PTE2PA _) (PX 1 a)) PTE_V). }
  rewrite (kbind_Ret _ _ _ _ _ Ew).
  destruct (leaf_addr (k_mem s) root (PGROUNDDOWN va) =? 0) eqn:Ez.
  { apply Z.eqb_eq, leaf_addr_zero in Ez; [|done]. by rewrite Ez in Hv. }
  destruct (leaf_addr_nonzero (k_mem s) root (PGROUNDDOWN va) Hwf) as (t0 & _ & Ea & El); [lia|].
  rewrite Ea. unfold load64. rewrite kbind_gets. fold (pte_at (k_mem s) t0 (PX 0 (PGROUNDDOWN va))).
  by rewrite <- El, Hv.
Qed.

(** ** uvmunmap *)

(** The physical pages of the [n] pages from [a] on. *)
Fixpoint frames m (root a : Z) (n : nat) : list Z :=
  match n with
  | O => []
  | S n => PTE2PA (leaf m root a) :: frames m root (a + PGSIZE) n
  end.

Lemma frames_ext m m' root a n :
  (forall va, a <= va < a + Z.of_nat n * PGSIZE -> leaf m' root va = leaf m root va) ->
  frames m' root a n = frames m root a n.
Proof.
  revert a. induction n as [|n IH]; intros a H; [done|]. cbn. f_equal.
  - rewrite H; [done|]. unfold PGSIZE. lia.
  - apply IH. intros va Hva. apply H. unfold PGSIZE in *. lia.
Qed.

(** Every page of the range is mapped as a leaf. *)
Definition leaves_at m (root a n : Z) : Prop :=
  forall va, a <= va < a + n * PGSIZE ->
    has_flag (leaf m root va) PTE_V = true /\ PTE_FLAGS (leaf m root va) <> PTE_V.

(** The frames may be given back: distinct pages, neither tables nor free. *)
Definition freeable m (root : Z) (l ps : list Z) : Prop :=
  NoDup ps /\ Forall is_page ps /\ (forall p, p ∈ ps -> p ∉ l) /\
  (forall p, p ∈ ps -> ~ is_table m root p).

(** What unmapping [n] pages from [a] on does. *)
Definition unmapped (root a n : Z) (ps l : list Z) s s' : Prop :=
  mem_step s s' /\ vm_ok s' root (rev ps ++ l) /\
  (forall t, is_table (k_mem s') root t <-> is_table (k_mem s) root t) /\
  (forall va, 0 <= va < MAXVA ->
     leaf (k_mem s') root va =
       if decide (a <= va < a + n * PGSIZE) then 0 else leaf (k_mem s) root va) /\
  (forall x, ~ owned (k_mem s) root (ps ++ l) x -> ld8 (k_mem s') x = ld8 (k_mem s) x).

(** Freeing a page that is no table leaves the page table alone. *)
Lemma kfree_vm s root l p :
  vm_ok s root l -> is_page p -> p ∉ l -> ~ is_table (k_mem s) root p ->
  exists s', kfree p s = Ret tt s' /\ mem_step s s' /\ vm_ok s' root (p :: l) /\
    (forall q, path q -> pt_at (k_mem s') root q = pt_at (k_mem s) root q) /\
    (forall va, leaf (k_mem s') root va = leaf (k_mem s) root va) /\
    (forall x, ~ (p <= x < p + PGSIZE) -> ld8 (k_mem s') x = ld8 (k_mem s) x).
Proof.
  intros (Hok & Hlk & Hf & Hwf & Hd) Hp Hnin Hnt.
  destruct (kfree_page s p l Hok Hlk Hf Hp Hnin) as (s' & E & Hm & Hf' & Hout).
  assert (forall q a i, path q -> pt_at (k_mem s) root q = Some a -> idx i ->
    pte_at (k_mem s') a i = pte_at (k_mem s) a i) as Hpte.
  { intros q a i Hq Ha Hi. destruct (Hwf _ _ Hq Ha) as [Hpa _].
    assert (a <> p) as Hap by (intros ->; apply Hnt; exists q; split; assumption).
    pose proof (is_page_disjoint a p Hpa Hp Hap). apply pte_at_same. intros x Hx. apply Hout.
    unfold idx, PGSIZE in *. lia. }
  assert (forall q, path q -> pt_at (k_mem s') root q = pt_at (k_mem s) root q) as Hpt.
  { apply pt_at_ext. intros. by eapply Hpte. }
  exists s'. split; [done|]. split; [done|]. split; [|split; [done|split; [|done]]].
  - split; [by eapply mem_step_cpu_ok|]. split; [by eapply mem_step_lock|]. split; [done|]. split.
    + intros q a Hq Ha. rewrite Hpt in Ha by done. destruct (Hwf q a Hq Ha) as [? Hu].
      split; [done|]. intros q' Hq' Ha'. rewrite Hpt in Ha' by done. by apply Hu.
    + intros a (q & Hq & Ha). rewrite Hpt in Ha by done.
      assert (is_table (k_mem s) root a) as Hta by (exists q; split; assumption).
      intros [->|Hin]%elem_of_cons; [done|]. by apply (Hd a).
  - intros va. unfold leaf. rewrite Hpt by apply path_px.
    destruct (pt_at (k_mem s) root _) as [t0|] eqn:Et; [|done].
    eapply Hpte; [apply path_px|done|apply PX_range].
Qed.

Lemma uvmunmap_loop_S fuel root a stop do_free :
  uvmunmap_loop (F := F) (S fuel) root a stop do_free =
    (if negb (a <? stop) then ret tt else
     pte <- walk root a false ;;
     if pte =? 0 then panic "uvmunmap: walk" else
     v <- load64 pte ;;
     if negb (has_flag v PTE_V) then panic "uvmunmap: not mapped" else
     if PTE_FLAGS v =? PTE_V then panic "uvmunmap: not a leaf" else
     when do_free do kfree (PTE2PA v) ;;
     store64 pte 0 ;;
     uvmunmap_loop fuel root (u64 (a + PGSIZE)) stop do_free).
Proof. done. Qed.

(** A mapped page: its PTE is found and read. *)
Lemma walk_leaf s root va :
  pt_wf (k_mem s) root -> 0 <= va < MAXVA -> has_flag (leaf (k_mem s) root va) PTE_V = true ->
  exists t0, pt_at (k_mem s) root [PX 2 va; PX 1 va] = Some t0 /\
    t0 + 8 * PX 0 va <> 0 /\ walk root va false s = Ret (t0 + 8 * PX 0 va) s /\
    ld64 (k_mem s) (t0 + 8 * PX 0 va) = leaf (k_mem s) root va.
Proof.
  intros Hwf Hva Hv. rewrite walk_lookup by lia. unfold leaf, leaf_addr in *.
  destruct (pt_at (k_mem s) root [PX 2 va; PX 1 va]) as [t0|] eqn:E; [|done].
  exists t0. destruct (Hwf _ _ (path_px va) E) as [Hp _]. apply is_page_bounds in Hp.
  pose proof (PX_range 0 va). unfold KERNBASE in *. split; [done|]. split; [lia|done].
Qed.

(** Clearing the PTE of one page, its frame freed before if [do_free]. *)
Lemma unmap_page s root l a t0 (do_free : bool) :
  let p := PTE2PA (leaf (k_mem s) root a) in
  let ps := if do_free then [p] else [] in
  vm_ok s root l -> 0 <= a < MAXVA -> a `mod` PGSIZE = 0 ->
  pt_at (k_mem s) root [PX 2 a; PX 1 a] = Some t0 -> freeable (k_mem s) root l ps ->
  exists s1, (when do_free do kfree p) s = Ret tt s1 /\
    unmapped root a 1 ps l s (upd_mem (fun m => st64 m (t0 + 8 * PX 0 a) 0) s1).
Proof.
  intros p ps Hvm Ha Hal Ht (Hnd & Hpg & Hnl & Hnt).
  assert (exists s1, (when do_free do kfree p) s = Ret tt s1 /\ mem_step s s1 /\
    vm_ok s1 root (rev ps ++ l) /\
    (forall q, path q -> pt_at (k_mem s1) root q = pt_at (k_mem s) root q) /\
    (forall va, leaf (k_mem s1) root va = leaf (k_mem s) root va) /\
    (forall x, ~ owned (k_mem s) root (ps ++ l) x -> ld8 (k_mem s1) x = ld8 (k_mem s) x))
    as (s1 & E & Hm & Hvm1 & Hpt & Hleaf & Hout).
  { destruct do_free; [|exists s; split; [done|]; split; [apply mem_step_refl|done]].
    destruct (kfree_vm s root l p) as (s1 & E & Hm & Hvm1 & Hpt & Hleaf & Hout);
      [done|exact (proj1 (Forall_singleton is_page p) Hpg)|apply Hnl; by left|apply Hnt; by left|].
    exists s1. do 5 (split; [done|]). intros x Hx. apply Hout. intros Hr. apply Hx.
    exists p. split; [right; by left|done]. }
  exists s1. split; [done|].
  destruct (store_leaf s1 root (rev ps ++ l) a t0 0) as [(Hm2 & Hvm2 & _ & Htab & Hout2) Hleaf2];
    [done|rewrite Hpt; [done|apply path_px]|lia|done|].
  assert (forall t, is_table (k_mem s1) root t <-> is_table (k_mem s) root t) as Htab1.
  { intros t. split; intros (q & Hq & Et); exists q; (split; [done|]);
      [rewrite <- Hpt by done|rewrite Hpt by done]; done. }
  split; [by eapply mem_step_trans|]. split; [done|]. split; [|split].
  - intros t. rewrite <- Htab1. apply set_leaf_table; [apply Hvm1|rewrite Hpt; [done|apply path_px]|lia].
  - intros va Hva. rewrite Hleaf2, Hleaf by done. unfold PGSIZE in *.
    pose proof (Z.div_mod a 4096). pose proof (Z.div_mod va 4096).
    pose proof (Z.mod_pos_bound va 4096). repeat case_decide; (done || lia).
  - intros x Hx. rewrite Hout2; [by apply Hout|]. intros (b & Hb & Hr). apply Hx. exists b.
    split; [|done]. rewrite Htab1 in Hb. rewrite elem_of_app, elem_of_rev in Hb. by rewrite elem_of_app.
Qed.

Lemma unmapped_S root a n ps ps' l s s1 s2 :
  0 <= n -> unmapped root a 1 ps l s s1 -> unmapped root (a + PGSIZE) n ps' (rev ps ++ l) s1 s2 ->
  unmapped root a (n + 1) (ps ++ ps') l s s2.
Proof.
  intros Hn (M1 & V1 & T1 & L1 & X1) (M2 & V2 & T2 & L2 & X2).
  split; [by eapply mem_step_trans|]. split; [by rewrite rev_app_distr, <- app_assoc|].
  split; [intros t; by rewrite T2|]. split.
  - intros va Hva. rewrite L2, L1 by done. unfold PGSIZE in *. repeat case_decide; (done || lia).
  - intros x Hx. rewrite X2, X1; [done| |].
    + intros (b & Hb & Hr). apply Hx. exists b. split; [|done].
      rewrite !elem_of_app in *. tauto.
    + intros (b & Hb & Hr). apply Hx. exists b. split; [|done].
      rewrite T1, !elem_of_app, elem_of_rev in Hb. rewrite !elem_of_app. tauto.
Qed.

Lemma unmapped_0 root a l s : vm_ok s root l -> unmapped root a 0 [] l s s.
Proof.
  intros H. split; [apply mem_step_refl|]. split; [done|]. split; [done|]. split; [|done].
  intros va _. rewrite decide_False; [done|lia].
Qed.

Lemma uvmunmap_loop_spec n root do_free s l a fuel :
  let ps := if do_free : bool then frames (k_mem s) root a n else [] in
  (n < fuel)%nat -> vm_ok s root l ->
  0 <= a -> a + Z.of_nat n * PGSIZE <= MAXVA -> a `mod` PGSIZE = 0 ->
  leaves_at (k_mem s) root a (Z.of_nat n) -> freeable (k_mem s) root l ps ->
  exists s', uvmunmap_loop fuel root a (a + Z.of_nat n * PGSIZE) do_free s = Ret tt s' /\
    unmapped root a (Z.of_nat n) ps l s s'.
Proof.
  revert s l a fuel. induction n as [|n IH]; intros s l a fuel ps Hfu Hvm Ha Hhi Hal Hlv Hfr;
    (destruct fuel as [|fuel]; [lia|]); rewrite uvmunmap_loop_S.
  - replace (a + Z.of_nat 0 * PGSIZE) with a by lia. rewrite Z.ltb_irrefl.
    exists s. split; [done|]. replace ps with (@nil Z) by (unfold ps; by destruct do_free).
    by apply unmapped_0.
  - change MAXVA with (2 ^ 38) in *. unfold PGSIZE in Hhi.
    destruct (a <? a + Z.of_nat (S n) * PGSIZE) eqn:E; [|apply Z.ltb_ge in E; unfold PGSIZE in E; lia]. cbn [negb].
    destruct (Hlv a) as [Hv Hfl]; [unfold PGSIZE; lia|].
    destruct (walk_leaf s root a) as (t0 & Ht & Hnz & Ew & El);
      [apply Hvm|change MAXVA with (2 ^ 38); lia|done|].
    rewrite (kbind_Ret _ _ _ _ _ Ew). destruct (t0 + 8 * PX 0 a =? 0) eqn:Ez; [lia|].
    unfold load64. rewrite kbind_gets, El, Hv. cbn [negb].
    destruct (PTE_FLAGS (leaf (k_mem s) root a) =? PTE_V) eqn:Ef; [lia|].
    set (p := PTE2PA (leaf (k_mem s) root a)) in *.
    set (p1 := if do_free then [p] else []).
    set (ps' := if do_free then frames (k_mem s) root (a + PGSIZE) n else []).
    assert (ps = p1 ++ ps') as Eps by (unfold ps, p1, ps'; by destruct do_free).
    destruct Hfr as (Hnd & Hpg & Hnl & Hnt). rewrite Eps in Hnd, Hpg, Hnl, Hnt.
    apply NoDup_app in Hnd as (Hnd1 & Hnd12 & Hnd2). apply Forall_app in Hpg as [Hpg1 Hpg2].
    destruct (unmap_page s root l a t0 do_free) as (s1 & E1 & Hu1);
      [done|change MAXVA with (2 ^ 38); lia|done|done| |].
    { split; [done|]. split; [done|]. split; intros q Hq; [apply Hnl|apply Hnt];
        apply elem_of_app; by left. }
    rewrite (kbind_Ret _ _ _ _ _ E1). unfold store64. rewrite kbind_modify.
    set (s2 := upd_mem _ s1) in *. pose proof Hu1 as (M1 & V1 & T1 & L1 & X1).
    rewrite u64_small by (unfold PGSIZE; lia).
    assert (forall va, a + PGSIZE <= va < a + PGSIZE + Z.of_nat n * PGSIZE ->
      leaf (k_mem s2) root va = leaf (k_mem s) root va) as Hsame.
    { intros va Hva. unfold PGSIZE in *. rewrite L1 by (change MAXVA with (2 ^ 38); lia).
      rewrite decide_False by (unfold PGSIZE; lia). done. }
    destruct (IH s2 (rev p1 ++ l) (a + PGSIZE) fuel) as (s3 & E3 & Hu3);
      [lia|done|unfold PGSIZE; lia|unfold PGSIZE; lia|by apply aligned_next| | |].
    { intros va Hva. rewrite Hsame by done. apply Hlv. unfold PGSIZE in *. lia. }
    { rewrite (frames_ext (k_mem s)) by done. fold ps'. split; [done|]. split; [done|]. split.
      - intros q Hq Hin. apply elem_of_app in Hin as [Hin|Hin].
        + rewrite elem_of_rev in Hin. exact (Hnd12 q Hin Hq).
        + apply (Hnl q); [apply elem_of_app; by right|done].
      - intros q Hq. rewrite T1. apply Hnt. apply elem_of_app. by right. }
    exists s3. replace (a + Z.of_nat (S n) * PGSIZE) with (a + PGSIZE + Z.of_nat n * PGSIZE) by lia.
    split; [exact E3|]. rewrite (frames_ext (k_mem s)) in Hu3 by done. fold ps' in Hu3.
    rewrite Eps. replace (Z.of_nat (S n)) with (Z.of_nat n + 1) by lia.
    apply (unmapped_S _ _ _ _ _ _ _ s2); [lia|done|done].
Qed.

(** C23: uvmunmap() of n mapped pages clears exactly their leaf PTEs; with do_free
    the frames they mapped go back to the free list; the page tables themselves
    and all memory outside the freed frames are otherwise unchanged. *)
Theorem uvmunmap_spec n root do_free s l a :
  let ps := if do_free : bool then frames (k_mem s) root a n else [] in
  vm_ok s root l -> 0 <= a -> a + Z.of_nat n * PGSIZE <= MAXVA -> a `mod` PGSIZE = 0 ->
  leaves_at (k_mem s) root a (Z.of_nat n) -> freeable (k_mem s) root l ps ->
  exists s', uvmunmap root a (Z.of_nat n) do_free s = Ret tt s' /\
    unmapped root a (Z.of_nat n) ps l s s'.
Proof.
  intros ps Hvm Ha Hhi Hal Hlv Hfr. unfold uvmunmap. rewrite Hal. cbn [Z.eqb negb].
  rewrite Nat2Z.id. change MAXVA with (2 ^ 38) in *.
  rewrite u64_small by (unfold PGSIZE in *; lia).
  apply uvmunmap_loop_spec; (done || lia).
Qed.
End PageTable.
