(* ===== verification/UserMem.v ===== *)
(** User memory seen through a page table: walkaddr(), copyout(), copyin() of
    kernel/vm.c.

    A user address [va] denotes the byte of physical memory at [uaddr m root va];
    [uaccess] is the check walkaddr() makes. The copy functions move exactly the
    bytes of the range, or fail with -1 at the first page the check refuses. *)
From S2P Require Import Prelude Riscv Machine Spinlock KString Kalloc Vm PageTable.

Section UserMem.
Context {F : Type} `{L : Layout} `{!LayoutOk L}.
Implicit Types (s : kstate F) (m : memory).

Definition uaccess m (root va : Z) : bool :=
  (va <? MAXVA) && has_flag (leaf m root va) PTE_V && has_flag (leaf m root va) PTE_U &&
  negb (PTE2PA (leaf m root va) =? 0).

Definition uaddr m (root va : Z) : Z := PTE2PA (leaf m root va) + va `mod` PGSIZE.

(** The bytes at the [n] user addresses from [va] on. *)
Fixpoint read_user m (root va : Z) (n : nat) : list Z :=
  match n with
  | O => []
  | S n => ld8 m (uaddr m root va) :: read_user m root (va + 1) n
  end.

(** ** Addresses of one page *)

Lemma leaf_page m root va : leaf m root (PGROUNDDOWN va) = leaf m root va.
Proof. unfold leaf. by destruct (PX_page va) as (-> & -> & ->). Qed.

Lemma same_page va x : PGROUNDDOWN va <= x < PGROUNDDOWN va + PGSIZE -> PGROUNDDOWN x = PGROUNDDOWN va.
Proof.
  rewrite !PGROUNDDOWN_eq. unfold PGSIZE. intros H. f_equal. Z.div_mod_to_equations. lia.
Qed.

Lemma mod_page va : va `mod` PGSIZE = va - PGROUNDDOWN va.
Proof. rewrite PGROUNDDOWN_eq. unfold PGSIZE. pose proof (Z.div_mod va 4096). lia. Qed.

Lemma leaf_same_page m root va x :
  PGROUNDDOWN va <= x < PGROUNDDOWN va + PGSIZE -> leaf m root x = leaf m root va.
Proof. intros H. by rewrite <- leaf_page, (same_page va x H), leaf_page. Qed.

Lemma uaddr_same_page m root va x :
  PGROUNDDOWN va <= x < PGROUNDDOWN va + PGSIZE -> uaddr m root x = uaddr m root va + (x - va).
Proof.
  intros H. unfold uaddr. rewrite (leaf_same_page m root va x H), !mod_page, (same_page va x H). lia.
Qed.

Lemma MAXVA_aligned : MAXVA `mod` PGSIZE = 0.
Proof. done. Qed.

Lemma page_below_MAXVA va : va < MAXVA <-> PGROUNDDOWN va < MAXVA.
Proof.
  pose proof MAXVA_aligned. rewrite PGROUNDDOWN_eq. change MAXVA with (67108864 * 4096) in *.
  unfold PGSIZE. Z.div_mod_to_equations. lia.
Qed.

Lemma uaccess_page m root va : uaccess m root (PGROUNDDOWN va) = uaccess m root va.
Proof.
  unfold uaccess. rewrite leaf_page. do 3 f_equal. pose proof (page_below_MAXVA va).
  apply eq_true_iff_eq. rewrite !Z.ltb_lt. tauto.
Qed.

Lemma uaccess_same_page m root va x :
  PGROUNDDOWN va <= x < PGROUNDDOWN va + PGSIZE -> uaccess m root x = uaccess m root va.
Proof. intros H. by rewrite <- uaccess_page, (same_page va x H), uaccess_page. Qed.

(** ** walkaddr *)

Lemma walkaddr_spec s root va :
  pt_wf (k_mem s) root ->
  walkaddr root va s =
    Ret (if uaccess (k_mem s) root va then PTE2PA (leaf (k_mem s) root va) else 0) s.
Proof.
  intros Hwf. unfold walkaddr, uaccess.
  destruct (va <? MAXVA) eqn:E; (destruct (va >=? MAXVA) eqn:E'; try lia); cbn [andb]; [|done].
  rewrite (kbind_Ret _ _ _ _ _ (walk_lookup s root va ltac:(lia))).
  destruct (leaf_addr (k_mem s) root va =? 0) eqn:Ez.
  - apply Z.eqb_eq, leaf_addr_zero in Ez; [|done]. by rewrite Ez.
  - destruct (leaf_addr_nonzero (k_mem s) root va Hwf) as (t0 & _ & Ea & El); [lia|].
    unfold load64. rewrite kbind_gets, Ea. fold (pte_at (k_mem s) t0 (PX 0 va)). rewrite <- El.
    destruct (has_flag (leaf (k_mem s) root va) PTE_V); [|done].
    destruct (has_flag (leaf (k_mem s) root va) PTE_U); [|done]. cbn [negb andb].
    destruct (PTE2PA (leaf (k_mem s) root va) =? 0) eqn:E0; [|done].
    apply Z.eqb_eq in E0. by rewrite E0.
Qed.

Lemma uaccess_nonzero m root va :
  uaccess m root va = true -> va < MAXVA /\ PTE2PA (leaf m root va) <> 0.
Proof. unfold uaccess. intros. split; [lia|]. destruct (PTE2PA (leaf m root va) =? 0) eqn:E; lia. Qed.

(** ** copyin *)

Lemma read_user_app m root va n k :
  read_user m root va (n + k) = read_user m root va n ++ read_user m root (va + Z.of_nat n) k.
Proof.
  revert va. induction n as [|n IH]; intros va; cbn [Nat.add read_user app].
  - f_equal. lia.
  - rewrite IH. do 2 f_equal. f_equal. lia.
Qed.

Lemma read_user_page m root va n :
  va + Z.of_nat n <= PGROUNDDOWN va + PGSIZE ->
  read_bytes m (uaddr m root va) n = read_user m root va n.
Proof.
  revert va. induction n as [|n IH]; intros va H; [done|]. cbn [read_bytes read_user]. f_equal.
  destruct n as [|n]; [done|]. pose proof (PGROUNDDOWN_bounds va).
  assert (PGROUNDDOWN (va + 1) = PGROUNDDOWN va) as E by (apply same_page; lia).
  rewrite <- IH by (rewrite E; lia). f_equal. rewrite (uaddr_same_page m root va (va + 1)) by lia. lia.
Qed.

Lemma read_user_length m root va n : length (read_user m root va n) = n.
Proof. revert va. induction n as [|n IH]; intros va; cbn; [done|]. by rewrite IH. Qed.

(** The result of copyin(): all the bytes, or those of the pages before the
    first one that is not accessible. *)
Definition copied m (root va : Z) (n : nat) (r : Z) (bs : list Z) : Prop :=
  (r = 0 /\ bs = read_user m root va n /\
     forall x, va <= x < va + Z.of_nat n -> uaccess m root x = true) \/
  (r = -1 /\ exists k, (k < n)%nat /\ bs = read_user m root va k /\
     uaccess m root (va + Z.of_nat k) = false /\
     forall x, va <= x < va + Z.of_nat k -> uaccess m root x = true).

Lemma copyin_loop_spec fuel s root va n dst :
  pt_wf (k_mem s) root -> (n < fuel)%nat -> 0 <= va -> va + Z.of_nat n < 2 ^ 63 ->
  exists r bs, copyin_loop fuel root va (Z.of_nat n) dst s = Ret (r, dst ++ bs) s /\
               copied (k_mem s) root va n r bs.
Proof.
  intros Hwf. revert va n dst. induction fuel as [|fuel IH]; intros va n dst Hfu Hva Hhi; [lia|].
  cbn [copyin_loop]. destruct (decide (n = 0%nat)) as [->|Hn].
  { exists 0, []. rewrite app_nil_r. split; [done|]. left. do 2 (split; [done|]). cbn. lia. }
  destruct (Z.of_nat n >? 0) eqn:E; [cbn [negb]|lia]. clear E.
  rewrite (kbind_Ret _ _ _ _ _ (walkaddr_spec s root (PGROUNDDOWN va) Hwf)).
  rewrite uaccess_page, leaf_page. pose proof (PGROUNDDOWN_bounds va) as Hb.
  destruct (uaccess (k_mem s) root va) eqn:Ea; cycle 1.
  { exists (-1), []. rewrite app_nil_r. split; [done|]. right. split; [done|]. exists 0%nat.
    rewrite Z.add_0_r. split; [lia|]. do 2 (split; [done|]). lia. }
  apply uaccess_nonzero in Ea as Hnz. destruct Hnz as [Hmax Hnz].
  destruct (PTE2PA (leaf (k_mem s) root va) =? 0) eqn:E; [lia|]. clear E.
  set (k := Z.to_nat (Z.min (PGSIZE - (va - PGROUNDDOWN va)) (Z.of_nat n))).
  assert (Z.min (PGSIZE - (va - PGROUNDDOWN va)) (Z.of_nat n) = Z.of_nat k) as Ek
    by (unfold k; lia). clearbody k.
  rewrite Ek, kbind_gets, <- mod_page. fold (uaddr (k_mem s) root va).
  rewrite read_user_page by lia.
  assert (forall x, va <= x < va + Z.of_nat k -> uaccess (k_mem s) root x = true) as Hacc.
  { intros x Hx. rewrite (uaccess_same_page _ _ va x) by lia. done. }
  replace (Z.of_nat n - Z.of_nat k) with (Z.of_nat (n - k)) by lia.
  change MAXVA with (2 ^ 38) in Hmax. rewrite u64_small by (unfold PGSIZE in *; lia).
  destruct (decide (n = k)) as [->|Hnk].
  - rewrite Nat.sub_diag. destruct fuel as [|fuel]; [lia|]. cbn [copyin_loop negb Z.gtb Z.of_nat Z.compare].
    exists 0, (read_user (k_mem s) root va k). split; [done|]. by left.
  - assert (PGROUNDDOWN va + PGSIZE = va + Z.of_nat k) as Enext by lia. rewrite Enext.
    destruct (IH (va + Z.of_nat k) (n - k)%nat (dst ++ read_user (k_mem s) root va k))
      as (r & bs & Er & Hc); [lia|lia|lia|].
    exists r, (read_user (k_mem s) root va k ++ bs). rewrite app_assoc. split; [done|].
    destruct Hc as [(-> & -> & Hall)|(-> & j & Hj & -> & Hbad & Hall)]; [left|right].
    + split; [done|]. split; [by rewrite <- read_user_app; f_equal; lia|].
      intros x Hx. destruct (decide (x < va + Z.of_nat k)); [apply Hacc; lia|apply Hall; lia].
    + split; [done|]. exists (k + j)%nat. rewrite read_user_app, Nat2Z.inj_add, Z.add_assoc.
      split; [lia|]. split; [done|]. split; [done|].
      intros x Hx. destruct (decide (x < va + Z.of_nat k)); [apply Hacc; lia|apply Hall; lia].
Qed.

Lemma copyin_spec s root va n :
  pt_wf (k_mem s) root -> 0 <= va -> va + Z.of_nat n < 2 ^ 63 ->
  exists r bs, copyin root va (Z.of_nat n) s = Ret (r, bs) s /\ copied (k_mem s) root va n r bs.
Proof.
  intros. unfold copyin. rewrite Nat2Z.id.
  destruct (copyin_loop_spec (S (S n)) s root va n []) as (r & bs & H' & ?); [done|lia|done|done|].
  by exists r, bs.
Qed.

(** ** copyout *)

Lemma ld8_write_bytes m a bs x :
  ld8 (write_bytes m a bs) x =
    match bs !! Z.to_nat (x - a) with
    | Some b => if decide (a <= x) then u8 b else ld8 m x
    | None => ld8 m x
    end.
Proof.
  revert m a. induction bs as [|b bs IH]; intros m a; cbn [write_bytes]; [done|].
  rewrite IH, ld8_st8. destruct (decide (x = a)) as [->|Hne].
  - replace (Z.to_nat (a - (a + 1))) with 0%nat by lia. replace (Z.to_nat (a - a)) with 0%nat by lia.
    cbn. rewrite (decide_True (P := a <= a)) by lia. destruct (bs !! 0%nat); [|done].
    by rewrite decide_False by lia.
  - destruct (decide (a <= x)) as [Hle|Hle].
    + replace (Z.to_nat (x - a)) with (S (Z.to_nat (x - (a + 1)))) by lia. cbn.
      destruct (bs !! _); [|done]. by rewrite decide_True by lia.
    + replace (Z.to_nat (x - (a + 1))) with 0%nat by lia. replace (Z.to_nat (x - a)) with 0%nat by lia.
      cbn. destruct (bs !! 0%nat); [|done]. by rewrite decide_False by lia.
Qed.

(** The user pages of a range are frames of their own: none is a page table,
    and different pages have different frames. *)
Definition own_frames m (root va n : Z) : Prop :=
  (forall x, va <= x < va + n -> uaccess m root x = true -> is_page (PTE2PA (leaf m root x)) /\
     ~ is_table m root (PTE2PA (leaf m root x))) /\
  (forall x y, va <= x < va + n -> va <= y < va + n ->
     uaccess m root x = true -> uaccess m root y = true ->
     PTE2PA (leaf m root x) = PTE2PA (leaf m root y) -> PGROUNDDOWN x = PGROUNDDOWN y).

Lemma own_frames_sub m root va n va' n' :
  own_frames m root va n -> va <= va' -> va' + n' <= va + n -> own_frames m root va' n'.
Proof. intros [H1 H2] ? ?. split; intros; [apply H1|apply H2]; (done || lia). Qed.

Lemma uaddr_inj m root va n x y :
  own_frames m root va n -> va <= x < va + n -> va <= y < va + n ->
  uaccess m root x = true -> uaccess m root y = true ->
  uaddr m root x = uaddr m root y -> x = y.
Proof.
  intros [H1 H2] Hx Hy Ax Ay E. destruct (H1 x Hx Ax) as [Px _]. destruct (H1 y Hy Ay) as [Py _].
  unfold uaddr in E. pose proof (Z.mod_pos_bound x PGSIZE). pose proof (Z.mod_pos_bound y PGSIZE).
  destruct (decide (PTE2PA (leaf m root x) = PTE2PA (leaf m root y))) as [Ef|Hne].
  - pose proof (H2 x y Hx Hy Ax Ay Ef) as Ep. rewrite !mod_page in E. lia.
  - pose proof (is_page_disjoint _ _ Px Py Hne). unfold PGSIZE in *. lia.
Qed.

(** Memory that agrees on the page tables denotes the same address space. *)
Lemma leaf_tables m m' root :
  pt_wf m root ->
  (forall t x, is_table m root t -> t <= x < t + PGSIZE -> ld8 m' x = ld8 m x) ->
  (forall p, path p -> pt_at m' root p = pt_at m root p) /\
  (forall va, leaf m' root va = leaf m root va).
Proof.
  intros Hwf H.
  assert (forall p a i, path p -> pt_at m root p = Some a -> idx i -> pte_at m' a i = pte_at m a i)
    as Hp.
  { intros p a i Hp Ha Hi. apply pte_at_same. intros x Hx. apply (H a).
    - by exists p.
    - unfold idx, PGSIZE in *. lia. }
  assert (forall p, path p -> pt_at m' root p = pt_at m root p) as Hpt.
  { apply pt_at_ext. intros. by eapply Hp. }
  split; [done|]. intros va. unfold leaf. rewrite Hpt by apply path_px.
  destruct (pt_at m root _) as [t0|] eqn:E; [|done].
  eapply Hp; [apply path_px|done|apply PX_range].
Qed.

Lemma pt_wf_ext m m' root :
  (forall p, path p -> pt_at m' root p = pt_at m root p) -> pt_wf m root -> pt_wf m' root.
Proof.
  intros H Hwf p a Hp Ha. rewrite H in Ha by done. destruct (Hwf p a Hp Ha) as [? Hu].
  split; [done|]. intros q Hq Ha'. rewrite H in Ha' by done. by apply Hu.
Qed.

(** [m'] is [m] with [src] stored at the user addresses from [va] on. *)
Definition written m (root va : Z) (src : list Z) m' : Prop :=
  (forall i b, src !! i = Some b -> ld8 m' (uaddr m root (va + Z.of_nat i)) = u8 b) /\
  (forall x, (forall i, (i < length src)%nat -> x <> uaddr m root (va + Z.of_nat i)) ->
     ld8 m' x = ld8 m x).

(** A write through user pages leaves the address space as it is. *)
Lemma written_leaf m root va src m' :
  pt_wf m root -> own_frames m root va (Z.of_nat (length src)) ->
  (forall x, va <= x < va + Z.of_nat (length src) -> uaccess m root x = true) ->
  written m root va src m' ->
  pt_wf m' root /\ (forall t, is_table m' root t <-> is_table m root t) /\
  forall a, leaf m' root a = leaf m root a.
Proof.
  intros Hwf [H1 _] Hacc [_ Hout].
  destruct (leaf_tables m m' root Hwf) as [Hpt Hleaf].
  { intros t x Ht Hx. apply Hout. intros i Hi ->.
    destruct (H1 (va + Z.of_nat i)) as [Hp Hnt]; [lia|apply Hacc; lia|].
    destruct Ht as (p & Hp' & Et). destruct (Hwf p t Hp' Et) as [Hpt _].
    assert (t <> PTE2PA (leaf m root (va + Z.of_nat i))) as Hne
      by (intros ->; apply Hnt; by exists p).
    pose proof (is_page_disjoint _ _ Hpt Hp Hne).
    pose proof (Z.mod_pos_bound (va + Z.of_nat i) PGSIZE). unfold uaddr, PGSIZE in *. lia. }
  split; [by eapply pt_wf_ext|]. split; [|done].
  intros t. split; intros (p & Hp & Et); exists p; (split; [done|]);
    [rewrite <- Hpt by done|rewrite Hpt by done]; done.
Qed.

(** Within one page, the write of copyout() is the write of memmove(). *)
Lemma written_page m root va bs :
  va + Z.of_nat (length bs) <= PGROUNDDOWN va + PGSIZE ->
  written m root va bs (write_bytes m (uaddr m root va) bs).
Proof.
  intros H. pose proof (PGROUNDDOWN_bounds va). split.
  - intros i b Hi. pose proof (lookup_lt_Some _ _ _ Hi).
    rewrite (uaddr_same_page m root va (va + Z.of_nat i)) by lia.
    rewrite ld8_write_bytes.
    replace (Z.to_nat (uaddr m root va + (va + Z.of_nat i - va) - uaddr m root va)) with i by lia.
    rewrite Hi. by rewrite decide_True by lia.
  - intros x Hx. rewrite ld8_write_bytes. destruct (bs !! _) as [b|] eqn:E; [|done].
    case_decide as Hd; [|done]. pose proof (lookup_lt_Some _ _ _ E).
    destruct (Hx (Z.to_nat (x - uaddr m root va))); [done|].
    rewrite (uaddr_same_page m root va) by lia. lia.
Qed.

Lemma written_app m root va bs1 bs2 m1 m2 :
  own_frames m root va (Z.of_nat (length (bs1 ++ bs2))) ->
  (forall x, va <= x < va + Z.of_nat (length (bs1 ++ bs2)) -> uaccess m root x = true) ->
  (forall a, leaf m1 root a = leaf m root a) ->
  written m root va bs1 m1 -> written m1 root (va + Z.of_nat (length bs1)) bs2 m2 ->
  written m root va (bs1 ++ bs2) m2.
Proof.
  intros Hown Hacc Hleaf [W1 X1] [W2 X2]. rewrite length_app in *.
  assert (forall a, uaddr m1 root a = uaddr m root a) as Hu by (intros; unfold uaddr; by rewrite Hleaf).
  split.
  - intros i b Hi. apply lookup_app_Some in Hi as [Hi|[Hle Hi]].
    + pose proof (lookup_lt_Some _ _ _ Hi). rewrite X2; [by apply W1|].
      intros j Hj E. rewrite Hu in E. apply (uaddr_inj _ _ _ _ _ _ Hown) in E; [lia|lia|lia|apply Hacc; lia..].
    + rewrite <- (W2 _ b Hi), Hu. do 2 f_equal. lia.
  - intros x Hx. rewrite X2, X1; [done| |].
    + intros i Hi. apply Hx. rewrite length_app. lia.
    + intros i Hi. rewrite Hu. replace (va + Z.of_nat (length bs1) + Z.of_nat i)
        with (va + Z.of_nat (length bs1 + i)) by lia. apply Hx. rewrite length_app. lia.
Qed.

Lemma copyout_loop_spec fuel s root va src :
  pt_wf (k_mem s) root -> (length src < fuel)%nat -> 0 <= va ->
  (forall x, va <= x < va + Z.of_nat (length src) -> uaccess (k_mem s) root x = true) ->
  own_frames (k_mem s) root va (Z.of_nat (length src)) ->
  exists m', copyout_loop fuel root va src s = Ret 0 (set_k_mem m' s) /\
             written (k_mem s) root va src m'.
Proof.
  revert s va src. induction fuel as [|fuel IH]; intros s va src Hwf Hfu Hva Hacc Hown; [lia|].
  cbn [copyout_loop]. destruct (decide (length src = 0%nat)) as [Hn|Hn].
  { rewrite Hn. apply nil_length_inv in Hn as ->. exists (k_mem s). split; [by destruct s|].
    split; [intros i b Hi; by rewrite lookup_nil in Hi|done]. }
  destruct (Z.of_nat (length src) >? 0) eqn:E; [cbn [negb]|lia]. clear E.
  rewrite (kbind_Ret _ _ _ _ _ (walkaddr_spec s root (PGROUNDDOWN va) Hwf)).
  rewrite uaccess_page, leaf_page. pose proof (PGROUNDDOWN_bounds va) as Hb.
  pose proof (Hacc va ltac:(lia)) as Ea. rewrite Ea.
  destruct (uaccess_nonzero _ _ _ Ea) as [Hmax Hnz].
  destruct (PTE2PA (leaf (k_mem s) root va) =? 0) eqn:E; [lia|]. clear E.
  set (k := Z.to_nat (Z.min (PGSIZE - (va - PGROUNDDOWN va)) (Z.of_nat (length src)))).
  assert (Z.of_nat k = Z.min (PGSIZE - (va - PGROUNDDOWN va)) (Z.of_nat (length src))) as Ek
    by (unfold k; lia). clearbody k.
  rewrite kbind_modify, <- mod_page. fold (uaddr (k_mem s) root va).
  change MAXVA with (2 ^ 38) in Hmax. rewrite u64_small by (unfold PGSIZE in *; lia).
  assert (length (take k src) = k) as Hk by (rewrite length_take; lia).
  assert (length (drop k src) = (length src - k)%nat) as Hd by apply length_drop.
  set (m1 := write_bytes (k_mem s) (uaddr (k_mem s) root va) (take k src)).
  assert (written (k_mem s) root va (take k src) m1) as W1 by (apply written_page; rewrite Hk; lia).
  destruct (written_leaf (k_mem s) root va (take k src) m1) as (Hwf1 & Ht1 & Hl1);
    [done|rewrite Hk; eapply own_frames_sub; [done|lia|lia]|rewrite Hk; intros; apply Hacc; lia|done|].
  assert (forall a, uaccess m1 root a = uaccess (k_mem s) root a) as Hu1
    by (intros; unfold uaccess; by rewrite Hl1).
  set (s1 := upd_mem _ s). assert (k_mem s1 = m1) as Em by done.
  destruct (decide (length src = k)) as [Hnk|Hnk].
  - exists m1. rewrite (nil_length_inv (drop k src)) by lia.
    destruct fuel as [|fuel]; [lia|]. split; [done|]. by rewrite firstn_all2 in W1 by lia.
  - assert (PGROUNDDOWN va + PGSIZE = va + Z.of_nat k) as Enext by lia. rewrite Enext.
    destruct (IH s1 (va + Z.of_nat k) (drop k src)) as (m2 & E2 & W2).
    { done. } { lia. } { lia. }
    { intros x Hx. rewrite Em, Hu1. apply Hacc. lia. }
    { rewrite Em. destruct Hown as [O1 O2]. split.
      - intros x Hx. rewrite Hl1, Ht1, Hu1. apply O1. lia.
      - intros x y Hx Hy. rewrite !Hl1, !Hu1. apply O2; lia. }
    exists m2. split; [rewrite E2; f_equal; kst|].
    rewrite <- (take_drop k src). apply (written_app _ _ _ _ _ m1);
      [by rewrite take_drop|by rewrite take_drop|done|done|]. by rewrite Hk.
Qed.

Lemma copyout_spec s root va src :
  pt_wf (k_mem s) root -> 0 <= va ->
  (forall x, va <= x < va + Z.of_nat (length src) -> uaccess (k_mem s) root x = true) ->
  own_frames (k_mem s) root va (Z.of_nat (length src)) ->
  exists m', copyout root va src s = Ret 0 (set_k_mem m' s) /\ written (k_mem s) root va src m'.
Proof. intros. apply copyout_loop_spec; (done || lia). Qed.

Lemma read_user_written m root va src m' :
  Forall (fun b => 0 <= b < 2 ^ 8) src ->
  (forall a, leaf m' root a = leaf m root a) ->
  (forall i b, src !! i = Some b -> ld8 m' (uaddr m root (va + Z.of_nat i)) = u8 b) ->
  read_user m' root va (length src) = src.
Proof.
  intros Hb Hleaf. revert va. induction src as [|b src IH]; intros va H; [done|].
  apply Forall_cons in Hb as [Hb0 Hb]. cbn [length read_user]. f_equal.
  - unfold uaddr. rewrite Hleaf. fold (uaddr m root va). pose proof (H 0%nat b eq_refl) as H0.
    rewrite Z.add_0_r in H0. rewrite H0. by apply Z.mod_small.
  - apply IH; [done|]. intros i c Hi.
    replace (va + 1 + Z.of_nat i) with (va + Z.of_nat (S i)) by lia. by apply H.
Qed.
End UserMem.

(** C17: Bytes that copyout() stores in a user address space are the bytes that
    copyin() then reads back from it: for a range of user addresses whose pages
    are mapped, user accessible and backed by frames of their own, copyout()
    returns 0 and copyin() of the same range returns 0 with exactly the bytes
    written; the address space itself (every leaf PTE) is unchanged. *)
Theorem copyout_copyin {F} `{L : Layout} `{!LayoutOk L} (s : kstate F) root va src :
  pt_wf (k_mem s) root -> 0 <= va -> va + Z.of_nat (length src) < 2 ^ 63 ->
  Forall (fun b => 0 <= b < 2 ^ 8) src ->
  (forall x, va <= x < va + Z.of_nat (length src) -> uaccess (k_mem s) root x = true) ->
  own_frames (k_mem s) root va (Z.of_nat (length src)) ->
  exists m', copyout root va src s = Ret 0 (set_k_mem m' s) /\
    copyin root va (Z.of_nat (length src)) (set_k_mem m' s) = Ret (0, src) (set_k_mem m' s) /\
    forall a, leaf m' root a = leaf (k_mem s) root a.
Proof.
  intros Hwf Hva Hhi Hbytes Hacc Hown.
  destruct (copyout_spec s root va src Hwf Hva Hacc Hown) as (m' & E & W).
  destruct (written_leaf _ _ _ _ _ Hwf Hown Hacc W) as (Hwf' & _ & Hleaf).
  exists m'. split; [done|]. split; [|done].
  destruct (copyin_spec (set_k_mem m' s) root va (length src) Hwf' Hva Hhi) as (r & bs & E' & Hc).
  rewrite E'. destruct Hc as [(-> & -> & _)|(_ & k & Hk & _ & Hbad & _)].
  - do 2 f_equal. cbn. by apply (read_user_written (k_mem s)); [|done|apply W].
  - cbn in Hbad. unfold uaccess in Hbad. rewrite Hleaf in Hbad.
    pose proof (Hacc (va + Z.of_nat k)) as Ha. unfold uaccess in Ha. rewrite Ha in Hbad by lia. done.
Qed.

(** C24: copyin() always returns. If every byte of the range is mapped and user
    accessible it returns 0 and exactly those bytes; otherwise it returns -1,
    having read the bytes up to the first inaccessible address. It changes no
    kernel state. *)
Theorem copyin_total {F} `{L : Layout} `{!LayoutOk L} (s : kstate F) root va n :
  pt_wf (k_mem s) root -> 0 <= va -> va + Z.of_nat n < 2 ^ 63 ->
  exists r bs, copyin root va (Z.of_nat n) s = Ret (r, bs) s /\ copied (k_mem s) root va n r bs.
Proof. apply copyin_spec. Qed.
