(* ===== verification/Sched.v ===== *)
(** The scheduling half of kernel/proc.c: sched(), yield(), scheduler(),
    sleep(), wakeup(), kill() and the killed flag.

    A context switch is the outcome [Swtch]: the thread stops there and goes on
    in whatever state it finds when it is resumed. *)
From S2P Require Import Prelude Riscv Machine Spinlock.

Section Ops.
Context {F : Type}.
Abbreviation KM := (K (kstate F)).

(** The current process where the code goes on to dereference it; a null
    pointer faults in the kernel, which kerneltrap() answers with a panic. *)
Definition curproc : KM nat :=
  p <- myproc ;;
  match p with
  | Some p => ret p
  | None => panic "kerneltrap"
  end.

(** swtch.S: save this context and load another. *)
Definition swtch : KM unit := fun s => Swtch s (fun s' => Ret tt s').

Definition sched : KM unit :=
  p <- curproc ;;
  h <- holding (L_proc p) ;;
  if negb h then panic "sched p->lock" else
  c <- mycpu ;;
  if negb (c_noff c =? 1) then panic "sched locks" else
  st <- gets (fun s => p_state (get_proc p s)) ;;
  if bool_decide (st = RUNNING) then panic "sched running" else
  on <- intr_get ;;
  if on then panic "sched interruptible" else
  c <- mycpu ;;
  let intena := c_intena c in
  swtch ;;
  modify (upd_cpu (set_c_intena intena)).

Definition yield : KM unit :=
  p <- curproc ;;
  acquire (L_proc p) ;;
  modify (upd_proc p (set_p_state RUNNABLE)) ;;
  sched ;;
  release (L_proc p).

Definition scheduler_one (p : nat) : KM unit :=
  acquire (L_proc p) ;;
  st <- gets (fun s => p_state (get_proc p s)) ;;
  (when bool_decide (st = RUNNABLE) do
     (modify (upd_proc p (set_p_state RUNNING)) ;;
      modify (upd_cpu (set_c_proc (Some p))) ;;
      swtch ;;
      modify (upd_cpu (set_c_proc None)))) ;;
  release (L_proc p).

(** One pass of the scheduler's infinite loop over the process table. *)
Definition scheduler_pass : KM unit :=
  intr_on ;;
  for_ 0 NPROC scheduler_one.

Fixpoint scheduler_loop (passes : nat) : KM unit :=
  match passes with
  | O => out_of_fuel
  | S passes => scheduler_pass ;; scheduler_loop passes
  end.

(** scheduler(), which never returns, run for a number of passes. *)
Definition scheduler (passes : nat) : KM unit :=
  modify (upd_cpu (set_c_proc None)) ;;
  scheduler_loop passes.

Definition sleep (ch : chan) (lk : lockid) : KM unit :=
  p <- curproc ;;
  acquire (L_proc p) ;;
  release lk ;;
  modify (upd_proc p (set_p_chan (Some ch))) ;;
  modify (upd_proc p (set_p_state SLEEPING)) ;;
  sched ;;
  modify (upd_proc p (set_p_chan None)) ;;
  release (L_proc p) ;;
  acquire lk.

(** [ch] is a pointer, [None] if null. *)
Definition wakeup_one (ch : option chan) (p : nat) : KM unit :=
  me <- myproc ;;
  when negb (bool_decide (Some p = me)) do
    (acquire (L_proc p) ;;
     q <- gets (get_proc p) ;;
     (when bool_decide (p_state q = SLEEPING) && bool_decide (p_chan q = ch) do
        modify (upd_proc p (set_p_state RUNNABLE))) ;;
     release (L_proc p)).

Definition wakeup_at (ch : option chan) : KM unit := for_ 0 NPROC (wakeup_one ch).

Definition wakeup (ch : chan) : KM unit := wakeup_at (Some ch).

Definition kill_one (pid : Z) (p : nat) : KM (option unit) :=
  acquire (L_proc p) ;;
  q <- gets (get_proc p) ;;
  if p_pid q =? pid then
    modify (upd_proc p (set_p_killed 1)) ;;
    (when bool_decide (p_state q = SLEEPING) do modify (upd_proc p (set_p_state RUNNABLE))) ;;
    release (L_proc p) ;;
    ret (Some tt)
  else release (L_proc p) ;; ret None.

Definition kill (pid : Z) : KM Z :=
  r <- for_find 0 NPROC (kill_one pid) ;;
  ret (match r with Some _ => 0 | None => -1 end).

Definition setkilled (p : nat) : KM unit :=
  acquire (L_proc p) ;;
  modify (upd_proc p (set_p_killed 1)) ;;
  release (L_proc p).

Definition killed (p : nat) : KM Z :=
  acquire (L_proc p) ;;
  k <- gets (fun s => p_killed (get_proc p s)) ;;
  release (L_proc p) ;;
  ret k.
End Ops.

(** ** Critical sections that update the process table *)

Section Specs.
Context {F : Type}.
Implicit Types s : kstate F.
Abbreviation KM := (K (kstate F)).

Definition cur s : option nat := c_proc (get_cpu s).

Lemma cur_settle s : cpu_ok s -> cur (settle s) = cur s.
Proof. intros (H & _). unfold cur. by rewrite get_cpu_settle. Qed.

Lemma cur_hold l s : cpu_ok s -> cur (hold l s) = cur s.
Proof.
  intros (H & _). unfold cur.
  assert (get_cpu (hold l s) = pushed (k_sie s) (get_cpu s)) as -> by (by apply get_cpu_off). done.
Qed.

Lemma curproc_spec s p : cpu_ok s -> cur s = Some p -> curproc s = Ret p (settle s).
Proof.
  intros Hok Hc. unfold curproc. rewrite (kbind_Ret _ _ _ _ _ (myproc_spec s Hok)).
  fold (cur s). by rewrite Hc.
Qed.

(** Under a lock the accessors leave the state as it is. *)
Lemma curproc_hold l s p : cpu_ok s -> cur s = Some p -> curproc (hold l s) = Ret p (hold l s).
Proof.
  intros Hok Hc. rewrite (curproc_spec _ p); [|by apply cpu_ok_hold|by rewrite cur_hold].
  by rewrite settle_hold.
Qed.

Lemma settle_upd_proc i f s : settle (upd_proc i f s) = upd_proc i f (settle s).
Proof. done. Qed.

Lemma hold_upd_proc l i f s : upd_proc i f (hold l s) = hold l (upd_proc i f s).
Proof. kst. Qed.

(** acquire; an update of the process table; release. *)
Lemma locked_upd_proc l i f s :
  cpu_ok s -> lock_free l s ->
  (acquire l ;; modify (upd_proc i f) ;; release l) s = Ret tt (settle (upd_proc i f s)).
Proof.
  intros Hok Hl. rewrite (kbind_Ret _ _ _ _ _ (acquire_free l s Hok Hl)), kbind_modify, hold_upd_proc.
  by apply (release_hold l (upd_proc i f s)).
Qed.

(** A loop whose body is a state update up to [settle]. *)
Lemma for_settle (P : kstate F -> Prop) (f : nat -> kstate F -> kstate F) body i n s :
  (forall j s, f j (settle s) = settle (f j s)) ->
  (forall j s, (i <= j < i + S n)%nat -> P s ->
     body j s = Ret tt (settle (f j s)) /\ P (settle (f j s))) ->
  P s -> for_ i (S n) body s = Ret tt (settle (foldl (fun s j => f j s) s (seq i (S n)))).
Proof.
  intros Hf. revert i s. induction n as [|n IH]; intros i s H HP;
    (destruct (H i s) as (E & HP'); [lia|done|]).
  - cbn [for_ seq foldl]. by rewrite (kbind_Ret _ _ _ _ _ E).
  - change (for_ i (S (S n)) body s) with ((body i ;; for_ (S i) (S n) body) s).
    rewrite (kbind_Ret _ _ _ _ _ E), IH; [|intros; apply H; [lia|done]|done].
    f_equal. change (seq i (S (S n))) with (i :: seq (S i) (S n)). cbn [foldl].
    generalize (f i s) (seq (S i) (S n)). clear -Hf. intros s l. revert s.
    induction l as [|j l IH]; intros s; cbn [foldl]; [apply settle_settle|]. by rewrite Hf.
Qed.

(** ** wakeup *)

Definition wake (ch : option chan) (p : proc) : proc :=
  if bool_decide (p_state p = SLEEPING) && bool_decide (p_chan p = ch)
  then set_p_state RUNNABLE p else p.

Definition wake1 (me : option nat) (ch : option chan) (i : nat) s : kstate F :=
  if bool_decide (Some i = me) then s else upd_proc i (wake ch) s.

(** The locks of the other processes are free, as they are when no other hart
    runs kernel code on their behalf. *)
Definition others_free (me : option nat) s : Prop :=
  cpu_ok s /\ cur s = me /\ forall i, (i < NPROC)%nat -> Some i <> me -> lock_free (L_proc i) s.

Lemma others_free_settle me s : others_free me s -> others_free me (settle s).
Proof.
  intros (Hok & Hc & Hl). split; [by apply cpu_ok_settle|]. split; [by rewrite cur_settle|done].
Qed.

Lemma upd_proc_id i f s :
  (forall p, k_procs s !! i = Some p -> f p = p) -> upd_proc i f s = s.
Proof. intros H. unfold upd_proc. rewrite list_alter_id' by done. by destruct s. Qed.

Lemma upd_proc_ext i f g s :
  (forall p, k_procs s !! i = Some p -> f p = g p) -> upd_proc i f s = upd_proc i g s.
Proof. intros H. unfold upd_proc. by rewrite (list_alter_ext' f g). Qed.

Lemma get_proc_lookup i s p : k_procs s !! i = Some p -> get_proc i s = p.
Proof. intros H. unfold get_proc. by rewrite H. Qed.

Lemma wakeup_one_spec me ch i s :
  others_free me s -> (i < NPROC)%nat -> wakeup_one ch i s = Ret tt (settle (wake1 me ch i s)).
Proof.
  intros (Hok & Hc & Hl) Hi. unfold wakeup_one, wake1.
  rewrite (kbind_Ret _ _ _ _ _ (myproc_spec s Hok)). fold (cur s). rewrite Hc.
  case_bool_decide as Hm; cbn [negb]; [done|]. pose proof (Hl i Hi Hm) as Hli.
  rewrite (kbind_Ret _ _ _ _ _ (acquire_free _ _ (cpu_ok_settle s Hok) Hli)), hold_settle, kbind_gets.
  assert (get_proc i (hold (L_proc i) s) = get_proc i s) as -> by done.
  rewrite (kbind_Ret _ _ _ tt (hold (L_proc i) (upd_proc i (wake ch) s))).
  { by apply (release_hold (L_proc i) (upd_proc i (wake ch) s)). }
  destruct (bool_decide (p_state (get_proc i s) = SLEEPING) &&
            bool_decide (p_chan (get_proc i s) = ch)) eqn:E.
  - unfold modify. f_equal. rewrite hold_upd_proc. f_equal. apply upd_proc_ext.
    intros p Hp. apply get_proc_lookup in Hp. subst p. unfold wake. by rewrite E.
  - rewrite upd_proc_id; [done|]. intros p Hp. apply get_proc_lookup in Hp. subst p.
    unfold wake. by rewrite E.
Qed.

Lemma others_free_wake1 me ch i s : others_free me s -> others_free me (wake1 me ch i s).
Proof. intros H. unfold wake1. by case_bool_decide. Qed.

Lemma wakeup_fold me ch s :
  others_free me s ->
  wakeup_at ch s = Ret tt (settle (foldl (fun s i => wake1 me ch i s) s (seq 0 NPROC))).
Proof.
  intros H. unfold wakeup_at, NPROC. apply (for_settle (others_free me)); [| |done].
  - intros j s'. unfold wake1. by case_bool_decide.
  - intros j s' Hj Hs'. split; [apply wakeup_one_spec; [done|unfold NPROC; lia]|].
    apply others_free_settle. by apply others_free_wake1.
Qed.

(** wakeup() makes every process that sleeps on [ch] runnable, the caller
    excepted, and changes nothing else. *)
Definition woken (me : option nat) (ch : option chan) (ps : list proc) : list proc :=
  imap (fun i p => if bool_decide (Some i = me) then p else wake ch p) ps.

Lemma wake_fold_procs me ch i n s :
  k_procs (foldl (fun s i => wake1 me ch i s) s (seq i n)) =
  imap (fun j p => if bool_decide (i <= j < i + n)%nat && negb (bool_decide (Some j = me))
                   then wake ch p else p) (k_procs s).
Proof.
  revert i s. induction n as [|n IH]; intros i s; cbn [seq foldl].
  - apply list_eq. intros j. rewrite list_lookup_imap.
    destruct (k_procs s !! j); [|done]. cbn. by rewrite bool_decide_false by lia.
  - rewrite IH. apply list_eq. intros j. rewrite !list_lookup_imap. unfold wake1.
    destruct (bool_decide (Some i = me)) eqn:Em.
    + destruct (k_procs s !! j); [|done]. cbn. destruct (decide (j = i)) as [->|Hne].
      * rewrite Em. cbn. by rewrite !andb_false_r.
      * by rewrite (bool_decide_ext (S i <= j < S i + n)%nat (i <= j < i + S n)%nat) by lia.
    + cbn. destruct (decide (j = i)) as [->|Hne].
      * rewrite list_lookup_alter_eq. destruct (k_procs s !! i); [|done]. cbn.
        rewrite (bool_decide_false (S i <= i < S i + n)%nat) by lia.
        rewrite (bool_decide_true (i <= i < i + S n)%nat) by lia. by rewrite Em.
      * rewrite list_lookup_alter_ne by done. destruct (k_procs s !! j); [|done]. cbn.
        by rewrite (bool_decide_ext (S i <= j < S i + n)%nat (i <= j < i + S n)%nat) by lia.
Qed.

Lemma wake_fold_rest me ch l s :
  foldl (fun s i => wake1 me ch i s) s l =
  set_k_procs (k_procs (foldl (fun s i => wake1 me ch i s) s l)) s.
Proof.
  revert s. induction l as [|i l IH]; intros s; cbn [foldl]; [by destruct s|].
  rewrite IH. cbn [k_procs set_k_procs].
  generalize (k_procs (foldl (fun s i => wake1 me ch i s) (wake1 me ch i s) l)). intros ps.
  unfold wake1. by case_bool_decide.
Qed.

Lemma wakeup_spec me ch s :
  others_free me s -> length (k_procs s) = NPROC ->
  wakeup_at ch s = Ret tt (settle (set_k_procs (woken me ch (k_procs s)) s)).
Proof.
  intros H Hlen. rewrite (wakeup_fold me) by done. rewrite wake_fold_rest, wake_fold_procs.
  do 3 f_equal. apply list_eq. intros j. unfold woken. rewrite !list_lookup_imap.
  destruct (k_procs s !! j) eqn:E; [|done]. cbn. apply lookup_lt_Some in E.
  rewrite bool_decide_true by lia. by case_bool_decide.
Qed.

(** ** sched, sleep *)

Lemma holding_hold l s : holding l (hold l s) = Ret true (hold l s).
Proof.
  unfold holding. rewrite kbind_gets. unfold cpuid. rewrite kbind_gets. unfold ret. f_equal.
  unfold get_lock, hold. cbn. rewrite lookup_insert_eq. cbn. by rewrite bool_decide_true.
Qed.

Lemma get_cpu_hold l s : cpu_ok s -> get_cpu (hold l s) = pushed (k_sie s) (get_cpu s).
Proof. intros (H & _). by apply get_cpu_off. Qed.

(** The state in which a process may give up the CPU. *)
Definition may_sched p s : Prop :=
  cpu_ok s /\ cur s = Some p /\ c_noff (get_cpu s) = 0 /\ lock_free (L_proc p) s.

Lemma sched_spec p s :
  may_sched p s -> p_state (get_proc p s) <> RUNNING ->
  sched (hold (L_proc p) s) =
    Swtch (hold (L_proc p) s) (fun s' => Ret tt (upd_cpu (set_c_intena (k_sie s)) s')).
Proof.
  intros (Hok & Hc & Hn & Hl) Hst. unfold sched.
  rewrite (kbind_Ret _ _ _ _ _ (curproc_hold _ s p Hok Hc)).
  rewrite (kbind_Ret _ _ _ _ _ (holding_hold _ s)). cbn [negb].
  unfold mycpu. rewrite kbind_gets, get_cpu_hold by done. unfold pushed at 1. cbn [c_noff].
  rewrite Hn. change (0 + 1 =? 1) with true. cbn [negb]. rewrite kbind_gets.
  assert (get_proc p (hold (L_proc p) s) = get_proc p s) as -> by done.
  rewrite bool_decide_false by done. unfold intr_get. rewrite kbind_gets.
  assert (k_sie (hold (L_proc p) s) = false) as -> by done. rewrite kbind_gets, get_cpu_hold by done.
  unfold pushed. cbn [c_intena]. rewrite Hn. done.
Qed.

(** Restoring [intena] in a fresh critical section amounts to having had that
    interrupt state before it. *)
Lemma restore_intena l i s :
  c_noff (get_cpu s) = 0 -> upd_cpu (set_c_intena i) (hold l s) = hold l (set_k_sie i s).
Proof.
  intros Hn. apply kstate_ext; try reflexivity. cbn. rewrite list_alter_alter.
  apply list_alter_ext'. intros c Hc. unfold get_cpu in Hn. rewrite Hc in Hn. cbn in Hn.
  unfold pushed, set_c_intena. cbn. by rewrite Hn.
Qed.

Definition asleep (ch : chan) (p : proc) : proc := set_p_state SLEEPING (set_p_chan (Some ch) p).

Lemma upd_proc_upd i f g s : upd_proc i f (upd_proc i g s) = upd_proc i (f ∘ g) s.
Proof. unfold upd_proc, set_k_procs. cbn. by rewrite list_alter_alter. Qed.

Lemma lock_free_upd_proc l i f s : lock_free l (upd_proc i f s) <-> lock_free l s.
Proof. done. Qed.

(** What the thread does after sleep()'s switch, from the state it resumes in. *)
Definition sleep_resume (p : nat) (lk : lockid) (i : bool) : K (kstate F) unit :=
  modify (upd_cpu (set_c_intena i)) ;;
  modify (upd_proc p (set_p_chan None)) ;;
  release (L_proc p) ;;
  acquire lk.

Lemma get_proc_asleep p ch s :
  (p < length (k_procs s))%nat -> p_state (get_proc p (upd_proc p (asleep ch) s)) = SLEEPING.
Proof. intros H. rewrite get_proc_upd, decide_True by done. done. Qed.

Lemma sleep_spec p ch lk s :
  may_sched p s -> lock_free lk s -> lk <> L_proc p -> (p < length (k_procs s))%nat ->
  sleep ch lk (hold lk s) =
    Swtch (hold (L_proc p) (upd_proc p (asleep ch) s)) (sleep_resume p lk (k_sie s)).
Proof.
  intros Hm Hlk Hne Hp. pose proof Hm as (Hok & Hc & Hn & Hl). unfold sleep.
  rewrite (kbind_Ret _ _ _ _ _ (curproc_hold _ s p Hok Hc)).
  rewrite (kbind_Ret _ _ _ _ _ (acquire_free (L_proc p) (hold lk s) (cpu_ok_hold lk s Hok)
    (lock_free_hold _ _ s (not_eq_sym Hne) Hl))).
  rewrite hold_comm by done.
  rewrite (kbind_Ret _ _ _ _ _ (release_hold lk (hold (L_proc p) s) (cpu_ok_hold _ s Hok)
    (lock_free_hold _ _ s Hne Hlk))).
  rewrite settle_hold, !kbind_modify, !hold_upd_proc, upd_proc_upd by done.
  change (set_p_state SLEEPING ∘ set_p_chan (Some ch)) with (asleep ch).
  rewrite (kbind_Swtch _ _ _ _ _ (sched_spec p (upd_proc p (asleep ch) s) Hm
    ltac:(by rewrite get_proc_asleep))). done.
Qed.

Lemma sleep_resume_spec p lk i s :
  may_sched p s -> lock_free lk s ->
  sleep_resume p lk i (hold (L_proc p) s) =
    Ret tt (hold lk (upd_proc p (set_p_chan None) (set_k_sie i s))).
Proof.
  intros (Hok & Hc & Hn & Hl) Hlk. unfold sleep_resume.
  rewrite kbind_modify, restore_intena, kbind_modify, hold_upd_proc by done.
  set (s1 := upd_proc p (set_p_chan None) (set_k_sie i s)).
  assert (cpu_ok s1) as Hok1.
  { destruct Hok as (? & ? & ?). split; [done|]. split; [done|]. intros Hpos.
    change (0 < c_noff (get_cpu s)) in Hpos. lia. }
  rewrite (kbind_Ret _ _ _ _ _ (release_hold (L_proc p) s1 Hok1 Hl)).
  rewrite acquire_free, hold_settle; [done|by apply cpu_ok_settle|done].
Qed.

(** ** kill *)

Definition all_free s : Prop :=
  cpu_ok s /\ forall i, (i < NPROC)%nat -> lock_free (L_proc i) s.

Lemma all_free_settle s : all_free s -> all_free (settle s).
Proof. intros [H ?]. split; [by apply cpu_ok_settle|done]. Qed.

Definition mark_killed (p : proc) : proc :=
  let p := set_p_killed 1 p in
  if bool_decide (p_state p = SLEEPING) then set_p_state RUNNABLE p else p.

Lemma kill_one_spec pid i s :
  all_free s -> (i < NPROC)%nat ->
  kill_one pid i s =
    if p_pid (get_proc i s) =? pid
    then Ret (Some tt) (settle (upd_proc i mark_killed s)) else Ret None (settle s).
Proof.
  intros [Hok Hl] Hi. unfold kill_one.
  rewrite (kbind_Ret _ _ _ _ _ (acquire_free _ _ Hok (Hl i Hi))), kbind_gets.
  assert (get_proc i (hold (L_proc i) s) = get_proc i s) as -> by done.
  destruct (p_pid (get_proc i s) =? pid).
  - rewrite kbind_modify, hold_upd_proc.
    rewrite (kbind_Ret _ _ _ tt (hold (L_proc i) (upd_proc i mark_killed s))).
    { by rewrite (kbind_Ret _ _ _ _ _ (release_hold _ (upd_proc i mark_killed s) Hok (Hl i Hi))). }
    case_bool_decide as E.
    + unfold modify. f_equal. rewrite hold_upd_proc, upd_proc_upd. f_equal. apply upd_proc_ext.
      intros p Hp%get_proc_lookup. unfold mark_killed. cbn. rewrite <- Hp in *.
      by rewrite bool_decide_true.
    + unfold ret. do 2 f_equal. apply upd_proc_ext. intros p Hp%get_proc_lookup.
      unfold mark_killed. cbn. rewrite <- Hp in *. by rewrite bool_decide_false.
  - by rewrite (kbind_Ret _ _ _ _ _ (release_hold _ s Hok (Hl i Hi))).
Qed.

Lemma kill_find pid i n s :
  all_free s -> (i + n <= NPROC)%nat ->
  (exists j, (i <= j < i + n)%nat /\ p_pid (get_proc j s) = pid /\
     (forall k, (i <= k < j)%nat -> p_pid (get_proc k s) <> pid) /\
     for_find i n (kill_one pid) s = Ret (Some tt) (settle (upd_proc j mark_killed s))) \/
  ((forall k, (i <= k < i + n)%nat -> p_pid (get_proc k s) <> pid) /\
   exists s', for_find i n (kill_one pid) s = Ret None s' /\ (s' = s \/ s' = settle s)).
Proof.
  revert i s. induction n as [|n IH]; intros i s Ha Hn; cbn [for_find].
  { right. split; [lia|]. exists s. split; [done|by left]. }
  unfold kbind at 1 2. rewrite kill_one_spec by (done || lia).
  destruct (p_pid (get_proc i s) =? pid) eqn:E; cbn [obind].
  { left. exists i. split; [lia|]. split; [lia|]. split; [lia|done]. }
  destruct (IH (S i) (settle s)) as [(j & Hj & Ep & Hk & Ef)|(Hk & s' & Ef & Hs')];
    [by apply all_free_settle|lia| |].
  - left. exists j. split; [lia|]. split; [done|]. split.
    + intros k Hki. destruct (decide (k = i)) as [->|]; [lia|]. apply Hk. lia.
    + rewrite Ef. f_equal. rewrite settle_upd_proc, settle_settle. done.
  - right. split.
    + intros k Hki. destruct (decide (k = i)) as [->|]; [lia|]. apply Hk. lia.
    + exists s'. split; [done|]. right. rewrite settle_settle in Hs'. by destruct Hs'.
Qed.

(** ** scheduler *)

Definition running (p : nat) s : kstate F :=
  upd_cpu (set_c_proc (Some p)) (upd_proc p (set_p_state RUNNING) s).

Lemma hold_upd_cpu_proc l p s :
  upd_cpu (set_c_proc p) (hold l s) = hold l (upd_cpu (set_c_proc p) s).
Proof.
  apply kstate_ext; try reflexivity. cbn. rewrite !list_alter_alter.
  apply list_alter_ext'. intros c _. done.
Qed.

Lemma running_settle p s : running p (settle s) = settle (running p s).
Proof.
  apply kstate_ext; try reflexivity. cbn. rewrite !list_alter_alter.
  apply list_alter_ext'. intros c _. done.
Qed.

Lemma scheduler_one_idle p s :
  all_free s -> (p < NPROC)%nat -> p_state (get_proc p s) <> RUNNABLE ->
  scheduler_one p s = Ret tt (settle s).
Proof.
  intros [Hok Hl] Hp Hst. unfold scheduler_one.
  rewrite (kbind_Ret _ _ _ _ _ (acquire_free _ s Hok (Hl p Hp))), kbind_gets.
  assert (get_proc p (hold (L_proc p) s) = get_proc p s) as -> by done.
  rewrite bool_decide_false, kbind_ret by done. by apply release_hold; [|apply Hl].
Qed.

(** The rest of the pass over the table once process [p] switches back. *)
Definition scheduler_back (p : nat) (n : nat) : K (kstate F) unit :=
  (modify (upd_cpu (set_c_proc None)) ;; release (L_proc p)) ;; for_ (S p) n scheduler_one.

Lemma scheduler_one_run p s :
  all_free s -> (p < NPROC)%nat -> p_state (get_proc p s) = RUNNABLE ->
  scheduler_one p s = Swtch (hold (L_proc p) (running p s))
    (modify (upd_cpu (set_c_proc None)) ;; release (L_proc p)).
Proof.
  intros [Hok Hl] Hp Hst. unfold scheduler_one.
  rewrite (kbind_Ret _ _ _ _ _ (acquire_free _ s Hok (Hl p Hp))), kbind_gets.
  assert (get_proc p (hold (L_proc p) s) = get_proc p s) as -> by done.
  rewrite bool_decide_true by done. unfold kbind at 1. rewrite kbind_modify, kbind_modify.
  by rewrite hold_upd_proc, hold_upd_cpu_proc.
Qed.

(** The scheduler switches to the first runnable process of the table. *)
Lemma scheduler_first n i p s :
  all_free s -> (i + n <= NPROC)%nat -> (i <= p < i + n)%nat ->
  p_state (get_proc p s) = RUNNABLE ->
  (forall j, (i <= j < p)%nat -> p_state (get_proc j s) <> RUNNABLE) ->
  for_ i n scheduler_one s =
    Swtch (hold (L_proc p) (running p s)) (scheduler_back p (i + n - S p)).
Proof.
  revert i s. induction n as [|n IH]; intros i s Ha Hn Hp Hr Hlt; [lia|]. cbn [for_].
  destruct (decide (i = p)) as [->|Hne].
  - rewrite (kbind_Swtch _ _ _ _ _ (scheduler_one_run p s Ha ltac:(lia) Hr)).
    replace (p + S n - S p)%nat with n by lia. done.
  - rewrite (kbind_Ret _ _ _ _ _ (scheduler_one_idle i s Ha ltac:(lia) (Hlt i ltac:(lia)))).
    rewrite IH; [|by apply all_free_settle|lia|lia|done|intros; apply Hlt; lia].
    rewrite running_settle, hold_settle. f_equal. f_equal. lia.
Qed.

Lemma scheduler_none n i s :
  all_free s -> (i + n <= NPROC)%nat ->
  (forall j, (i <= j < i + n)%nat -> p_state (get_proc j s) <> RUNNABLE) ->
  exists s', for_ i n scheduler_one s = Ret tt s' /\ (s' = s \/ s' = settle s).
Proof.
  revert i s. induction n as [|n IH]; intros i s Ha Hn Hlt; cbn [for_].
  { exists s. split; [done|by left]. }
  rewrite (kbind_Ret _ _ _ _ _ (scheduler_one_idle i s Ha ltac:(lia) (Hlt i ltac:(lia)))).
  destruct (IH (S i) (settle s)) as (s' & E & Hs'); [by apply all_free_settle|lia|intros; apply Hlt; lia|].
  exists s'. split; [done|]. right. rewrite settle_settle in Hs'. by destruct Hs'.
Qed.
End Specs.


(** wakeup(ch) makes runnable exactly the processes asleep on ch, the caller
    excepted, and changes no other process. *)
Theorem wakeup_exact {F} (s : kstate F) me ch :
  others_free me s -> length (k_procs s) = NPROC ->
  exists s', wakeup ch s = Ret tt s' /\
    forall j q, k_procs s !! j = Some q ->
      k_procs s' !! j = Some
        (if bool_decide (Some j <> me /\ p_state q = SLEEPING /\ p_chan q = Some ch)
         then set_p_state RUNNABLE q else q).
Proof.
  intros Ho Hlen. exists (settle (set_k_procs (woken me (Some ch) (k_procs s)) s)).
  split; [by apply wakeup_spec|]. intros j q Hj. cbn. unfold woken.
  rewrite list_lookup_imap, Hj. cbn. f_equal. unfold wake.
  repeat case_bool_decide; naive_solver.
Qed.

(** kill(pid) marks the first process-table entry with that pid as killed,
    makes it runnable if it was asleep, and returns 0; with no such entry it
    returns -1 and leaves the table as it is. *)
Theorem kill_first {F} (s : kstate F) pid :
  all_free s -> length (k_procs s) = NPROC ->
  (exists j s', kill pid s = Ret 0 s' /\ p_pid (get_proc j s) = pid /\
     (forall i, (i < j)%nat -> p_pid (get_proc i s) <> pid) /\
     k_procs s' = alter mark_killed j (k_procs s)) \/
  (exists s', kill pid s = Ret (-1) s' /\
     (forall i, (i < NPROC)%nat -> p_pid (get_proc i s) <> pid) /\ k_procs s' = k_procs s).
Proof.
  intros Ha Hlen. unfold kill.
  destruct (kill_find pid 0 NPROC s Ha ltac:(lia)) as [(j & Hj & Hpid & Hlt & E)|(Hno & s' & E & Hs')].
  - left. exists j. eexists. rewrite (kbind_Ret _ _ _ _ _ E). split; [done|]. split; [done|].
    split; [|done]. intros i Hi. apply Hlt. lia.
  - right. exists s'. rewrite (kbind_Ret _ _ _ _ _ E). split; [done|]. split.
    + intros i Hi. apply Hno. lia.
    + by destruct Hs' as [-> | ->].
Qed.

(** C32: A pass of the scheduler runs the runnable process with the lowest index:
    it switches to it marked RUNNING and current on the hart, with the process's
    lock held; with none runnable the pass ends with the process table as it
    was. *)
Theorem scheduler_picks_first {F} (s : kstate F) :
  all_free s -> c_noff (get_cpu s) = 0 ->
  (forall p, (p < NPROC)%nat -> p_state (get_proc p s) = RUNNABLE ->
     (forall j, (j < p)%nat -> p_state (get_proc j s) <> RUNNABLE) ->
     exists k, scheduler_pass s = Swtch (hold (L_proc p) (running p (set_k_sie true s))) k) /\
  ((forall j, (j < NPROC)%nat -> p_state (get_proc j s) <> RUNNABLE) ->
     exists s', scheduler_pass s = Ret tt s' /\ k_procs s' = k_procs s).
Proof.
  intros [Hok Hl] Hn.
  assert (all_free (set_k_sie true s)) as Ha.
  { split; [|done]. destruct Hok as (? & ? & ?). unfold cpu_ok.
    change (get_cpu (set_k_sie true s)) with (get_cpu s). rewrite Hn. split; [done|]. lia. }
  unfold scheduler_pass, intr_on. rewrite kbind_modify. split.
  - intros p Hp Hr Hlt. eexists. apply scheduler_first; [done|lia|lia|done|]. intros j Hj. apply Hlt. lia.
  - intros Hno. destruct (scheduler_none NPROC 0 (set_k_sie true s)) as (s' & E & Hs'); [done|lia| |].
    { intros j Hj. apply Hno. lia. }
    exists s'. split; [done|]. by destruct Hs' as [-> | ->].
Qed.
