(* ===== verification/Keeps.v ===== *)
(** Invariants of the kernel state across whole operations.

    [keeps I R J c]: started in [J], the command [c] ends in [J]; where it
    switches it leaves a state in [I], and it may resume in any state of [I]
    that the other threads reach under [R]. An invariant that speaks only of
    what the low-level components leave alone ([Stable]) is kept by all of
    them; [keeps_auto] composes these facts along the code. *)
From S2P Require Import Prelude Riscv Machine Spinlock KString Kalloc Vm Sched.

Create HintDb keeps discriminated.
#[export] Hint Constants Opaque : keeps.

Section Keeps.
Context {F : Type}.
Implicit Types s : kstate F.
Abbreviation KM := (K (kstate F)).

Definition keeps {A} (I : kstate F -> Prop) (R : kstate F -> kstate F -> Prop)
    (J : kstate F -> Prop) (c : KM A) : Prop :=
  forall s, J s -> post I R (fun _ => J) (c s).

Context (I : kstate F -> Prop) (R : kstate F -> kstate F -> Prop) (J : kstate F -> Prop).

Lemma keeps_ret {A} (a : A) : keeps I R J (ret a).
Proof. by intros s H. Qed.

Lemma keeps_panic {A} msg : keeps I R J (panic (A := A) msg).
Proof. by intros s H. Qed.

Lemma keeps_fuel {A} : keeps I R J (out_of_fuel (A := A)).
Proof. by intros s H. Qed.

Lemma keeps_gets {A} (f : kstate F -> A) : keeps I R J (gets f).
Proof. by intros s H. Qed.

Lemma keeps_modify f : (forall s, J s -> J (f s)) -> keeps I R J (modify f).
Proof. intros Hf s H. by apply Hf. Qed.

Lemma keeps_bind {A B} (c : KM A) (k : A -> KM B) :
  keeps I R J c -> (forall a, keeps I R J (k a)) -> keeps I R J (kbind c k).
Proof. intros Hc Hk s H. eapply post_bind; [by apply Hc|]. intros a s' H'. by apply Hk. Qed.

Lemma keeps_for i n body :
  (forall j, keeps I R J (body j)) -> keeps I R J (for_ i n body).
Proof. intros Hb s H. apply post_for; [done|]. intros j s' _ H'. by apply Hb. Qed.

Lemma keeps_for_find {A} i n (body : nat -> KM (option A)) :
  (forall j, keeps I R J (body j)) -> keeps I R J (for_find i n body).
Proof.
  intros Hb s H. eapply post_mono.
  - apply (post_for_find I R J (fun _ => J)); [done|]. intros j s' _ H'.
    eapply post_mono; [by apply Hb|]. by intros [a|].
  - by intros [a|].
Qed.
End Keeps.

(** Invariants that do not depend on the locks and the interrupt state. *)
Class StableLock {F} (J : kstate F -> Prop) := {
  lock_stable_locks v s : J s -> J (set_k_locks v s);
  lock_stable_sie v s : J s -> J (set_k_sie v s);
  lock_stable_cpu f s : (forall c, c_proc (f c) = c_proc c) -> J s -> J (upd_cpu f s)
}.

(** Invariants that do not depend on memory, locks, the interrupt state, the
    pid counter, the clock, the output, the tables of files and pipes, or the file system. *)
Class StableLow {F} (J : kstate F -> Prop) := {
  stable_mem m s : J s -> J (set_k_mem m s);
  stable_freelist v s : J s -> J (set_k_freelist v s);
  stable_locks v s : J s -> J (set_k_locks v s);
  stable_sie v s : J s -> J (set_k_sie v s);
  stable_cpu f s : (forall c, c_proc (f c) = c_proc c) -> J s -> J (upd_cpu f s);
  stable_nextpid v s : J s -> J (set_k_nextpid v s);
  stable_ticks v s : J s -> J (set_k_ticks v s);
  stable_files v s : J s -> J (set_k_files v s);
  stable_pipes v s : J s -> J (set_k_pipes v s);
  stable_out v s : J s -> J (set_k_out v s);
  stable_fs v s : J s -> J (set_k_fs v s)
}.

#[export] Instance stable_low_lock {F} (J : kstate F -> Prop) `{!StableLow J} : StableLock J.
Proof. split; [apply stable_locks|apply stable_sie|apply stable_cpu]. Qed.

(** ... nor on the killed flags and channels, nor on which of its live states a
    process is in. *)
Class Stable {F} (J : kstate F -> Prop) := {
  #[global] stable_low :: StableLow J;
  stable_chan i v s : J s -> J (upd_proc i (set_p_chan v) s);
  stable_killed i v s : J s -> J (upd_proc i (set_p_killed v) s);
  stable_wake i s : p_state (get_proc i s) = SLEEPING -> J s ->
    J (upd_proc i (set_p_state RUNNABLE) s)
}.

(** What a process that gives up the CPU relies on. *)
Class Resumes {F} (I : kstate F -> Prop) (R : kstate F -> kstate F -> Prop)
    (J : kstate F -> Prop) := {
  resumes_leave s : J s -> I s;
  resumes_sleep p s : cur s = Some p -> J s -> J (upd_proc p (set_p_state SLEEPING) s);
  resumes_yield p s : cur s = Some p -> J s -> J (upd_proc p (set_p_state RUNNABLE) s);
  resumes_back s s' : J s -> R s s' -> I s' -> J s'
}.

#[export] Hint Resolve keeps_ret keeps_panic keeps_fuel keeps_gets : keeps.
#[export] Hint Extern 1 (keeps _ _ _ (kbind _ _)) => apply keeps_bind; [|intros ?] : keeps.
#[export] Hint Extern 1 (keeps _ _ _ (for_ _ _ _)) => apply keeps_for; intros ? : keeps.
#[export] Hint Extern 1 (keeps _ _ _ (for_find _ _ _)) => apply keeps_for_find; intros ? : keeps.
#[export] Hint Extern 2 (keeps _ _ _ (match ?x with _ => _ end)) => destruct x : keeps.
#[export] Hint Extern 3 (keeps _ _ _ (modify _)) =>
  apply keeps_modify; intros ? ?;
  first [ by apply stable_mem | by apply stable_freelist | by apply lock_stable_locks
        | by apply lock_stable_sie | (by apply lock_stable_cpu) | by apply stable_ticks | by apply stable_nextpid
        | by apply stable_files | by apply stable_pipes | by apply stable_out
        | by apply stable_fs | by apply stable_chan | by apply stable_killed ] : keeps.

#[export] Hint Extern 1 (StableLock _) => typeclasses eauto : keeps.
#[export] Hint Extern 1 (StableLow _) => typeclasses eauto : keeps.
#[export] Hint Extern 1 (Stable _) => typeclasses eauto : keeps.
#[export] Hint Extern 1 (Resumes _ _ _) => typeclasses eauto : keeps.

Ltac keeps_auto := eauto 100 with keeps.

Section Lock.
Context {F : Type}.
Context (I : kstate F -> Prop) (R : kstate F -> kstate F -> Prop) (J : kstate F -> Prop).
Context `{!StableLock J}.

Lemma keeps_initlock l n : keeps I R J (initlock l n).
Proof. unfold initlock. keeps_auto. Qed.
#[local] Hint Resolve keeps_initlock : keeps.

Lemma keeps_push_off : keeps I R J push_off.
Proof. unfold push_off, intr_get, intr_off, mycpu. keeps_auto. Qed.

Lemma keeps_pop_off : keeps I R J pop_off.
Proof. unfold pop_off, intr_get, mycpu, intr_on. keeps_auto. Qed.

Lemma keeps_holding l : keeps I R J (holding l).
Proof. unfold holding, cpuid. keeps_auto. Qed.
#[local] Hint Resolve keeps_push_off keeps_pop_off keeps_holding : keeps.

Lemma keeps_acquire l : keeps I R J (acquire l).
Proof.
  unfold acquire, cpuid. apply keeps_bind; [keeps_auto|intros _]. apply keeps_bind; [keeps_auto|].
  intros []; [keeps_auto|]. apply keeps_bind; [|keeps_auto].
  intros s H. unfold spin_until_locked. destruct (lk_locked _); [done|]. by apply lock_stable_locks.
Qed.

Lemma keeps_release l : keeps I R J (release l).
Proof. unfold release. keeps_auto. Qed.

Lemma keeps_myproc : keeps I R J myproc.
Proof. unfold myproc, mycpu. keeps_auto. Qed.
#[local] Hint Resolve keeps_acquire keeps_release keeps_myproc : keeps.

Lemma keeps_curproc : keeps I R J curproc.
Proof. unfold curproc. keeps_auto. Qed.

Lemma keeps_killed p : keeps I R J (killed p).
Proof. unfold killed. keeps_auto. Qed.

End Lock.

#[export] Hint Resolve keeps_initlock keeps_push_off keeps_pop_off keeps_holding keeps_acquire keeps_release
  keeps_myproc keeps_curproc keeps_killed : keeps.

Section Low.
Context {F : Type} `{L : Layout}.
Context (I : kstate F -> Prop) (R : kstate F -> kstate F -> Prop) (J : kstate F -> Prop).
Context `{!StableLow J}.

Lemma keeps_kalloc : keeps I R J kalloc.
Proof. unfold kalloc. keeps_auto. Qed.

Lemma keeps_kfree pa : keeps I R J (kfree pa).
Proof. unfold kfree. keeps_auto. Qed.
#[local] Hint Resolve keeps_kalloc keeps_kfree : keeps.

Lemma keeps_walk pt va alloc : keeps I R J (walk pt va alloc).
Proof.
  unfold walk. destruct (va >=? MAXVA); [keeps_auto|]. generalize 2%nat. intros n. revert pt.
  induction n as [|n IH]; intros pt; cbn [walk_loop]; unfold load64, do_memset, store64; keeps_auto.
Qed.
#[local] Hint Resolve keeps_walk : keeps.

Lemma keeps_walkaddr pt va : keeps I R J (walkaddr pt va).
Proof. unfold walkaddr, load64. keeps_auto. Qed.
#[local] Hint Resolve keeps_walkaddr : keeps.

Lemma keeps_mappages pt va size pa perm : keeps I R J (mappages pt va size pa perm).
Proof.
  unfold mappages. destruct (size =? 0); [keeps_auto|].
  generalize (PGROUNDDOWN va) (PGROUNDDOWN (u64 (va + size - 1))). intros a last.
  generalize (S (Z.to_nat ((last - a) / PGSIZE))). intros n. revert a pa.
  induction n as [|n IH]; intros a pa; cbn [mappages_loop]; unfold load64, store64; keeps_auto.
Qed.

Lemma keeps_uvmunmap pt va n f : keeps I R J (uvmunmap pt va n f).
Proof.
  unfold uvmunmap. destruct (negb _); [keeps_auto|].
  generalize (S (Z.to_nat n)) (u64 (va + n * PGSIZE)). intros k stop. revert va.
  induction k as [|k IH]; intros va; cbn [uvmunmap_loop]; unfold load64, store64; keeps_auto.
Qed.
#[local] Hint Resolve keeps_mappages keeps_uvmunmap : keeps.

Lemma keeps_uvmcreate : keeps I R J uvmcreate.
Proof. unfold uvmcreate, do_memset. keeps_auto. Qed.

Lemma keeps_uvmfirst pt src : keeps I R J (uvmfirst pt src).
Proof. unfold uvmfirst, do_memset. keeps_auto. Qed.

Lemma keeps_uvmdealloc pt old new : keeps I R J (uvmdealloc pt old new).
Proof. unfold uvmdealloc. keeps_auto. Qed.
#[local] Hint Resolve keeps_uvmdealloc : keeps.

Lemma keeps_uvmalloc pt old new x : keeps I R J (uvmalloc pt old new x).
Proof.
  assert (forall n a o, keeps I R J (uvmalloc_loop n pt a o new x)) as H.
  { intros n. induction n as [|n IH]; intros a o; cbn [uvmalloc_loop]; unfold do_memset; keeps_auto. }
  unfold uvmalloc. destruct (new <? old); [keeps_auto|apply H].
Qed.

Lemma keeps_freewalk pt : keeps I R J (freewalk pt).
Proof.
  unfold freewalk. generalize 3%nat. intros n. revert pt.
  induction n as [|n IH]; intros pt; cbn [freewalk_level]; unfold load64, store64; keeps_auto.
Qed.
#[local] Hint Resolve keeps_freewalk : keeps.

Lemma keeps_uvmfree pt sz : keeps I R J (uvmfree pt sz).
Proof. unfold uvmfree. keeps_auto. Qed.

Lemma keeps_uvmcopy old new sz : keeps I R J (uvmcopy old new sz).
Proof.
  unfold uvmcopy. generalize (S (Z.to_nat ((sz + 4095) / PGSIZE))) 0. intros n. 
  induction n as [|n IH]; intros i; cbn [uvmcopy_loop]; unfold load64, do_memmove; keeps_auto.
Qed.

Lemma keeps_uvmclear pt va : keeps I R J (uvmclear pt va).
Proof. unfold uvmclear, load64, store64. keeps_auto. Qed.

Lemma keeps_copyout pt va src : keeps I R J (copyout pt va src).
Proof.
  unfold copyout. generalize (S (S (length src))). intros n. revert va src.
  induction n as [|n IH]; intros va src; cbn [copyout_loop]; keeps_auto.
Qed.

Lemma keeps_copyin pt va len : keeps I R J (copyin pt va len).
Proof.
  unfold copyin. generalize (S (S (Z.to_nat len))) (@nil Z). intros n. revert va len.
  induction n as [|n IH]; intros va len dst; cbn [copyin_loop]; keeps_auto.
Qed.

Lemma keeps_copyinstr pt va max : keeps I R J (copyinstr pt va max).
Proof.
  unfold copyinstr. generalize (S (S (Z.to_nat max))) (@nil Z). intros n. revert va max.
  induction n as [|n IH]; intros va max dst; cbn [copyinstr_loop]; keeps_auto.
Qed.

End Low.

#[export] Hint Resolve keeps_kalloc keeps_kfree keeps_walk keeps_walkaddr keeps_mappages keeps_uvmunmap keeps_uvmcreate
  keeps_uvmfirst keeps_uvmdealloc keeps_uvmalloc keeps_freewalk keeps_uvmfree keeps_uvmcopy
  keeps_uvmclear keeps_copyout keeps_copyin keeps_copyinstr : keeps.

(** The current process stays the same up to the next switch, so what a command
    does to its own entry is done to the current process. *)
Definition same_cur {F} (J : kstate F -> Prop) (me : option nat) s : Prop := J s /\ cur s = me.

Lemma cur_upd_cpu {F} f (s : kstate F) :
  (forall c, c_proc (f c) = c_proc c) -> cur (upd_cpu f s) = cur s.
Proof.
  intros Hf. unfold cur, get_cpu. cbn. destruct (decide (k_hart s < length (k_cpus s))%nat) as [Hl|Hl].
  - rewrite list_lookup_alter_eq. destruct (lookup_lt_is_Some_2 _ _ Hl) as [c ->]. apply Hf.
  - by rewrite !lookup_ge_None_2 by (rewrite ?length_alter; lia).
Qed.

#[export] Instance same_cur_low {F} (J : kstate F -> Prop) `{!StableLow J} me :
  StableLow (same_cur J me).
Proof.
  split; try (intros ? s [H ?]; split; [by first [apply stable_mem | apply stable_freelist
    | apply stable_locks | apply stable_sie | apply stable_nextpid | apply stable_ticks | apply stable_files
    | apply stable_pipes | apply stable_out | apply stable_fs]|done]).
  intros f s Hf [H Hc]. split; [by apply stable_cpu|]. by rewrite cur_upd_cpu.
Qed.

#[export] Instance same_cur_lock {F} (J : kstate F -> Prop) `{!StableLock J} me :
  StableLock (same_cur J me).
Proof.
  split; [intros ? s [H ?]; split; [by apply lock_stable_locks|done]
         |intros ? s [H ?]; split; [by apply lock_stable_sie|done]|].
  intros f s Hf [H Hc]. split; [by apply lock_stable_cpu|]. by rewrite cur_upd_cpu.
Qed.

(** Memory and the process table, for the steps that only take locks. *)
Definition with_tables {F} (J : kstate F -> Prop) (m : memory) (ps : list proc) s : Prop :=
  J s /\ k_mem s = m /\ k_procs s = ps.

#[export] Instance with_tables_lock {F} (J : kstate F -> Prop) `{!StableLock J} m ps :
  StableLock (with_tables J m ps).
Proof.
  split; [intros ? s [H ?]; split; [by apply lock_stable_locks|done]
         |intros ? s [H ?]; split; [by apply lock_stable_sie|done]|].
  intros f s Hf [H Hc]. split; [by apply lock_stable_cpu|done].
Qed.

#[export] Instance same_cur_stable {F} (J : kstate F -> Prop) `{!Stable J} me :
  Stable (same_cur J me).
Proof.
  split; [apply _|..].
  - intros i v s [H ?]. split; [by apply stable_chan|done].
  - intros i v s [H ?]. split; [by apply stable_killed|done].
  - intros i s Hs [H ?]. split; [by apply stable_wake|done].
Qed.

Section Cur.
Context {F : Type}.
Implicit Types s : kstate F.
Context (I : kstate F -> Prop) (R : kstate F -> kstate F -> Prop) (J : kstate F -> Prop).
Context `{!StableLock J}.

Lemma post_myproc s : J s -> post I R (fun p s' => J s' /\ cur s' = p /\ cur s = p) (myproc s).
Proof.
  intros H. unfold myproc, mycpu. set (me := cur s).
  assert (same_cur J me s) as Hs by done.
  eapply post_bind; [by apply (keeps_push_off I R (same_cur J me))|]. cbn beta. intros _ s1 H1.
  rewrite kbind_gets.
  eapply post_bind; [by apply (keeps_pop_off I R (same_cur J me))|]. cbn beta. intros _ s2 [H2 Hc2].
  change (J s2 /\ cur s2 = cur s1 /\ me = cur s1). destruct H1 as [_ Hc1]. by rewrite Hc1, Hc2.
Qed.

Lemma post_curproc s :
  J s -> post I R (fun p s' => J s' /\ cur s' = Some p /\ cur s = Some p) (curproc s).
Proof.
  intros H. unfold curproc. eapply post_bind; [by apply post_myproc|].
  by intros [p|] s' H'.
Qed.
End Cur.

Section Switch.
Context {F : Type}.
Implicit Types s : kstate F.
Context (I : kstate F -> Prop) (R : kstate F -> kstate F -> Prop) (J : kstate F -> Prop).
Context `{!Stable J}.

Lemma keeps_wakeup_at ch : keeps I R J (wakeup_at ch).
Proof.
  apply keeps_for. intros p. unfold wakeup_one. apply keeps_bind; [keeps_auto|intros me].
  destruct (negb _); [|keeps_auto]. apply keeps_bind; [keeps_auto|intros _].
  intros s H. rewrite kbind_gets. apply (post_bind _ _ (fun _ => J)); [|intros ? s' H'; exact (keeps_release I R J _ s' H')].
  destruct (_ && _) eqn:E; [|done]. apply stable_wake; [|done].
  by apply andb_prop in E as [E%bool_decide_eq_true_1 _].
Qed.

Lemma keeps_wakeup ch : keeps I R J (wakeup ch).
Proof. apply keeps_wakeup_at. Qed.

Lemma keeps_setkilled p : keeps I R J (setkilled p).
Proof. unfold setkilled. keeps_auto. Qed.

Lemma keeps_kill pid : keeps I R J (kill pid).
Proof.
  apply keeps_bind; [|keeps_auto]. apply keeps_for_find. intros p. unfold kill_one.
  apply keeps_bind; [keeps_auto|intros _]. intros s H. rewrite kbind_gets.
  destruct (p_pid _ =? pid); [|by apply keeps_bind; keeps_auto].
  rewrite kbind_modify. case_bool_decide as E; [|by apply keeps_bind; [..|apply stable_killed]; keeps_auto].
  rewrite kbind_modify. apply keeps_bind; [keeps_auto..|]. apply stable_wake; [|by apply stable_killed].
  rewrite <- E. unfold get_proc, upd_proc. cbn. destruct (decide (p < length (k_procs s))%nat) as [Hp|Hp].
  - rewrite list_lookup_alter_eq. by destruct (lookup_lt_is_Some_2 _ _ Hp) as [q ->].
  - by rewrite !lookup_ge_None_2 by (rewrite ?length_alter; lia).
Qed.

#[local] Hint Resolve keeps_wakeup_at keeps_wakeup keeps_setkilled keeps_kill : keeps.

(** Giving up the CPU. *)
Context `{!Resumes I R J}.

Lemma keeps_swtch : keeps I R J swtch.
Proof.
  intros s H. split; [by apply (resumes_leave (R := R))|].
  intros s' HR HI. exact (resumes_back s s' H HR HI).
Qed.
#[local] Hint Resolve keeps_swtch : keeps.

Lemma keeps_sched : keeps I R J sched.
Proof. unfold sched, mycpu, intr_get. keeps_auto. Qed.
#[local] Hint Resolve keeps_sched : keeps.

Lemma keeps_sleep ch lk : keeps I R J (sleep ch lk).
Proof.
  intros s H. unfold sleep. eapply post_bind; [exact (post_curproc I R J s H)|]. intros p s1 (H1 & Hc1 & _).
  eapply post_bind; [apply (keeps_acquire I R (same_cur J (Some p))); by split|]. cbn beta. intros _ s2 H2.
  eapply post_bind; [apply (keeps_release I R (same_cur J (Some p))); exact H2|]. cbn beta. intros _ s3 H3.
  rewrite !kbind_modify. destruct H3 as [H3 Hc].
  eapply post_bind; [apply keeps_sched|].
  { apply resumes_sleep; [done|]. by apply stable_chan. }
  cbn beta. intros _ s4 H4. rewrite kbind_modify.
  eapply post_bind; [apply (keeps_release I R J), stable_chan, H4|].
  cbn beta. intros _ s5 H5. exact (keeps_acquire I R J _ s5 H5).
Qed.

Lemma keeps_yield : keeps I R J yield.
Proof.
  intros s H. unfold yield. eapply post_bind; [exact (post_curproc I R J s H)|]. intros p s1 (H1 & Hc1 & _).
  eapply post_bind; [apply (keeps_acquire I R (same_cur J (Some p))); by split|]. cbn beta. intros _ s2 [H2 Hc].
  rewrite !kbind_modify. eapply post_bind; [apply keeps_sched; by apply resumes_yield|].
  cbn beta. intros _ s4 H4. exact (keeps_release I R J _ s4 H4).
Qed.
End Switch.

#[export] Hint Resolve keeps_wakeup_at keeps_wakeup keeps_setkilled keeps_kill keeps_swtch keeps_sched keeps_sleep keeps_yield : keeps.
