(* ===== verification/FsIface.v ===== *)
(** What the process and file layers use of the file system: the operations of
    kernel/fs.c and kernel/log.c (and the device switch of kernel/file.c) that
    kernel/proc.c and kernel/file.c call, as a type class, with the law the
    theorems on processes rely on. *)
From S2P Require Import Prelude Riscv Machine Spinlock Sched Keeps.

(** A bound on the iterations of loops that wait for other threads. *)
Class Fuel := fuel : nat.

Class FsOps (F : Type) := {
  begin_op : K (kstate F) unit;
  end_op : K (kstate F) unit;
  idup : nat -> K (kstate F) nat;
  iput : nat -> K (kstate F) unit;
  ilock : nat -> K (kstate F) unit;
  iunlock : nat -> K (kstate F) unit;
  namei : list Z -> K (kstate F) (option nat);
  stati : nat -> K (kstate F) (list Z);   (* the bytes of the struct stat *)
  readi_user : nat -> Z -> Z -> Z -> K (kstate F) Z;    (* readi(ip, 1, dst, off, n) *)
  writei_user : nat -> Z -> Z -> Z -> K (kstate F) Z;   (* writei(ip, 1, src, off, n) *)
  devsw_read : Z -> option (Z -> Z -> K (kstate F) Z);  (* devsw[major].read(1, dst, n) *)
  devsw_write : Z -> option (Z -> Z -> K (kstate F) Z)
}.

(** The file system keeps every invariant that is [Stable], across the switches
    its sleeping makes; idup() does not sleep. *)
Class FsKeeps {F} (O : FsOps F) := {
  fs_idup I R J `{!StableLow J} ip : keeps I R J (idup ip);
  fs_begin_op I R J `{!Stable J} `{!Resumes I R J} : keeps I R J begin_op;
  fs_end_op I R J `{!Stable J} `{!Resumes I R J} : keeps I R J end_op;
  fs_iput I R J `{!Stable J} `{!Resumes I R J} ip : keeps I R J (iput ip);
  fs_ilock I R J `{!Stable J} `{!Resumes I R J} ip : keeps I R J (ilock ip);
  fs_iunlock I R J `{!Stable J} `{!Resumes I R J} ip : keeps I R J (iunlock ip);
  fs_namei I R J `{!Stable J} `{!Resumes I R J} path : keeps I R J (namei path);
  fs_stati I R J `{!Stable J} `{!Resumes I R J} ip : keeps I R J (stati ip);
  fs_readi I R J `{!Stable J} `{!Resumes I R J} ip a o n : keeps I R J (readi_user ip a o n);
  fs_writei I R J `{!Stable J} `{!Resumes I R J} ip a o n : keeps I R J (writei_user ip a o n);
  fs_devread I R J `{!Stable J} `{!Resumes I R J} m f a n :
    devsw_read m = Some f -> keeps I R J (f a n);
  fs_devwrite I R J `{!Stable J} `{!Resumes I R J} m f a n :
    devsw_write m = Some f -> keeps I R J (f a n)
}.

#[export] Hint Resolve fs_idup fs_begin_op fs_end_op fs_iput fs_ilock fs_iunlock fs_namei
  fs_stati fs_readi fs_writei : keeps.
