(* ===== verification/File.v ===== *)
(** kernel/file.c and kernel/pipe.c: open files and pipes.

    A [struct file] is its index in ftable; a pipe is the page it lives in. *)
From S2P Require Import Prelude Riscv Machine Spinlock KString Kalloc Vm Sched Keeps FsIface.

(** ** The ring of a pipe *)

(** [pi->data[pi->nwrite++ % PIPESIZE] = ch] *)
Definition pipe_put (ch : Z) (pi : pipe) : pipe :=
  set_pi_nwrite (u32 (pi_nwrite pi + 1))
    (set_pi_data (<[Z.to_nat (pi_nwrite pi `mod` PIPESIZE) := u8 ch]> (pi_data pi)) pi).

(** [ch = pi->data[pi->nread++ % PIPESIZE]] *)
Definition pipe_head (pi : pipe) : Z := nth (Z.to_nat (pi_nread pi `mod` PIPESIZE)) (pi_data pi) 0.
Definition pipe_drop (pi : pipe) : pipe := set_pi_nread (u32 (pi_nread pi + 1)) pi.

Definition pipe_full (pi : pipe) : bool := pi_nwrite pi =? u32 (pi_nread pi + PIPESIZE).
Definition pipe_empty (pi : pipe) : bool := pi_nread pi =? pi_nwrite pi.

Section Ops.
Context {F : Type} `{L : Layout} `{Fuel0 : Fuel} `{Fs : !FsOps F}.
Abbreviation KM := (K (kstate F)).

Definition zero_pipe : pipe := mkpipe (replicate (Z.to_nat PIPESIZE) 0) 0 0 0 0.
Definition get_pipe (pi : Z) (s : kstate F) : pipe := default zero_pipe (k_pipes s !! pi).
Definition upd_pipe (pi : Z) (f : pipe -> pipe) (s : kstate F) : kstate F :=
  set_k_pipes (<[pi := f (get_pipe pi s)]> (k_pipes s)) s.

Definition fileinit : KM unit := initlock L_ftable "ftable".

Definition filealloc : KM (option nat) :=
  acquire L_ftable ;;
  r <- for_find 0 NFILE (fun f =>
    ref <- gets (fun s => f_ref (get_file f s)) ;;
    if ref =? 0 then
      modify (upd_file f (set_f_ref 1)) ;;
      release L_ftable ;;
      ret (Some f)
    else ret None) ;;
  match r with
  | Some f => ret (Some f)
  | None => release L_ftable ;; ret None
  end.

Definition filedup (f : nat) : KM nat :=
  acquire L_ftable ;;
  ref <- gets (fun s => f_ref (get_file f s)) ;;
  if ref <? 1 then panic "filedup" else
  modify (upd_file f (fun x => set_f_ref (f_ref x + 1) x)) ;;
  release L_ftable ;;
  ret f.

Definition pipeclose (pi : Z) (writable : Z) : KM unit :=
  acquire (L_pipe pi) ;;
  (if negb (writable =? 0) then
     modify (upd_pipe pi (set_pi_writeopen 0)) ;;
     wakeup (Ch_nread pi)
   else
     modify (upd_pipe pi (set_pi_readopen 0)) ;;
     wakeup (Ch_nwrite pi)) ;;
  p <- gets (get_pipe pi) ;;
  if (pi_readopen p =? 0) && (pi_writeopen p =? 0) then
    release (L_pipe pi) ;;
    kfree pi ;;
    modify (fun s => set_k_pipes (delete pi (k_pipes s)) s)
  else release (L_pipe pi).

Definition fileclose (f : nat) : KM unit :=
  acquire L_ftable ;;
  ref <- gets (fun s => f_ref (get_file f s)) ;;
  if ref <? 1 then panic "fileclose" else
  modify (upd_file f (fun x => set_f_ref (f_ref x - 1) x)) ;;
  ref <- gets (fun s => f_ref (get_file f s)) ;;
  if ref >? 0 then release L_ftable else
  ff <- gets (get_file f) ;;
  modify (upd_file f (set_f_ref 0)) ;;
  modify (upd_file f (set_f_type FD_NONE)) ;;
  release L_ftable ;;
  match f_type ff with
  | FD_PIPE => pipeclose (f_pipe ff) (f_writable ff)
  | FD_INODE | FD_DEVICE =>
      begin_op ;;
      (match f_ip ff with Some ip => iput ip | None => panic "kerneltrap" end) ;;
      end_op
  | FD_NONE => ret tt
  end.

Definition pipealloc_bad (pi : Z) (f0 f1 : option nat) : KM (option (nat * nat)) :=
  (when negb (pi =? 0) do kfree pi) ;;
  (match f0 with Some f => fileclose f | None => ret tt end) ;;
  (match f1 with Some f => fileclose f | None => ret tt end) ;;
  ret None.

(** pipealloc(): the two files, or [None] for -1. The page holds what kalloc()
    left in it. *)
Definition pipealloc : KM (option (nat * nat)) :=
  f0 <- filealloc ;;
  match f0 with
  | None => pipealloc_bad 0 None None
  | Some f0 =>
    f1 <- filealloc ;;
    match f1 with
    | None => pipealloc_bad 0 (Some f0) None
    | Some f1 =>
      pi <- kalloc ;;
      if pi =? 0 then pipealloc_bad 0 (Some f0) (Some f1) else
      modify (fun s => set_k_pipes
        (<[pi := mkpipe (replicate (Z.to_nat PIPESIZE) 5) 0 0 1 1]> (k_pipes s)) s) ;;
      initlock (L_pipe pi) "pipe" ;;
      modify (upd_file f0 (fun f => set_f_pipe pi (set_f_writable 0
                (set_f_readable 1 (set_f_type FD_PIPE f))))) ;;
      modify (upd_file f1 (fun f => set_f_pipe pi (set_f_writable 1
                (set_f_readable 0 (set_f_type FD_PIPE f))))) ;;
      ret (Some (f0, f1))
    end
  end.

Fixpoint pipewrite_loop (fuel : nat) (pi : Z) (pr : nat) (addr i n : Z) : KM Z :=
  match fuel with
  | O => out_of_fuel
  | S fuel =>
      if negb (i <? n) then
        wakeup (Ch_nread pi) ;;
        release (L_pipe pi) ;;
        ret i
      else
      ro <- gets (fun s => pi_readopen (get_pipe pi s)) ;;
      k <- (if ro =? 0 then ret 1 else killed pr) ;;
      if negb (k =? 0) then release (L_pipe pi) ;; ret (-1) else
      full <- gets (fun s => pipe_full (get_pipe pi s)) ;;
      if full : bool then
        wakeup (Ch_nread pi) ;;
        sleep (Ch_nwrite pi) (L_pipe pi) ;;
        pipewrite_loop fuel pi pr addr i n
      else
        pt <- gets (fun s => p_pagetable (get_proc pr s)) ;;
        r <- copyin pt (u64 (addr + i)) 1 ;;
        let '(st, bs) := r in
        if st =? -1 then
          wakeup (Ch_nread pi) ;;
          release (L_pipe pi) ;;
          ret i
        else
          modify (upd_pipe pi (pipe_put (nth 0 bs 0))) ;;
          pipewrite_loop fuel pi pr addr (i + 1) n
  end.

Definition pipewrite (pi addr n : Z) : KM Z :=
  pr <- curproc ;;
  acquire (L_pipe pi) ;;
  pipewrite_loop fuel pi pr addr 0 n.

(** The waiting loop of piperead(): true once there is something to read or no
    writer is left, false if the reader was killed. *)
Fixpoint piperead_wait (fuel : nat) (pi : Z) (pr : nat) : KM bool :=
  match fuel with
  | O => out_of_fuel
  | S fuel =>
      p <- gets (get_pipe pi) ;;
      if pipe_empty p && negb (pi_writeopen p =? 0) then
        k <- killed pr ;;
        if negb (k =? 0) then release (L_pipe pi) ;; ret false else
        sleep (Ch_nread pi) (L_pipe pi) ;;
        piperead_wait fuel pi pr
      else ret true
  end.

Fixpoint piperead_loop (fuel : nat) (pi : Z) (pr : nat) (addr i n : Z) : KM Z :=
  match fuel with
  | O => out_of_fuel
  | S fuel =>
      if negb (i <? n) then ret i else
      p <- gets (get_pipe pi) ;;
      if pipe_empty p then ret i else
      let ch := pipe_head p in
      modify (upd_pipe pi pipe_drop) ;;
      pt <- gets (fun s => p_pagetable (get_proc pr s)) ;;
      r <- copyout pt (u64 (addr + i)) [ch] ;;
      if r =? -1 then ret i
      else piperead_loop fuel pi pr addr (i + 1) n
  end.

Definition piperead (pi addr n : Z) : KM Z :=
  pr <- curproc ;;
  acquire (L_pipe pi) ;;
  go <- piperead_wait fuel pi pr ;;
  if negb go then ret (-1) else
  i <- piperead_loop (S (Z.to_nat n)) pi pr addr 0 n ;;
  wakeup (Ch_nwrite pi) ;;
  release (L_pipe pi) ;;
  ret i.

(** A null [f->ip] is dereferenced by the callee. *)
Definition the_inode (ip : option nat) : KM nat :=
  match ip with
  | Some ip => ret ip
  | None => panic "kerneltrap"
  end.

Definition filestat (f : nat) (addr : Z) : KM Z :=
  p <- curproc ;;
  ff <- gets (get_file f) ;;
  match f_type ff with
  | FD_INODE | FD_DEVICE =>
      ip <- the_inode (f_ip ff) ;;
      ilock ip ;;
      st <- stati ip ;;
      iunlock ip ;;
      pt <- gets (fun s => p_pagetable (get_proc p s)) ;;
      r <- copyout pt addr st ;;
      ret (if r <? 0 then -1 else 0)
  | _ => ret (-1)
  end.

Definition fileread (f : nat) (addr n : Z) : KM Z :=
  ff <- gets (get_file f) ;;
  if f_readable ff =? 0 then ret (-1) else
  match f_type ff with
  | FD_PIPE => piperead (f_pipe ff) addr n
  | FD_DEVICE =>
      if (f_major ff <? 0) || (f_major ff >=? NDEV) then ret (-1) else
      match devsw_read (f_major ff) with
      | None => ret (-1)
      | Some read => read addr n
      end
  | FD_INODE =>
      ip <- the_inode (f_ip ff) ;;
      ilock ip ;;
      off <- gets (fun s => f_off (get_file f s)) ;;
      r <- readi_user ip addr off n ;;
      (when r >? 0 do modify (upd_file f (fun x => set_f_off (u32 (f_off x + r)) x))) ;;
      iunlock ip ;;
      ret r
  | FD_NONE => panic "fileread"
  end.

(** The most a transaction may write: ((MAXOPBLOCKS-1-1-2) / 2) * BSIZE. *)
Definition filewrite_max : Z := ((MAXOPBLOCKS - 1 - 1 - 2) / 2) * BSIZE.

(** The loop of filewrite(): the number of bytes written. *)
Fixpoint filewrite_loop (fuel : nat) (f ip : nat) (addr i n : Z) : KM Z :=
  match fuel with
  | O => out_of_fuel
  | S fuel =>
      if negb (i <? n) then ret i else
      let n1 := Z.min (n - i) filewrite_max in
      begin_op ;;
      ilock ip ;;
      off <- gets (fun s => f_off (get_file f s)) ;;
      r <- writei_user ip (u64 (addr + i)) off n1 ;;
      (when r >? 0 do modify (upd_file f (fun x => set_f_off (u32 (f_off x + r)) x))) ;;
      iunlock ip ;;
      end_op ;;
      if negb (r =? n1) then ret i
      else filewrite_loop fuel f ip addr (i + r) n
  end.

Definition filewrite (f : nat) (addr n : Z) : KM Z :=
  ff <- gets (get_file f) ;;
  if f_writable ff =? 0 then ret (-1) else
  match f_type ff with
  | FD_PIPE => pipewrite (f_pipe ff) addr n
  | FD_DEVICE =>
      if (f_major ff <? 0) || (f_major ff >=? NDEV) then ret (-1) else
      match devsw_write (f_major ff) with
      | None => ret (-1)
      | Some write => write addr n
      end
  | FD_INODE =>
      if negb (0 <? n) then ret (if 0 =? n then n else -1) else
      ip <- the_inode (f_ip ff) ;;
      i <- filewrite_loop (S (Z.to_nat n)) f ip addr 0 n ;;
      ret (if i =? n then n else -1)
  | FD_NONE => panic "filewrite"
  end.
End Ops.

(** ** Frames *)

Section FileKeeps.
Context {F : Type} `{L : Layout} `{Fuel0 : Fuel} `{Fs : !FsOps F} `{!FsKeeps Fs}.
Context (I : kstate F -> Prop) (R : kstate F -> kstate F -> Prop) (J : kstate F -> Prop).

Lemma keeps_filealloc `{!StableLow J} : keeps I R J filealloc.
Proof. unfold filealloc. keeps_auto. Qed.

Lemma keeps_filedup `{!StableLow J} f : keeps I R J (filedup f).
Proof. unfold filedup. keeps_auto. Qed.

Context `{!Stable J}.

Lemma keeps_pipeclose pi w : keeps I R J (pipeclose pi w).
Proof. unfold pipeclose. keeps_auto. Qed.
#[local] Hint Resolve keeps_pipeclose keeps_filealloc : keeps.

Context `{!Resumes I R J}.

Lemma keeps_fileclose f : keeps I R J (fileclose f).
Proof. unfold fileclose. keeps_auto. Qed.
#[local] Hint Resolve keeps_fileclose : keeps.

Lemma keeps_pipealloc : keeps I R J pipealloc.
Proof. unfold pipealloc, pipealloc_bad. keeps_auto. Qed.

Lemma keeps_pipewrite pi addr n : keeps I R J (pipewrite pi addr n).
Proof.
  assert (forall k pr i, keeps I R J (pipewrite_loop k pi pr addr i n)) as Hloop.
  { induction k as [|k IH]; intros pr i; cbn [pipewrite_loop]; keeps_auto. }
  unfold pipewrite. keeps_auto.
Qed.

Lemma keeps_piperead pi addr n : keeps I R J (piperead pi addr n).
Proof.
  assert (forall k pr, keeps I R J (piperead_wait k pi pr)) as H1.
  { induction k as [|k IH]; intros pr; cbn [piperead_wait]; keeps_auto. }
  assert (forall k pr i, keeps I R J (piperead_loop k pi pr addr i n)) as H2.
  { induction k as [|k IH]; intros pr i; cbn [piperead_loop]; keeps_auto. }
  unfold piperead. keeps_auto.
Qed.
#[local] Hint Resolve keeps_pipewrite keeps_piperead : keeps.

Lemma keeps_filestat f addr : keeps I R J (filestat f addr).
Proof. unfold filestat, the_inode. keeps_auto. Qed.

Lemma keeps_fileread f addr n : keeps I R J (fileread f addr n).
Proof.
  unfold fileread, the_inode. apply keeps_bind; [keeps_auto|intros ff].
  destruct (f_readable ff =? 0); [keeps_auto|]. destruct (f_type ff); [keeps_auto..| |].
  - destruct (f_ip ff); keeps_auto.
  - destruct (_ || _); [keeps_auto|]. destruct (devsw_read _) eqn:E; [|keeps_auto].
    by eapply fs_devread.
Qed.

Lemma keeps_filewrite f addr n : keeps I R J (filewrite f addr n).
Proof.
  assert (forall k ip i, keeps I R J (filewrite_loop k f ip addr i n)) as Hloop.
  { induction k as [|k IH]; intros ip i; cbn [filewrite_loop]; keeps_auto. }
  unfold filewrite, the_inode. apply keeps_bind; [keeps_auto|intros ff].
  destruct (f_writable ff =? 0); [keeps_auto|]. destruct (f_type ff); [keeps_auto..| |].
  - destruct (negb _); [keeps_auto|]. destruct (f_ip ff); keeps_auto.
  - destruct (_ || _); [keeps_auto|]. destruct (devsw_write _) eqn:E; [|keeps_auto].
    by eapply fs_devwrite.
Qed.
End FileKeeps.

#[export] Hint Resolve keeps_filewrite keeps_filealloc keeps_filedup keeps_pipeclose keeps_fileclose keeps_pipealloc
  keeps_pipewrite keeps_piperead keeps_filestat keeps_fileread : keeps.
