(* ===== verification/PipeSpec.v ===== *)
(** The ring of a pipe (kernel/pipe.c) is a queue of at most PIPESIZE bytes.

    nread and nwrite are 32-bit counters that are never reset and wrap around;
    [pipe_holds pi q] says that the ring holds the bytes [q], oldest first. *)
From S2P Require Import Prelude Riscv Machine Spinlock KString Kalloc Vm Sched Keeps FsIface File.

(** Position [i] after the read counter. *)
Definition slot (pi : pipe) (i : nat) : nat := Z.to_nat ((pi_nread pi + Z.of_nat i) `mod` PIPESIZE).

Record pipe_holds (pi : pipe) (q : list Z) : Prop := {
  ph_data : length (pi_data pi) = Z.to_nat PIPESIZE;
  ph_read : 0 <= pi_nread pi < 2 ^ 32;
  ph_write : pi_nwrite pi = u32 (pi_nread pi + Z.of_nat (length q));
  ph_room : (length q <= Z.to_nat PIPESIZE)%nat;
  ph_byte : forall i b, q !! i = Some b -> pi_data pi !! slot pi i = Some b
}.

(** Wrapping at 2^32 does not disturb positions, since PIPESIZE divides 2^32. *)
Lemma u32_mod_pipesize z : u32 z `mod` PIPESIZE = z `mod` PIPESIZE.
Proof.
  unfold u32, PIPESIZE. rewrite (Z.mod_eq z (2 ^ 32)) by done.
  replace (z - 2 ^ 32 * (z / 2 ^ 32)) with (z + (- (z / 2 ^ 32) * 8388608) * 512) by lia. apply Z_mod_plus_full.
Qed.

Lemma slot_lt pi i : (slot pi i < Z.to_nat PIPESIZE)%nat.
Proof. unfold slot, PIPESIZE. pose proof (Z.mod_pos_bound (pi_nread pi + Z.of_nat i) 512). lia. Qed.

Lemma slot_inj pi i j :
  (i < Z.to_nat PIPESIZE)%nat -> (j < Z.to_nat PIPESIZE)%nat -> slot pi i = slot pi j -> i = j.
Proof.
  unfold slot, PIPESIZE. intros Hi Hj E. set (r := pi_nread pi) in *.
  pose proof (Z.div_mod (r + Z.of_nat i) 512). pose proof (Z.div_mod (r + Z.of_nat j) 512).
  pose proof (Z.mod_pos_bound (r + Z.of_nat i) 512). pose proof (Z.mod_pos_bound (r + Z.of_nat j) 512). lia.
Qed.

(** The difference of the counters tells how much is in the ring. *)
Lemma u32_add_eq r k k' : 0 <= k <= PIPESIZE -> 0 <= k' <= PIPESIZE -> u32 (r + k) = u32 (r + k') -> k = k'.
Proof.
  unfold PIPESIZE, u32. intros Hk Hk' E.
  pose proof (Z.div_mod (r + k) (2 ^ 32)). pose proof (Z.div_mod (r + k') (2 ^ 32)).
  pose proof (Z.mod_pos_bound (r + k) (2 ^ 32)). pose proof (Z.mod_pos_bound (r + k') (2 ^ 32)). lia.
Qed.

Section Ring.
Context (pi : pipe) (q : list Z).
Hypothesis H : pipe_holds pi q.

Lemma length_bound : 0 <= Z.of_nat (length q) <= PIPESIZE.
Proof using H. destruct H. unfold PIPESIZE in *. lia. Qed.

Lemma holds_full : pipe_full pi = (length q =? Z.to_nat PIPESIZE)%nat.
Proof using H.
  pose proof length_bound as Hl. unfold pipe_full. rewrite (ph_write _ _ H). destruct (_ =? _)%nat eqn:E.
  - apply Nat.eqb_eq in E. apply Z.eqb_eq. do 2 f_equal. rewrite E. done.
  - apply Nat.eqb_neq in E. apply Z.eqb_neq. intros Eq. apply u32_add_eq in Eq; [|done|by vm_compute].
    apply E. unfold PIPESIZE in *. lia.
Qed.

Lemma holds_empty : pipe_empty pi = bool_decide (q = []).
Proof using H.
  pose proof length_bound as Hl. unfold pipe_empty. rewrite (ph_write _ _ H).
  rewrite <- (u32_small (pi_nread pi)) at 1 by apply (ph_read _ _ H). rewrite <- (Z.add_0_r (pi_nread pi)) at 1.
  destruct q as [|b q']; [by rewrite Z.eqb_refl|]. apply Z.eqb_neq. intros E.
  apply u32_add_eq in E; [|by vm_compute|done]. cbn in E. lia.
Qed.

Lemma holds_put ch : pipe_full pi = false -> pipe_holds (pipe_put ch pi) (q ++ [u8 ch]).
Proof using H.
  rewrite holds_full. intros Hf%Nat.eqb_neq. pose proof length_bound as Hl. destruct H as [Hd Hr Hw Hm Hb].
  assert (Z.to_nat (pi_nwrite pi `mod` PIPESIZE) = slot pi (length q)) as Es.
  { unfold slot. by rewrite Hw, u32_mod_pipesize. }
  split.
  - cbn. by rewrite length_insert.
  - done.
  - cbn. rewrite Hw, length_app. cbn. unfold u32. rewrite Zplus_mod_idemp_l. f_equal. lia.
  - rewrite length_app. cbn. lia.
  - intros i b Hi. change (slot (pipe_put ch pi) i) with (slot pi i). cbn [pipe_put pi_data set_pi_nwrite set_pi_data].
    rewrite Es. apply lookup_app_Some in Hi as [Hi|[Hge Hi]].
    + pose proof (lookup_lt_Some _ _ _ Hi). rewrite list_lookup_insert_ne; [by apply Hb|].
      intros E. apply slot_inj in E; lia.
    + destruct (i - length q)%nat eqn:Ei; [|done]. injection Hi as <-. replace i with (length q) by lia.
      apply list_lookup_insert_eq. rewrite Hd. apply slot_lt.
Qed.
End Ring.

Lemma holds_get pi b q : pipe_holds pi (b :: q) -> pipe_head pi = b /\ pipe_holds (pipe_drop pi) q.
Proof.
  intros [Hd Hr Hw Hm Hb]. split.
  - unfold pipe_head. specialize (Hb 0%nat b eq_refl). unfold slot in Hb. rewrite Z.add_0_r in Hb.
    by apply nth_lookup_Some.
  - split; [done|apply u32_range| |cbn in Hm; lia|].
    + cbn [pipe_drop pi_nread pi_nwrite set_pi_nread]. rewrite Hw. unfold u32. rewrite Zplus_mod_idemp_l.
      f_equal. cbn [length]. lia.
    + intros i c Hi. specialize (Hb (S i) c Hi). cbn [pipe_drop pi_data set_pi_nread].
      replace (slot (pipe_drop pi) i) with (slot pi (S i)); [done|]. unfold slot. cbn. f_equal.
      rewrite <- (Zplus_mod_idemp_l (u32 _)), u32_mod_pipesize, Zplus_mod_idemp_l. f_equal. lia.
Qed.

(** ** A history of the ring *)

Inductive ring_op := Put (ch : Z) | Get.

(** pipewrite() and piperead() act on the ring when it is not full and not empty,
    and wait otherwise: the bytes accepted, the bytes delivered and the ring. *)
Fixpoint ring_run (ops : list ring_op) (pi : pipe) : list Z * list Z * pipe :=
  match ops with
  | [] => ([], [], pi)
  | Put ch :: ops =>
      if pipe_full pi then ring_run ops pi
      else let '(i, o, pi') := ring_run ops (pipe_put ch pi) in (u8 ch :: i, o, pi')
  | Get :: ops =>
      if pipe_empty pi then ring_run ops pi
      else let '(i, o, pi') := ring_run ops (pipe_drop pi) in (i, pipe_head pi :: o, pi')
  end.

(** C20: a pipe is a first-in first-out queue of at most PIPESIZE bytes. Whatever
    the interleaving of writers and readers, and however often the 32-bit counters
    have wrapped around, the bytes delivered followed by the bytes still in the
    ring are the bytes that were there followed by the bytes accepted: none is lost, duplicated
    or reordered, and the ring never holds more than PIPESIZE. *)
Theorem pipe_fifo ops pi q :
  pipe_holds pi q ->
  let '(i, o, pi') := ring_run ops pi in
  exists q', q ++ i = o ++ q' /\ pipe_holds pi' q' /\ (length q' <= Z.to_nat PIPESIZE)%nat.
Proof.
  revert pi q. induction ops as [|[ch|] ops IH]; intros pi q Hh; cbn [ring_run].
  - exists q. split; [by rewrite app_nil_r|]. split; [done|]. by destruct Hh.
  - destruct (pipe_full pi) eqn:Ef; [by apply IH|].
    specialize (IH _ _ (holds_put pi q Hh ch Ef)). destruct (ring_run ops (pipe_put ch pi)) as [[i o] pi'].
    destruct IH as (q' & E & H'). exists q'. by rewrite <- E, <- app_assoc.
  - rewrite (holds_empty pi q Hh). destruct q as [|b q]; [by apply IH|]. cbn.
    destruct (holds_get pi b q Hh) as [-> Hq]. specialize (IH _ _ Hq).
    destruct (ring_run ops (pipe_drop pi)) as [[i o] pi']. destruct IH as (q' & E & H'). exists q'.
    cbn. by rewrite E.
Qed.

(** The pipe pipealloc() makes holds nothing; here its counters are about to wrap. *)
Lemma fresh_pipe r w n : 0 <= n < 2 ^ 32 -> pipe_holds (mkpipe (replicate (Z.to_nat PIPESIZE) 5) n n r w) [].
Proof.
  intros Hn. split; [done|done| |apply Nat.le_0_l|done]. cbn. rewrite Z.add_0_r. by rewrite u32_small.
Qed.

Lemma pipe_fifo_witness :
  let pi := mkpipe (replicate (Z.to_nat PIPESIZE) 5) (2 ^ 32 - 1) (2 ^ 32 - 1) 1 1 in
  let '(i, o, pi') := ring_run [Put 10; Put 20; Get; Put 30; Get; Get; Get] pi in
  (i = [10; 20; 30] /\ o = [10; 20; 30]) /\ exists q', i = o ++ q'.
Proof.
  pose proof (pipe_fifo [Put 10; Put 20; Get; Put 30; Get; Get; Get] _ []
    (fresh_pipe 1 1 (2 ^ 32 - 1) ltac:(lia))) as H.
  assert (ring_run [Put 10; Put 20; Get; Put 30; Get; Get; Get]
    (mkpipe (replicate (Z.to_nat PIPESIZE) 5) (2 ^ 32 - 1) (2 ^ 32 - 1) 1 1) =
    ([10; 20; 30], [10; 20; 30], (ring_run [Put 10; Put 20; Get; Put 30; Get; Get; Get]
    (mkpipe (replicate (Z.to_nat PIPESIZE) 5) (2 ^ 32 - 1) (2 ^ 32 - 1) 1 1)).2)) as E by by vm_compute.
  cbv zeta. rewrite E in *. destruct H as (q' & Hq & _). split; [by split|]. by exists q'.
Defined.
