(* ===== verification/Proc.v ===== *)
(** kernel/proc.c: process creation and exit, and kernel/proc.h's trapframe.

    A [struct proc] is its index in proc[]; a trapframe is the page it lives
    in. The scheduling functions are in Sched.v, the shared-memory functions in
    Shmem.v. *)
From S2P Require Import Prelude Riscv Machine Spinlock KString Kalloc Vm Sched Keeps FsIface.
From S2P Require Import File.

(** ** struct trapframe: offsets of the fields the kernel uses *)

Definition TF_kernel_satp : Z := 0.
Definition TF_kernel_sp : Z := 8.
Definition TF_kernel_trap : Z := 16.
Definition TF_epc : Z := 24.
Definition TF_kernel_hartid : Z := 32.
Definition TF_sp : Z := 48.
Definition TF_a0 : Z := 112.
Definition TF_a1 : Z := 120.
Definition TF_a2 : Z := 128.
Definition TF_a3 : Z := 136.
Definition TF_a4 : Z := 144.
Definition TF_a5 : Z := 152.
Definition TF_a7 : Z := 168.
Definition TF_SIZE : Z := 288.

(** The program that calls exec("/init"), from user/initcode.S. *)
Definition initcode : list Z := [
  0x17; 0x05; 0x00; 0x00; 0x13; 0x05; 0x45; 0x02;
  0x97; 0x05; 0x00; 0x00; 0x93; 0x85; 0x35; 0x02;
  0x93; 0x08; 0x70; 0x00; 0x73; 0x00; 0x00; 0x00;
  0x93; 0x08; 0x20; 0x00; 0x73; 0x00; 0x00; 0x00;
  0xef; 0xf0; 0x9f; 0xff; 0x2f; 0x69; 0x6e; 0x69;
  0x74; 0x00; 0x00; 0x24; 0x00; 0x00; 0x00; 0x00;
  0x00; 0x00; 0x00; 0x00 ].

(** The bytes of a string literal, with its terminator. *)
Fixpoint chars (s : string) : list Z :=
  match s with
  | EmptyString => [0]
  | String c s => Z.of_nat (Ascii.nat_of_ascii c) :: chars s
  end.

Section Ops.
Context {F : Type} `{L : Layout} `{Fuel0 : Fuel} `{Fs : !FsOps F}.
Abbreviation KM := (K (kstate F)).

Definition procinit : KM unit :=
  initlock L_pid "nextpid" ;;
  initlock L_wait "wait_lock" ;;
  for_ 0 NPROC (fun p =>
    initlock (L_proc p) "proc" ;;
    modify (upd_proc p (set_p_state UNUSED)) ;;
    modify (upd_proc p (set_p_kstack (KSTACK (Z.of_nat p))))).

Definition allocpid : KM Z :=
  acquire L_pid ;;
  pid <- gets k_nextpid ;;
  modify (set_k_nextpid (pid + 1)) ;;
  release L_pid ;;
  ret pid.

(** A field of the process's trapframe. *)
Definition tf_get (p : nat) (off : Z) : KM Z :=
  gets (fun s => ld64 (k_mem s) (p_trapframe (get_proc p s) + off)).
Definition tf_set (p : nat) (off v : Z) : KM unit :=
  modify (fun s => upd_mem (fun m => st64 m (p_trapframe (get_proc p s) + off) v) s).

Definition proc_pagetable (p : nat) : KM Z :=
  pagetable <- uvmcreate ;;
  if pagetable =? 0 then ret 0 else
  r <- mappages pagetable TRAMPOLINE PGSIZE trampoline (Z.lor PTE_R PTE_X) ;;
  if r <? 0 then uvmfree pagetable 0 ;; ret 0 else
  tf <- gets (fun s => p_trapframe (get_proc p s)) ;;
  r <- mappages pagetable TRAPFRAME PGSIZE tf (Z.lor PTE_R PTE_W) ;;
  if r <? 0 then
    uvmunmap pagetable TRAMPOLINE 1 false ;;
    uvmfree pagetable 0 ;;
    ret 0
  else ret pagetable.

Definition proc_freepagetable (pagetable sz : Z) : KM unit :=
  uvmunmap pagetable TRAMPOLINE 1 false ;;
  uvmunmap pagetable TRAPFRAME 1 false ;;
  uvmfree pagetable sz.

(** The assignments at the end of freeproc(). *)
Definition cleared (p : proc) : proc :=
  set_p_state UNUSED (set_p_xstate 0 (set_p_killed 0 (set_p_chan None
    (set_p_name (<[0%nat := 0]> (p_name p)) (set_p_parent None (set_p_pid 0
    (set_p_sz 0 (set_p_pagetable 0 p)))))))).

Definition freeproc (p : nat) : KM unit :=
  q <- gets (get_proc p) ;;
  (when negb (p_trapframe q =? 0) do kfree (p_trapframe q)) ;;
  modify (upd_proc p (set_p_trapframe 0)) ;;
  q <- gets (get_proc p) ;;
  (when negb (p_pagetable q =? 0) do proc_freepagetable (p_pagetable q) (p_sz q)) ;;
  modify (upd_proc p cleared).

(** Look for an UNUSED slot; it is returned with its lock held. *)
Definition allocproc_find : KM (option nat) :=
  for_find 0 NPROC (fun p =>
    acquire (L_proc p) ;;
    st <- gets (fun s => p_state (get_proc p s)) ;;
    if bool_decide (st = UNUSED) then ret (Some p)
    else release (L_proc p) ;; ret None).

(** [p->shmem_access[i] = false; p->shmem_access_count--] *)
Definition drop_access (i : nat) (p : proc) : proc :=
  set_p_shmem_access_count (p_shmem_access_count p - 1)
    (set_p_shmem_access (<[i := false]> (p_shmem_access p)) p).

Definition allocproc : KM (option nat) :=
  r <- allocproc_find ;;
  match r with
  | None => ret None
  | Some p =>
      pid <- allocpid ;;
      modify (upd_proc p (set_p_pid pid)) ;;
      modify (upd_proc p (set_p_state USED)) ;;
      modify (upd_proc p (set_p_shmem_access_count 0)) ;;
      for_ 0 SHMEM (fun i => modify (upd_proc p (drop_access i))) ;;
      tf <- kalloc ;;
      modify (upd_proc p (set_p_trapframe tf)) ;;
      if tf =? 0 then freeproc p ;; release (L_proc p) ;; ret None else
      pt <- proc_pagetable p ;;
      modify (upd_proc p (set_p_pagetable pt)) ;;
      if pt =? 0 then freeproc p ;; release (L_proc p) ;; ret None else
      modify (upd_proc p (fun q => set_p_context
        (mkcontext forkret_addr (u64 (p_kstack q + PGSIZE)) (replicate 12 0)) q)) ;;
      ret (Some p)
  end.

Definition userinit : KM unit :=
  r <- allocproc ;;
  modify (set_k_initproc r) ;;
  match r with
  | None => panic "kerneltrap"
  | Some p =>
      pt <- gets (fun s => p_pagetable (get_proc p s)) ;;
      uvmfirst pt initcode ;;
      modify (upd_proc p (set_p_sz PGSIZE)) ;;
      tf_set p TF_epc 0 ;;
      tf_set p TF_sp PGSIZE ;;
      modify (upd_proc p (fun q => set_p_name (safestrcpy (p_name q) (in_buf (chars "initcode")) 16) q)) ;;
      cwd <- namei (chars "/") ;;
      modify (upd_proc p (set_p_cwd cwd)) ;;
      modify (upd_proc p (set_p_state RUNNABLE)) ;;
      release (L_proc p)
  end.

Definition growproc (n : Z) : KM Z :=
  p <- curproc ;;
  q <- gets (get_proc p) ;;
  let sz := p_sz q in
  if n >? 0 then
    sz <- uvmalloc (p_pagetable q) sz (u64 (sz + n)) PTE_W ;;
    if sz =? 0 then ret (-1) else
    modify (upd_proc p (set_p_sz sz)) ;; ret 0
  else if n <? 0 then
    sz <- uvmdealloc (p_pagetable q) sz (u64 (sz + n)) ;;
    modify (upd_proc p (set_p_sz sz)) ;; ret 0
  else
    modify (upd_proc p (set_p_sz sz)) ;; ret 0.

(** if((np->shmem_access[i] = p->shmem_access[i])) shmem[i].numberofusers++ *)
Definition fork_share (p np i : nat) : KM unit :=
  a <- gets (fun s => nth i (p_shmem_access (get_proc p s)) false) ;;
  modify (upd_proc np (fun q => set_p_shmem_access (<[i := a]> (p_shmem_access q)) q)) ;;
  when a do modify (upd_shmem i (fun h => set_sh_numberofusers (sh_numberofusers h + 1) h)).

(** if(p->ofile[i]) np->ofile[i] = filedup(p->ofile[i]) *)
Definition fork_dup (p np i : nat) : KM unit :=
  f <- gets (fun s => nth i (p_ofile (get_proc p s)) None) ;;
  match f with
  | None => ret tt
  | Some f =>
      f <- filedup f ;;
      modify (upd_proc np (fun q => set_p_ofile (<[i := Some f]> (p_ofile q)) q))
  end.

Definition fork : KM Z :=
  p <- curproc ;;
  r <- allocproc ;;
  match r with
  | None => ret (-1)
  | Some np =>
      q <- gets (get_proc p) ;;
      nq <- gets (get_proc np) ;;
      r <- uvmcopy (p_pagetable q) (p_pagetable nq) (p_sz q) ;;
      if r <? 0 then freeproc np ;; release (L_proc np) ;; ret (-1) else
      modify (upd_proc np (set_p_sz (p_sz q))) ;;
      do_memmove (p_trapframe nq) (p_trapframe q) TF_SIZE ;;
      tf_set np TF_a0 0 ;;
      for_ 0 NOFILE (fork_dup p np) ;;
      cwd <- gets (fun s => p_cwd (get_proc p s)) ;;
      ip <- the_inode cwd ;;
      ip <- idup ip ;;
      modify (upd_proc np (set_p_cwd (Some ip))) ;;
      name <- gets (fun s => p_name (get_proc p s)) ;;
      modify (upd_proc np (fun q => set_p_name (safestrcpy (p_name q) (in_buf name) 16) q)) ;;
      pid <- gets (fun s => p_pid (get_proc np s)) ;;
      release (L_proc np) ;;
      acquire L_wait ;;
      modify (upd_proc np (set_p_parent (Some p))) ;;
      top <- gets (fun s => p_top_pid (get_proc p s)) ;;
      modify (upd_proc np (set_p_top_pid top)) ;;
      release L_wait ;;
      acquire (L_proc np) ;;
      modify (upd_proc np (set_p_state RUNNABLE)) ;;
      for_ 0 SHMEM (fork_share p np) ;;
      release (L_proc np) ;;
      ret pid
  end.

Definition reparent_one (p pp : nat) : KM unit :=
  par <- gets (fun s => p_parent (get_proc pp s)) ;;
  when bool_decide (par = Some p) do
    (init <- gets k_initproc ;;
     modify (upd_proc pp (set_p_parent init)) ;;
     init <- gets k_initproc ;;
     wakeup_at (Ch_proc <$> init)).

Definition reparent (p : nat) : KM unit := for_ 0 NPROC (reparent_one p).

(** exit()'s loop body on shared page [i]. *)
Definition exit_unshare (p i : nat) : KM unit :=
  acquire (L_shstate i) ;;
  a <- gets (fun s => nth i (p_shmem_access (get_proc p s)) false) ;;
  (when a do modify (upd_shmem i (fun h => set_sh_numberofusers (sh_numberofusers h - 1) h))) ;;
  h <- gets (get_shmem i) ;;
  top <- gets (fun s => p_top_pid (get_proc p s)) ;;
  (when (sh_numberofusers h =? 0) && (sh_using_top_pid h =? top) do
     (modify (upd_shmem i (set_sh_state NOT_SET)) ;;
      modify (upd_shmem i (set_sh_using_top_pid (-1))) ;;
      do_memset (sh_PHADDR h) 0 PGSIZE)) ;;
  release (L_shstate i).

Definition exit_close (p fd : nat) : KM unit :=
  f <- gets (fun s => nth fd (p_ofile (get_proc p s)) None) ;;
  match f with
  | None => ret tt
  | Some f =>
      fileclose f ;;
      modify (upd_proc p (fun q => set_p_ofile (<[fd := None]> (p_ofile q)) q))
  end.

Definition exit (status : Z) : KM unit :=
  r <- myproc ;;
  init <- gets k_initproc ;;
  if bool_decide (r = init) then panic "init exiting" else
  match r with
  | None => panic "kerneltrap"
  | Some p =>
      for_ 0 NOFILE (exit_close p) ;;
      begin_op ;;
      cwd <- gets (fun s => p_cwd (get_proc p s)) ;;
      ip <- the_inode cwd ;;
      iput ip ;;
      end_op ;;
      modify (upd_proc p (set_p_cwd None)) ;;
      acquire L_wait ;;
      reparent p ;;
      par <- gets (fun s => p_parent (get_proc p s)) ;;
      wakeup_at (Ch_proc <$> par) ;;
      acquire (L_proc p) ;;
      for_ 0 SHMEM (exit_unshare p) ;;
      modify (upd_proc p (set_p_xstate status)) ;;
      modify (upd_proc p (set_p_state ZOMBIE)) ;;
      release L_wait ;;
      sched ;;
      panic "zombie exit"
  end.

(** wait()'s scan of the table: a result to return, or whether there are
    children. *)
Fixpoint wait_scan (p : nat) (addr : Z) (pp n : nat) (havekids : bool) : KM (Z + bool) :=
  match n with
  | O => ret (inr havekids)
  | S n =>
      par <- gets (fun s => p_parent (get_proc pp s)) ;;
      if bool_decide (par = Some p) then
        acquire (L_proc pp) ;;
        c <- gets (get_proc pp) ;;
        if bool_decide (p_state c = ZOMBIE) then
          let pid := p_pid c in
          r <- (if addr =? 0 then ret 0 else
                pt <- gets (fun s => p_pagetable (get_proc p s)) ;;
                copyout pt addr (le_bytes 4 (p_xstate c))) ;;
          if r <? 0 then
            release (L_proc pp) ;; release L_wait ;; ret (inl (-1))
          else
            freeproc pp ;;
            release (L_proc pp) ;; release L_wait ;; ret (inl pid)
        else
          release (L_proc pp) ;;
          wait_scan p addr (S pp) n true
      else wait_scan p addr (S pp) n havekids
  end.

Fixpoint wait_loop (fuel : nat) (p : nat) (addr : Z) : KM Z :=
  match fuel with
  | O => out_of_fuel
  | S fuel =>
      r <- wait_scan p addr 0 NPROC false ;;
      match r with
      | inl r => ret r
      | inr havekids =>
          k <- (if negb havekids then ret 1 else killed p) ;;
          if negb (k =? 0) then release L_wait ;; ret (-1) else
          sleep (Ch_proc p) L_wait ;;
          wait_loop fuel p addr
      end
  end.

Definition wait (addr : Z) : KM Z :=
  p <- curproc ;;
  acquire L_wait ;;
  wait_loop fuel p addr.

Definition either_copyout (user_dst : bool) (dst : Z) (src : list Z) : KM Z :=
  p <- curproc ;;
  if user_dst then
    pt <- gets (fun s => p_pagetable (get_proc p s)) ;;
    copyout pt dst src
  else modify (upd_mem (fun m => write_bytes m dst src)) ;; ret 0.

Definition either_copyin (user_src : bool) (src len : Z) : KM (Z * list Z) :=
  p <- curproc ;;
  if user_src then
    pt <- gets (fun s => p_pagetable (get_proc p s)) ;;
    copyin pt src len
  else bs <- gets (fun s => read_bytes (k_mem s) src (Z.to_nat len)) ;; ret (0, bs).
End Ops.
