(* ===== verification/Shmem.v ===== *)
(** The shared-memory facility: the second half of kernel/proc.c, struct shmem
    of kernel/proc.h, and main()'s set-up of the pages.

    A shared page is its index in shmem[]; the callers of kernel/sysproc.c have
    checked that it is one. *)
From S2P Require Import Prelude Riscv Machine Spinlock KString Kalloc Vm Sched Keeps FsIface.
From S2P Require Import File Proc.

Section Ops.
Context {F : Type} `{L : Layout}.
Abbreviation KM := (K (kstate F)).

Definition is_top_parent_process : KM bool :=
  r <- myproc ;;
  match r with
  | None => panic "is_top_parent_process: myproc() returned NULL"
  | Some p => q <- gets (get_proc p) ;; ret (p_top_pid q =? p_pid q)
  end.

(** The loop over proc[] that looks for [pid]. *)
Definition find_pid (pid : Z) : KM (option nat) :=
  for_find 0 NPROC (fun j =>
    q <- gets (get_proc j) ;;
    ret (if pid =? p_pid q then Some j else None)).

Definition get_shmem_access (page_number : nat) (pid : Z) : KM Z :=
  r <- myproc ;;
  r <- (if negb (pid =? 0) then
          j <- find_pid pid ;;
          ret (match j with Some j => Some j | None => r end)
        else ret r) ;;
  match r with
  | None => panic "kerneltrap"
  | Some p =>
      q <- gets (get_proc p) ;;
      if negb (nth page_number (p_shmem_access q) false)
      then panic "The process don't have access to this shmem page" else
      acquire (L_proc p) ;;
      q <- gets (get_proc p) ;;
      let VA := u64 (VASHMEM (p_shmem_access_count q)) in
      pa <- gets (fun s => sh_PHADDR (get_shmem page_number s)) ;;
      r <- mappages (p_pagetable q) VA PGSIZE pa (Z.lor (Z.lor PTE_R PTE_W) PTE_U) ;;
      if r <? 0 then release (L_proc p) ;; ret 0 else
      modify (upd_proc p (fun q => set_p_shmem_access_count (p_shmem_access_count q + 1) q)) ;;
      release (L_proc p) ;;
      ret VA
  end.

Definition count_shmem (page_number : nat) : KM Z :=
  gets (fun s => sh_numberofusers (get_shmem page_number s)).

Definition shmem_state (page_number : nat) : KM Z :=
  gets (fun s => sh_state (get_shmem page_number s)).

(** The test-and-set of using_top_pid that the setters share. *)
Definition claim_top_pid (page_number p : nat) : KM unit :=
  u <- gets (fun s => sh_using_top_pid (get_shmem page_number s)) ;;
  top <- gets (fun s => p_top_pid (get_proc p s)) ;;
  if u =? -1 then modify (upd_shmem page_number (set_sh_using_top_pid top))
  else if negb (u =? top) then panic "shmem is already used by other process"
  else ret tt.

Definition give_access (page_number p : nat) : KM unit :=
  modify (upd_proc p (fun q => set_p_shmem_access (<[page_number := true]> (p_shmem_access q)) q)).

Definition digit (i : nat) : string := String (Ascii.ascii_of_nat (48 + i)) EmptyString.

Definition shmem_set_writable (page_number : nat) : KM unit :=
  acquire (L_shstate page_number) ;;
  st <- gets (fun s => sh_state (get_shmem page_number s)) ;;
  if negb (st =? NOT_SET) then panic "shmem state is already set" else
  p <- curproc ;;
  acquire (L_proc p) ;;
  claim_top_pid page_number p ;;
  give_access page_number p ;;
  modify (upd_proc p (fun q => set_p_shmem_access_count (p_shmem_access_count q + 1) q)) ;;
  release (L_proc p) ;;
  modify (upd_shmem page_number (fun h => set_sh_numberofusers (sh_numberofusers h + 1) h)) ;;
  initlock (L_shmem page_number) ("shmem_" +:+ digit page_number) ;;
  modify (upd_shmem page_number (set_sh_state WRITABLE)) ;;
  release (L_shstate page_number).

Definition shmem_set_unwritable (page_number : nat) : KM unit :=
  acquire (L_shstate page_number) ;;
  st <- gets (fun s => sh_state (get_shmem page_number s)) ;;
  if negb (st =? NOT_SET) then panic "shmem state is already set" else
  p <- curproc ;;
  acquire (L_proc p) ;;
  claim_top_pid page_number p ;;
  give_access page_number p ;;
  modify (upd_proc p (fun q => set_p_shmem_access_count (p_shmem_access_count q + 1) q)) ;;
  release (L_proc p) ;;
  modify (upd_shmem page_number (fun h => set_sh_numberofusers (sh_numberofusers h + 1) h)) ;;
  modify (upd_shmem page_number (set_sh_state UNWRITABLE)) ;;
  release (L_shstate page_number).

(** [((int * )PHADDR)[index]]; an int is four bytes. *)
Definition int_addr (h : shmem) (index : Z) : Z := u64 (sh_PHADDR h + 4 * index).

Definition store_int (page_number : nat) (index value : Z) : KM unit :=
  modify (fun s => upd_mem (fun m => st32 m (int_addr (get_shmem page_number s) index) value) s).

Definition load_int (page_number : nat) (index : Z) : KM Z :=
  gets (fun s => s32 (ld32 (k_mem s) (int_addr (get_shmem page_number s) index))).

Definition shmem_set_init_int (page_number : nat) (index value : Z) : KM unit :=
  acquire (L_shstate page_number) ;;
  st <- gets (fun s => sh_state (get_shmem page_number s)) ;;
  if negb (st =? NOT_SET) then panic "shmem state is already set" else
  p <- curproc ;;
  acquire (L_proc p) ;;
  claim_top_pid page_number p ;;
  release (L_proc p) ;;
  store_int page_number index value ;;
  release (L_shstate page_number).

Definition shmem_write_int (page_number : nat) (index value : Z) : KM unit :=
  st <- gets (fun s => sh_state (get_shmem page_number s)) ;;
  if negb (st =? WRITABLE) then panic ("shmem_" +:+ digit page_number +:+ "_lock") else
  p <- curproc ;;
  acquire (L_proc p) ;;
  a <- gets (fun s => nth page_number (p_shmem_access (get_proc p s)) false) ;;
  if negb a then panic "The process don't have access to this shmem page" else
  release (L_proc p) ;;
  acquire (L_shmem page_number) ;;
  store_int page_number index value ;;
  release (L_shmem page_number).

Definition shmem_read_int (page_number : nat) (index : Z) : KM Z :=
  st <- gets (fun s => sh_state (get_shmem page_number s)) ;;
  if st =? NOT_SET then panic ("shmem_" +:+ digit page_number +:+ "_lock") else
  p <- curproc ;;
  a <- gets (fun s => nth page_number (p_shmem_access (get_proc p s)) false) ;;
  if negb a then panic "The process don't have access to this shmem page" else
  st <- gets (fun s => sh_state (get_shmem page_number s)) ;;
  if st =? UNWRITABLE then load_int page_number index
  else if st =? WRITABLE then
    acquire (L_shmem page_number) ;;
    value <- load_int page_number index ;;
    release (L_shmem page_number) ;;
    ret value
  else panic "shmem state is invalid".

Definition shmem_acquire_access (page_number : nat) : KM bool :=
  acquire (L_shstate page_number) ;;
  st <- gets (fun s => sh_state (get_shmem page_number s)) ;;
  if st =? NOT_SET then release (L_shstate page_number) ;; ret false else
  p <- curproc ;;
  acquire (L_proc p) ;;
  q <- gets (get_proc p) ;;
  u <- gets (fun s => sh_using_top_pid (get_shmem page_number s)) ;;
  if negb (nth page_number (p_shmem_access q) false) then
    if negb (p_top_pid q =? u)
    then panic "This shmem page already have access to other process" else
    give_access page_number p ;;
    modify (upd_shmem page_number (fun h => set_sh_numberofusers (sh_numberofusers h + 1) h)) ;;
    release (L_proc p) ;;
    release (L_shstate page_number) ;;
    ret true
  else panic "The process already have access to this shmem page".

(** [shmem[page_number].lock.name = NULL] *)
Definition clear_lock_name (l : lockid) (s : kstate F) : kstate F :=
  let lk := get_lock l s in
  set_k_locks (<[l := mkspinlock (lk_locked lk) None (lk_cpu lk)]> (k_locks s)) s.

Definition shmem_release_access (page_number : nat) : KM unit :=
  acquire (L_shstate page_number) ;;
  h <- gets (get_shmem page_number) ;;
  if sh_state h =? NOT_SET then panic "shmem state is not set" else
  if sh_numberofusers h =? 0 then panic "shmem state is invalid" else
  if sh_numberofusers h <? 0 then panic "shmem numberofusers is invalid" else
  p <- curproc ;;
  acquire (L_proc p) ;;
  a <- gets (fun s => nth page_number (p_shmem_access (get_proc p s)) false) ;;
  if a : bool then
    modify (upd_proc p (fun q => set_p_shmem_access (<[page_number := false]> (p_shmem_access q)) q)) ;;
    modify (upd_shmem page_number (fun h => set_sh_numberofusers (sh_numberofusers h - 1) h)) ;;
    h <- gets (get_shmem page_number) ;;
    (when sh_numberofusers h =? 0 do
       (modify (upd_shmem page_number (set_sh_state NOT_SET)) ;;
        do_memset (sh_PHADDR h) 0 PGSIZE ;;
        modify (clear_lock_name (L_shmem page_number)) ;;
        modify (upd_shmem page_number (set_sh_using_top_pid (-1))))) ;;
    release (L_proc p) ;;
    release (L_shstate page_number)
  else panic "The process don't have access to this shmem page".

Definition reduce_counter_shmem_page (page_number : nat) : KM unit :=
  modify (upd_shmem page_number (fun h => set_sh_numberofusers (sh_numberofusers h - 1) h)).

Definition safe_physical_address (phaddr : Z) (i : nat) : KM unit :=
  modify (upd_shmem i (set_sh_PHADDR phaddr)) ;;
  modify (upd_shmem i (set_sh_numberofusers 0)) ;;
  modify (upd_shmem i (set_sh_state NOT_SET)) ;;
  initlock (L_shstate i) ("shmem_state_" +:+ digit i) ;;
  modify (upd_shmem i (set_sh_using_top_pid (-1))).

(** main(): one page for each shared segment. *)
Definition shmem_init : KM unit :=
  for_ 0 SHMEM (fun i => pa <- kalloc ;; safe_physical_address pa i).
End Ops.
