(* ===== verification/ShmemInv.v ===== *)
(** The invariant of the shared-memory table, and that every operation of the
    kernel that touches processes or shared pages keeps it, across switches.

    [shmem_inv]: the user count of a page is the number of live processes that
    hold access to it; a page is NOT_SET exactly when it has no users; and all
    users of a page belong to the process group recorded in using_top_pid. *)
From S2P Require Import Prelude Riscv Machine Spinlock KString Kalloc Vm Sched Keeps FsIface.
From S2P Require Import File Proc Shmem.

Definition live (p : proc) : bool :=
  match p_state p with UNUSED | ZOMBIE => false | _ => true end.

Definition has_access (i : nat) (p : proc) : bool := nth i (p_shmem_access p) false.

Definition uses (i : nat) (p : proc) : bool := live p && has_access i p.

Record table_inv (ps : list proc) (hs : list shmem) : Prop := {
  inv_procs : length ps = NPROC;
  inv_pages : length hs = SHMEM;
  inv_flags : forall j p, ps !! j = Some p -> length (p_shmem_access p) = SHMEM;
  inv_count : forall i h, hs !! i = Some h -> sh_numberofusers h = count (uses i) ps;
  inv_state : forall i h, hs !! i = Some h ->
    sh_state h = NOT_SET \/ sh_state h = UNWRITABLE \/ sh_state h = WRITABLE;
  inv_set : forall i h, hs !! i = Some h -> sh_state h = NOT_SET <-> sh_numberofusers h = 0;
  inv_group : forall i h j p, hs !! i = Some h -> ps !! j = Some p -> uses i p = true ->
    p_top_pid p = sh_using_top_pid h
}.

(** ** Updates of one process *)

(** Lists of access flags. *)
Lemma has_access_set i k a p :
  length (p_shmem_access p) = SHMEM -> (k < SHMEM)%nat ->
  has_access i (set_p_shmem_access (<[k := a]> (p_shmem_access p)) p) =
    if decide (i = k) then a else has_access i p.
Proof.
  intros Hl Hk. unfold has_access. cbn. rewrite !nth_lookup. case_decide as E; subst.
  - by rewrite list_lookup_insert_eq by lia.
  - by rewrite list_lookup_insert_ne by done.
Qed.

Lemma count_alter {A} (f : A -> bool) (g : A -> A) (l : list A) j x :
  l !! j = Some x -> count f (alter g j l) = count f l - Z.b2z (f x) + Z.b2z (f (g x)).
Proof.
  intros H. rewrite <- (count_insert f l j x (g x) H). f_equal.
  apply list_eq. intros k. destruct (decide (k = j)) as [->|Hne].
  - rewrite list_lookup_alter_eq, H. cbn. by rewrite list_lookup_insert_eq by (by eapply lookup_lt_Some).
  - by rewrite list_lookup_alter_ne, list_lookup_insert_ne.
Qed.

Lemma count_zero_none {A} (f : A -> bool) (l : list A) j x :
  count f l = 0 -> l !! j = Some x -> f x = false.
Proof.
  intros H Hx. destruct (f x) eqn:E; [|done]. pose proof (count_pos f l j x Hx E). lia.
Qed.

(** An update that changes neither liveness, access nor group keeps it. *)
Definition same_use (p q : proc) : Prop :=
  live q = live p /\ p_shmem_access q = p_shmem_access p /\ p_top_pid q = p_top_pid p.

Lemma same_use_uses p q i : same_use p q -> uses i q = uses i p.
Proof. intros (H1 & H2 & _). unfold uses, has_access. by rewrite H1, H2. Qed.

(** More generally, one that keeps the uses, their group and the flags. *)
Lemma table_inv_proc ps hs j f :
  table_inv ps hs ->
  (forall p, ps !! j = Some p -> length (p_shmem_access (f p)) = SHMEM /\
     forall i, uses i (f p) = uses i p /\ (uses i p = true -> p_top_pid (f p) = p_top_pid p)) ->
  table_inv (alter f j ps) hs.
Proof.
  intros H Hf. split.
  - rewrite length_alter. apply H.
  - apply H.
  - intros k p Hp. destruct (decide (k = j)) as [->|Hne].
    + rewrite list_lookup_alter_eq in Hp. destruct (ps !! j) as [q|] eqn:E; [|done].
      injection Hp as <-. by apply Hf.
    + rewrite list_lookup_alter_ne in Hp by done. by eapply inv_flags.
  - intros i h Hh. rewrite (inv_count _ _ H i h Hh).
    destruct (ps !! j) as [q|] eqn:E.
    + rewrite (count_alter _ _ _ _ _ E). destruct (Hf q eq_refl) as [_ Hu].
      rewrite (proj1 (Hu i)). lia.
    + rewrite list_alter_id'; [done|]. intros x Hx. congruence.
  - apply H.
  - apply H.
  - intros i h k p Hh Hp Hu. destruct (decide (k = j)) as [->|Hne].
    + rewrite list_lookup_alter_eq in Hp. destruct (ps !! j) as [q|] eqn:E; [|done].
      injection Hp as <-. destruct (Hf q eq_refl) as [_ Hq]. rewrite (proj1 (Hq i)) in Hu.
      rewrite (proj2 (Hq i) Hu). by eapply inv_group.
    + rewrite list_lookup_alter_ne in Hp by done. by eapply inv_group.
Qed.

Lemma table_inv_same ps hs j f :
  table_inv ps hs -> (forall p, ps !! j = Some p -> same_use p (f p)) -> table_inv (alter f j ps) hs.
Proof.
  intros H Hf. apply table_inv_proc; [done|]. intros p Hp. pose proof (Hf p Hp) as Hs.
  pose proof Hs as (_ & Ha & Ht). split; [rewrite Ha; by eapply inv_flags|].
  intros i. split; [by apply same_use_uses|done].
Qed.

(** ** Gaining and losing access *)

Definition access_set (i : nat) (a : bool) (p : proc) : proc :=
  set_p_shmem_access (<[i := a]> (p_shmem_access p)) p.

Definition users_add (n : Z) (h : shmem) : shmem := set_sh_numberofusers (sh_numberofusers h + n) h.
Definition users_sub (h : shmem) : shmem := set_sh_numberofusers (sh_numberofusers h - 1) h.

Lemma uses_access_set i k a p :
  length (p_shmem_access p) = SHMEM -> (k < SHMEM)%nat ->
  uses i (access_set k a p) = if decide (i = k) then live p && a else uses i p.
Proof.
  intros Hl Hk. unfold uses. change (live (access_set k a p)) with (live p).
  unfold access_set. rewrite has_access_set by done. by case_decide.
Qed.

(** What a page must satisfy, for the processes [ps]. *)
Definition page_ok (ps : list proc) (i : nat) (h : shmem) : Prop :=
  sh_numberofusers h = count (uses i) ps /\
  (sh_state h = NOT_SET \/ sh_state h = UNWRITABLE \/ sh_state h = WRITABLE) /\
  (sh_state h = NOT_SET <-> sh_numberofusers h = 0) /\
  forall j p, ps !! j = Some p -> uses i p = true -> p_top_pid p = sh_using_top_pid h.

Lemma table_inv_iff ps hs :
  table_inv ps hs <->
  length ps = NPROC /\ length hs = SHMEM /\
  (forall j p, ps !! j = Some p -> length (p_shmem_access p) = SHMEM) /\
  forall i h, hs !! i = Some h -> page_ok ps i h.
Proof.
  split.
  - intros H. split; [apply H|]. split; [apply H|]. split; [apply H|]. intros i h Hh.
    split; [by eapply inv_count|]. split; [by eapply inv_state|]. split; [by eapply inv_set|].
    intros j p. by eapply inv_group.
  - intros (H1 & H2 & H3 & H4). split; [done|done|done|..]; intros i h;
      [| | |intros j p]; intros Hh; destruct (H4 i h Hh) as (? & ? & ? & ?); eauto.
Qed.

(** A change of process [j] that concerns page [k] only, with the change of the
    page that goes with it. *)
Lemma table_inv_upd ps hs k j p f g :
  table_inv ps hs -> ps !! j = Some p -> length (p_shmem_access (f p)) = SHMEM ->
  p_top_pid (f p) = p_top_pid p ->
  (forall i, i <> k -> (i < SHMEM)%nat -> uses i (f p) = uses i p) ->
  (forall h, hs !! k = Some h -> page_ok (alter f j ps) k (g h)) ->
  table_inv (alter f j ps) (alter g k hs).
Proof.
  intros H Hp Hlen Htop Hi Hg. apply table_inv_iff. rewrite !length_alter.
  split; [apply H|]. split; [apply H|]. split.
  - intros n q Hq. destruct (decide (n = j)) as [->|Hne].
    + rewrite list_lookup_alter_eq, Hp in Hq. by injection Hq as <-.
    + rewrite list_lookup_alter_ne in Hq by done. by eapply inv_flags.
  - intros i h Hh. destruct (decide (i = k)) as [->|Hne].
    { rewrite list_lookup_alter_eq in Hh. destruct (hs !! k) as [h'|]; [|done].
      injection Hh as <-. by apply Hg. }
    rewrite list_lookup_alter_ne in Hh by done.
    pose proof (lookup_lt_Some _ _ _ Hh) as Hlt. rewrite (inv_pages _ _ H) in Hlt.
    split; [|split; [by eapply inv_state|split; [by eapply inv_set|]]].
    + rewrite (count_alter _ _ _ _ _ Hp), (Hi i Hne Hlt), (inv_count _ _ H i h Hh). lia.
    + intros n q Hq Hu. destruct (decide (n = j)) as [->|Hnj].
      * rewrite list_lookup_alter_eq, Hp in Hq. injection Hq as <-.
        rewrite Htop. rewrite Hi in Hu by done. by eapply inv_group.
      * rewrite list_lookup_alter_ne in Hq by done. by eapply inv_group.
Qed.

(** A live process without access to page [k] gains it: the page gets one more
    user and leaves the state NOT_SET, for the process's group. *)
Lemma table_inv_gain ps hs k j p g :
  table_inv ps hs -> (k < SHMEM)%nat -> ps !! j = Some p -> live p = true -> uses k p = false ->
  (forall h, hs !! k = Some h ->
     sh_numberofusers (g h) = sh_numberofusers h + 1 /\
     (sh_state (g h) = UNWRITABLE \/ sh_state (g h) = WRITABLE) /\
     sh_using_top_pid (g h) = p_top_pid p /\
     (sh_numberofusers h = 0 \/ sh_using_top_pid h = p_top_pid p)) ->
  table_inv (alter (access_set k true) j ps) (alter g k hs).
Proof.
  intros H Hk Hp Hlive Hnu Hg. pose proof (inv_flags _ _ H j p Hp) as Hlen.
  apply (table_inv_upd _ _ _ _ p); [done|done|cbn; by rewrite length_insert|done| |].
  { intros i Hne Hi. by rewrite uses_access_set, decide_False. }
  intros h Hh. destruct (Hg h Hh) as (Hn & Hst & Hgp & Hor).
  pose proof (inv_count _ _ H k h Hh) as Hc. pose proof (count_nonneg (uses k) ps).
  split; [|split; [by right|split]].
  - rewrite (count_alter _ _ _ _ _ Hp), uses_access_set, decide_True, Hlive, Hnu by done. cbn. lia.
  - lia.
  - intros n q Hq Hu. rewrite Hgp. destruct (decide (n = j)) as [->|Hnj].
    { rewrite list_lookup_alter_eq, Hp in Hq. injection Hq as <-. done. }
    rewrite list_lookup_alter_ne in Hq by done. destruct Hor as [Hz|<-].
    + rewrite Hc in Hz. by rewrite (count_zero_none _ _ _ _ Hz Hq) in Hu.
    + by eapply inv_group.
Qed.

(** A process that uses page [k] stops using it; the page is reset if that was
    its last user. *)
Definition page_left (h : shmem) : shmem :=
  if sh_numberofusers h - 1 =? 0
  then set_sh_using_top_pid (-1) (set_sh_state NOT_SET (users_sub h))
  else users_sub h.

Lemma table_inv_lose ps hs k j p f :
  table_inv ps hs -> ps !! j = Some p -> uses k p = true -> uses k (f p) = false ->
  length (p_shmem_access (f p)) = SHMEM -> p_top_pid (f p) = p_top_pid p ->
  (forall i, i <> k -> (i < SHMEM)%nat -> uses i (f p) = uses i p) ->
  table_inv (alter f j ps) (alter page_left k hs).
Proof.
  intros H Hp Hu Hnu Hlen Htop Hi. apply (table_inv_upd _ _ _ _ p); [done..|].
  intros h Hh. pose proof (inv_count _ _ H k h Hh) as Hc.
  pose proof (count_pos (uses k) ps j p Hp Hu) as Hpos.
  assert (count (uses k) (alter f j ps) = sh_numberofusers h - 1) as Hc'.
  { rewrite (count_alter _ _ _ _ _ Hp), Hu, Hnu. cbn. lia. }
  unfold page_left. destruct (sh_numberofusers h - 1 =? 0) eqn:E; unfold page_ok; cbn.
  - split; [lia|]. split; [by left|]. split; [split; [lia|done]|].
    intros n q Hq Hq'. rewrite (count_zero_none (uses k) (alter f j ps) n q) in Hq'; [done|lia|done].
  - split; [lia|]. split; [by eapply inv_state|]. split.
    + rewrite (inv_set _ _ H k h Hh). lia.
    + intros n q Hq Hq'. destruct (decide (n = j)) as [->|Hnj].
      * rewrite list_lookup_alter_eq, Hp in Hq. injection Hq as <-. congruence.
      * rewrite list_lookup_alter_ne in Hq by done. by eapply inv_group.
Qed.

(** ** The invariant of the kernel state *)

Section Inv.
Context {F : Type} `{L : Layout}.
Implicit Types s : kstate F.
Abbreviation KM := (K (kstate F)).

Definition shmem_inv s : Prop := table_inv (k_procs s) (k_shmem s).

(** The current process, if any, is live. *)
Definition cur_live s : Prop :=
  forall j, cur s = Some j -> exists p, k_procs s !! j = Some p /\ live p = true.

(** What kernel code running for a process maintains. *)
Definition running_inv s : Prop := shmem_inv s /\ cur_live s.

(** Kernel code running for [me]. *)
Definition running_as (me : option nat) s : Prop := same_cur running_inv me s.

(** A process is resumed on some hart as its current, live process. *)
Definition resumed (me : option nat) s s' : Prop := cur s' = me /\ cur_live s'.

(** The process table, the shared pages and the current process are these. *)
Definition view (ps : list proc) (hs : list shmem) (me : option nat) s : Prop :=
  (k_procs s = ps /\ k_shmem s = hs) /\ cur s = me.

#[export] Instance view_low ps hs me : StableLow (view ps hs me).
Proof.
  change (StableLow (same_cur (fun s => k_procs s = ps /\ k_shmem s = hs) me)).
  apply same_cur_low. by split.
Qed.

Lemma view_refl s : view (k_procs s) (k_shmem s) (cur s) s.
Proof. done. Qed.

Lemma view_upd_proc ps hs me j f s :
  view ps hs me s -> view (alter f j ps) hs me (upd_proc j f s).
Proof. intros [[<- <-] <-]. done. Qed.

Lemma view_upd_shmem ps hs me i f s :
  view ps hs me s -> view ps (alter f i hs) me (upd_shmem i f s).
Proof. intros [[<- <-] <-]. done. Qed.

Lemma view_mem ps hs me m s : view ps hs me s -> view ps hs me (set_k_mem m s).
Proof. done. Qed.

Lemma view_proc ps hs me j p s : view ps hs me s -> ps !! j = Some p -> get_proc j s = p.
Proof. intros [[<- _] _] H. by apply get_proc_lookup. Qed.

Lemma view_shmem ps hs me i h s : view ps hs me s -> hs !! i = Some h -> get_shmem i s = h.
Proof. intros [[_ <-] _] H. unfold get_shmem. by rewrite H. Qed.

Lemma view_inv ps hs me s :
  view ps hs me s -> table_inv ps hs ->
  (forall j, me = Some j -> exists p, ps !! j = Some p /\ live p = true) -> running_as me s.
Proof. intros [[<- <-] <-] H Hl. by split. Qed.

Lemma running_inv_view me s :
  running_as me s -> exists ps hs, view ps hs me s /\ table_inv ps hs /\
    forall j, me = Some j -> exists p, ps !! j = Some p /\ live p = true.
Proof. intros [[H Hl] <-]. by exists (k_procs s), (k_shmem s). Qed.

(** Updates of fields that have no part in the invariant. *)
Lemma running_inv_same j f s :
  (forall p, same_use p (f p)) -> running_inv s -> running_inv (upd_proc j f s).
Proof.
  intros Hf [H Hl]. split; [by apply table_inv_same|]. intros k Hk. cbn.
  destruct (Hl k Hk) as (p & Hp & Hlive). destruct (decide (k = j)) as [->|Hne].
  - exists (f p). rewrite list_lookup_alter_eq, Hp. split; [done|]. destruct (Hf p) as (-> & _). done.
  - exists p. by rewrite list_lookup_alter_ne.
Qed.

#[export] Instance running_inv_stable : Stable running_inv.
Proof.
  split.
  - split; try (intros ? s H; exact H).
    intros f s Hf [H Hl]. split; [done|]. intros j Hj. apply Hl.
    by rewrite cur_upd_cpu in Hj.
  - intros i v s. by apply running_inv_same.
  - intros i v s. by apply running_inv_same.
  - intros i s Hst [H Hl]. split.
    + apply table_inv_same; [done|]. intros p Hp. apply get_proc_lookup in Hp as E. rewrite E in Hst.
      split; [|done]. unfold live. by rewrite Hst.
    + intros k Hk. destruct (Hl k Hk) as (p & Hp & Hlive). cbn. destruct (decide (k = i)) as [->|Hne].
      * exists (set_p_state RUNNABLE p). by rewrite list_lookup_alter_eq, Hp.
      * exists p. by rewrite list_lookup_alter_ne.
Qed.

Lemma running_inv_state j st s :
  cur s = Some j -> live (set_p_state st zero_proc) = true ->
  running_inv s -> running_inv (upd_proc j (set_p_state st) s).
Proof.
  intros Hc Hst [H Hl]. destruct (Hl j Hc) as (p & Hp & Hlive). split.
  - apply table_inv_same; [done|]. intros q Hq. assert (q = p) as -> by congruence.
    split; [|done]. by rewrite Hlive.
  - intros k Hk. cbn. destruct (decide (k = j)) as [->|Hne].
    + exists (set_p_state st p). by rewrite list_lookup_alter_eq, Hp.
    + rewrite list_lookup_alter_ne by done. by apply Hl.
Qed.

#[export] Instance running_as_stable me : Stable (running_as me).
Proof. apply same_cur_stable, _. Qed.

#[export] Instance running_as_resumes me : Resumes shmem_inv (resumed me) (running_as me).
Proof.
  split.
  - by intros s [[H _] _].
  - intros p s Hc [H ?]. split; [by apply running_inv_state|done].
  - intros p s Hc [H ?]. split; [by apply running_inv_state|done].
  - intros s s' [_ Hc] [Hc' Hl] H. split; [by split|done].
Qed.

Lemma running_as_same me j f s :
  (forall p, same_use p (f p)) -> running_as me s -> running_as me (upd_proc j f s).
Proof. intros Hf [H ?]. split; [by apply running_inv_same|done]. Qed.
End Inv.

(** [vstep V] runs a first command that leaves the view [V] alone; [vend V]
    does so for a last one. *)
Ltac vstep V :=
  lazymatch type of V with
  | view ?ps ?hs ?me ?s =>
      lazymatch goal with
      | |- post ?I ?R ?Q (kbind ?c ?k s) =>
          apply (post_bind I R (fun _ => view ps hs me) Q c k s);
          [ let H := fresh in
            assert (keeps I R (view ps hs me) c) as H by keeps_auto; exact (H s V)
          | cbn beta; clear V; let s' := fresh "s" in intros _ s' V ]
      end
  end.

Ltac vend V :=
  lazymatch type of V with
  | view ?ps ?hs ?me ?s =>
      lazymatch goal with
      | |- post ?I ?R ?Q (?c s) =>
          apply (post_mono I R (fun _ => view ps hs me) Q);
          [ let H := fresh in
            assert (keeps I R (view ps hs me) c) as H by keeps_auto; exact (H s V)
          | cbn beta; clear V; let s' := fresh "s" in intros _ s' V ]
      end
  end.

(** The command [modify (upd_proc j f)], or [upd_shmem], on a view. *)
Ltac vmod V :=
  lazymatch goal with
  | |- post _ _ _ (kbind (modify ?g) _ ?s) =>
      rewrite kbind_modify;
      lazymatch g with
      | upd_proc ?j ?f => apply (view_upd_proc _ _ _ j f) in V
      | upd_shmem ?i ?f => apply (view_upd_shmem _ _ _ i f) in V
      end;
      let t := fresh "s" in set (t := g s) in V |- *; clearbody t
  end.

Section Ops.
Context {F : Type} `{L : Layout}.
Implicit Types s : kstate F.
Abbreviation KM := (K (kstate F)).
Context (me : option nat).
Abbreviation keeps_inv := (keeps (F := F) shmem_inv (resumed me) (running_as me)).

(** The current process as the code of an operation sees it. *)
Lemma post_curproc_view I R ps hs s :
  view ps hs me s ->
  post I R (fun p s' => view ps hs me s' /\ me = Some p) (curproc s).
Proof.
  intros V. eapply post_mono; [exact (post_curproc I R (view ps hs me) s V)|].
  intros p s' (V' & Hc & Hp). split; [done|]. destruct V as [_ <-]. done.
Qed.

Definition claimed (top : Z) (h : shmem) : shmem :=
  if sh_using_top_pid h =? -1 then set_sh_using_top_pid top h else h.

(** After claim_top_pid() the page belongs to the process's group. *)
Lemma post_claim I R ps hs s i h j p :
  view ps hs me s -> hs !! i = Some h -> ps !! j = Some p ->
  post I R (fun _ s' => view ps (alter (claimed (p_top_pid p)) i hs) me s' /\
    (sh_using_top_pid h = -1 \/ sh_using_top_pid h = p_top_pid p)) (claim_top_pid i j s).
Proof.
  intros V Hh Hp. unfold claim_top_pid. rewrite !kbind_gets.
  rewrite (view_shmem _ _ _ _ _ _ V Hh), (view_proc _ _ _ _ _ _ V Hp).
  destruct (sh_using_top_pid h =? -1) eqn:E.
  - split; [|left; lia]. apply (view_upd_shmem _ _ _ i (set_sh_using_top_pid (p_top_pid p))) in V.
    rewrite (list_alter_ext' _ (set_sh_using_top_pid (p_top_pid p))); [done|].
    intros x Hx. assert (x = h) as -> by congruence. unfold claimed. by rewrite E.
  - destruct (sh_using_top_pid h =? p_top_pid p) eqn:E'; [|done]. split; [|right; lia].
    rewrite list_alter_id'; [done|]. intros x Hx. assert (x = h) as -> by congruence.
    unfold claimed. by rewrite E.
Qed.

Definition count_up (p : proc) : proc := set_p_shmem_access_count (p_shmem_access_count p + 1) p.

(** The setters: a page that is NOT_SET gets its first user. *)
Lemma table_inv_first ps hs i h j p st :
  table_inv ps hs -> hs !! i = Some h -> ps !! j = Some p -> live p = true ->
  sh_state h = NOT_SET -> (st = UNWRITABLE \/ st = WRITABLE) ->
  (sh_using_top_pid h = -1 \/ sh_using_top_pid h = p_top_pid p) ->
  table_inv (alter count_up j (alter (access_set i true) j ps))
    (alter (set_sh_state st) i (alter (users_add 1) i (alter (claimed (p_top_pid p)) i hs))).
Proof.
  intros H Hh Hp Hlive Hns Hst Htop.
  assert (i < SHMEM)%nat as Hi by (rewrite <- (inv_pages _ _ H); by eapply lookup_lt_Some).
  pose proof (proj1 (inv_set _ _ H i h Hh) Hns) as Hz.
  apply table_inv_same; [|done]. rewrite !list_alter_alter.
  apply (table_inv_gain _ _ _ _ p); [done|done|done|done| |].
  - rewrite (inv_count _ _ H i h Hh) in Hz. by eapply count_zero_none.
  - intros g Hg. assert (g = h) as -> by congruence. unfold compose, claimed, users_add.
    destruct (sh_using_top_pid h =? -1) eqn:E; cbn; (split; [lia|]; split; [done|]; split; [lia|by left]).
Qed.

Lemma live_after (ps : list proc) j p f :
  ps !! j = Some p -> live (f p) = true ->
  exists q, alter f j ps !! j = Some q /\ live q = true.
Proof. intros Hp Hl. exists (f p). by rewrite list_lookup_alter_eq, Hp. Qed.

Lemma page_exists ps hs i : table_inv ps hs -> (i < SHMEM)%nat -> exists h, hs !! i = Some h.
Proof. intros H Hi. apply lookup_lt_is_Some_2. by rewrite (inv_pages _ _ H). Qed.

Lemma keeps_set_writable i : (i < SHMEM)%nat -> keeps_inv (shmem_set_writable i).
Proof.
  intros Hi s H. destruct (running_inv_view me s H) as (ps & hs & V & Ht & Hl).
  destruct (page_exists _ _ i Ht Hi) as [h Hh]. unfold shmem_set_writable.
  vstep V. rewrite kbind_gets, (view_shmem _ _ _ _ _ _ V Hh).
  destruct (sh_state h =? NOT_SET) eqn:E; [cbn [negb]|done].
  eapply post_bind; [by apply post_curproc_view|]. clear V. intros j s2 [V Hj].
  destruct (Hl j Hj) as (p & Hp & Hlive). vstep V.
  eapply post_bind; [by apply post_claim|]. clear V. intros _ s4 [V Htop]. unfold give_access.
  vmod V. vmod V. vstep V. vmod V. vstep V. vmod V. vend V.
  eapply view_inv; [exact V| |].
  - apply (table_inv_first ps hs i h); (done || lia || by right).
  - intros k Hk. assert (k = j) as -> by congruence. rewrite list_alter_alter.
    by apply (live_after _ _ p).
Qed.

Lemma keeps_set_unwritable i : (i < SHMEM)%nat -> keeps_inv (shmem_set_unwritable i).
Proof.
  intros Hi s H. destruct (running_inv_view me s H) as (ps & hs & V & Ht & Hl).
  destruct (page_exists _ _ i Ht Hi) as [h Hh]. unfold shmem_set_unwritable.
  vstep V. rewrite kbind_gets, (view_shmem _ _ _ _ _ _ V Hh).
  destruct (sh_state h =? NOT_SET) eqn:E; [cbn [negb]|done].
  eapply post_bind; [by apply post_curproc_view|]. clear V. intros j s2 [V Hj].
  destruct (Hl j Hj) as (p & Hp & Hlive). vstep V.
  eapply post_bind; [by apply post_claim|]. clear V. intros _ s4 [V Htop]. unfold give_access.
  vmod V. vmod V. vstep V. vmod V. vmod V. vend V.
  eapply view_inv; [exact V| |].
  - apply (table_inv_first ps hs i h); (done || lia || by left).
  - intros k Hk. assert (k = j) as -> by congruence. rewrite list_alter_alter.
    by apply (live_after _ _ p).
Qed.

Lemma table_inv_page ps hs i f :
  table_inv ps hs ->
  (forall h, hs !! i = Some h -> page_ok ps i h -> page_ok ps i (f h)) -> table_inv ps (alter f i hs).
Proof.
  intros H Hf. apply table_inv_iff in H as (H1 & H2 & H3 & H4). apply table_inv_iff.
  rewrite length_alter. do 3 (split; [done|]). intros k h Hh. destruct (decide (k = i)) as [->|Hne].
  - rewrite list_lookup_alter_eq in Hh. destruct (hs !! i) as [g|] eqn:E; [|done].
    injection Hh as <-. apply Hf; [done|]. by apply H4.
  - rewrite list_lookup_alter_ne in Hh by done. by apply H4.
Qed.

(** Claiming a page nobody uses. *)
Lemma table_inv_claim ps hs i h top :
  table_inv ps hs -> hs !! i = Some h -> sh_state h = NOT_SET ->
  table_inv ps (alter (claimed top) i hs).
Proof.
  intros H Hh Hns. apply table_inv_page; [done|]. intros g Hg (Hc & Hst & Hset & Hgr).
  assert (g = h) as -> by congruence. unfold claimed.
  destruct (sh_using_top_pid h =? -1); [|done]. split; [done|]. split; [done|]. split; [done|].
  intros j p Hp Hu. rewrite Hset in Hns. rewrite Hc in Hns.
  by rewrite (count_zero_none _ _ _ _ Hns Hp) in Hu.
Qed.

Lemma keeps_set_init_int i index v : (i < SHMEM)%nat -> keeps_inv (shmem_set_init_int i index v).
Proof.
  intros Hi s H. destruct (running_inv_view me s H) as (ps & hs & V & Ht & Hl).
  destruct (page_exists _ _ i Ht Hi) as [h Hh]. unfold shmem_set_init_int.
  vstep V. rewrite kbind_gets, (view_shmem _ _ _ _ _ _ V Hh).
  destruct (sh_state h =? NOT_SET) eqn:E; [cbn [negb]|done].
  eapply post_bind; [by apply post_curproc_view|]. clear V. intros j s2 [V Hj].
  destruct (Hl j Hj) as (p & Hp & Hlive). vstep V.
  eapply post_bind; [by apply post_claim|]. clear V. intros _ s4 [V _]. vstep V.
  unfold store_int. vstep V. vend V. eapply view_inv; [exact V| |done].
  apply (table_inv_claim _ _ _ h); (done || lia).
Qed.

Lemma keeps_write_int i index v : keeps_inv (shmem_write_int i index v).
Proof. unfold shmem_write_int, store_int. keeps_auto. Qed.

Lemma keeps_read_int i index : keeps_inv (shmem_read_int i index).
Proof. unfold shmem_read_int, load_int. keeps_auto. Qed.

Lemma keeps_acquire_access i : (i < SHMEM)%nat -> keeps_inv (shmem_acquire_access i).
Proof.
  intros Hi s H. destruct (running_inv_view me s H) as (ps & hs & V & Ht & Hl).
  destruct (page_exists _ _ i Ht Hi) as [h Hh]. unfold shmem_acquire_access.
  vstep V. rewrite kbind_gets, (view_shmem _ _ _ _ _ _ V Hh).
  destruct (sh_state h =? NOT_SET) eqn:E; [vend V; by eapply view_inv|].
  eapply post_bind; [by apply post_curproc_view|]. clear V. intros j s2 [V Hj].
  destruct (Hl j Hj) as (p & Hp & Hlive). vstep V. rewrite !kbind_gets.
  rewrite (view_shmem _ _ _ _ _ _ V Hh), (view_proc _ _ _ _ _ _ V Hp).
  destruct (nth i (p_shmem_access p) false) eqn:Ea; [done|cbn [negb]].
  destruct (p_top_pid p =? sh_using_top_pid h) eqn:Et; [cbn [negb]|done]. unfold give_access.
  vmod V. vmod V. vstep V. vend V. eapply view_inv; [exact V| |].
  - apply (table_inv_gain _ _ _ _ p); [done|done|done|done| |].
    + unfold uses, has_access. by rewrite Ea, andb_false_r.
    + intros g Hg. assert (g = h) as -> by congruence. cbn. split; [lia|].
      destruct (inv_state _ _ Ht i h Hh) as [?|?]; [lia|]. split; [done|]. lia.
  - intros k Hk. assert (k = j) as -> by congruence. by apply (live_after _ _ p).
Qed.

(** Dropping access, in the nested form of the code. *)
Lemma table_inv_drop ps hs i h j p :
  table_inv ps hs -> hs !! i = Some h -> ps !! j = Some p -> uses i p = true ->
  table_inv (alter (access_set i false) j ps) (alter page_left i hs).
Proof.
  intros H Hh Hp Hu. pose proof (inv_flags _ _ H j p Hp) as Hlen.
  assert (i < SHMEM)%nat as Hi by (rewrite <- (inv_pages _ _ H); by eapply lookup_lt_Some).
  apply (table_inv_lose _ _ _ _ p); [done|done|done| |cbn; by rewrite length_insert|done|].
  - by rewrite uses_access_set, decide_True, andb_false_r.
  - intros k Hne Hk. by rewrite uses_access_set, decide_False.
Qed.

Lemma keeps_release_access i : (i < SHMEM)%nat -> keeps_inv (shmem_release_access i).
Proof.
  intros Hi s H. destruct (running_inv_view me s H) as (ps & hs & V & Ht & Hl).
  destruct (page_exists _ _ i Ht Hi) as [h Hh]. unfold shmem_release_access.
  vstep V. rewrite kbind_gets, (view_shmem _ _ _ _ _ _ V Hh).
  destruct (sh_state h =? NOT_SET); [done|]. destruct (sh_numberofusers h =? 0); [done|].
  destruct (sh_numberofusers h <? 0); [done|].
  eapply post_bind; [by apply post_curproc_view|]. clear V. intros j s2 [V Hj].
  destruct (Hl j Hj) as (p & Hp & Hlive). vstep V. rewrite kbind_gets.
  rewrite (view_proc _ _ _ _ _ _ V Hp). destruct (nth i (p_shmem_access p) false) eqn:Ea; [|done].
  assert (uses i p = true) as Hu by (unfold uses, has_access; by rewrite Hlive, Ea).
  assert (forall k, me = Some k -> exists q, alter (access_set i false) j ps !! k = Some q /\
    live q = true) as Hl'.
  { intros k Hk. assert (k = j) as -> by congruence. by apply (live_after _ _ p). }
  pose proof (table_inv_drop _ _ _ _ _ _ Ht Hh Hp Hu) as Ht'.
  vmod V. vmod V. rewrite kbind_gets.
  assert (alter users_sub i hs !! i = Some (users_sub h)) as Hh' by (by rewrite list_lookup_alter_eq, Hh).
  rewrite (view_shmem _ _ _ _ _ _ V Hh'). cbn [users_sub sh_numberofusers set_sh_numberofusers].
  destruct (sh_numberofusers h - 1 =? 0) eqn:Ez.
  - apply (post_bind _ _ (fun _ => view (alter (access_set i false) j ps)
      (alter (set_sh_using_top_pid (-1)) i (alter (set_sh_state NOT_SET) i (alter users_sub i hs)))
      me)).
    { vmod V. unfold do_memset. vstep V. vstep V. by apply view_upd_shmem. }
    clear V. intros _ s5 V. vstep V. vend V. eapply view_inv; [exact V| |exact Hl'].
    rewrite !list_alter_alter. rewrite (list_alter_ext' _ page_left hs i); [exact Ht'|]. intros x Hx.
    assert (x = h) as -> by congruence. unfold page_left. by rewrite Ez.
  - rewrite kbind_ret. vstep V. vend V. eapply view_inv; [exact V| |exact Hl'].
    rewrite (list_alter_ext' _ page_left hs i); [exact Ht'|]. intros x Hx. assert (x = h) as -> by congruence.
    unfold page_left. by rewrite Ez.
Qed.

Lemma keeps_find_pid pid : keeps_inv (find_pid pid).
Proof. unfold find_pid. keeps_auto. Qed.

Lemma keeps_get_access i pid : keeps_inv (get_shmem_access i pid).
Proof.
  unfold get_shmem_access, find_pid. apply keeps_bind; [keeps_auto|intros r].
  apply keeps_bind; [keeps_auto|]. intros [p|]; [|keeps_auto].
  assert (keeps_inv (modify (upd_proc p count_up))) as Hup.
  { apply keeps_modify. intros s. by apply running_as_same. }
  unfold count_up in Hup. keeps_auto.
Qed.
End Ops.
