(* ===== verification/ProcInv.v ===== *)
(** Process creation and exit keep the shared-memory invariant: fork() gives
    the child its parent's pages, exit() gives up those of the process, and
    wait() and a failing fork() free only processes that use none. *)
From S2P Require Import Prelude Riscv Machine Spinlock KString Kalloc Vm Sched Keeps FsIface.
From S2P Require Import File Proc Shmem ShmemInv.

(** Running one command that keeps what is known of a slot, and one that updates
    it. *)
Ltac slot_step H :=
  lazymatch type of H with
  | ?J ?s =>
      lazymatch goal with
      | |- post ?I ?R ?Q (kbind ?c ?k s) =>
          apply (post_bind I R (fun _ => J) Q c k s);
          [ let K := fresh in assert (keeps I R J c) as K by keeps_auto; exact (K s H)
          | cbn beta; clear H; let s' := fresh "s" in intros ? s' H ]
      end
  end.

Ltac slot_mod lem H :=
  lazymatch goal with
  | |- post _ _ _ (kbind (modify (upd_proc ?j ?f)) _ ?s) =>
      rewrite kbind_modify; apply (lem f) in H; [|done];
      let t := fresh "s" in set (t := upd_proc j f s) in H |- *; clearbody t
  end.

Section ProcInv.
Context {F : Type} `{L : Layout} `{Fuel0 : Fuel} `{Fs : !FsOps F} `{!FsKeeps Fs}.
Implicit Types s : kstate F.
Abbreviation KM := (K (kstate F)).
Abbreviation keeps_inv me := (keeps (F := F) shmem_inv (resumed me) (running_as me)).

(** [running_inv] for the current process [me], with another slot [np] that
    satisfies [P]. *)
Definition slot_inv (me : option nat) (P : proc -> Prop) (np : nat) s : Prop :=
  running_as me s /\ me <> Some np /\ exists q, k_procs s !! np = Some q /\ P q.

#[export] Instance slot_inv_low me P np : StableLow (slot_inv me P np).
Proof.
  split; try (intros ? s H; exact H).
  intros f s Hf (H & Hc & Hq). split; [by apply stable_cpu|done].
Qed.

Lemma slot_inv_mono me (P Q : proc -> Prop) np s :
  (forall q, P q -> Q q) -> slot_inv me P np s -> slot_inv me Q np s.
Proof. intros H (? & ? & q & ? & ?). split; [done|]. split; [done|]. eauto. Qed.

Lemma slot_running me P np s : slot_inv me P np s -> running_as me s.
Proof. by intros (? & _). Qed.

Definition unshared (q : proc) : Prop := forall i, uses i q = false.

Lemma uses_unused q : live q = false -> unshared q.
Proof. intros H i. unfold uses. by rewrite H. Qed.

Lemma cur_live_upd np f s : cur s <> Some np -> cur_live s -> cur_live (upd_proc np f s).
Proof.
  intros Hc Hl j Hj. destruct (Hl j Hj) as (p & Hp & Hlive). exists p. split; [|done]. cbn.
  change (cur s = Some j) in Hj. rewrite list_lookup_alter_ne; [done|congruence].
Qed.

(** An update of the slot that leaves it without shared pages. *)
Lemma slot_upd me (P Q : proc -> Prop) np f s :
  slot_inv me P np s ->
  (forall q, P q -> length (p_shmem_access q) = SHMEM ->
     unshared q /\ unshared (f q) /\ length (p_shmem_access (f q)) = SHMEM /\ Q (f q)) ->
  slot_inv me Q np (upd_proc np f s).
Proof.
  intros ([[H Hl] Hc] & Hne & q & Hq & HP) Hf.
  destruct (Hf q HP (inv_flags _ _ H np q Hq)) as (Hu & Hu' & Hlen & HQ).
  split; [split; [split|done]|split; [done|]].
  - apply table_inv_proc; [done|]. intros p Hp. assert (p = q) as -> by congruence.
    split; [done|]. intros i. by rewrite Hu, Hu'.
  - apply cur_live_upd; [congruence|done].
  - exists (f q). cbn. by rewrite list_lookup_alter_eq, Hq.
Qed.

(** Fields that have no part in the invariant. *)
Lemma slot_field me (P : proc -> Prop) np f s :
  slot_inv me P np s ->
  (forall q, P q -> unshared q /\ P (f q) /\ live (f q) = live q /\
     p_shmem_access (f q) = p_shmem_access q) ->
  slot_inv me P np (upd_proc np f s).
Proof.
  intros H Hf. apply (slot_upd me P); [done|]. intros q HP Hlen. destruct (Hf q HP) as (Hu & HP' & Hl & Ha).
  split; [done|]. rewrite Ha. split; [|done]. intros i. unfold uses, has_access. rewrite Hl, Ha.
  apply Hu.
Qed.

(** ** freeproc, allocproc *)

Lemma keeps_proc_pagetable I R (J : kstate F -> Prop) `{!StableLow J} p : keeps I R J (proc_pagetable p).
Proof. unfold proc_pagetable. keeps_auto. Qed.

Lemma keeps_proc_freepagetable I R (J : kstate F -> Prop) `{!StableLow J} pt sz : keeps I R J (proc_freepagetable pt sz).
Proof. unfold proc_freepagetable. keeps_auto. Qed.
#[local] Hint Resolve keeps_proc_pagetable keeps_proc_freepagetable : keeps.

Lemma post_freeproc I R me np s :
  slot_inv me unshared np s ->
  post I R (fun _ => slot_inv me (fun q => p_state q = UNUSED) np) (freeproc np s).
Proof.
  intros H. unfold freeproc. rewrite kbind_gets.
  apply (post_bind _ _ (fun _ => slot_inv me unshared np)).
  { destruct (negb _); [|done]. by apply keeps_kfree; [apply slot_inv_low|]. }
  intros _ s1 H1. rewrite kbind_modify, kbind_gets.
  apply (slot_field _ _ _ (set_p_trapframe 0)) in H1; [|done].
  apply (post_bind _ _ (fun _ => slot_inv me unshared np)).
  { destruct (negb _); [|done]. by apply keeps_proc_freepagetable; [apply slot_inv_low|]. }
  intros _ s2 H2. apply (slot_upd me unshared); [done|]. intros q Hq Hlen.
  split; [done|]. split; [by apply uses_unused|]. done.
Qed.

(** allocproc()'s search: an UNUSED slot. *)
Lemma post_allocproc_find I R me s :
  running_as me s ->
  post I R (fun r s' => match r with
                        | Some np => slot_inv me (fun q => p_state q = UNUSED) np s'
                        | None => running_as me s'
                        end) (allocproc_find s).
Proof.
  intros H. apply post_for_find; [done|]. intros j s1 Hj H1.
  eapply post_bind; [by apply (keeps_acquire I R (running_as me))|]. cbn beta. intros _ s2 [[H2 Hl2] Hc2].
  rewrite kbind_gets. case_bool_decide as E.
  - destruct (lookup_lt_is_Some_2 (k_procs s2) j) as [q Hq]; [rewrite (inv_procs _ _ H2); lia|].
    apply get_proc_lookup in Hq as Eq. rewrite Eq in E. split; [done|]. split; [|by exists q].
    intros Hc. destruct (Hl2 j) as (p & Hp & Hlive); [congruence|]. assert (p = q) as -> by congruence.
    unfold live in Hlive. by rewrite E in Hlive.
  - eapply post_bind; [by apply (keeps_release I R (running_as me))|]. done.
Qed.

(** The slot allocproc() returns: in use, with no access to any shared page. *)
Definition fresh (q : proc) : Prop :=
  p_state q = USED /\ p_shmem_access q = replicate SHMEM false.

Lemma fresh_unshared q : fresh q -> unshared q.
Proof.
  intros [_ H] i. unfold uses, has_access. rewrite H. destruct (live q); [cbn|done].
  do 5 (destruct i as [|i]; [done|]). done.
Qed.

Lemma fresh_set me np f s :
  slot_inv me fresh np s ->
  (forall q, p_state (f q) = p_state q /\ p_shmem_access (f q) = p_shmem_access q) ->
  slot_inv me fresh np (upd_proc np f s).
Proof.
  intros Hs Hf. apply slot_field; [done|]. intros q Hq. destruct (Hf q) as [E1 E2].
  split; [by apply fresh_unshared|]. unfold fresh, live. by rewrite E1, E2.
Qed.

Definition alloc_reset (pid : Z) (q : proc) : proc :=
  drop_access 3 (drop_access 2 (drop_access 1 (drop_access 0
    (set_p_shmem_access_count 0 (set_p_state USED (set_p_pid pid q)))))).

Lemma alloc_reset_fresh pid q : length (p_shmem_access q) = SHMEM -> fresh (alloc_reset pid q).
Proof.
  intros H. split; [done|]. cbn. unfold SHMEM in H.
  destruct (p_shmem_access q) as [|a [|b [|c [|d [|e l]]]]]; simplify_eq/=; done.
Qed.

Lemma keeps_allocpid I R (J : kstate F -> Prop) `{!StableLow J} : keeps I R J allocpid.
Proof. unfold allocpid. keeps_auto. Qed.

Lemma post_allocproc I R me s :
  running_as me s ->
  post I R (fun r s' => match r with
                        | Some np => slot_inv me fresh np s'
                        | None => running_as me s'
                        end) (allocproc s).
Proof.
  intros H. unfold allocproc. eapply post_bind; [by apply post_allocproc_find|].
  intros [np|] s1 H1; [|done].
  eapply post_bind; [apply keeps_allocpid, H1; apply slot_inv_low|]. cbn beta. intros pid s2 H2.
  rewrite !kbind_modify.
  rewrite (kbind_Ret _ _ _ tt (upd_proc np (alloc_reset pid) s2)).
  2:{ cbn [for_ SHMEM]. unfold kbind, modify, ret. cbn [obind]. rewrite !upd_proc_upd. done. }
  apply (slot_upd _ _ fresh _ (alloc_reset pid)) in H2.
  2:{ intros q Hq Hlen. pose proof (alloc_reset_fresh pid q Hlen) as Hf. split.
      { apply uses_unused. unfold live. by rewrite Hq. }
      split; [by apply fresh_unshared|]. split; [|done]. destruct Hf as [_ ->]. done. }
  eapply post_bind; [apply keeps_kalloc, H2; apply slot_inv_low|]. cbn beta. intros tf s3 H3.
  rewrite kbind_modify. apply (slot_field _ _ _ (set_p_trapframe tf)) in H3;
    [|intros q Hq; split; [by apply fresh_unshared|done]].
  assert (forall s, slot_inv me fresh np s -> post I R (fun r s' => match r with
            | Some np => slot_inv me fresh np s' | None => running_as me s' end)
            ((freeproc np ;; release (L_proc np) ;; ret None) s)) as Hbad.
  { intros s0 H0. eapply post_bind.
    { apply post_freeproc. by apply (slot_inv_mono me fresh); [apply fresh_unshared|]. }
    cbn beta. intros _ s5 H5%slot_running.
    eapply post_bind; [by apply (keeps_release I R (running_as me))|]. done. }
  destruct (tf =? 0); [by apply Hbad|].
  eapply post_bind; [apply keeps_proc_pagetable, H3; apply slot_inv_low|]. cbn beta. intros pt s4 H4.
  rewrite kbind_modify. apply (slot_field _ _ _ (set_p_pagetable pt)) in H4;
    [|intros q Hq; split; [by apply fresh_unshared|done]].
  destruct (pt =? 0); [by apply Hbad|]. rewrite kbind_modify.
  apply slot_field; [done|]. intros q Hq. split; [by apply fresh_unshared|done].
Qed.

(** ** fork *)

(** The child [np] of [p], once it has its parent's group and access to some of
    the first [k] pages. *)
Definition share_inv (p np k : nat) s : Prop :=
  running_as (Some p) s /\ np <> p /\
  exists q r, k_procs s !! np = Some q /\ k_procs s !! p = Some r /\ live q = true /\
    p_top_pid q = p_top_pid r /\ forall i, (k <= i)%nat -> has_access i q = false.

#[export] Instance share_inv_low p np k : StableLow (share_inv p np k).
Proof.
  split; try (intros ? s H; exact H).
  intros f s Hf (H & Hq). split; [by apply stable_cpu|done].
Qed.

Lemma fresh_no_access q i : fresh q -> has_access i q = false.
Proof.
  intros [_ E]. unfold has_access. rewrite E. do 5 (destruct i as [|i]; [done|]). done.
Qed.

(** np->top_pid = p->top_pid *)
Lemma share_start p np s :
  slot_inv (Some p) fresh np s ->
  share_inv p np 0 (upd_proc np (set_p_top_pid (p_top_pid (get_proc p s))) s).
Proof.
  intros H. pose proof H as (([_ Hl] & Hc) & Hne & q & Hq & Hf).
  destruct (Hl p Hc) as (r & Hr & _). assert (np <> p) as Hnp by congruence.
  apply (slot_field _ _ _ (set_p_top_pid (p_top_pid (get_proc p s)))) in H as H';
    [|intros x Hx; split; [by apply fresh_unshared|done]].
  split; [by apply slot_running in H'|]. split; [done|].
  exists (set_p_top_pid (p_top_pid (get_proc p s)) q), r.
  rewrite (get_proc_lookup _ _ _ Hr). cbn.
  rewrite list_lookup_alter_eq, list_lookup_alter_ne, Hq by done. split; [done|]. split; [done|].
  split; [destruct Hf as [E _]; unfold live; cbn; by rewrite E|]. split; [done|].
  intros i _. by apply (fresh_no_access q).
Qed.

(** Any other field of the child. *)
Lemma share_field p np k f s :
  share_inv p np k s -> (forall q, live q = true -> same_use q (f q)) ->
  share_inv p np k (upd_proc np f s).
Proof.
  intros (([H Hl] & Hc) & Hne & q & r & Hq & Hr & Hlive & Htop & Hacc) Hf.
  pose proof (Hf q Hlive) as (Hl' & Ha' & Ht').
  split; [split; [split|done]|split; [done|]].
  - apply table_inv_same; [done|]. intros x Hx. assert (x = q) as -> by congruence. by apply Hf.
  - apply cur_live_upd; [congruence|done].
  - exists (f q), r. cbn. rewrite list_lookup_alter_eq, list_lookup_alter_ne, Hq by done.
    split; [done|]. split; [done|]. split; [congruence|]. split; [congruence|].
    intros i Hi. unfold has_access. rewrite Ha'. by apply Hacc.
Qed.

Lemma share_step I R p np k s :
  (k < SHMEM)%nat -> share_inv p np k s ->
  post I R (fun _ => share_inv p np (S k)) (fork_share p np k s).
Proof.
  intros Hk (([H Hl] & Hc) & Hne & q & r & Hq & Hr & Hlive & Htop & Hacc).
  pose proof (inv_flags _ _ H np q Hq) as Hlen.
  destruct (Hl p Hc) as (r' & Hr' & Hlr). assert (r' = r) as -> by congruence.
  assert (forall a hs, table_inv (alter (access_set k a) np (k_procs s)) hs ->
    share_inv p np (S k) (set_k_shmem hs (upd_proc np (access_set k a) s))) as Hdone.
  { intros a hs Ht. split; [split; [split|done]|split; [done|]].
    - done.
    - apply (cur_live_upd np (access_set k a) s); [congruence|done].
    - exists (access_set k a q), r. cbn [k_procs set_k_shmem upd_proc set_k_procs]. rewrite list_lookup_alter_eq, list_lookup_alter_ne, Hq by done.
      do 4 (split; [done|]). intros i Hi. unfold access_set. rewrite has_access_set by done.
      case_decide; [lia|]. apply Hacc. lia. }
  unfold fork_share. rewrite kbind_gets, kbind_modify, (get_proc_lookup _ _ _ Hr).
  fold (has_access k r). destruct (has_access k r) eqn:Ea.
  - apply (Hdone true). apply (table_inv_gain _ _ _ _ q); [done|done|done|done| |].
    + unfold uses. by rewrite Hacc, andb_false_r.
    + intros h Hh. assert (uses k r = true) as Hu by (unfold uses; by rewrite Hlr, Ea).
      pose proof (inv_group _ _ H k h p r Hh Hr Hu) as Hg.
      pose proof (count_pos (uses k) _ _ _ Hr Hu) as Hpos. pose proof (inv_count _ _ H k h Hh) as Hcn.
      split; [done|]. cbn. split; [|split; [congruence|right; congruence]].
      destruct (inv_state _ _ H k h Hh) as [E|E]; [|done].
      apply (inv_set _ _ H k h Hh) in E. lia.
  - change (share_inv p np (S k) (set_k_shmem (k_shmem s) (upd_proc np (access_set k false) s))).
    apply Hdone. apply table_inv_proc; [done|]. intros x Hx. assert (x = q) as -> by congruence.
    split; [cbn; by rewrite length_insert|]. intros i. split; [|done].
    rewrite uses_access_set by done. case_decide; [|done]. subst. unfold uses. by rewrite Hacc.
Qed.

Lemma keeps_fork_dup I R p np i :
  keeps I R (slot_inv (Some p) fresh np) (fork_dup p np i).
Proof.
  unfold fork_dup. apply keeps_bind; [keeps_auto|]. intros [f|]; [|keeps_auto].
  apply keeps_bind; [keeps_auto|]. intros f'. apply keeps_modify. intros s H.
  apply slot_field; [done|]. intros q Hq. split; [by apply fresh_unshared|done].
Qed.

Lemma post_fork_share I R p np s :
  share_inv p np 0 s -> post I R (fun _ => share_inv p np SHMEM) (for_ 0 SHMEM (fork_share p np) s).
Proof.
  intros H. unfold SHMEM at 2. cbn [for_].
  do 4 (eapply post_bind; [apply share_step; [unfold SHMEM; lia|eassumption]|];
        clear H; cbn beta; let s' := fresh "s" in intros _ s' H; clear s; rename s' into s).
  done.
Qed.

Lemma keeps_fork me : keeps_inv me fork.
Proof.
  intros s H. unfold fork, do_memmove, tf_set, the_inode. eapply post_bind; [exact (post_curproc _ _ (running_as me) s H)|].
  intros p s1 (H1 & Hc1 & _). assert (me = Some p) as -> by (destruct H1; congruence). eapply post_bind; [by apply (post_allocproc _ _ (Some p))|].
  clear H. intros [np|] s2 H; [|apply H]. rewrite !kbind_gets. slot_step H.
  destruct (a <? 0).
  { eapply post_bind.
    - apply (post_freeproc _ _ (Some p)). by apply (slot_inv_mono _ fresh); [apply fresh_unshared|].
    - cbn beta. intros _ s4 H4%slot_running. slot_step H4. apply H4. }
  slot_mod (fresh_set (Some p) np) H. slot_step H. slot_step H.
  eapply post_bind; [apply (keeps_for _ _ (slot_inv (Some p) fresh np)), H; intros; apply keeps_fork_dup|].
  cbn beta. clear H. intros _ s7 H. rewrite kbind_gets. slot_step H. slot_step H.
  slot_mod (fresh_set (Some p) np) H. rewrite kbind_gets. slot_mod (fresh_set (Some p) np) H. rewrite kbind_gets. slot_step H. slot_step H.
  slot_mod (fresh_set (Some p) np) H. rewrite kbind_gets, kbind_modify. apply share_start in H. slot_step H. slot_step H. rewrite kbind_modify.
  apply (share_field _ _ _ (set_p_state RUNNABLE)) in H; [|done].
  eapply post_bind; [by apply post_fork_share|]. clear H. cbn beta. intros _ s20 H.
  slot_step H. apply H.
Qed.

(** ** exit *)

Lemma keeps_exit_close p fd :
  keeps_inv (Some p) (exit_close p fd).
Proof.
  unfold exit_close. apply keeps_bind; [keeps_auto|]. intros [f|]; [|keeps_auto].
  apply keeps_bind; [keeps_auto|]. intros _. apply keeps_modify. intros s. by apply running_as_same.
Qed.

Lemma keeps_reparent I R me p : keeps (F := F) I R (running_as me) (reparent p).
Proof.
  apply keeps_for. intros pp. unfold reparent_one. apply keeps_bind; [keeps_auto|intros par].
  destruct (bool_decide _); [|keeps_auto]. apply keeps_bind; [keeps_auto|intros init].
  apply keeps_bind; [|intros _; keeps_auto]. apply keeps_modify. intros s. by apply running_as_same.
Qed.

(** The process with its access to the first [k] pages given up. *)
Definition drop_below (k : nat) (q : proc) : proc :=
  set_p_shmem_access (replicate k false ++ drop k (p_shmem_access q)) q.

Lemma drop_below_S k q :
  (k < SHMEM)%nat -> length (p_shmem_access q) = SHMEM ->
  access_set k false (drop_below k q) = drop_below (S k) q.
Proof.
  intros Hk Hlen. unfold access_set, drop_below, set_p_shmem_access, SHMEM in *. cbn. f_equal.
  destruct (p_shmem_access q) as [|a [|b [|c [|d [|e l]]]]]; simplify_eq/=.
  do 4 (destruct k as [|k]; [done|]). lia.
Qed.

Lemma drop_below_access k q :
  length (p_shmem_access q) = SHMEM -> (k < SHMEM)%nat ->
  has_access k (drop_below k q) = has_access k q /\ length (p_shmem_access (drop_below k q)) = SHMEM.
Proof.
  intros Hlen Hk. unfold has_access, drop_below, SHMEM in *. cbn.
  destruct (p_shmem_access q) as [|a [|b [|c [|d [|e l]]]]]; simplify_eq/=.
  do 4 (destruct k as [|k]; [done|]). lia.
Qed.

(** In exit()'s loop the user counts are those of the processes as they will be
    once this one is a zombie. *)
Definition exit_inv (p k : nat) s : Prop :=
  cur s = Some p /\ exists q, k_procs s !! p = Some q /\ live q = true /\
    length (p_shmem_access q) = SHMEM /\
    table_inv (alter (drop_below k) p (k_procs s)) (k_shmem s).

#[export] Instance exit_inv_low p k : StableLow (exit_inv p k).
Proof.
  split; try (intros ? s H; exact H).
  intros f s Hf (Hc & Hq). split; [by rewrite cur_upd_cpu|done].
Qed.

Lemma table_inv_reset ps hs k h :
  table_inv ps hs -> hs !! k = Some h -> sh_numberofusers h = 0 ->
  table_inv ps (alter (set_sh_using_top_pid (-1)) k (alter (set_sh_state NOT_SET) k hs)).
Proof.
  intros H Hh Hz. rewrite list_alter_alter. apply table_inv_page; [done|].
  intros g Hg (Hc & Hst & Hset & Hgr). assert (g = h) as -> by congruence.
  split; [done|]. split; [by left|]. split; [done|]. intros j p Hp Hu. cbn in *.
  rewrite Hz in Hc. symmetry in Hc. by rewrite (count_zero_none _ _ _ _ Hc Hp) in Hu.
Qed.

(** One iteration of the loop. *)
Lemma exit_step I R p k s :
  (k < SHMEM)%nat -> exit_inv p k s -> post I R (fun _ => exit_inv p (S k)) (exit_unshare p k s).
Proof.
  intros Hk H. unfold exit_unshare. slot_step H. rewrite kbind_gets.
  pose proof H as (Hc & q & Hq & Hlive & Hlen & Ht).
  destruct (drop_below_access k q Hlen Hk) as [Hacc Hlen'].
  destruct (page_exists _ _ k Ht Hk) as [h Hh].
  set (ps := alter (drop_below k) p (k_procs s0)) in *.
  assert (ps !! p = Some (drop_below k q)) as Hqk by (unfold ps; by rewrite list_lookup_alter_eq, Hq).
  assert (alter (access_set k false) p ps = alter (drop_below (S k)) p (k_procs s0)) as Eps.
  { unfold ps. rewrite list_alter_alter. apply list_alter_ext'. intros x Hx.
    assert (x = q) as -> by congruence. by apply drop_below_S. }
  assert (forall s1 hs, k_procs s1 = k_procs s0 -> k_shmem s1 = hs -> cur s1 = Some p ->
    table_inv (alter (access_set k false) p ps) hs ->
    post I R (fun _ => exit_inv p (S k)) (release (L_shstate k) s1)) as Hdone.
  { intros s1 hs E1 E2 Hc1 Ht1. apply (keeps_release I R (exit_inv p (S k))). split; [done|].
    exists q. rewrite E1, E2, <- Eps. done. }
  rewrite (get_proc_lookup _ _ _ Hq). fold (has_access k q).
  assert (get_shmem k s0 = h) as Eh by (unfold get_shmem; by rewrite Hh).
  destruct (has_access k q) eqn:Ea.
  - assert (uses k (drop_below k q) = true) as Hu.
    { unfold uses. rewrite Hacc. change (live (drop_below k q)) with (live q). by rewrite Hlive. }
    assert (table_inv (alter (access_set k false) p ps) (alter page_left k (k_shmem s0))) as Ht'
      by (by apply (table_inv_drop _ _ k h p (drop_below k q))).
    pose proof (inv_group _ _ Ht k h p _ Hh Hqk Hu) as Hg. cbn in Hg.
    rewrite kbind_modify, kbind_gets, kbind_gets.
    change (fun h => set_sh_numberofusers (sh_numberofusers h - 1) h) with users_sub.
    assert (get_shmem k (upd_shmem k users_sub s0) = users_sub h) as ->.
    { unfold get_shmem. cbn. by rewrite list_lookup_alter_eq, Hh. }
    assert (get_proc p (upd_shmem k users_sub s0) = q) as -> by (by apply get_proc_lookup).
    cbn [users_sub sh_numberofusers set_sh_numberofusers sh_using_top_pid]. rewrite Hg, Z.eqb_refl.
    rewrite (list_alter_ext' page_left (if sh_numberofusers h - 1 =? 0
      then set_sh_using_top_pid (-1) ∘ set_sh_state NOT_SET ∘ users_sub else users_sub)) in Ht'.
    2:{ intros x Hx. assert (x = h) as -> by congruence. unfold page_left.
        by destruct (sh_numberofusers h - 1 =? 0). }
    destruct (sh_numberofusers h - 1 =? 0); cbn [andb].
    + unfold do_memset. rewrite kbind_modify3.
      eapply Hdone; [reflexivity|reflexivity|exact Hc|]. cbn. by rewrite !list_alter_alter.
    + rewrite kbind_ret. by eapply Hdone; [reflexivity|reflexivity|exact Hc|].
  - assert (table_inv (alter (access_set k false) p ps) (k_shmem s0)) as Ht'.
    { apply table_inv_proc; [done|]. intros x Hx. assert (x = drop_below k q) as -> by congruence.
      split; [cbn; rewrite length_insert; apply Hlen'|]. intros i. split; [|done].
      rewrite uses_access_set by done. case_decide; [subst|done]. unfold uses. by rewrite Hacc. }
    rewrite kbind_ret, !kbind_gets, Eh, (get_proc_lookup _ _ _ Hq).
    destruct (sh_numberofusers h =? 0) eqn:Ez; [destruct (sh_using_top_pid h =? p_top_pid q)|]; cbn [andb];
      [|by rewrite kbind_ret; eapply Hdone; [reflexivity|reflexivity|exact Hc|]..].
    unfold do_memset. rewrite kbind_modify3.
    eapply Hdone; [reflexivity|reflexivity|exact Hc|]. cbn. apply (table_inv_reset _ _ _ h); [done|done|lia].
Qed.

Lemma post_exit_unshare I R p s :
  exit_inv p 0 s -> post I R (fun _ => exit_inv p SHMEM) (for_ 0 SHMEM (exit_unshare p) s).
Proof.
  intros H. unfold SHMEM at 2. cbn [for_].
  do 4 (eapply post_bind; [apply exit_step; [unfold SHMEM; lia|eassumption]|];
        clear H; cbn beta; let s' := fresh "s" in intros _ s' H; clear s; rename s' into s).
  done.
Qed.

Lemma exit_start p s : running_as (Some p) s -> exit_inv p 0 s.
Proof.
  intros [[H Hl] Hc]. split; [done|]. destruct (Hl p Hc) as (q & Hq & Hlive). exists q.
  split; [done|]. split; [done|]. split; [by apply (inv_flags _ _ H p)|].
  rewrite list_alter_id'; [done|]. intros x _. unfold drop_below. cbn. by destruct x.
Qed.

Lemma exit_zombie p v s :
  exit_inv p SHMEM s -> shmem_inv (upd_proc p (set_p_state ZOMBIE) (upd_proc p (set_p_xstate v) s)).
Proof.
  intros (Hc & q & Hq & Hlive & Hlen & Ht). unfold shmem_inv. cbn. rewrite list_alter_alter.
  set (z := set_p_state ZOMBIE (set_p_xstate v q)).
  assert (alter (set_p_state ZOMBIE ∘ set_p_xstate v) p (k_procs s) =
    alter (fun _ => z) p (alter (drop_below SHMEM) p (k_procs s))) as ->.
  { rewrite list_alter_alter. apply list_alter_ext'. intros x Hx. by assert (x = q) as -> by congruence. }
  apply table_inv_proc; [done|]. intros x Hx. rewrite list_lookup_alter_eq, Hq in Hx.
  injection Hx as <-. split; [done|]. intros i.
  assert (uses i (drop_below SHMEM q) = false) as ->.
  { unfold uses, has_access, drop_below. cbn [p_shmem_access set_p_shmem_access]. rewrite drop_ge, app_nil_r by lia.
    do 5 (destruct i as [|i]; [apply andb_false_r|]). apply andb_false_r. }
  done.
Qed.

#[export] Instance shmem_inv_low : StableLow (F := F) shmem_inv.
Proof. by split. Qed.

Lemma keeps_sched_any R : keeps shmem_inv R (shmem_inv (F := F)) sched.
Proof.
  assert (keeps shmem_inv R (shmem_inv (F := F)) swtch) as Hs by (intros s H; by split).
  unfold sched, mycpu, intr_get. keeps_auto.
Qed.

(** exit() does not return; it leaves the process table, with the process a
    zombie, to the scheduler. *)
Lemma post_exit me status s :
  running_as me s -> post shmem_inv (resumed me) (fun _ _ => False) (exit status s).
Proof.
  intros H. unfold exit. eapply post_bind; [exact (post_myproc _ _ (running_as me) s H)|].
  clear H. intros r s1 (H & Hc & _). rewrite kbind_gets. destruct (bool_decide _); [done|].
  destruct r as [p|]; [|done].
  assert (me = Some p) as -> by (destruct H; congruence).
  eapply post_bind.
  { apply (keeps_for shmem_inv (resumed (Some p)) (running_as (Some p))), H.
    intros; apply keeps_exit_close. }
  cbn beta. clear H. intros _ s2 H. slot_step H. rewrite kbind_gets. unfold the_inode.
  slot_step H. slot_step H. slot_step H. rewrite kbind_modify.
  apply (running_as_same (Some p) p (set_p_cwd None)) in H; [|done]. slot_step H.
  eapply post_bind; [apply keeps_reparent, H|]. cbn beta. clear H. intros _ s7 H.
  rewrite kbind_gets. slot_step H. slot_step H. apply exit_start in H.
  eapply post_bind; [by apply post_exit_unshare|]. cbn beta. clear H. intros _ s10 H.
  rewrite !kbind_modify. apply (exit_zombie p status) in H.
  eapply post_bind; [apply (keeps_release shmem_inv (resumed (Some p)) shmem_inv), H|]. cbn beta.
  intros _ s11 H11. eapply post_bind; [apply keeps_sched_any, H11|]. done.
Qed.

(** ** wait, growproc *)

Lemma zombie_unshared q : p_state q = ZOMBIE -> unshared q.
Proof. intros H. apply uses_unused. unfold live. by rewrite H. Qed.

Lemma keeps_wait_scan me p addr pp n hk :
  keeps_inv me (wait_scan p addr pp n hk).
Proof.
  revert pp hk. induction n as [|n IH]; intros pp hk; cbn [wait_scan]; [keeps_auto|].
  apply keeps_bind; [keeps_auto|intros par]. destruct (bool_decide _); [|apply IH].
  apply keeps_bind; [keeps_auto|intros _]. intros s H. rewrite kbind_gets.
  case_bool_decide as E; [|by apply keeps_bind; [keeps_auto|intros _; apply IH|]].
  assert (slot_inv me (fun q => p_state q = ZOMBIE) pp s) as H1.
  { split; [done|]. destruct H as [[Hi Hl] Hc]. split.
    - intros ->. destruct (Hl pp Hc) as (q & Hq & Hlive). rewrite (get_proc_lookup _ _ _ Hq) in E.
      unfold live in Hlive. by rewrite E in Hlive.
    - unfold get_proc in E. destruct (k_procs s !! pp) as [q|]; [by exists q|done]. }
  clear H. rename H1 into H. slot_step H. destruct (a <? 0).
  { slot_step H. slot_step H. apply H. }
  eapply post_bind.
  { apply (post_freeproc _ _ me). by apply (slot_inv_mono _ (fun q => p_state q = ZOMBIE)); [apply zombie_unshared|]. }
  cbn beta. clear H. intros _ s2 H. slot_step H. slot_step H. apply H.
Qed.

Lemma keeps_wait me addr : keeps_inv me (wait addr).
Proof.
  assert (forall k p, keeps_inv me (wait_loop k p addr)) as Hloop.
  { induction k as [|k IH]; intros p; cbn [wait_loop]; [keeps_auto|].
    apply keeps_bind; [apply keeps_wait_scan|]. intros [r|hk]; keeps_auto. }
  unfold wait. keeps_auto.
Qed.

Lemma keeps_growproc me n : keeps_inv me (growproc n).
Proof.
  assert (forall p v, keeps_inv me (modify (upd_proc p (set_p_sz v)))) as Hsz.
  { intros p v. apply keeps_modify. intros s. by apply running_as_same. }
  unfold growproc. keeps_auto.
Qed.
End ProcInv.
