(* ===== verification/ShmemSpec.v ===== *)
(** What each shared-memory operation returns and does, on every branch, when
    the locks it takes are free. *)
From S2P Require Import Prelude Riscv Machine Spinlock KString Kalloc Vm Sched Keeps FsIface.
From S2P Require Import File Proc Shmem ShmemInv.

Section Spec.
Context {F : Type} `{L : Layout}.
Implicit Types s : kstate F.
Abbreviation KM := (K (kstate F)).

(** ** Nested critical sections *)

Lemma acquire_inner A B s :
  cpu_ok s -> lock_free B s -> A <> B -> acquire B (hold A s) = Ret tt (hold B (hold A s)).
Proof. intros Hok Hl Hne. apply acquire_free; [by apply cpu_ok_hold|by apply lock_free_hold]. Qed.

Lemma release_inner A B s :
  cpu_ok s -> lock_free B s -> A <> B -> release B (hold B (hold A s)) = Ret tt (hold A s).
Proof.
  intros Hok Hl Hne. rewrite release_hold, settle_hold; [done|done|by apply cpu_ok_hold|].
  by apply lock_free_hold.
Qed.

Lemma hold_upd_shmem l i f s : upd_shmem i f (hold l s) = hold l (upd_shmem i f s).
Proof. kst. Qed.

Lemma hold_mem l f s : upd_mem f (hold l s) = hold l (upd_mem f s).
Proof. kst. Qed.

(** A lock made free, with a new name. *)
Definition set_lock (l : lockid) (name : option string) s : kstate F :=
  set_k_locks (<[l := mkspinlock false name None]> (k_locks s)) s.

Lemma initlock_spec l n s : initlock l n s = Ret tt (set_lock l (Some n) s).
Proof. done. Qed.

Lemma hold_set_lock l l' n s : l <> l' -> set_lock l' n (hold l s) = hold l (set_lock l' n s).
Proof.
  intros Hne. apply kstate_ext; try reflexivity. cbn. unfold get_lock. cbn.
  rewrite lookup_insert_ne by done. by rewrite insert_insert_ne by done.
Qed.

(** ** The state an operation on page [i] by process [p] starts from *)
Record ready (p i : nat) s : Prop := {
  ready_cpu : cpu_ok s;
  ready_cur : cur s = Some p;
  ready_plock : lock_free (L_proc p) s;
  ready_slock : lock_free (L_shstate i) s;
  ready_proc : (p < length (k_procs s))%nat;
  ready_page : (i < length (k_shmem s))%nat
}.

Abbreviation state_of i s := (sh_state (get_shmem i s)).
Abbreviation users_of i s := (sh_numberofusers (get_shmem i s)).
Abbreviation group_of i s := (sh_using_top_pid (get_shmem i s)).
Abbreviation top_of p s := (p_top_pid (get_proc p s)).

Lemma upd_shmem_upd i f g s : upd_shmem i f (upd_shmem i g s) = upd_shmem i (f ∘ g) s.
Proof. unfold upd_shmem, set_k_shmem. cbn. by rewrite list_alter_alter. Qed.

Lemma upd_shmem_ext i f g s : f (get_shmem i s) = g (get_shmem i s) -> upd_shmem i f s = upd_shmem i g s.
Proof.
  intros H. unfold upd_shmem. f_equal. apply list_alter_ext'. intros x Hx.
  unfold get_shmem in H. by rewrite Hx in H.
Qed.

Lemma upd_shmem_id i f s : f (get_shmem i s) = get_shmem i s -> upd_shmem i f s = s.
Proof.
  intros H. unfold upd_shmem. rewrite list_alter_id'; [by destruct s|]. intros x Hx.
  unfold get_shmem in H. by rewrite Hx in H.
Qed.

(** claim_top_pid() inside the two critical sections. *)
Lemma claim_free A B i p s :
  group_of i s = -1 \/ group_of i s = top_of p s ->
  claim_top_pid i p (hold B (hold A s)) =
    Ret tt (hold B (hold A (upd_shmem i (claimed (top_of p s)) s))).
Proof.
  intros H. unfold claim_top_pid. rewrite !kbind_gets.
  assert (get_shmem i (hold B (hold A s)) = get_shmem i s) as -> by done.
  assert (get_proc p (hold B (hold A s)) = get_proc p s) as -> by done.
  destruct (group_of i s =? -1) eqn:E.
  - unfold modify. rewrite !hold_upd_shmem. do 3 f_equal. apply upd_shmem_ext.
    unfold claimed. by rewrite E.
  - destruct (group_of i s =? top_of p s) eqn:E'; [|lia]. cbn [negb]. unfold ret.
    rewrite (upd_shmem_id i (claimed _)); [done|]. unfold claimed. by rewrite E.
Qed.

Lemma claim_other A B i p s :
  group_of i s <> -1 -> group_of i s <> top_of p s ->
  claim_top_pid i p (hold B (hold A s)) =
    Panic "shmem is already used by other process" (hold B (hold A s)).
Proof.
  intros H1 H2. unfold claim_top_pid. rewrite !kbind_gets.
  assert (get_shmem i (hold B (hold A s)) = get_shmem i s) as -> by done.
  assert (get_proc p (hold B (hold A s)) = get_proc p s) as -> by done.
  destruct (group_of i s =? -1) eqn:E; [lia|]. by destruct (group_of i s =? top_of p s) eqn:E'; [lia|].
Qed.

(** What the setters do to the page and the process. *)
Definition set_page (st : Z) (p i : nat) s : kstate F :=
  upd_shmem i (set_sh_state st ∘ users_add 1 ∘ claimed (top_of p s))
    (upd_proc p (count_up ∘ access_set i true) s).

(** The common opening of the setters. *)
Lemma setter_opening p i s (k : nat -> KM unit) :
  ready p i s -> state_of i s = NOT_SET -> (group_of i s = -1 \/ group_of i s = top_of p s) ->
  (acquire (L_shstate i) ;;
   st <- gets (fun s => sh_state (get_shmem i s)) ;;
   if negb (st =? NOT_SET) then panic "shmem state is already set" else
   q <- curproc ;; acquire (L_proc q) ;; claim_top_pid i q ;; k q) s =
  k p (hold (L_proc p) (hold (L_shstate i) (upd_shmem i (claimed (top_of p s)) s))).
Proof.
  intros [Hok Hc Hpl Hsl Hp Hi] Hst Hg.
  rewrite (kbind_Ret _ _ _ _ _ (acquire_free _ s Hok Hsl)), kbind_gets.
  assert (get_shmem i (hold (L_shstate i) s) = get_shmem i s) as -> by done.
  rewrite Hst, Z.eqb_refl. cbn [negb].
  rewrite (kbind_Ret _ _ _ _ _ (curproc_hold _ s p Hok Hc)).
  rewrite (kbind_Ret _ _ _ _ _ (acquire_inner (L_shstate i) (L_proc p) s Hok Hpl ltac:(done))).
  by rewrite (kbind_Ret _ _ _ _ _ (claim_free _ _ i p s Hg)).
Qed.

Lemma set_unwritable_spec p i s :
  ready p i s -> state_of i s = NOT_SET -> (group_of i s = -1 \/ group_of i s = top_of p s) ->
  shmem_set_unwritable i s = Ret tt (settle (set_page UNWRITABLE p i s)).
Proof.
  intros Hr Hst Hg. unfold shmem_set_unwritable, give_access.
  rewrite (setter_opening p) by done. destruct Hr as [Hok Hc Hpl Hsl Hp Hi].
  set (s1 := upd_shmem i (claimed (top_of p s)) s).
  rewrite !kbind_modify, !hold_upd_proc, upd_proc_upd.
  change ((fun q => set_p_shmem_access_count (p_shmem_access_count q + 1) q) ∘ _)
    with (count_up ∘ access_set i true).
  rewrite (kbind_Ret _ _ _ _ _ (release_inner (L_shstate i) (L_proc p)
    (upd_proc p (count_up ∘ access_set i true) s1) Hok Hpl ltac:(done))).
  rewrite !kbind_modify, !hold_upd_shmem, upd_shmem_upd.
  rewrite release_hold; [|exact Hok|exact Hsl]. do 2 f_equal. unfold set_page, s1.
  apply kstate_ext; try reflexivity. cbn. by rewrite list_alter_alter.
Qed.

Lemma set_writable_spec p i s :
  ready p i s -> state_of i s = NOT_SET -> (group_of i s = -1 \/ group_of i s = top_of p s) ->
  shmem_set_writable i s =
    Ret tt (settle (set_lock (L_shmem i) (Some ("shmem_" +:+ digit i)) (set_page WRITABLE p i s))).
Proof.
  intros Hr Hst Hg. unfold shmem_set_writable, give_access.
  rewrite (setter_opening p) by done. destruct Hr as [Hok Hc Hpl Hsl Hp Hi].
  set (s1 := upd_shmem i (claimed (top_of p s)) s).
  rewrite !kbind_modify, !hold_upd_proc, upd_proc_upd.
  change ((fun q => set_p_shmem_access_count (p_shmem_access_count q + 1) q) ∘ _)
    with (count_up ∘ access_set i true).
  rewrite (kbind_Ret _ _ _ _ _ (release_inner (L_shstate i) (L_proc p)
    (upd_proc p (count_up ∘ access_set i true) s1) Hok Hpl ltac:(done))).
  rewrite kbind_modify, hold_upd_shmem, (kbind_Ret _ _ _ _ _ (initlock_spec _ _ _)).
  rewrite hold_set_lock, kbind_modify, hold_upd_shmem by done.
  rewrite release_hold; [|exact Hok|].
  - do 2 f_equal. unfold set_page, s1. apply kstate_ext; try reflexivity. cbn.
    by rewrite !list_alter_alter.
  - destruct Hsl as [n Hn]. exists n. cbn. by rewrite lookup_insert_ne.
Qed.

(** A store to the page. *)
Definition poke (i : nat) (index v : Z) s : kstate F :=
  upd_mem (fun m => st32 m (int_addr (get_shmem i s) index) v) s.

Lemma poke_spec i index v s : store_int i index v s = Ret tt (poke i index v s).
Proof. done. Qed.

Lemma hold_poke l i index v s : poke i index v (hold l s) = hold l (poke i index v s).
Proof. kst. Qed.

Lemma set_init_int_spec p i index v s :
  ready p i s -> state_of i s = NOT_SET -> (group_of i s = -1 \/ group_of i s = top_of p s) ->
  shmem_set_init_int i index v s =
    Ret tt (settle (poke i index v (upd_shmem i (claimed (top_of p s)) s))).
Proof.
  intros Hr Hst Hg. unfold shmem_set_init_int. rewrite (setter_opening p) by done.
  destruct Hr as [Hok Hc Hpl Hsl Hp Hi]. set (s1 := upd_shmem i (claimed (top_of p s)) s).
  rewrite (kbind_Ret _ _ _ _ _ (release_inner (L_shstate i) (L_proc p) s1 Hok Hpl ltac:(done))).
  rewrite (kbind_Ret _ _ _ _ _ (poke_spec _ _ _ _)), hold_poke.
  by apply release_hold.
Qed.

(** The setters on a page that is set, or that another group has claimed. *)
Lemma setter_set i s (k : KM unit) :
  cpu_ok s -> lock_free (L_shstate i) s -> state_of i s <> NOT_SET ->
  (acquire (L_shstate i) ;;
   st <- gets (fun s => sh_state (get_shmem i s)) ;;
   if negb (st =? NOT_SET) then panic "shmem state is already set" else k) s =
  Panic "shmem state is already set" (hold (L_shstate i) s).
Proof.
  intros Hok Hl Hst. rewrite (kbind_Ret _ _ _ _ _ (acquire_free _ s Hok Hl)), kbind_gets.
  assert (get_shmem i (hold (L_shstate i) s) = get_shmem i s) as -> by done.
  by destruct (state_of i s =? NOT_SET) eqn:E; [lia|].
Qed.

Lemma setter_other p i s (k : nat -> KM unit) :
  ready p i s -> state_of i s = NOT_SET -> group_of i s <> -1 -> group_of i s <> top_of p s ->
  (acquire (L_shstate i) ;;
   st <- gets (fun s => sh_state (get_shmem i s)) ;;
   if negb (st =? NOT_SET) then panic "shmem state is already set" else
   q <- curproc ;; acquire (L_proc q) ;; claim_top_pid i q ;; k q) s =
  Panic "shmem is already used by other process" (hold (L_proc p) (hold (L_shstate i) s)).
Proof.
  intros [Hok Hc Hpl Hsl Hp Hi] Hst H1 H2.
  rewrite (kbind_Ret _ _ _ _ _ (acquire_free _ s Hok Hsl)), kbind_gets.
  assert (get_shmem i (hold (L_shstate i) s) = get_shmem i s) as -> by done.
  rewrite Hst, Z.eqb_refl. cbn [negb].
  rewrite (kbind_Ret _ _ _ _ _ (curproc_hold _ s p Hok Hc)).
  rewrite (kbind_Ret _ _ _ _ _ (acquire_inner (L_shstate i) (L_proc p) s Hok Hpl ltac:(done))).
  by rewrite (kbind_Panic _ _ _ _ _ (claim_other _ _ i p s H1 H2)).
Qed.

(** ** Reading and writing *)

Definition may_use (p i : nat) s : Prop := has_access i (get_proc p s) = true.

Lemma settle_poke i index v s : settle (poke i index v s) = poke i index v (settle s).
Proof. done. Qed.

Lemma write_int_spec p i index v s :
  ready p i s -> lock_free (L_shmem i) s -> state_of i s = WRITABLE -> may_use p i s ->
  shmem_write_int i index v s = Ret tt (settle (poke i index v s)).
Proof.
  intros [Hok Hc Hpl Hsl Hp Hi] Hml Hst Ha. unfold shmem_write_int.
  rewrite kbind_gets, Hst, Z.eqb_refl. cbn [negb].
  rewrite (kbind_Ret _ _ _ _ _ (curproc_spec s p Hok Hc)).
  rewrite (kbind_Ret _ _ _ _ _ (acquire_free (L_proc p) _ (cpu_ok_settle s Hok) Hpl)), hold_settle, kbind_gets.
  assert (get_proc p (hold (L_proc p) s) = get_proc p s) as -> by done.
  unfold may_use, has_access in Ha. rewrite Ha. cbn [negb].
  rewrite (kbind_Ret _ _ _ _ _ (release_hold (L_proc p) s Hok Hpl)).
  rewrite (kbind_Ret _ _ _ _ _ (acquire_free (L_shmem i) _ (cpu_ok_settle s Hok) Hml)), hold_settle.
  rewrite (kbind_Ret _ _ _ _ _ (poke_spec _ _ _ _)), hold_poke. by apply release_hold.
Qed.

Definition peek (i : nat) (index : Z) s : Z := s32 (ld32 (k_mem s) (int_addr (get_shmem i s) index)).

Lemma read_int_spec p i index s :
  ready p i s -> lock_free (L_shmem i) s -> may_use p i s ->
  state_of i s = UNWRITABLE \/ state_of i s = WRITABLE ->
  shmem_read_int i index s = Ret (peek i index s) (settle s).
Proof.
  intros [Hok Hc Hpl Hsl Hp Hi] Hml Ha Hst. unfold shmem_read_int. rewrite kbind_gets.
  destruct (state_of i s =? NOT_SET) eqn:E; [lia|].
  rewrite (kbind_Ret _ _ _ _ _ (curproc_spec s p Hok Hc)), kbind_gets.
  assert (get_proc p (settle s) = get_proc p s) as -> by done.
  unfold may_use, has_access in Ha. rewrite Ha. cbn [negb]. rewrite kbind_gets.
  assert (get_shmem i (settle s) = get_shmem i s) as -> by done.
  destruct (state_of i s =? UNWRITABLE) eqn:E1; [done|].
  destruct (state_of i s =? WRITABLE) eqn:E2; [|lia].
  rewrite (kbind_Ret _ _ _ _ _ (acquire_free (L_shmem i) _ (cpu_ok_settle s Hok) Hml)), hold_settle.
  unfold load_int. rewrite kbind_gets.
  by rewrite (kbind_Ret _ _ _ _ _ (release_hold (L_shmem i) s Hok Hml)).
Qed.

(** Without access a process can neither read nor write. *)
Lemma write_int_denied p i index v s :
  ready p i s -> state_of i s = WRITABLE -> ~ may_use p i s ->
  shmem_write_int i index v s =
    Panic "The process don't have access to this shmem page" (hold (L_proc p) s).
Proof.
  intros [Hok Hc Hpl Hsl Hp Hi] Hst Ha. unfold shmem_write_int.
  rewrite kbind_gets, Hst, Z.eqb_refl. cbn [negb].
  rewrite (kbind_Ret _ _ _ _ _ (curproc_spec s p Hok Hc)).
  rewrite (kbind_Ret _ _ _ _ _ (acquire_free (L_proc p) _ (cpu_ok_settle s Hok) Hpl)), hold_settle, kbind_gets.
  assert (get_proc p (hold (L_proc p) s) = get_proc p s) as -> by done.
  unfold may_use, has_access in Ha. by destruct (nth i _ _).
Qed.

Lemma read_int_denied p i index s :
  ready p i s -> state_of i s <> NOT_SET -> ~ may_use p i s ->
  shmem_read_int i index s = Panic "The process don't have access to this shmem page" (settle s).
Proof.
  intros [Hok Hc Hpl Hsl Hp Hi] Hst Ha. unfold shmem_read_int. rewrite kbind_gets.
  destruct (state_of i s =? NOT_SET) eqn:E; [lia|].
  rewrite (kbind_Ret _ _ _ _ _ (curproc_spec s p Hok Hc)), kbind_gets.
  assert (get_proc p (settle s) = get_proc p s) as -> by done.
  unfold may_use, has_access in Ha. by destruct (nth i _ _).
Qed.

Lemma write_int_not_writable i index v s :
  state_of i s <> WRITABLE ->
  shmem_write_int i index v s = Panic ("shmem_" +:+ digit i +:+ "_lock") s.
Proof.
  intros H. unfold shmem_write_int. rewrite kbind_gets.
  by destruct (state_of i s =? WRITABLE) eqn:E; [lia|].
Qed.

(** ** Gaining and giving up access *)

Lemma acquire_access_spec p i s :
  ready p i s -> state_of i s <> NOT_SET -> ~ may_use p i s -> top_of p s = group_of i s ->
  shmem_acquire_access i s =
    Ret true (settle (upd_shmem i (users_add 1) (upd_proc p (access_set i true) s))).
Proof.
  intros [Hok Hc Hpl Hsl Hp Hi] Hst Ha Htop. unfold shmem_acquire_access, give_access.
  rewrite (kbind_Ret _ _ _ _ _ (acquire_free _ s Hok Hsl)), kbind_gets.
  assert (get_shmem i (hold (L_shstate i) s) = get_shmem i s) as -> by done.
  destruct (state_of i s =? NOT_SET) eqn:E; [lia|].
  rewrite (kbind_Ret _ _ _ _ _ (curproc_hold _ s p Hok Hc)).
  rewrite (kbind_Ret _ _ _ _ _ (acquire_inner (L_shstate i) (L_proc p) s Hok Hpl ltac:(done))), !kbind_gets.
  assert (get_proc p (hold (L_proc p) (hold (L_shstate i) s)) = get_proc p s) as -> by done.
  assert (get_shmem i (hold (L_proc p) (hold (L_shstate i) s)) = get_shmem i s) as -> by done.
  unfold may_use, has_access in Ha. destruct (nth i _ _); [done|]. cbn [negb].
  rewrite Htop, Z.eqb_refl. cbn [negb].
  rewrite !kbind_modify, !hold_upd_proc, !hold_upd_shmem.
  set (s1 := upd_shmem i _ _).
  rewrite (kbind_Ret _ _ _ _ _ (release_inner (L_shstate i) (L_proc p) s1 Hok Hpl ltac:(done))).
  by rewrite (kbind_Ret _ _ _ _ _ (release_hold (L_shstate i) s1 Hok Hsl)).
Qed.

Lemma acquire_access_unset i s :
  cpu_ok s -> lock_free (L_shstate i) s -> state_of i s = NOT_SET ->
  shmem_acquire_access i s = Ret false (settle s).
Proof.
  intros Hok Hl Hst. unfold shmem_acquire_access.
  rewrite (kbind_Ret _ _ _ _ _ (acquire_free _ s Hok Hl)), kbind_gets.
  assert (get_shmem i (hold (L_shstate i) s) = get_shmem i s) as -> by done.
  rewrite Hst, Z.eqb_refl. by rewrite (kbind_Ret _ _ _ _ _ (release_hold _ s Hok Hl)).
Qed.

Lemma acquire_access_other p i s :
  ready p i s -> state_of i s <> NOT_SET -> ~ may_use p i s -> top_of p s <> group_of i s ->
  shmem_acquire_access i s = Panic "This shmem page already have access to other process"
    (hold (L_proc p) (hold (L_shstate i) s)).
Proof.
  intros [Hok Hc Hpl Hsl Hp Hi] Hst Ha Htop. unfold shmem_acquire_access, give_access.
  rewrite (kbind_Ret _ _ _ _ _ (acquire_free _ s Hok Hsl)), kbind_gets.
  assert (get_shmem i (hold (L_shstate i) s) = get_shmem i s) as -> by done.
  destruct (state_of i s =? NOT_SET) eqn:E; [lia|].
  rewrite (kbind_Ret _ _ _ _ _ (curproc_hold _ s p Hok Hc)).
  rewrite (kbind_Ret _ _ _ _ _ (acquire_inner (L_shstate i) (L_proc p) s Hok Hpl ltac:(done))), !kbind_gets.
  assert (get_proc p (hold (L_proc p) (hold (L_shstate i) s)) = get_proc p s) as -> by done.
  assert (get_shmem i (hold (L_proc p) (hold (L_shstate i) s)) = get_shmem i s) as -> by done.
  unfold may_use, has_access in Ha. destruct (nth i _ _); [done|]. cbn [negb].
  by destruct (top_of p s =? group_of i s) eqn:Et; [lia|].
Qed.

Lemma acquire_access_twice p i s :
  ready p i s -> state_of i s <> NOT_SET -> may_use p i s ->
  shmem_acquire_access i s = Panic "The process already have access to this shmem page"
    (hold (L_proc p) (hold (L_shstate i) s)).
Proof.
  intros [Hok Hc Hpl Hsl Hp Hi] Hst Ha. unfold shmem_acquire_access, give_access.
  rewrite (kbind_Ret _ _ _ _ _ (acquire_free _ s Hok Hsl)), kbind_gets.
  assert (get_shmem i (hold (L_shstate i) s) = get_shmem i s) as -> by done.
  destruct (state_of i s =? NOT_SET) eqn:E; [lia|].
  rewrite (kbind_Ret _ _ _ _ _ (curproc_hold _ s p Hok Hc)).
  rewrite (kbind_Ret _ _ _ _ _ (acquire_inner (L_shstate i) (L_proc p) s Hok Hpl ltac:(done))), !kbind_gets.
  assert (get_proc p (hold (L_proc p) (hold (L_shstate i) s)) = get_proc p s) as -> by done.
  unfold may_use, has_access in Ha. by rewrite Ha.
Qed.

Lemma read_int_unset i index s :
  state_of i s = NOT_SET -> shmem_read_int i index s = Panic ("shmem_" +:+ digit i +:+ "_lock") s.
Proof. intros H. unfold shmem_read_int. by rewrite kbind_gets, H, Z.eqb_refl. Qed.

Lemma release_access_unset i s :
  cpu_ok s -> lock_free (L_shstate i) s -> state_of i s = NOT_SET ->
  shmem_release_access i s = Panic "shmem state is not set" (hold (L_shstate i) s).
Proof.
  intros Hok Hl Hst. unfold shmem_release_access.
  rewrite (kbind_Ret _ _ _ _ _ (acquire_free _ s Hok Hl)), kbind_gets.
  assert (get_shmem i (hold (L_shstate i) s) = get_shmem i s) as -> by done.
  by rewrite Hst, Z.eqb_refl.
Qed.

Lemma release_access_denied p i s :
  ready p i s -> state_of i s <> NOT_SET -> 0 < users_of i s -> ~ may_use p i s ->
  shmem_release_access i s = Panic "The process don't have access to this shmem page"
    (hold (L_proc p) (hold (L_shstate i) s)).
Proof.
  intros [Hok Hc Hpl Hsl Hp Hi] Hst Hu Ha. unfold shmem_release_access.
  rewrite (kbind_Ret _ _ _ _ _ (acquire_free _ s Hok Hsl)), kbind_gets.
  assert (get_shmem i (hold (L_shstate i) s) = get_shmem i s) as -> by done.
  destruct (state_of i s =? NOT_SET) eqn:E; [lia|]. destruct (users_of i s =? 0) eqn:E0; [lia|].
  destruct (users_of i s <? 0) eqn:E1; [lia|].
  rewrite (kbind_Ret _ _ _ _ _ (curproc_hold _ s p Hok Hc)).
  rewrite (kbind_Ret _ _ _ _ _ (acquire_inner (L_shstate i) (L_proc p) s Hok Hpl ltac:(done))), kbind_gets.
  assert (get_proc p (hold (L_proc p) (hold (L_shstate i) s)) = get_proc p s) as -> by done.
  unfold may_use, has_access in Ha. by destruct (nth i _ _).
Qed.

(** The state after the last user has left. *)
Definition wipe (i : nat) s : kstate F :=
  upd_shmem i (set_sh_using_top_pid (-1))
    (clear_lock_name (L_shmem i)
       (upd_mem (fun m => memset m (sh_PHADDR (get_shmem i s)) 0 PGSIZE)
          (upd_shmem i (set_sh_state NOT_SET) s))).

Definition leave (p i : nat) s : kstate F :=
  let s := upd_shmem i users_sub (upd_proc p (access_set i false) s) in
  if users_of i s =? 0 then wipe i s else s.

Lemma hold_clear_name l l' s : l <> l' -> clear_lock_name l' (hold l s) = hold l (clear_lock_name l' s).
Proof.
  intros Hne. apply kstate_ext; try reflexivity. cbn. unfold get_lock. cbn.
  rewrite !lookup_insert_ne by done. by rewrite insert_insert_ne by done.
Qed.

Lemma hold_wipe l i s : l <> L_shmem i -> wipe i (hold l s) = hold l (wipe i s).
Proof.
  intros Hne. unfold wipe. rewrite hold_upd_shmem, hold_mem, hold_clear_name, hold_upd_shmem by done. done.
Qed.

Lemma lock_free_wipe l i s : l <> L_shmem i -> lock_free l s -> lock_free l (wipe i s).
Proof. intros Hne [n Hn]. exists n. cbn. by rewrite lookup_insert_ne. Qed.

Lemma release_access_spec p i s :
  ready p i s -> state_of i s <> NOT_SET -> 0 < users_of i s -> may_use p i s ->
  shmem_release_access i s = Ret tt (settle (leave p i s)).
Proof.
  intros [Hok Hc Hpl Hsl Hp Hi] Hst Hu Ha. unfold shmem_release_access.
  rewrite (kbind_Ret _ _ _ _ _ (acquire_free _ s Hok Hsl)), kbind_gets.
  assert (get_shmem i (hold (L_shstate i) s) = get_shmem i s) as -> by done.
  destruct (state_of i s =? NOT_SET) eqn:E; [lia|]. destruct (users_of i s =? 0) eqn:E0; [lia|].
  destruct (users_of i s <? 0) eqn:E1; [lia|].
  rewrite (kbind_Ret _ _ _ _ _ (curproc_hold _ s p Hok Hc)).
  rewrite (kbind_Ret _ _ _ _ _ (acquire_inner (L_shstate i) (L_proc p) s Hok Hpl ltac:(done))), !kbind_gets.
  assert (get_proc p (hold (L_proc p) (hold (L_shstate i) s)) = get_proc p s) as -> by done.
  unfold may_use, has_access in Ha. rewrite Ha, !kbind_modify, kbind_gets, !hold_upd_proc, !hold_upd_shmem.
  fold users_sub (access_set i false). unfold leave. set (s1 := upd_shmem i users_sub _).
  assert (get_shmem i (hold (L_proc p) (hold (L_shstate i) s1)) = get_shmem i s1) as -> by done.
  assert (forall s2, cpu_ok s2 -> lock_free (L_proc p) s2 -> lock_free (L_shstate i) s2 ->
    (release (L_proc p) ;; release (L_shstate i)) (hold (L_proc p) (hold (L_shstate i) s2)) =
    Ret tt (settle s2)) as Hrel.
  { intros s2 Hok2 Hpl2 Hsl2.
    rewrite (kbind_Ret _ _ _ _ _ (release_inner (L_shstate i) (L_proc p) s2 Hok2 Hpl2 ltac:(done))).
    by apply release_hold. }
  destruct (users_of i s1 =? 0).
  - rewrite (kbind_Ret _ _ _ tt (hold (L_proc p) (hold (L_shstate i) (wipe i s1)))).
    + apply Hrel; [exact Hok|by apply lock_free_wipe|by apply lock_free_wipe].
    + rewrite <- !hold_wipe by done. done.
  - rewrite kbind_ret. by apply Hrel.
Qed.
End Spec.

Section Properties.
Context {F : Type} `{L : Layout} `{!LayoutOk L}.
Implicit Types s : kstate F.

(** The page [i] is a page of RAM of its own. *)
Definition page_mapped (i : nat) s : Prop :=
  is_page (sh_PHADDR (get_shmem i s)).

Lemma int_addr_in i index s :
  page_mapped i s -> 0 <= index < 1024 ->
  int_addr (get_shmem i s) index = sh_PHADDR (get_shmem i s) + 4 * index.
Proof.
  intros Hm Hx. unfold int_addr. apply is_page_bounds in Hm. unfold PGSIZE, KERNBASE, PHYSTOP in *.
  apply u64_small. unfold KERNBASE in *. lia.
Qed.

Lemma peek_poke i index index' v s :
  page_mapped i s -> 0 <= index < 1024 -> 0 <= index' < 1024 ->
  peek i index' (poke i index v s) = if decide (index' = index) then s32 v else peek i index' s.
Proof.
  intros Hm Hx Hx'. unfold peek, poke.
  assert (get_shmem i (upd_mem (fun m => st32 m (int_addr (get_shmem i s) index) v) s) = get_shmem i s)
    as -> by done.
  cbn [k_mem upd_mem set_k_mem]. rewrite !int_addr_in by done. case_decide as E.
  - subst. rewrite ld_st_same. change (2 ^ (8 * Z.of_nat 4)) with (2 ^ 32). apply s32_u32.
  - rewrite ld_st_disj; [done|]. lia.
Qed.
End Properties.

(** A value written to a word of a shared page is the value any user of the
    page reads back: shmem_write_int() followed by shmem_read_int() of the same
    index returns the value (as a 32-bit int), and of any other index of the
    page what it held before; neither returns anything but normally. *)
Theorem write_read_int {F} `{L : Layout} `{!LayoutOk L} (s : kstate F) p i index index' v :
  ready p i s -> lock_free (L_shmem i) s -> page_mapped i s -> may_use p i s ->
  sh_state (get_shmem i s) = WRITABLE -> 0 <= index < 1024 -> 0 <= index' < 1024 ->
  exists s', shmem_write_int i index v s = Ret tt s' /\
    shmem_read_int i index' s' =
      Ret (if decide (index' = index) then s32 v else peek i index' s) (settle s').
Proof.
  intros Hr Hl Hm Ha Hst Hx Hx'. exists (settle (poke i index v s)). split; [by eapply write_int_spec|].
  assert (ready p i (settle (poke i index v s))) as Hr'.
  { destruct Hr as [Hok Hc Hpl Hsl Hp Hi]. split; [by apply (cpu_ok_settle (poke i index v s))| |done..].
    by rewrite cur_settle. }
  rewrite (read_int_spec p); [|done|done|done|by right].
  f_equal. by apply (peek_poke i index index' v s).
Qed.

(** Giving up access: a user that is not the last one only leaves the page
    (its flag is cleared and the count drops by one); when the last user leaves,
    the page goes back to NOT_SET, belongs to no group, and all of its bytes are
    zero. *)
Theorem release_access_effect {F} `{L : Layout} `{!LayoutOk L} (s : kstate F) p i :
  ready p i s -> may_use p i s -> sh_state (get_shmem i s) <> NOT_SET ->
  0 < sh_numberofusers (get_shmem i s) ->
  exists s', shmem_release_access i s = Ret tt s' /\
    sh_numberofusers (get_shmem i s') = sh_numberofusers (get_shmem i s) - 1 /\
    get_proc p s' = access_set i false (get_proc p s) /\
    if decide (sh_numberofusers (get_shmem i s) = 1)
    then sh_state (get_shmem i s') = NOT_SET /\ sh_using_top_pid (get_shmem i s') = -1 /\
         forall x, sh_PHADDR (get_shmem i s) <= x < sh_PHADDR (get_shmem i s) + PGSIZE ->
           ld8 (k_mem s') x = 0
    else sh_state (get_shmem i s') = sh_state (get_shmem i s) /\
         sh_using_top_pid (get_shmem i s') = sh_using_top_pid (get_shmem i s) /\ k_mem s' = k_mem s.
Proof.
  intros Hr Ha Hst Hu. exists (settle (leave p i s)). split; [by apply release_access_spec|].
  pose proof (ready_page _ _ _ Hr) as Hi. pose proof (ready_proc _ _ _ Hr) as Hp.
  set (s1 := upd_shmem i users_sub (upd_proc p (access_set i false) s)).
  assert (get_shmem i s1 = users_sub (get_shmem i s)) as E1.
  { unfold s1. rewrite get_shmem_upd by done. by rewrite decide_True. }
  assert (get_proc p s1 = access_set i false (get_proc p s)) as E2.
  { transitivity (get_proc p (upd_proc p (access_set i false) s)); [done|].
    rewrite get_proc_upd by done. by rewrite decide_True. }
  unfold leave. fold s1. rewrite E1. cbn [users_sub sh_numberofusers set_sh_numberofusers].
  destruct (sh_numberofusers (get_shmem i s) - 1 =? 0) eqn:E; case_decide; try lia.
  - assert (get_shmem i (settle (wipe i s1)) =
      set_sh_using_top_pid (-1) (set_sh_state NOT_SET (users_sub (get_shmem i s)))) as ->.
    { transitivity (get_shmem i (upd_shmem i (set_sh_using_top_pid (-1)) (upd_shmem i (set_sh_state NOT_SET) s1)));
        [done|]. rewrite upd_shmem_upd, get_shmem_upd by (unfold s1; cbn; by rewrite length_alter).
      by rewrite decide_True, E1 by done. }
    split; [done|]. split; [done|]. split; [done|]. split; [done|].
    intros x Hx. change (k_mem (settle (wipe i s1))) with (memset (k_mem s) (sh_PHADDR (get_shmem i s1)) 0 PGSIZE).
    rewrite E1. cbn [users_sub sh_PHADDR set_sh_numberofusers].
    by rewrite ld8_memset, decide_True by (done || unfold PGSIZE; lia).
  - change (get_shmem i (settle s1)) with (get_shmem i s1). rewrite E1. done.
Qed.
