(* ===== verification/ShmemRefine.v ===== *)
(** An abstract specification of one shared page — who may use it, how, and what
    it holds — and the proof that the shared-memory operations of kernel/proc.c
    implement it.

    The concrete state spreads a page over struct shmem, the access flags of the
    process table and physical memory; [abs] gathers it. An abstract operation
    is a partial function: where it is undefined the kernel panics. *)
From S2P Require Import Prelude Riscv Machine Spinlock KString Kalloc Vm Sched Keeps FsIface.
From S2P Require Import File Proc Shmem ShmemInv ShmemSpec.

(** ** Specification *)

Inductive amode := Free | ReadOnly | ReadWrite.

#[export] Instance amode_eq_dec : EqDecision amode.
Proof. solve_decision. Defined.

Record apage := mkapage {
  a_mode : amode;
  a_group : Z;              (* top_pid of the group that claimed the page, or -1 *)
  a_users : gset nat;       (* the process-table slots with access *)
  a_words : list Z          (* its 1024 ints *)
}.

Inductive shop :=
| Set_writable
| Set_unwritable
| Init_int (index : nat) (v : Z)
| Write_int (index : nat) (v : Z)
| Read_int (index : nat)
| Acquire
| Release.

Definition words : nat := 1024.
Definition zero_words : list Z := replicate words 0.
Arguments words : simpl never.
Arguments zero_words : simpl never.

(** A group may claim a page nobody has claimed, and keep one it has. *)
Definition claimable (g : Z) (a : apage) : bool := (a_group a =? -1) || (a_group a =? g).

(** What process [p] of group [g] does to a page, with the value returned. *)
Definition aop (p : nat) (g : Z) (op : shop) (a : apage) : option (Z * apage) :=
  match op with
  | Set_writable =>
      if bool_decide (a_mode a = Free) && claimable g a
      then Some (0, mkapage ReadWrite g ({[p]} ∪ a_users a) (a_words a)) else None
  | Set_unwritable =>
      if bool_decide (a_mode a = Free) && claimable g a
      then Some (0, mkapage ReadOnly g ({[p]} ∪ a_users a) (a_words a)) else None
  | Init_int index v =>
      if bool_decide (a_mode a = Free) && claimable g a
      then Some (0, mkapage Free g (a_users a) (<[index := s32 v]> (a_words a))) else None
  | Write_int index v =>
      if bool_decide (a_mode a = ReadWrite) && bool_decide (p ∈ a_users a)
      then Some (0, mkapage ReadWrite (a_group a) (a_users a) (<[index := s32 v]> (a_words a)))
      else None
  | Read_int index =>
      if bool_decide (a_mode a <> Free) && bool_decide (p ∈ a_users a)
      then Some (nth index (a_words a) 0, a) else None
  | Acquire =>
      if bool_decide (a_mode a = Free) then Some (0, a)
      else if bool_decide (p ∉ a_users a) && (a_group a =? g)
      then Some (1, mkapage (a_mode a) (a_group a) ({[p]} ∪ a_users a) (a_words a)) else None
  | Release =>
      if bool_decide (a_mode a <> Free) && bool_decide (p ∈ a_users a)
      then Some (0, if bool_decide (a_users a ∖ {[p]} = ∅)
                    then mkapage Free (-1) ∅ zero_words
                    else mkapage (a_mode a) (a_group a) (a_users a ∖ {[p]}) (a_words a))
      else None
  end.

(** ** Implementation *)

Section Refine.
Context {F : Type} `{L : Layout} `{!LayoutOk L}.
Implicit Types s : kstate F.
Abbreviation KM := (K (kstate F)).

Definition run_shop (i : nat) (op : shop) : KM Z :=
  match op with
  | Set_writable => shmem_set_writable i ;; ret 0
  | Set_unwritable => shmem_set_unwritable i ;; ret 0
  | Init_int index v => shmem_set_init_int i (Z.of_nat index) v ;; ret 0
  | Write_int index v => shmem_write_int i (Z.of_nat index) v ;; ret 0
  | Read_int index => shmem_read_int i (Z.of_nat index)
  | Acquire => b <- shmem_acquire_access i ;; ret (Z.b2z b)
  | Release => shmem_release_access i ;; ret 0
  end.

(** The accesses stay inside the page. *)
Definition shop_in (op : shop) : Prop :=
  match op with
  | Init_int index _ | Write_int index _ | Read_int index => (index < words)%nat
  | _ => True
  end.

Definition mode_of (st : Z) : amode :=
  if st =? WRITABLE then ReadWrite else if st =? UNWRITABLE then ReadOnly else Free.

Definition users (i : nat) s : gset nat :=
  filter (fun j => uses i (get_proc j s) = true) (set_seq 0 NPROC).

Definition contents (i : nat) s : list Z := (fun k => peek i (Z.of_nat k) s) <$> seq 0 words.

Definition abs (i : nat) s : apage :=
  mkapage (mode_of (sh_state (get_shmem i s))) (sh_using_top_pid (get_shmem i s)) (users i s)
    (contents i s).

(** Each page is a frame of its own, and the callers' locks are free. *)
Record pages_ready (p i : nat) s : Prop := {
  pr_inv : shmem_inv s;
  pr_ready : ready p i s;
  pr_lock : lock_free (L_shmem i) s;
  pr_live : live (get_proc p s) = true;
  pr_page : (i < SHMEM)%nat;
  pr_frames : forall j, (j < SHMEM)%nat -> page_mapped j s;
  pr_apart : forall j k, (j < SHMEM)%nat -> (k < SHMEM)%nat -> j <> k ->
    sh_PHADDR (get_shmem j s) <> sh_PHADDR (get_shmem k s)
}.

Lemma elem_users i s j : j ∈ users i s <-> (j < NPROC)%nat /\ uses i (get_proc j s) = true.
Proof. unfold users. rewrite elem_of_filter, elem_of_set_seq. naive_solver lia. Qed.

(** ** How the views change *)

Lemma get_proc_alter f p s s' j :
  k_procs s' = alter f p (k_procs s) -> (p < length (k_procs s))%nat ->
  get_proc j s' = if decide (j = p) then f (get_proc p s) else get_proc j s.
Proof.
  intros E Hp. unfold get_proc. rewrite E. case_decide as Ej; subst.
  - rewrite list_lookup_alter_eq. by destruct (lookup_lt_is_Some_2 _ _ Hp) as [q ->].
  - by rewrite list_lookup_alter_ne.
Qed.

Lemma users_upd f p s s' k :
  k_procs s' = alter f p (k_procs s) -> (p < length (k_procs s))%nat -> length (k_procs s) = NPROC ->
  users k s' = if uses k (f (get_proc p s)) then {[p]} ∪ users k s else users k s ∖ {[p]}.
Proof.
  intros E Hp Hlen. apply set_eq. intros j.
  rewrite elem_users, (get_proc_alter f p s s' j E Hp).
  destruct (uses k (f (get_proc p s))) eqn:Eu; case_decide as Ej; subst;
    rewrite ?elem_of_union, ?elem_of_difference, ?elem_of_singleton, ?elem_users.
  - split; [by left|]. intros _. split; [lia|done].
  - split; [by right|]. by intros [?|?].
  - split; [intros [_ ?]; congruence|]. by intros [_ ?].
  - split; [by split|]. by intros [? _].
Qed.

Lemma users_same f p s s' k :
  k_procs s' = alter f p (k_procs s) -> (p < length (k_procs s))%nat -> length (k_procs s) = NPROC ->
  uses k (f (get_proc p s)) = uses k (get_proc p s) -> users k s' = users k s.
Proof.
  intros E Hp Hlen Hu. rewrite (users_upd f p s s' k E Hp Hlen), Hu.
  assert (p ∈ users k s <-> uses k (get_proc p s) = true) as Hin by (rewrite elem_users; naive_solver lia).
  destruct (uses k (get_proc p s)); set_solver.
Qed.

Lemma contents_ext i s s' :
  sh_PHADDR (get_shmem i s') = sh_PHADDR (get_shmem i s) -> page_mapped i s ->
  (forall x, sh_PHADDR (get_shmem i s) <= x < sh_PHADDR (get_shmem i s) + PGSIZE ->
     ld8 (k_mem s') x = ld8 (k_mem s) x) ->
  contents i s' = contents i s.
Proof.
  intros Ea Hm Hx. unfold contents. apply list_fmap_ext. intros j k Hk.
  apply lookup_seq in Hk as [-> Hk]. cbn. unfold peek. f_equal.
  assert (page_mapped i s') as Hm' by (unfold page_mapped; by rewrite Ea).
  unfold words in Hk. rewrite !int_addr_in by (done || lia). rewrite Ea.
  apply ld_ext. intros x Hr. apply Hx. unfold PGSIZE. lia.
Qed.

Lemma abs_settle i s : abs i (settle s) = abs i s.
Proof. unfold abs, users, contents, peek. reflexivity. Qed.

Lemma lookup_contents i s k :
  (k < words)%nat -> contents i s !! k = Some (peek i (Z.of_nat k) s).
Proof. intros H. unfold contents. by rewrite list_lookup_fmap, lookup_seq_lt by done. Qed.

Lemma length_contents i s : length (contents i s) = words.
Proof. unfold contents. by rewrite length_fmap, length_seq. Qed.

Lemma contents_eq i s l :
  length l = words -> (forall k, (k < words)%nat -> l !! k = Some (peek i (Z.of_nat k) s)) ->
  contents i s = l.
Proof.
  intros Hlen H. apply list_eq. intros k. destruct (decide (k < words)%nat).
  - by rewrite lookup_contents, H.
  - rewrite !lookup_ge_None_2; [done|lia|]. rewrite length_contents. lia.
Qed.

Lemma contents_poke i s index v :
  page_mapped i s -> (index < words)%nat ->
  contents i (poke i (Z.of_nat index) v s) = <[index := s32 v]> (contents i s).
Proof.
  intros Hm Hi. apply contents_eq; [by rewrite length_insert, length_contents|].
  intros k Hk. unfold words in *. rewrite peek_poke by (done || lia).
  case_decide as E; [assert (k = index) as -> by lia|].
  - by rewrite list_lookup_insert_eq by (rewrite length_contents; unfold words; lia).
  - rewrite list_lookup_insert_ne by lia. by rewrite lookup_contents.
Qed.

(** One update of the caller's flags and of the page. *)
Lemma abs_step f h p i s s' :
  pages_ready p i s ->
  k_procs s' = alter f p (k_procs s) -> k_shmem s' = alter h i (k_shmem s) ->
  (forall x, sh_PHADDR (h x) = sh_PHADDR x) ->
  (forall k, k <> i -> uses k (f (get_proc p s)) = uses k (get_proc p s)) ->
  (forall x, ~ (sh_PHADDR (get_shmem i s) <= x < sh_PHADDR (get_shmem i s) + PGSIZE) ->
     ld8 (k_mem s') x = ld8 (k_mem s) x) ->
  abs i s' = mkapage (mode_of (sh_state (h (get_shmem i s)))) (sh_using_top_pid (h (get_shmem i s)))
    (if uses i (f (get_proc p s)) then {[p]} ∪ users i s else users i s ∖ {[p]}) (contents i s') /\
  forall j, (j < SHMEM)%nat -> j <> i -> abs j s' = abs j s.
Proof.
  intros [Hinv Hr _ _ Hi Hfr Hap] Ep Eh Hph Hu Hm.
  pose proof (inv_procs _ _ Hinv) as Hlen. pose proof (ready_proc _ _ _ Hr) as Hp.
  pose proof (ready_page _ _ _ Hr) as Hpg.
  assert (forall j, get_shmem j s' = if decide (j = i) then h (get_shmem i s) else get_shmem j s) as Eg.
  { intros j. unfold get_shmem. rewrite Eh. case_decide as E; subst.
    - rewrite list_lookup_alter_eq. by destruct (lookup_lt_is_Some_2 _ _ Hpg) as [x ->].
    - by rewrite list_lookup_alter_ne. }
  split.
  - unfold abs. rewrite Eg, decide_True by done. by rewrite (users_upd f p s s' i Ep Hp Hlen).
  - intros j Hj Hne. unfold abs. rewrite (Eg j), decide_False by done. f_equal.
    + by apply (users_same f p s s'); [..|apply Hu].
    + apply contents_ext; [by rewrite Eg, decide_False|by apply Hfr|]. intros x Hx. apply Hm.
      destruct (is_page_disjoint _ _ (Hfr j Hj) (Hfr i Hi) (Hap j i Hj Hi Hne)); unfold PGSIZE in *; lia.
Qed.

Lemma ready_mapped p i s : pages_ready p i s -> page_mapped i s.
Proof. intros H. apply (pr_frames _ _ _ H), (pr_page _ _ _ H). Qed.

Lemma ready_flags p i s : pages_ready p i s -> length (p_shmem_access (get_proc p s)) = SHMEM.
Proof.
  intros [Hinv Hr _ _ _ _ _]. destruct (lookup_lt_is_Some_2 _ _ (ready_proc _ _ _ Hr)) as [q Hq].
  rewrite (get_proc_lookup _ _ _ Hq). by eapply inv_flags.
Qed.

Lemma ready_may_use p i s : pages_ready p i s -> may_use p i s <-> p ∈ users i s.
Proof.
  intros [Hinv Hr _ Hlv _ _ _]. pose proof (ready_proc _ _ _ Hr) as Hp.
  rewrite (inv_procs _ _ Hinv) in Hp. rewrite elem_users. unfold may_use, uses. rewrite Hlv. cbn. tauto.
Qed.

(** The page's record satisfies the invariant. *)
Lemma ready_page_ok p i s : pages_ready p i s -> page_ok (k_procs s) i (get_shmem i s).
Proof.
  intros [Hinv Hr _ _ _ _ _]. apply table_inv_iff in Hinv as (_ & _ & _ & H). apply H.
  unfold get_shmem. by destruct (lookup_lt_is_Some_2 _ _ (ready_page _ _ _ Hr)) as [x ->].
Qed.

Lemma mode_cases p i s :
  pages_ready p i s ->
  (sh_state (get_shmem i s) = NOT_SET /\ a_mode (abs i s) = Free) \/
  (sh_state (get_shmem i s) <> NOT_SET /\ 0 < sh_numberofusers (get_shmem i s) /\
   ((sh_state (get_shmem i s) = UNWRITABLE /\ a_mode (abs i s) = ReadOnly) \/
    (sh_state (get_shmem i s) = WRITABLE /\ a_mode (abs i s) = ReadWrite))).
Proof.
  intros H. destruct (ready_page_ok _ _ _ H) as (Hc & Hst & Hset & _).
  pose proof (count_nonneg (uses i) (k_procs s)). unfold abs. cbn [a_mode].
  destruct Hst as [E|[E|E]]; rewrite E; [by left|right..];
    (split; [done|]; split; [|naive_solver]);
    assert (sh_numberofusers (get_shmem i s) <> 0) by (intros Hz; apply Hset in Hz; by rewrite E in Hz); lia.
Qed.

(** ** One lemma per operation *)

Definition refines (p i : nat) (op : shop) s : Prop :=
  match aop p (p_top_pid (get_proc p s)) op (abs i s) with
  | Some (r, a) => exists s', run_shop i op s = Ret r s' /\ abs i s' = a /\
      forall j, (j < SHMEM)%nat -> j <> i -> abs j s' = abs j s
  | None => exists msg s', run_shop i op s = Panic msg s'
  end.

Lemma claimable_iff p i s :
  claimable (p_top_pid (get_proc p s)) (abs i s) = true <->
  (sh_using_top_pid (get_shmem i s) = -1 \/ sh_using_top_pid (get_shmem i s) = p_top_pid (get_proc p s)).
Proof. unfold claimable, abs. cbn. rewrite orb_true_iff, !Z.eqb_eq. done. Qed.

Lemma claimed_group p i s :
  claimable (p_top_pid (get_proc p s)) (abs i s) = true ->
  sh_using_top_pid (claimed (p_top_pid (get_proc p s)) (get_shmem i s)) = p_top_pid (get_proc p s).
Proof.
  intros H%claimable_iff. unfold claimed. destruct (_ =? -1) eqn:E; [done|]. lia.
Qed.

Lemma claimed_fields top h :
  sh_state (claimed top h) = sh_state h /\ sh_PHADDR (claimed top h) = sh_PHADDR h.
Proof. unfold claimed. by destruct (_ =? -1). Qed.

Lemma uses_flag k a p i s :
  pages_ready p i s ->
  uses k (access_set i a (get_proc p s)) =
    if decide (k = i) then a else uses k (get_proc p s).
Proof.
  intros H. rewrite uses_access_set by (by (eapply ready_flags) || apply H).
  by rewrite (pr_live _ _ _ H).
Qed.

(** The setters, up to the name of the lock that shmem_set_writable resets. *)
Lemma set_page_abs st p i s s' :
  pages_ready p i s -> claimable (p_top_pid (get_proc p s)) (abs i s) = true ->
  k_procs s' = k_procs (set_page st p i s) -> k_shmem s' = k_shmem (set_page st p i s) ->
  k_mem s' = k_mem s ->
  abs i s' = mkapage (mode_of st) (p_top_pid (get_proc p s)) ({[p]} ∪ users i s) (contents i s) /\
  forall j, (j < SHMEM)%nat -> j <> i -> abs j s' = abs j s.
Proof.
  intros H Hc Ep Eh Em.
  destruct (abs_step (count_up ∘ access_set i true)
    (set_sh_state st ∘ users_add 1 ∘ claimed (p_top_pid (get_proc p s))) p i s s') as [E1 E2];
    [done|done|done| | |by rewrite Em|].
  { intros x. apply (claimed_fields _ x). }
  { intros k Hk. transitivity (uses k (access_set i true (get_proc p s))); [done|].
    by rewrite uses_flag, decide_False. }
  split; [|done]. rewrite E1.
  assert (uses i ((count_up ∘ access_set i true) (get_proc p s)) = true) as ->.
  { transitivity (uses i (access_set i true (get_proc p s))); [done|].
    by rewrite uses_flag, decide_True. }
  f_equal; [by apply claimed_group|]. apply contents_ext; [|by eapply ready_mapped|by rewrite Em].
  unfold get_shmem. rewrite Eh. cbn. rewrite list_lookup_alter_eq.
  destruct (k_shmem s !! i) as [x|]; [|done]. apply (claimed_fields _ x).
Qed.

Ltac panics lem := eexists _, _; erewrite kbind_Panic; [reflexivity|eapply lem; eauto].

Lemma setter_fails p i s (k : nat -> KM unit) :
  pages_ready p i s ->
  bool_decide (a_mode (abs i s) = Free) && claimable (p_top_pid (get_proc p s)) (abs i s) = false ->
  exists msg s',
  (acquire (L_shstate i) ;;
   st <- gets (fun s => sh_state (get_shmem i s)) ;;
   if negb (st =? NOT_SET) then panic "shmem state is already set" else
   q <- curproc ;; acquire (L_proc q) ;; claim_top_pid i q ;; k q) s = Panic msg s'.
Proof.
  intros H E. pose proof (pr_ready _ _ _ H) as Hr.
  destruct (mode_cases _ _ _ H) as [[Est Em]|(Hst & _)].
  - rewrite Em, bool_decide_true in E by done. cbn in E.
    assert (~ claimable (p_top_pid (get_proc p s)) (abs i s) = true) as Hc by by rewrite E.
    rewrite claimable_iff in Hc. eexists _, _. apply setter_other; [done|done|tauto|tauto].
  - eexists _, _. apply setter_set; [apply Hr|apply Hr|done].
Qed.

Lemma refines_set_writable p i s : pages_ready p i s -> refines p i Set_writable s.
Proof.
  intros H. unfold refines. cbn [aop run_shop]. pose proof (pr_ready _ _ _ H) as Hr.
  destruct (bool_decide _ && _) eqn:E.
  - apply andb_prop in E as [E%bool_decide_eq_true Hc].
    destruct (mode_cases _ _ _ H) as [[Est _]|(_ & _ & [[_ E']|[_ E']])]; [|congruence..].
    eexists. split; [erewrite kbind_Ret; [reflexivity|by apply (set_writable_spec p), claimable_iff]|].
    by apply (set_page_abs WRITABLE).
  - unfold shmem_set_writable. edestruct (setter_fails p i s) as (msg & s' & Ef); [exact H|exact E|].
    exists msg, s'. erewrite kbind_Panic; [reflexivity|exact Ef].
Qed.

Lemma refines_set_unwritable p i s : pages_ready p i s -> refines p i Set_unwritable s.
Proof.
  intros H. unfold refines. cbn [aop run_shop]. pose proof (pr_ready _ _ _ H) as Hr.
  destruct (bool_decide _ && _) eqn:E.
  - apply andb_prop in E as [E%bool_decide_eq_true Hc].
    destruct (mode_cases _ _ _ H) as [[Est _]|(_ & _ & [[_ E']|[_ E']])]; [|congruence..].
    eexists. split; [erewrite kbind_Ret; [reflexivity|by apply (set_unwritable_spec p), claimable_iff]|].
    by apply (set_page_abs UNWRITABLE).
  - unfold shmem_set_unwritable. edestruct (setter_fails p i s) as (msg & s' & Ef); [exact H|exact E|].
    exists msg, s'. erewrite kbind_Panic; [reflexivity|exact Ef].
Qed.

(** A store to the page by a process whose flags stay as they are. *)
Lemma store_abs p i s s' h index v :
  pages_ready p i s -> (index < words)%nat -> k_procs s' = k_procs s ->
  k_shmem s' = alter h i (k_shmem s) -> (forall x, sh_PHADDR (h x) = sh_PHADDR x) ->
  k_mem s' = k_mem (poke i (Z.of_nat index) v s) ->
  abs i s' = mkapage (mode_of (sh_state (h (get_shmem i s)))) (sh_using_top_pid (h (get_shmem i s)))
    (users i s) (<[index := s32 v]> (contents i s)) /\
  forall j, (j < SHMEM)%nat -> j <> i -> abs j s' = abs j s.
Proof.
  intros H Hx Ep Eh Hph Em. pose proof (ready_mapped _ _ _ H) as Hm.
  assert (k_procs s' = alter id p (k_procs s)) as Ep' by (by rewrite list_alter_id').
  assert (get_shmem i s' = h (get_shmem i s)) as Eg.
  { unfold get_shmem. rewrite Eh, list_lookup_alter_eq.
    by destruct (lookup_lt_is_Some_2 _ _ (ready_page _ _ _ (pr_ready _ _ _ H))) as [x ->]. }
  destruct (abs_step id h p i s s' H Ep' Eh Hph) as [E1 E2]; [done| |].
  { intros x Hx'. rewrite Em. cbn. apply ld8_st_out. unfold words in Hx.
    rewrite int_addr_in by (done || lia). unfold PGSIZE in Hx'. lia. }
  split; [|done]. rewrite E1. f_equal.
  - pose proof (ready_proc _ _ _ (pr_ready _ _ _ H)) as Hp.
    pose proof (inv_procs _ _ (pr_inv _ _ _ H)) as Hlen.
    by rewrite <- (users_upd id p s s' i Ep' Hp Hlen), (users_same id p s s' i Ep' Hp Hlen).
  - rewrite <- contents_poke by done. apply contents_ext; [by rewrite Eg, Hph|done|by rewrite Em].
Qed.

Lemma refines_init_int p i s index v :
  pages_ready p i s -> (index < words)%nat -> refines p i (Init_int index v) s.
Proof.
  intros H Hx. unfold refines. cbn [aop run_shop]. pose proof (pr_ready _ _ _ H) as Hr.
  destruct (bool_decide _ && _) eqn:E.
  - apply andb_prop in E as [E%bool_decide_eq_true Hc].
    destruct (mode_cases _ _ _ H) as [[Est _]|(_ & _ & [[_ E']|[_ E']])]; [|congruence..].
    eexists. split; [erewrite kbind_Ret; [reflexivity|by apply (set_init_int_spec p), claimable_iff]|].
    destruct (store_abs p i s
      (settle (poke i (Z.of_nat index) v (upd_shmem i (claimed (p_top_pid (get_proc p s))) s)))
      (claimed (p_top_pid (get_proc p s))) index v) as [E1 E2]; [done|done|done|done| | |].
    { intros x. apply claimed_fields. }
    { cbn. f_equal. unfold int_addr. do 2 f_equal. unfold get_shmem. cbn.
      rewrite list_lookup_alter_eq. destruct (k_shmem s !! i); [|done]. apply claimed_fields. }
    split; [|done]. rewrite E1. f_equal; [|by apply claimed_group].
    by rewrite (proj1 (claimed_fields _ _)), Est.
  - unfold shmem_set_init_int. edestruct (setter_fails p i s) as (msg & s' & Ef); [exact H|exact E|].
    exists msg, s'. erewrite kbind_Panic; [reflexivity|exact Ef].
Qed.

Lemma refines_write_int p i s index v :
  pages_ready p i s -> (index < words)%nat -> refines p i (Write_int index v) s.
Proof.
  intros H Hx. unfold refines. cbn [aop run_shop]. pose proof (pr_ready _ _ _ H) as Hr.
  pose proof (ready_may_use _ _ _ H) as Hu. change (a_users (abs i s)) with (users i s).
  destruct (mode_cases _ _ _ H) as [[Est Em]|(Hst & _ & [[Est Em]|[Est Em]])]; rewrite Em.
  - eexists _, _. erewrite kbind_Panic; [reflexivity|]. apply write_int_not_writable. by rewrite Est.
  - eexists _, _. erewrite kbind_Panic; [reflexivity|]. apply write_int_not_writable. by rewrite Est.
  - rewrite bool_decide_true by done. cbn [andb]. case_bool_decide as Hin.
    + eexists. split; [erewrite kbind_Ret; [reflexivity|apply (write_int_spec p); [done|apply H|done|tauto]]|].
      destruct (store_abs p i s (settle (poke i (Z.of_nat index) v s)) id index v) as [E1 E2];
        [done|done|done|by rewrite list_alter_id'|done|done|].
      split; [|done]. rewrite E1. cbn. by rewrite Est.
    + eexists _, _. erewrite kbind_Panic; [reflexivity|]. apply write_int_denied; [done|done|tauto].
Qed.

Lemma refines_read_int p i s index :
  pages_ready p i s -> (index < words)%nat -> refines p i (Read_int index) s.
Proof.
  intros H Hx. unfold refines. cbn [aop run_shop]. pose proof (pr_ready _ _ _ H) as Hr.
  pose proof (ready_may_use _ _ _ H) as Hu. change (a_users (abs i s)) with (users i s).
  assert (nth index (a_words (abs i s)) 0 = peek i (Z.of_nat index) s) as ->.
  { apply nth_lookup_Some. by apply lookup_contents. }
  destruct (mode_cases _ _ _ H) as [[Est Em]|(Hst & _ & Hm)].
  - rewrite Em, bool_decide_false by tauto. eexists _, _. by apply read_int_unset.
  - assert (a_mode (abs i s) <> Free) by (destruct Hm as [[_ ->]|[_ ->]]; done).
    rewrite bool_decide_true by done. cbn [andb]. case_bool_decide as Hin.
    + eexists. split; [apply (read_int_spec p); [done|apply H|tauto|tauto]|].
      split; [apply abs_settle|intros; apply abs_settle].
    + eexists _, _. apply (read_int_denied p); [done|done|tauto].
Qed.

Lemma refines_acquire p i s : pages_ready p i s -> refines p i Acquire s.
Proof.
  intros H. unfold refines. cbn [aop run_shop]. pose proof (pr_ready _ _ _ H) as Hr.
  pose proof (ready_may_use _ _ _ H) as Hu. change (a_users (abs i s)) with (users i s).
  change (a_group (abs i s)) with (sh_using_top_pid (get_shmem i s)).
  destruct (mode_cases _ _ _ H) as [[Est Em]|(Hst & _ & Hm)].
  - rewrite Em, bool_decide_true by done. exists (settle s).
    split; [|split; [apply abs_settle|intros; apply abs_settle]].
    by rewrite (kbind_Ret _ _ _ _ _ (acquire_access_unset i s (ready_cpu _ _ _ Hr) (ready_slock _ _ _ Hr) Est)).
  - assert (a_mode (abs i s) <> Free) by (destruct Hm as [[_ ->]|[_ ->]]; done).
    rewrite bool_decide_false by done.
    destruct (bool_decide (p ∉ users i s)) eqn:Eb; cbn [andb].
    2:{ apply bool_decide_eq_false in Eb. eexists _, _. erewrite kbind_Panic; [reflexivity|].
        apply acquire_access_twice; [done|done|]. destruct (decide (p ∈ users i s)); tauto. }
    apply bool_decide_eq_true in Eb.
    destruct (sh_using_top_pid (get_shmem i s) =? p_top_pid (get_proc p s)) eqn:Eg.
    2:{ eexists _, _. erewrite kbind_Panic; [reflexivity|]. apply acquire_access_other; (done || tauto || lia). }
    eexists. split; [erewrite kbind_Ret; [|apply (acquire_access_spec p); (done || tauto || lia)]; done|].
    destruct (abs_step (access_set i true) (users_add 1) p i s
      (settle (upd_shmem i (users_add 1) (upd_proc p (access_set i true) s)))) as [E1 E2]; [done..| |done|].
    { intros k Hk. by rewrite uses_flag, decide_False. }
    split; [|done]. rewrite E1. rewrite uses_flag, decide_True by done. cbn.
    f_equal. apply contents_ext; [|by eapply ready_mapped|done].
    change (sh_PHADDR (get_shmem i (upd_shmem i (users_add 1) s)) = sh_PHADDR (get_shmem i s)).
    rewrite get_shmem_upd by apply Hr. by rewrite decide_True.
Qed.

(** The last user is the only one. *)
Lemma last_user p i s :
  pages_ready p i s -> p ∈ users i s ->
  sh_numberofusers (get_shmem i s) = 1 <-> users i s ∖ {[p]} = ∅.
Proof.
  intros H Hin. pose proof (pr_ready _ _ _ H) as Hr. destruct (ready_page_ok _ _ _ H) as (Hc & _).
  pose proof (inv_procs _ _ (pr_inv _ _ _ H)) as Hlen.
  destruct (lookup_lt_is_Some_2 _ _ (ready_proc _ _ _ Hr)) as [q Hq].
  apply elem_users in Hin as [Hp Hup]. rewrite (get_proc_lookup _ _ _ Hq) in Hup.
  pose proof (count_alter (uses i) (access_set i false) _ _ _ Hq) as Hca.
  assert (uses i (access_set i false q) = false) as Ef.
  { pose proof (uses_flag i false p i s H) as Hf. rewrite (get_proc_lookup _ _ _ Hq) in Hf.
    by rewrite Hf, decide_True. }
  rewrite Hup, Ef in Hca. cbn in Hca. rewrite Hc. split.
  - intros E1. apply set_eq. intros j. rewrite elem_of_difference, elem_of_singleton, elem_users.
    split; [|set_solver]. intros [[Hj Hu] Hne].
    assert (get_proc j s = get_proc j (upd_proc p (access_set i false) s)) as Eq.
    { rewrite get_proc_upd by apply Hr. by rewrite decide_False. }
    rewrite Eq in Hu. destruct (lookup_lt_is_Some_2 (alter (access_set i false) p (k_procs s)) j) as [x Hx];
      [rewrite length_alter; lia|].
    rewrite (get_proc_lookup j (upd_proc p (access_set i false) s) x Hx) in Hu.
    assert (count (uses i) (alter (access_set i false) p (k_procs s)) = 0) as Hz by lia.
    by rewrite (count_zero_none (uses i) _ j x Hz Hx) in Hu.
  - intros Hem. destruct (decide (count (uses i) (alter (access_set i false) p (k_procs s)) = 0)) as [|Hn]; [lia|].
    exfalso. apply Hn, count_none. intros j x Hx.
    destruct (decide (j = p)) as [->|Hne].
    + rewrite list_lookup_alter_eq, Hq in Hx. by injection Hx as <-.
    + rewrite list_lookup_alter_ne in Hx by done. destruct (uses i x) eqn:Eu; [|done].
      assert (j ∈ users i s ∖ {[p]}) as Hj; [|rewrite Hem in Hj; set_solver].
      rewrite elem_of_difference, elem_of_singleton, elem_users, (get_proc_lookup _ _ _ Hx).
      apply lookup_lt_Some in Hx. split; [split; [lia|done]|done].
Qed.

Lemma leave_abs p i s :
  pages_ready p i s -> p ∈ users i s ->
  let s' := settle (leave p i s) in
  abs i s' = (if bool_decide (users i s ∖ {[p]} = ∅) then mkapage Free (-1) ∅ zero_words
              else mkapage (a_mode (abs i s)) (a_group (abs i s)) (users i s ∖ {[p]}) (contents i s)) /\
  forall j, (j < SHMEM)%nat -> j <> i -> abs j s' = abs j s.
Proof.
  intros H Hin s'. pose proof (pr_ready _ _ _ H) as Hr. pose proof (last_user p i s H Hin) as Hl.
  pose proof (ready_mapped _ _ _ H) as Hm.
  assert (get_shmem i (upd_shmem i users_sub (upd_proc p (access_set i false) s)) =
    users_sub (get_shmem i s)) as Eg.
  { rewrite get_shmem_upd by apply Hr. by rewrite decide_True. }
  set (s1 := upd_shmem i users_sub (upd_proc p (access_set i false) s)) in *.
  assert (leave p i s = if sh_numberofusers (get_shmem i s) - 1 =? 0 then wipe i s1 else s1) as El
    by (unfold leave; fold s1; by rewrite Eg).
  unfold s'. clear s'. rewrite El. set (s' := settle _). destruct (_ - 1 =? 0) eqn:E.
  - rewrite bool_decide_true by (apply Hl; lia).
    destruct (abs_step (access_set i false) (set_sh_using_top_pid (-1) ∘ set_sh_state NOT_SET ∘ users_sub)
      p i s s') as [E1 E2]; [done|done| |done| | |].
    { unfold s'. cbn. by rewrite !list_alter_alter. }
    { intros k Hk. by rewrite uses_flag, decide_False. }
    { intros x Hx. unfold s'. cbn. rewrite Eg, ld8_memset by (unfold PGSIZE; lia).
      by rewrite decide_False. }
    split; [|done]. rewrite E1, uses_flag, decide_True by done. cbn.
    f_equal; [by apply Hl; lia|]. apply contents_eq; [done|]. intros k Hk.
    assert (sh_PHADDR (get_shmem i s') = sh_PHADDR (get_shmem i s)) as Ea.
    { unfold s', get_shmem. cbn. rewrite !list_lookup_alter_eq.
      by destruct (lookup_lt_is_Some_2 _ _ (ready_page _ _ _ Hr)) as [x ->]. }
    unfold zero_words. rewrite lookup_replicate_2 by done. f_equal. unfold peek, words in *.
    assert (page_mapped i s') as Hm' by (unfold page_mapped; by rewrite Ea).
    assert (k_mem s' = memset (k_mem s) (sh_PHADDR (get_shmem i s)) 0 PGSIZE) as Em.
    { unfold s'. cbn. by rewrite Eg. }
    clearbody s'. rewrite int_addr_in, Ea, Em, ld_memset_zero; [done|unfold PGSIZE; lia..|done|lia].
  - rewrite bool_decide_false by (rewrite <- Hl; lia).
    destruct (abs_step (access_set i false) users_sub p i s s') as [E1 E2]; [done..| |done|].
    { intros k Hk. by rewrite uses_flag, decide_False. }
    split; [|done]. rewrite E1, uses_flag, decide_True by done. cbn.
    f_equal. apply contents_ext; [|done|done].
    change (get_shmem i s') with (get_shmem i s1). by rewrite Eg.
Qed.

Lemma refines_release p i s : pages_ready p i s -> refines p i Release s.
Proof.
  intros H. unfold refines. cbn [aop run_shop]. pose proof (pr_ready _ _ _ H) as Hr.
  pose proof (ready_may_use _ _ _ H) as Hu. change (a_users (abs i s)) with (users i s).
  destruct (mode_cases _ _ _ H) as [[Est Em]|(Hst & Hn & Hm)].
  - rewrite Em, bool_decide_false by tauto. eexists _, _. erewrite kbind_Panic; [reflexivity|].
    by apply release_access_unset; [apply Hr|apply Hr|].
  - assert (a_mode (abs i s) <> Free) by (destruct Hm as [[_ ->]|[_ ->]]; done).
    rewrite bool_decide_true by done. cbn [andb]. case_bool_decide as Hin.
    + eexists. split; [erewrite kbind_Ret; [reflexivity|apply (release_access_spec p); (done || tauto)]|].
      by apply leave_abs.
    + eexists _, _. erewrite kbind_Panic; [reflexivity|]. apply release_access_denied; (done || tauto).
Qed.
End Refine.

(** C2: The shared-memory operations implement the specification [aop]: from any
    state in which the table is consistent and the caller's locks are free, each
    of the seven operations on page i, called by process p, returns what the
    specification returns and takes the page to the state the specification
    gives, leaving every other page as it is; where the specification is
    undefined (wrong mode, no access, another group's page) the kernel panics. *)
Theorem shmem_refines {F} `{L : Layout} `{!LayoutOk L} (s : kstate F) p i op :
  pages_ready p i s -> shop_in op ->
  match aop p (p_top_pid (get_proc p s)) op (abs i s) with
  | Some (r, a) => exists s', run_shop i op s = Ret r s' /\ abs i s' = a /\
      forall j, (j < SHMEM)%nat -> j <> i -> abs j s' = abs j s
  | None => exists msg s', run_shop i op s = Panic msg s'
  end.
Proof.
  intros H Hop. change (refines p i op s). destruct op.
  - by apply refines_set_writable.
  - by apply refines_set_unwritable.
  - by apply refines_init_int.
  - by apply refines_write_int.
  - by apply refines_read_int.
  - by apply refines_acquire.
  - by apply refines_release.
Qed.
