(* ===== verification/ShmemLimits.v ===== *)
(** Limits of the shared-memory facility: what the code does where its checks
    leave a gap. *)
From S2P Require Import Prelude Riscv Machine Spinlock KString Kalloc Vm Sched Keeps FsIface.
From S2P Require Import File Proc Shmem ShmemInv ProcInv ShmemSpec.

(** The shared-memory fields as allocproc() initialises them. *)
Definition born (q : proc) : proc :=
  foldl (fun q i => drop_access i q) (set_p_shmem_access_count 0 q) (seq 0 SHMEM).

Section Limits.
Context {F : Type} `{L : Layout} `{!LayoutOk L}.
Implicit Types s : kstate F.

(** The virtual address for a process with [n] pages too few. *)
Lemma vashmem_high n :
  -1024 <= n <= -3 -> MAXVA <= PGROUNDDOWN (u64 (VASHMEM n)).
Proof.
  intros H. unfold VASHMEM, TRAPFRAME, TRAMPOLINE. change MAXVA with (67108864 * PGSIZE).
  replace (67108864 * PGSIZE - PGSIZE - PGSIZE - PGSIZE * (n + 1)) with ((67108864 - 3 - n) * PGSIZE) by lia.
  rewrite u64_small by (unfold PGSIZE; lia). rewrite PGROUNDDOWN_id by apply Z_mod_mult. unfold PGSIZE. lia.
Qed.

Lemma mappages_high root va pa perm s :
  MAXVA <= PGROUNDDOWN va -> mappages root va PGSIZE pa perm s = Panic "walk" s.
Proof.
  intros H. unfold mappages. change (PGSIZE =? 0) with false. cbn zeta. cbv iota. cbn [mappages_loop].
  unfold walk. destruct (PGROUNDDOWN va >=? MAXVA) eqn:E; [done|lia].
Qed.

Lemma get_shmem_access_high p i s :
  ready p i s -> may_use p i s -> -1024 <= p_shmem_access_count (get_proc p s) <= -3 ->
  exists s', get_shmem_access i 0 s = Panic "walk" s'.
Proof.
  intros [Hok Hc Hpl Hsl Hp Hi] Ha Hn. unfold get_shmem_access.
  rewrite (kbind_Ret _ _ _ _ _ (myproc_spec s Hok)). fold (cur s). rewrite Hc.
  change (negb (0 =? 0)) with false. cbv iota. unfold ret at 1. unfold kbind at 1. cbn [obind].
  rewrite kbind_gets. unfold may_use, has_access in Ha.
  assert (get_proc p (settle s) = get_proc p s) as Eg by done. rewrite Eg.
  rewrite Ha. cbn [negb]. cbv iota.
  rewrite (kbind_Ret _ _ _ _ _ (acquire_free (L_proc p) _ (cpu_ok_settle s Hok) Hpl)), hold_settle, kbind_gets.
  cbn zeta. rewrite kbind_gets. eexists. unfold kbind at 1. rewrite mappages_high; [reflexivity|].
  by apply vashmem_high.
Qed.

Lemma born_count q : p_shmem_access_count (born q) = -4.
Proof. reflexivity. Qed.

Lemma get_proc_page st p i s : (p < length (k_procs s))%nat ->
  get_proc p (set_page st p i s) = count_up (access_set i true (get_proc p s)).
Proof.
  intros H. change (get_proc p (set_page st p i s)) with (get_proc p (upd_proc p (count_up ∘ access_set i true) s)).
  rewrite get_proc_upd by done. by rewrite decide_True.
Qed.
End Limits.

(** C40: a page can outlive its users. When the last user of a page exits with
    another top_pid than the page records, as after exec(), exit() counts it out
    but does not reset the page: it stays set, with no user and its contents kept. *)
Theorem exit_unshare_leak {F} `{L : Layout} (s : kstate F) p i :
  cpu_ok s -> lock_free (L_shstate i) s -> (i < length (k_shmem s))%nat -> may_use p i s ->
  sh_numberofusers (get_shmem i s) = 1 -> sh_using_top_pid (get_shmem i s) <> p_top_pid (get_proc p s) ->
  exists s', exit_unshare p i s = Ret tt s' /\ sh_numberofusers (get_shmem i s') = 0 /\
    sh_state (get_shmem i s') = sh_state (get_shmem i s) /\ k_mem s' = k_mem s.
Proof.
  intros Hok Hl Hi Ha Hu Hg. unfold exit_unshare.
  rewrite (kbind_Ret _ _ _ _ _ (acquire_free _ s Hok Hl)), kbind_gets.
  unfold may_use, has_access in Ha. change (get_proc p (hold (L_shstate i) s)) with (get_proc p s). rewrite Ha.
  set (s1 := upd_shmem i (fun h => set_sh_numberofusers (sh_numberofusers h - 1) h) s).
  assert (get_shmem i s1 = set_sh_numberofusers 0 (get_shmem i s)) as Es1.
  { unfold s1. rewrite get_shmem_upd by done. rewrite decide_True by done. by rewrite Hu. }
  rewrite kbind_modify, hold_upd_shmem, !kbind_gets. fold s1.
  change (get_shmem i (hold (L_shstate i) s1)) with (get_shmem i s1).
  change (get_proc p (hold (L_shstate i) s1)) with (get_proc p s). rewrite Es1. cbn [sh_numberofusers sh_using_top_pid
    set_sh_numberofusers]. rewrite (proj2 (Z.eqb_neq _ _) Hg), andb_false_r.
  unfold kbind, ret. cbn [obind]. exists (settle s1). split; [by apply release_hold|].
  change (get_shmem i (settle s1)) with (get_shmem i s1). by rewrite Es1.
Qed.

(** C38: the first mapping of a shared page halts the kernel. allocproc() leaves
    a new process with a page count of -4, and becoming the user of a page adds
    one; get_shmem_access() then maps the page at VASHMEM(-3), which is MAXVA, and
    walk() panics. *)
Theorem first_mapping_panics {F} `{L : Layout} `{!LayoutOk L} (s : kstate F) p i (writable : bool) q :
  ready p i s -> sh_state (get_shmem i s) = NOT_SET -> sh_using_top_pid (get_shmem i s) = -1 ->
  (i < length (p_shmem_access (get_proc p s)))%nat ->
  p_shmem_access_count (get_proc p s) = p_shmem_access_count (born q) ->
  exists s', ((if writable then shmem_set_writable i else shmem_set_unwritable i) ;; get_shmem_access i 0) s =
    Panic "walk" s'.
Proof.
  intros Hr Hst Hg Hi Hn. pose proof Hr as [Hok Hc Hpl Hsl Hp Hi'].
  assert (forall st (s1 : kstate F), k_procs s1 = k_procs (set_page st p i s) -> ready p i s1 ->
    exists s', get_shmem_access i 0 s1 = Panic "walk" s') as Hpanic.
  { intros st s1 Eps Hr1. assert (get_proc p s1 = count_up (access_set i true (get_proc p s))) as Eg.
    { rewrite <- (get_proc_page st p i s Hp). unfold get_proc. by rewrite Eps. }
    apply (get_shmem_access_high p); [done| |].
    - unfold may_use, has_access. rewrite Eg. cbn. rewrite nth_lookup, list_lookup_insert_eq by done. done.
    - rewrite Eg. change (-1024 <= p_shmem_access_count (get_proc p s) + 1 <= -3). rewrite Hn, born_count. lia. }
  destruct writable.
  - rewrite (kbind_Ret _ _ _ _ _ (set_writable_spec p i s Hr Hst (or_introl Hg))).
    apply (Hpanic WRITABLE); [done|]. split; try done.
    + by apply (cpu_ok_settle (set_lock _ _ _)).
    + by rewrite cur_settle.
    + destruct Hpl as [n E]. exists n. cbn. by rewrite lookup_insert_ne.
    + destruct Hsl as [n E]. exists n. cbn. by rewrite lookup_insert_ne.
    + cbn. by rewrite length_alter.
    + cbn. by rewrite !length_alter.
  - rewrite (kbind_Ret _ _ _ _ _ (set_unwritable_spec p i s Hr Hst (or_introl Hg))).
    apply (Hpanic UNWRITABLE); [done|]. split; try done.
    + by apply (cpu_ok_settle (set_page _ _ _ _)).
    + by rewrite cur_settle.
    + cbn. by rewrite length_alter.
    + cbn. by rewrite !length_alter.
Qed.

(** C39: the index of shmem_write_int() is not confined to the page: a process
    that may write any shared page can store any value in any aligned word of
    physical memory, the kernel's included, by choosing the index. *)
Theorem write_int_anywhere {F} `{L : Layout} `{!LayoutOk L} (s : kstate F) p i a v :
  ready p i s -> lock_free (L_shmem i) s -> page_mapped i s -> may_use p i s ->
  sh_state (get_shmem i s) = WRITABLE -> KERNBASE <= a < PHYSTOP -> a `mod` 4 = 0 ->
  exists index s', - 2 ^ 31 <= index < 2 ^ 31 /\ shmem_write_int i index v s = Ret tt s' /\
    ld32 (k_mem s') a = u32 v.
Proof.
  intros Hr Hl Hm Ha Hst Hra Hal. pose proof Hm as [Hpal Hpr]. pose proof kend_ram as Hk.
  set (base := sh_PHADDR (get_shmem i s)) in *.
  assert (base `mod` 4 = 0) as Hb4.
  { unfold PGSIZE in Hpal. pose proof (Z.div_mod base 4096). pose proof (Z.div_mod base 4).
    pose proof (Z.mod_pos_bound base 4). lia. }
  assert (base + 4 * ((a - base) / 4) = a) as E.
  { pose proof (Z.div_mod (a - base) 4). rewrite Zminus_mod, Hal, Hb4 in H. change ((0 - 0) `mod` 4) with 0 in H. lia. }
  unfold PHYSTOP, KERNBASE in *. exists ((a - base) / 4), (settle (poke i ((a - base) / 4) v s)).
  split; [lia|]. split; [by apply (write_int_spec p)|].
  change (k_mem (settle (poke i ((a - base) / 4) v s))) with
    (st32 (k_mem s) (int_addr (get_shmem i s) ((a - base) / 4)) v).
  unfold int_addr. fold base. rewrite E, u64_small by lia. apply ld_st_same.
Qed.
