(* ===== verification/FsState.v ===== *)
(** The state of the file system and of the device drivers, as C structs:
    kernel/sleeplock.h, kernel/buf.h, kernel/log.c, kernel/fs.h, kernel/file.h,
    kernel/console.c, kernel/uart.c, kernel/virtio.h and kernel/virtio_disk.c.

    A block's data is a byte-addressed memory with addresses 0 to BSIZE - 1, so
    that the integers in it are read and written with the same functions as those
    of physical memory. *)
From S2P Require Import Prelude Riscv Machine.

Abbreviation block := memory.

(** The address a descriptor holds: a command header, the data of a buffer, or a
    status byte; [V_null] when it is zero. *)
Inductive vaddr := V_null | V_req (i : nat) | V_data (b : nat) | V_status (i : nat).

#[export] Instance vaddr_eq_dec : EqDecision vaddr.
Proof. solve_decision. Defined.

(** struct sleeplock (kernel/sleeplock.h); its spinlock is [L_buf] or [L_inode]. *)
Record sleeplock := mksleeplock {
  sl_locked : bool;
  sl_name : string;
  sl_pid : Z;
}.

Definition set_sl_locked (v : bool) (l : sleeplock) : sleeplock :=
 mksleeplock v (sl_name l) (sl_pid l).
Definition set_sl_name (v : string) (l : sleeplock) : sleeplock :=
 mksleeplock (sl_locked l) v (sl_pid l).
Definition set_sl_pid (v : Z) (l : sleeplock) : sleeplock :=
 mksleeplock (sl_locked l) (sl_name l) v.

(** struct buf (kernel/buf.h). *)
Record buf := mkbuf {
  b_valid : Z;
  b_disk : Z;
  b_dev : Z;
  b_blockno : Z;
  b_lock : sleeplock;
  b_refcnt : Z;
  b_prev : nat;   (* index in bcache, NBUF for bcache.head *)
  b_next : nat;
  b_data : block;
}.

Definition set_b_valid (v : Z) (b : buf) : buf :=
 mkbuf v (b_disk b) (b_dev b) (b_blockno b) (b_lock b) (b_refcnt b) (b_prev b) (b_next b)
    (b_data b).
Definition set_b_disk (v : Z) (b : buf) : buf :=
 mkbuf (b_valid b) v (b_dev b) (b_blockno b) (b_lock b) (b_refcnt b) (b_prev b) (b_next b)
    (b_data b).
Definition set_b_dev (v : Z) (b : buf) : buf :=
 mkbuf (b_valid b) (b_disk b) v (b_blockno b) (b_lock b) (b_refcnt b) (b_prev b) (b_next b)
    (b_data b).
Definition set_b_blockno (v : Z) (b : buf) : buf :=
 mkbuf (b_valid b) (b_disk b) (b_dev b) v (b_lock b) (b_refcnt b) (b_prev b) (b_next b)
    (b_data b).
Definition set_b_lock (v : sleeplock) (b : buf) : buf :=
 mkbuf (b_valid b) (b_disk b) (b_dev b) (b_blockno b) v (b_refcnt b) (b_prev b) (b_next b)
    (b_data b).
Definition set_b_refcnt (v : Z) (b : buf) : buf :=
 mkbuf (b_valid b) (b_disk b) (b_dev b) (b_blockno b) (b_lock b) v (b_prev b) (b_next b)
    (b_data b).
Definition set_b_prev (v : nat) (b : buf) : buf :=
 mkbuf (b_valid b) (b_disk b) (b_dev b) (b_blockno b) (b_lock b) (b_refcnt b) v (b_next b)
    (b_data b).
Definition set_b_next (v : nat) (b : buf) : buf :=
 mkbuf (b_valid b) (b_disk b) (b_dev b) (b_blockno b) (b_lock b) (b_refcnt b) (b_prev b) v
    (b_data b).
Definition set_b_data (v : block) (b : buf) : buf :=
 mkbuf (b_valid b) (b_disk b) (b_dev b) (b_blockno b) (b_lock b) (b_refcnt b) (b_prev b)
    (b_next b) v.

(** struct log (kernel/log.c), with its struct logheader; its lock is [L_log]. *)
Record logst := mklogst {
  lg_start : Z;
  lg_size : Z;
  lg_outstanding : Z;
  lg_committing : Z;
  lg_dev : Z;
  lg_n : Z;
  lg_block : list Z;   (* lh.block[LOGSIZE] *)
}.

Definition set_lg_start (v : Z) (g : logst) : logst :=
 mklogst v (lg_size g) (lg_outstanding g) (lg_committing g) (lg_dev g) (lg_n g) (lg_block g).
Definition set_lg_size (v : Z) (g : logst) : logst :=
 mklogst (lg_start g) v (lg_outstanding g) (lg_committing g) (lg_dev g) (lg_n g) (lg_block g).
Definition set_lg_outstanding (v : Z) (g : logst) : logst :=
 mklogst (lg_start g) (lg_size g) v (lg_committing g) (lg_dev g) (lg_n g) (lg_block g).
Definition set_lg_committing (v : Z) (g : logst) : logst :=
 mklogst (lg_start g) (lg_size g) (lg_outstanding g) v (lg_dev g) (lg_n g) (lg_block g).
Definition set_lg_dev (v : Z) (g : logst) : logst :=
 mklogst (lg_start g) (lg_size g) (lg_outstanding g) (lg_committing g) v (lg_n g) (lg_block g).
Definition set_lg_n (v : Z) (g : logst) : logst :=
 mklogst (lg_start g) (lg_size g) (lg_outstanding g) (lg_committing g) (lg_dev g) v
    (lg_block g).
Definition set_lg_block (v : list Z) (g : logst) : logst :=
 mklogst (lg_start g) (lg_size g) (lg_outstanding g) (lg_committing g) (lg_dev g) (lg_n g) v.

(** struct superblock (kernel/fs.h). *)
Record superblock := mksuperblock {
  sb_magic : Z;
  sb_size : Z;
  sb_nblocks : Z;
  sb_ninodes : Z;
  sb_nlog : Z;
  sb_logstart : Z;
  sb_inodestart : Z;
  sb_bmapstart : Z;
}.

Definition set_sb_magic (v : Z) (b : superblock) : superblock :=
 mksuperblock v (sb_size b) (sb_nblocks b) (sb_ninodes b) (sb_nlog b) (sb_logstart b)
    (sb_inodestart b) (sb_bmapstart b).
Definition set_sb_size (v : Z) (b : superblock) : superblock :=
 mksuperblock (sb_magic b) v (sb_nblocks b) (sb_ninodes b) (sb_nlog b) (sb_logstart b)
    (sb_inodestart b) (sb_bmapstart b).
Definition set_sb_nblocks (v : Z) (b : superblock) : superblock :=
 mksuperblock (sb_magic b) (sb_size b) v (sb_ninodes b) (sb_nlog b) (sb_logstart b)
    (sb_inodestart b) (sb_bmapstart b).
Definition set_sb_ninodes (v : Z) (b : superblock) : superblock :=
 mksuperblock (sb_magic b) (sb_size b) (sb_nblocks b) v (sb_nlog b) (sb_logstart b)
    (sb_inodestart b) (sb_bmapstart b).
Definition set_sb_nlog (v : Z) (b : superblock) : superblock :=
 mksuperblock (sb_magic b) (sb_size b) (sb_nblocks b) (sb_ninodes b) v (sb_logstart b)
    (sb_inodestart b) (sb_bmapstart b).
Definition set_sb_logstart (v : Z) (b : superblock) : superblock :=
 mksuperblock (sb_magic b) (sb_size b) (sb_nblocks b) (sb_ninodes b) (sb_nlog b) v
    (sb_inodestart b) (sb_bmapstart b).
Definition set_sb_inodestart (v : Z) (b : superblock) : superblock :=
 mksuperblock (sb_magic b) (sb_size b) (sb_nblocks b) (sb_ninodes b) (sb_nlog b) (sb_logstart b)
    v (sb_bmapstart b).
Definition set_sb_bmapstart (v : Z) (b : superblock) : superblock :=
 mksuperblock (sb_magic b) (sb_size b) (sb_nblocks b) (sb_ninodes b) (sb_nlog b) (sb_logstart b)
    (sb_inodestart b) v.

(** struct inode (kernel/file.h). *)
Record inode := mkinode {
  i_dev : Z;
  i_inum : Z;
  i_ref : Z;
  i_lock : sleeplock;
  i_valid : Z;
  i_type : Z;
  i_major : Z;
  i_minor : Z;
  i_nlink : Z;
  i_size : Z;
  i_addrs : list Z;   (* addrs[NDIRECT+1] *)
}.

Definition set_i_dev (v : Z) (ip : inode) : inode :=
 mkinode v (i_inum ip) (i_ref ip) (i_lock ip) (i_valid ip) (i_type ip) (i_major ip) (i_minor ip)
    (i_nlink ip) (i_size ip) (i_addrs ip).
Definition set_i_inum (v : Z) (ip : inode) : inode :=
 mkinode (i_dev ip) v (i_ref ip) (i_lock ip) (i_valid ip) (i_type ip) (i_major ip) (i_minor ip)
    (i_nlink ip) (i_size ip) (i_addrs ip).
Definition set_i_ref (v : Z) (ip : inode) : inode :=
 mkinode (i_dev ip) (i_inum ip) v (i_lock ip) (i_valid ip) (i_type ip) (i_major ip) (i_minor ip)
    (i_nlink ip) (i_size ip) (i_addrs ip).
Definition set_i_lock (v : sleeplock) (ip : inode) : inode :=
 mkinode (i_dev ip) (i_inum ip) (i_ref ip) v (i_valid ip) (i_type ip) (i_major ip) (i_minor ip)
    (i_nlink ip) (i_size ip) (i_addrs ip).
Definition set_i_valid (v : Z) (ip : inode) : inode :=
 mkinode (i_dev ip) (i_inum ip) (i_ref ip) (i_lock ip) v (i_type ip) (i_major ip) (i_minor ip)
    (i_nlink ip) (i_size ip) (i_addrs ip).
Definition set_i_type (v : Z) (ip : inode) : inode :=
 mkinode (i_dev ip) (i_inum ip) (i_ref ip) (i_lock ip) (i_valid ip) v (i_major ip) (i_minor ip)
    (i_nlink ip) (i_size ip) (i_addrs ip).
Definition set_i_major (v : Z) (ip : inode) : inode :=
 mkinode (i_dev ip) (i_inum ip) (i_ref ip) (i_lock ip) (i_valid ip) (i_type ip) v (i_minor ip)
    (i_nlink ip) (i_size ip) (i_addrs ip).
Definition set_i_minor (v : Z) (ip : inode) : inode :=
 mkinode (i_dev ip) (i_inum ip) (i_ref ip) (i_lock ip) (i_valid ip) (i_type ip) (i_major ip) v
    (i_nlink ip) (i_size ip) (i_addrs ip).
Definition set_i_nlink (v : Z) (ip : inode) : inode :=
 mkinode (i_dev ip) (i_inum ip) (i_ref ip) (i_lock ip) (i_valid ip) (i_type ip) (i_major ip)
    (i_minor ip) v (i_size ip) (i_addrs ip).
Definition set_i_size (v : Z) (ip : inode) : inode :=
 mkinode (i_dev ip) (i_inum ip) (i_ref ip) (i_lock ip) (i_valid ip) (i_type ip) (i_major ip)
    (i_minor ip) (i_nlink ip) v (i_addrs ip).
Definition set_i_addrs (v : list Z) (ip : inode) : inode :=
 mkinode (i_dev ip) (i_inum ip) (i_ref ip) (i_lock ip) (i_valid ip) (i_type ip) (i_major ip)
    (i_minor ip) (i_nlink ip) (i_size ip) v.

(** The console's input buffer (kernel/console.c); its lock is [L_cons]. *)
Record console := mkconsole {
  co_buf : list Z;   (* buf[INPUT_BUF_SIZE] *)
  co_r : Z;
  co_w : Z;
  co_e : Z;
}.

Definition set_co_buf (v : list Z) (c : console) : console :=
 mkconsole v (co_r c) (co_w c) (co_e c).
Definition set_co_r (v : Z) (c : console) : console :=
 mkconsole (co_buf c) v (co_w c) (co_e c).
Definition set_co_w (v : Z) (c : console) : console :=
 mkconsole (co_buf c) (co_r c) v (co_e c).
Definition set_co_e (v : Z) (c : console) : console :=
 mkconsole (co_buf c) (co_r c) (co_w c) v.

(** The UART's transmit buffer (kernel/uart.c); its lock is [L_uart]. *)
Record uart := mkuart {
  ut_buf : list Z;   (* uart_tx_buf[UART_TX_BUF_SIZE] *)
  ut_w : Z;
  ut_r : Z;
  ut_idle : list bool;   (* the device: LSR_TX_IDLE at each coming read of LSR *)
  ut_rx : list Z;   (* the device: bytes received and not yet read from RHR *)
}.

Definition set_ut_buf (v : list Z) (u : uart) : uart :=
 mkuart v (ut_w u) (ut_r u) (ut_idle u) (ut_rx u).
Definition set_ut_w (v : Z) (u : uart) : uart :=
 mkuart (ut_buf u) v (ut_r u) (ut_idle u) (ut_rx u).
Definition set_ut_r (v : Z) (u : uart) : uart :=
 mkuart (ut_buf u) (ut_w u) v (ut_idle u) (ut_rx u).
Definition set_ut_idle (v : list bool) (u : uart) : uart :=
 mkuart (ut_buf u) (ut_w u) (ut_r u) v (ut_rx u).
Definition set_ut_rx (v : list Z) (u : uart) : uart :=
 mkuart (ut_buf u) (ut_w u) (ut_r u) (ut_idle u) v.

(** struct virtq_desc (kernel/virtio.h). *)
Record vdesc := mkvdesc {
  d_addr : vaddr;
  d_len : Z;
  d_flags : Z;
  d_next : Z;
}.

Definition set_d_addr (v : vaddr) (d : vdesc) : vdesc :=
 mkvdesc v (d_len d) (d_flags d) (d_next d).
Definition set_d_len (v : Z) (d : vdesc) : vdesc :=
 mkvdesc (d_addr d) v (d_flags d) (d_next d).
Definition set_d_flags (v : Z) (d : vdesc) : vdesc :=
 mkvdesc (d_addr d) (d_len d) v (d_next d).
Definition set_d_next (v : Z) (d : vdesc) : vdesc :=
 mkvdesc (d_addr d) (d_len d) (d_flags d) v.

(** struct virtio_blk_req (kernel/virtio.h). *)
Record vreq := mkvreq {
  q_type : Z;
  q_reserved : Z;
  q_sector : Z;
}.

Definition set_q_type (v : Z) (q : vreq) : vreq :=
 mkvreq v (q_reserved q) (q_sector q).
Definition set_q_reserved (v : Z) (q : vreq) : vreq :=
 mkvreq (q_type q) v (q_sector q).
Definition set_q_sector (v : Z) (q : vreq) : vreq :=
 mkvreq (q_type q) (q_reserved q) v.

(** struct disk (kernel/virtio_disk.c), with the rings it shares with the device; its lock is [L_vdisk]. *)
Record vdisk := mkvdisk {
  vd_desc : list vdesc;   (* desc[NUM] *)
  vd_avail_idx : Z;   (* avail->idx *)
  vd_avail_ring : list Z;   (* avail->ring[NUM] *)
  vd_used_dev : Z;   (* used->idx *)
  vd_used_ring : list Z;   (* used->ring[NUM].id *)
  vd_free : list bool;   (* free[NUM] *)
  vd_used_idx : Z;   (* used_idx *)
  vd_info_b : list (option nat);   (* info[NUM].b *)
  vd_info_status : list Z;   (* info[NUM].status *)
  vd_ops : list vreq;   (* ops[NUM] *)
}.

Definition set_vd_desc (v : list vdesc) (w : vdisk) : vdisk :=
 mkvdisk v (vd_avail_idx w) (vd_avail_ring w) (vd_used_dev w) (vd_used_ring w) (vd_free w)
    (vd_used_idx w) (vd_info_b w) (vd_info_status w) (vd_ops w).
Definition set_vd_avail_idx (v : Z) (w : vdisk) : vdisk :=
 mkvdisk (vd_desc w) v (vd_avail_ring w) (vd_used_dev w) (vd_used_ring w) (vd_free w)
    (vd_used_idx w) (vd_info_b w) (vd_info_status w) (vd_ops w).
Definition set_vd_avail_ring (v : list Z) (w : vdisk) : vdisk :=
 mkvdisk (vd_desc w) (vd_avail_idx w) v (vd_used_dev w) (vd_used_ring w) (vd_free w)
    (vd_used_idx w) (vd_info_b w) (vd_info_status w) (vd_ops w).
Definition set_vd_used_dev (v : Z) (w : vdisk) : vdisk :=
 mkvdisk (vd_desc w) (vd_avail_idx w) (vd_avail_ring w) v (vd_used_ring w) (vd_free w)
    (vd_used_idx w) (vd_info_b w) (vd_info_status w) (vd_ops w).
Definition set_vd_used_ring (v : list Z) (w : vdisk) : vdisk :=
 mkvdisk (vd_desc w) (vd_avail_idx w) (vd_avail_ring w) (vd_used_dev w) v (vd_free w)
    (vd_used_idx w) (vd_info_b w) (vd_info_status w) (vd_ops w).
Definition set_vd_free (v : list bool) (w : vdisk) : vdisk :=
 mkvdisk (vd_desc w) (vd_avail_idx w) (vd_avail_ring w) (vd_used_dev w) (vd_used_ring w) v
    (vd_used_idx w) (vd_info_b w) (vd_info_status w) (vd_ops w).
Definition set_vd_used_idx (v : Z) (w : vdisk) : vdisk :=
 mkvdisk (vd_desc w) (vd_avail_idx w) (vd_avail_ring w) (vd_used_dev w) (vd_used_ring w)
    (vd_free w) v (vd_info_b w) (vd_info_status w) (vd_ops w).
Definition set_vd_info_b (v : list (option nat)) (w : vdisk) : vdisk :=
 mkvdisk (vd_desc w) (vd_avail_idx w) (vd_avail_ring w) (vd_used_dev w) (vd_used_ring w)
    (vd_free w) (vd_used_idx w) v (vd_info_status w) (vd_ops w).
Definition set_vd_info_status (v : list Z) (w : vdisk) : vdisk :=
 mkvdisk (vd_desc w) (vd_avail_idx w) (vd_avail_ring w) (vd_used_dev w) (vd_used_ring w)
    (vd_free w) (vd_used_idx w) (vd_info_b w) v (vd_ops w).
Definition set_vd_ops (v : list vreq) (w : vdisk) : vdisk :=
 mkvdisk (vd_desc w) (vd_avail_idx w) (vd_avail_ring w) (vd_used_dev w) (vd_used_ring w)
    (vd_free w) (vd_used_idx w) (vd_info_b w) (vd_info_status w) v.

(** The state of the file system and of the devices. *)
Record fsys := mkfsys {
  fs_bufs : list buf;   (* bcache.buf[NBUF], then bcache.head *)
  fs_log : logst;
  fs_sb : superblock;
  fs_inodes : list inode;   (* itable.inode[NINODE] *)
  fs_cons : console;
  fs_uart : uart;
  fs_vdisk : vdisk;
  fs_disk : gmap Z block;   (* the disk's contents, by block number *)
  fs_writes : list (Z * block);   (* the block writes the disk has completed, in order *)
  fs_panicked : bool;   (* panicked (kernel/printf.c) *)
  fs_locking : bool;   (* pr.locking (kernel/printf.c) *)
  fs_mmio : list (Z * Z);   (* device registers written for set-up and acknowledgement, with the values, oldest first *)
}.

Definition set_fs_bufs (v : list buf) (f : fsys) : fsys :=
 mkfsys v (fs_log f) (fs_sb f) (fs_inodes f) (fs_cons f) (fs_uart f) (fs_vdisk f) (fs_disk f)
    (fs_writes f) (fs_panicked f) (fs_locking f) (fs_mmio f).
Definition set_fs_log (v : logst) (f : fsys) : fsys :=
 mkfsys (fs_bufs f) v (fs_sb f) (fs_inodes f) (fs_cons f) (fs_uart f) (fs_vdisk f) (fs_disk f)
    (fs_writes f) (fs_panicked f) (fs_locking f) (fs_mmio f).
Definition set_fs_sb (v : superblock) (f : fsys) : fsys :=
 mkfsys (fs_bufs f) (fs_log f) v (fs_inodes f) (fs_cons f) (fs_uart f) (fs_vdisk f) (fs_disk f)
    (fs_writes f) (fs_panicked f) (fs_locking f) (fs_mmio f).
Definition set_fs_inodes (v : list inode) (f : fsys) : fsys :=
 mkfsys (fs_bufs f) (fs_log f) (fs_sb f) v (fs_cons f) (fs_uart f) (fs_vdisk f) (fs_disk f)
    (fs_writes f) (fs_panicked f) (fs_locking f) (fs_mmio f).
Definition set_fs_cons (v : console) (f : fsys) : fsys :=
 mkfsys (fs_bufs f) (fs_log f) (fs_sb f) (fs_inodes f) v (fs_uart f) (fs_vdisk f) (fs_disk f)
    (fs_writes f) (fs_panicked f) (fs_locking f) (fs_mmio f).
Definition set_fs_uart (v : uart) (f : fsys) : fsys :=
 mkfsys (fs_bufs f) (fs_log f) (fs_sb f) (fs_inodes f) (fs_cons f) v (fs_vdisk f) (fs_disk f)
    (fs_writes f) (fs_panicked f) (fs_locking f) (fs_mmio f).
Definition set_fs_vdisk (v : vdisk) (f : fsys) : fsys :=
 mkfsys (fs_bufs f) (fs_log f) (fs_sb f) (fs_inodes f) (fs_cons f) (fs_uart f) v (fs_disk f)
    (fs_writes f) (fs_panicked f) (fs_locking f) (fs_mmio f).
Definition set_fs_disk (v : gmap Z block) (f : fsys) : fsys :=
 mkfsys (fs_bufs f) (fs_log f) (fs_sb f) (fs_inodes f) (fs_cons f) (fs_uart f) (fs_vdisk f) v
    (fs_writes f) (fs_panicked f) (fs_locking f) (fs_mmio f).
Definition set_fs_writes (v : list (Z * block)) (f : fsys) : fsys :=
 mkfsys (fs_bufs f) (fs_log f) (fs_sb f) (fs_inodes f) (fs_cons f) (fs_uart f) (fs_vdisk f)
    (fs_disk f) v (fs_panicked f) (fs_locking f) (fs_mmio f).
Definition set_fs_panicked (v : bool) (f : fsys) : fsys :=
 mkfsys (fs_bufs f) (fs_log f) (fs_sb f) (fs_inodes f) (fs_cons f) (fs_uart f) (fs_vdisk f)
    (fs_disk f) (fs_writes f) v (fs_locking f) (fs_mmio f).
Definition set_fs_locking (v : bool) (f : fsys) : fsys :=
 mkfsys (fs_bufs f) (fs_log f) (fs_sb f) (fs_inodes f) (fs_cons f) (fs_uart f) (fs_vdisk f)
    (fs_disk f) (fs_writes f) (fs_panicked f) v (fs_mmio f).
Definition set_fs_mmio (v : list (Z * Z)) (f : fsys) : fsys :=
 mkfsys (fs_bufs f) (fs_log f) (fs_sb f) (fs_inodes f) (fs_cons f) (fs_uart f) (fs_vdisk f)
    (fs_disk f) (fs_writes f) (fs_panicked f) (fs_locking f) v.

Definition zero_sleeplock : sleeplock := mksleeplock false EmptyString 0.
Definition zero_buf : buf := mkbuf 0 0 0 0 zero_sleeplock 0 0 0 ∅.
Definition zero_inode : inode := mkinode 0 0 0 zero_sleeplock 0 0 0 0 0 0 (replicate 13 0).

Definition get_buf (i : nat) (f : fsys) : buf := default zero_buf (fs_bufs f !! i).
Definition get_inode (i : nat) (f : fsys) : inode := default zero_inode (fs_inodes f !! i).

Definition upd_buf (i : nat) (g : buf -> buf) (f : fsys) : fsys :=
  set_fs_bufs (alter g i (fs_bufs f)) f.
Definition upd_inode (i : nat) (g : inode -> inode) (f : fsys) : fsys :=
  set_fs_inodes (alter g i (fs_inodes f)) f.
Definition upd_log (g : logst -> logst) (f : fsys) : fsys := set_fs_log (g (fs_log f)) f.
Definition upd_cons (g : console -> console) (f : fsys) : fsys := set_fs_cons (g (fs_cons f)) f.
Definition upd_uart (g : uart -> uart) (f : fsys) : fsys := set_fs_uart (g (fs_uart f)) f.
Definition upd_vdisk (g : vdisk -> vdisk) (f : fsys) : fsys := set_fs_vdisk (g (fs_vdisk f)) f.

(** ** Commands on that state *)

Definition fs_gets {A} (g : fsys -> A) : K (kstate fsys) A := gets (fun s => g (k_fs s)).
Definition fs_modify (g : fsys -> fsys) : K (kstate fsys) unit :=
  modify (fun s => set_k_fs (g (k_fs s)) s).

(** A store to a device register. *)
Definition mmio_write (a v : Z) : K (kstate fsys) unit :=
  fs_modify (fun f => set_fs_mmio (fs_mmio f ++ [(a, v)]) f).
