(* ===== verification/Quiet.v ===== *)
(** Running file-system code without contention.

    [quiet p pid s]: process [p] runs, no file-system lock is taken, and no
    process waits on a file-system channel. From such a state the code of
    kernel/bio.c, kernel/log.c and kernel/fs.c waits for the disk only, and what it
    does is a function of the file-system state alone:

      eval p pid H c H' f a f'

    says that [c], started with the spinlocks [H] held and file-system state [f],
    returns [a] with the locks [H'] held and state [f'], and changes nothing else;
    where it switches, the rest of the machine runs as [world] says. The rules
    below compose such evaluations along the code. *)
From S2P Require Import Prelude Riscv Machine Spinlock KString Kalloc Vm Sched FsState.

Definition fs_lock (l : lockid) : bool :=
  match l with
  | L_bcache | L_log | L_itable | L_vdisk => true
  | L_buf i => (i <? NBUF)%nat
  | L_inode i => (i <? NINODE)%nat
  | _ => false
  end.

Definition fs_chan (ch : chan) : bool :=
  match ch with
  | Ch_buf _ | Ch_buf_lock _ | Ch_inode_lock _ | Ch_log | Ch_disk => true
  | _ => false
  end.

Record quiet (p : nat) (pid : Z) (s : kstate fsys) : Prop := {
  q_cpu : cpu_ok s;
  q_settled : settle s = s;
  q_cur : cur s = Some p;
  q_noff : c_noff (get_cpu s) = 0;
  q_lt : (p < NPROC)%nat;
  q_run : p_state (get_proc p s) = RUNNING;
  q_chan : p_chan (get_proc p s) = None;
  q_pid : p_pid (get_proc p s) = pid;
  q_lock : forall l, fs_lock l = true -> lock_free l s;
  q_plock : forall i, (i < NPROC)%nat -> lock_free (L_proc i) s;
  q_procs : length (k_procs s) = NPROC;
  q_awake : forall j q ch, k_procs s !! j = Some q -> p_state q = SLEEPING ->
    p_chan q = Some ch -> fs_chan ch = false
}.

(** The locks of [H], taken last to first. *)
Fixpoint holds (H : list lockid) (s : kstate fsys) : kstate fsys :=
  match H with
  | [] => s
  | l :: H => hold l (holds H s)
  end.

Section Holds.
Context (p : nat) (pid : Z).
Implicit Types s : kstate fsys.

Lemma quiet_fs s f : quiet p pid s -> quiet p pid (set_k_fs f s).
Proof. intros []. split; try done. apply kstate_ext; try reflexivity. cbn. exact (f_equal k_cpus q_settled0). Qed.

Lemma holds_fs H s f : holds H (set_k_fs f s) = set_k_fs f (holds H s).
Proof. induction H as [|l H IH]; [done|]. cbn [holds]. rewrite IH. kst. Qed.

Lemma k_fs_holds H s : k_fs (holds H s) = k_fs s.
Proof. by induction H. Qed.

Lemma get_proc_holds H s i : get_proc i (holds H s) = get_proc i s.
Proof. by induction H. Qed.

Lemma k_procs_holds H s : k_procs (holds H s) = k_procs s.
Proof. by induction H. Qed.

Lemma holds_cpu H s : cpu_ok s -> cpu_ok (holds H s).
Proof. intros Hok. induction H as [|l H IH]; [done|]. by apply cpu_ok_hold. Qed.

Lemma holds_lock H s l : (l ∉ H) -> lock_free l s -> lock_free l (holds H s).
Proof.
  intros Hn Hl. induction H as [|l' H IH]; [done|].
  apply not_elem_of_cons in Hn as [Hne Hn]. cbn. by apply lock_free_hold; [|apply IH].
Qed.

Lemma holds_cur H s : cpu_ok s -> cur (holds H s) = cur s.
Proof.
  intros Hok. induction H as [|l H IH]; [done|]. cbn. by rewrite cur_hold by (by apply holds_cpu).
Qed.

Lemma holds_settle H s : cpu_ok s -> settle s = s -> settle (holds H s) = holds H s.
Proof.
  intros Hok Hs. destruct H as [|l H]; [done|]. cbn. apply settle_hold. by apply holds_cpu.
Qed.

Lemma set_fs_id s : set_k_fs (k_fs s) s = s.
Proof. kst. Qed.

Lemma set_fs_set s f g : set_k_fs f (set_k_fs g s) = set_k_fs f s.
Proof. kst. Qed.
End Holds.

(** ** Evaluation *)

(** What the rest of the machine — devices, interrupt handlers, the scheduler —
    does between the moment this thread gives up the CPU and the moment it runs
    again. *)
Class World := world : kstate fsys -> kstate fsys.

(** The code returns [a] in [s], the machine doing its part at each switch. *)
Inductive resolves `{World0 : World} {A} : outcome (kstate fsys) A -> A -> kstate fsys -> Prop :=
| res_ret a s : resolves (Ret a s) a s
| res_swtch s k a s' : resolves (k (world s)) a s' -> resolves (Swtch s k) a s'.

Inductive panics `{World0 : World} {A} : outcome (kstate fsys) A -> string -> Prop :=
| pan_now msg s : panics (Panic msg s) msg
| pan_swtch s k msg : panics (k (world s)) msg -> panics (Swtch s k) msg.

Definition eval `{World0 : World} (p : nat) (pid : Z) (H : list lockid) {A} (c : K (kstate fsys) A)
    (H' : list lockid) (f : fsys) (a : A) (f' : fsys) : Prop :=
  forall s, quiet p pid s -> k_fs s = f -> resolves (c (holds H s)) a (holds H' (set_k_fs f' s)).

(** The code ends in a panic. *)
Definition fails `{World0 : World} (p : nat) (pid : Z) (H : list lockid) {A} (c : K (kstate fsys) A) (f : fsys)
    (msg : string) : Prop :=
  forall s, quiet p pid s -> k_fs s = f -> panics (c (holds H s)) msg.

Section Resolve.
Context `{World0 : World}.

Lemma resolves_bind {A B} (o : outcome (kstate fsys) A) (k : A -> K (kstate fsys) B) a s b s' :
  resolves o a s -> resolves (k a s) b s' -> resolves (obind o k) b s'.
Proof. intros H Hk. induction H as [|s1 k1 a s2 H IH]; cbn; [done|]. constructor. by apply IH. Qed.

Lemma panics_bind {A B} (o : outcome (kstate fsys) A) (k : A -> K (kstate fsys) B) a s msg :
  resolves o a s -> panics (k a s) msg -> panics (obind o k) msg.
Proof. intros H Hk. induction H as [|s1 k1 a s2 H IH]; cbn; [done|]. constructor. by apply IH. Qed.

Lemma panics_first {A B} (o : outcome (kstate fsys) A) (k : A -> K (kstate fsys) B) msg :
  panics o msg -> panics (obind o k) msg.
Proof. induction 1 as [|s1 k1 msg H IH]; cbn; constructor. by apply IH. Qed.
End Resolve.

Section Rules.
Context `{World0 : World} (p : nat) (pid : Z).

Lemma eval_direct {A} H H' (c : K (kstate fsys) A) f a f' :
  (forall s, quiet p pid s -> k_fs s = f -> c (holds H s) = Ret a (holds H' (set_k_fs f' s))) ->
  eval p pid H c H' f a f'.
Proof. intros E s Hq Ef. rewrite (E s Hq Ef). constructor. Qed.

Lemma eval_bind {A B} H H1 H2 (c : K (kstate fsys) A) (k : A -> K (kstate fsys) B) f a f1 b f2 :
  eval p pid H c H1 f a f1 -> eval p pid H1 (k a) H2 f1 b f2 -> eval p pid H (kbind c k) H2 f b f2.
Proof.
  intros Hc Hk s Hq Ef. eapply resolves_bind; [by apply Hc|].
  pose proof (Hk _ (quiet_fs p pid s f1 Hq) eq_refl) as H'. by rewrite set_fs_set in H'.
Qed.

Lemma fails_first {A B} H (c : K (kstate fsys) A) (k : A -> K (kstate fsys) B) f msg :
  fails p pid H c f msg -> fails p pid H (kbind c k) f msg.
Proof. intros Hc s Hq Ef. apply panics_first. by apply Hc. Qed.

Lemma fails_next {A B} H H1 (c : K (kstate fsys) A) (k : A -> K (kstate fsys) B) f a f1 msg :
  eval p pid H c H1 f a f1 -> fails p pid H1 (k a) f1 msg -> fails p pid H (kbind c k) f msg.
Proof.
  intros Hc Hk s Hq Ef. eapply panics_bind; [by apply Hc|].
  apply (Hk _ (quiet_fs p pid s f1 Hq) eq_refl).
Qed.

Lemma fails_panic {A} H f msg : fails p pid H (panic (A := A) msg) f msg.
Proof. intros s _ _. constructor. Qed.

Lemma eval_ret {A} H (a : A) f : eval p pid H (ret a) H f a f.
Proof. apply eval_direct. intros s _ <-. by rewrite set_fs_id. Qed.

Lemma eval_gets {A} H (g : fsys -> A) f : eval p pid H (fs_gets g) H f (g f) f.
Proof. apply eval_direct. intros s _ <-. unfold fs_gets, gets. by rewrite k_fs_holds, set_fs_id. Qed.

Lemma eval_modify H (g : fsys -> fsys) f : eval p pid H (fs_modify g) H f tt (g f).
Proof. apply eval_direct. intros s _ <-. unfold fs_modify, modify. by rewrite k_fs_holds, holds_fs. Qed.

Lemma eval_acquire H l f :
  fs_lock l = true -> (l ∉ H) -> eval p pid H (acquire l) (l :: H) f tt f.
Proof.
  intros Hl Hn. apply eval_direct. intros s Hq <-. rewrite set_fs_id. cbn [holds]. apply acquire_free.
  - apply holds_cpu, Hq.
  - apply holds_lock; [done|]. by apply Hq.
Qed.

Lemma eval_release H l f :
  fs_lock l = true -> (l ∉ H) -> eval p pid (l :: H) (release l) H f tt f.
Proof.
  intros Hl Hn. apply eval_direct. intros s Hq <-. rewrite set_fs_id. cbn [holds]. rewrite release_hold.
  - f_equal. apply holds_settle; apply Hq.
  - apply holds_cpu, Hq.
  - apply holds_lock; [done|]. by apply Hq.
Qed.

Lemma eval_curproc H f : eval p pid H curproc H f p f.
Proof.
  apply eval_direct. intros s Hq <-. rewrite set_fs_id.
  rewrite (curproc_spec _ p); [|apply holds_cpu, Hq|rewrite holds_cur; apply Hq].
  f_equal. apply holds_settle; apply Hq.
Qed.

Lemma eval_pid {A} H (k : Z -> K (kstate fsys) A) H' f a f' :
  eval p pid H (k pid) H' f a f' ->
  eval p pid H (x <- gets (fun s => p_pid (get_proc p s)) ;; k x) H' f a f'.
Proof.
  intros Hk s Hq Ef. rewrite kbind_gets, get_proc_holds, (q_pid _ _ _ Hq). by apply Hk.
Qed.

(** Nobody is waiting. *)
Lemma eval_wakeup H ch f :
  fs_chan ch = true -> (forall i, L_proc i ∉ H) -> eval p pid H (wakeup ch) H f tt f.
Proof.
  intros Hch HH. apply eval_direct. intros s Hq <-. rewrite set_fs_id. unfold wakeup.
  rewrite (wakeup_spec (Some p)).
  - f_equal. transitivity (settle (holds H s)); [f_equal|apply holds_settle; apply Hq].
    rewrite k_procs_holds. replace (woken (Some p) (Some ch) (k_procs s)) with (k_procs (holds H s)).
    { by destruct (holds H s). }
    rewrite k_procs_holds. apply list_eq. intros j. unfold woken. rewrite list_lookup_imap.
    destruct (k_procs s !! j) as [q|] eqn:E; [|done]. cbn. f_equal. case_bool_decide; [done|].
    unfold wake. destruct (bool_decide (p_state q = SLEEPING) && bool_decide (p_chan q = Some ch)) eqn:Eb;
      [|done]. apply andb_prop in Eb as [E1%bool_decide_eq_true E2%bool_decide_eq_true].
    pose proof (q_awake _ _ _ Hq j q ch E E1 E2). congruence.
  - split; [apply holds_cpu, Hq|]. split; [rewrite holds_cur; apply Hq|].
    intros i Hi _. apply holds_lock; [apply HH|]. by apply (q_plock _ _ _ Hq).
  - rewrite k_procs_holds. apply Hq.
Qed.

Lemma eval_for {H} i n (body : nat -> K (kstate fsys) unit) (F : nat -> fsys) :
  (forall j, (i <= j < i + n)%nat -> eval p pid H (body j) H (F j) tt (F (S j))) ->
  eval p pid H (for_ i n body) H (F i) tt (F (i + n)%nat).
Proof.
  revert i. induction n as [|n IH]; intros i Hb; cbn [for_].
  - rewrite Nat.add_0_r. apply eval_ret.
  - eapply eval_bind; [apply Hb; lia|]. replace (i + S n)%nat with (S i + n)%nat by lia.
    apply IH. intros j Hj. apply Hb. lia.
Qed.
End Rules.

(** [ev] runs the basic commands at the head of the code; [ev_if] decides a test. *)
Ltac not_in := cbn; rewrite ?elem_of_cons, ?elem_of_nil; intuition congruence.
Ltac ev1 :=
  first
  [ eapply eval_bind;
    [ first [ apply eval_acquire; [reflexivity|not_in]
            | apply eval_release; [reflexivity|not_in]
            | apply eval_gets | apply eval_modify | apply eval_curproc
            | apply eval_ret ] | cbn beta ]
  | apply eval_release; [reflexivity|not_in]
  | apply eval_modify | apply eval_gets | apply eval_ret ].
Ltac ev := repeat ev1.
