(* ===== verification/Sleeplock.v ===== *)
(** kernel/sleeplock.c: locks that are held across disk operations. *)
From S2P Require Import Prelude Riscv Machine Spinlock KString Kalloc Vm Sched Keeps FsIface.
From S2P Require Import FsState Quiet.

(** The sleeplocks of the kernel: those of buffers and inodes. *)
Inductive slk := SL_buf (i : nat) | SL_inode (i : nat).

Definition slk_lock (l : slk) : lockid :=
  match l with SL_buf i => L_buf i | SL_inode i => L_inode i end.
Definition slk_chan (l : slk) : chan :=
  match l with SL_buf i => Ch_buf_lock i | SL_inode i => Ch_inode_lock i end.
Definition get_slk (l : slk) (f : fsys) : sleeplock :=
  match l with SL_buf i => b_lock (get_buf i f) | SL_inode i => i_lock (get_inode i f) end.
Definition upd_slk (l : slk) (g : sleeplock -> sleeplock) (f : fsys) : fsys :=
  match l with
  | SL_buf i => upd_buf i (fun b => set_b_lock (g (b_lock b)) b) f
  | SL_inode i => upd_inode i (fun ip => set_i_lock (g (i_lock ip)) ip) f
  end.

Section Ops.
Context `{Fuel0 : Fuel}.
Abbreviation KM := (K (kstate fsys)).

Definition initsleeplock (lk : slk) (name : string) : KM unit :=
  initlock (slk_lock lk) "sleep lock" ;;
  fs_modify (upd_slk lk (set_sl_name name)) ;;
  fs_modify (upd_slk lk (set_sl_locked false)) ;;
  fs_modify (upd_slk lk (set_sl_pid 0)).

(** while(lk->locked) sleep(lk, &lk->lk) *)
Fixpoint acquiresleep_loop (n : nat) (lk : slk) : KM unit :=
  match n with
  | O => out_of_fuel
  | S n =>
      locked <- fs_gets (fun f => sl_locked (get_slk lk f)) ;;
      if locked : bool
      then sleep (slk_chan lk) (slk_lock lk) ;; acquiresleep_loop n lk
      else ret tt
  end.

Definition acquiresleep (lk : slk) : KM unit :=
  acquire (slk_lock lk) ;;
  acquiresleep_loop (S fuel) lk ;;
  fs_modify (upd_slk lk (set_sl_locked true)) ;;
  p <- curproc ;;
  pid <- gets (fun s => p_pid (get_proc p s)) ;;
  fs_modify (upd_slk lk (set_sl_pid pid)) ;;
  release (slk_lock lk).

Definition releasesleep (lk : slk) : KM unit :=
  acquire (slk_lock lk) ;;
  fs_modify (upd_slk lk (set_sl_locked false)) ;;
  fs_modify (upd_slk lk (set_sl_pid 0)) ;;
  wakeup (slk_chan lk) ;;
  release (slk_lock lk).

Definition holdingsleep (lk : slk) : KM bool :=
  acquire (slk_lock lk) ;;
  l <- fs_gets (get_slk lk) ;;
  r <- (if sl_locked l
        then p <- curproc ;; pid <- gets (fun s => p_pid (get_proc p s)) ;; ret (sl_pid l =? pid)
        else ret false) ;;
  release (slk_lock lk) ;;
  ret r.
End Ops.

(** ** Without contention *)

Section Eval.
Context `{Fuel0 : Fuel} `{World0 : World} (p : nat) (pid : Z).

(** A sleeplock of the buffer cache or of the inode table. *)
Definition slk_in (lk : slk) : bool := fs_lock (slk_lock lk).

Lemma slk_in_buf i : (i < NBUF)%nat -> slk_in (SL_buf i) = true.
Proof. apply Nat.ltb_lt. Qed.

Lemma slk_fs_chan lk : fs_chan (slk_chan lk) = true.
Proof. by destruct lk. Qed.

Lemma slk_not_proc lk i : slk_lock lk <> L_proc i.
Proof. by destruct lk. Qed.

(** The sleeplock as its holder leaves it. *)
Definition locked_by (q : Z) (l : sleeplock) : sleeplock := mksleeplock true (sl_name l) q.
Definition unlocked (l : sleeplock) : sleeplock := mksleeplock false (sl_name l) 0.

Lemma upd_slk_upd lk g h f : upd_slk lk g (upd_slk lk h f) = upd_slk lk (g ∘ h) f.
Proof.
  destruct lk; cbn; unfold upd_buf, upd_inode; cbn; by rewrite list_alter_alter.
Qed.

Lemma eval_acquiresleep lk f :
  slk_in lk = true -> sl_locked (get_slk lk f) = false ->
  eval p pid [] (acquiresleep lk) [] f tt (upd_slk lk (locked_by pid) f).
Proof.
  intros Hfs Hl. unfold acquiresleep, slk_in in *.
  eapply eval_bind; [apply eval_acquire; [done|not_in]|]. cbn beta.
  eapply eval_bind.
  { cbn [acquiresleep_loop]. eapply eval_bind; [apply eval_gets|]. rewrite Hl. apply eval_ret. }
  eapply eval_bind; [apply eval_modify|]. cbn beta. eapply eval_bind; [apply eval_curproc|]. cbn beta.
  apply eval_pid. eapply eval_bind; [apply eval_modify|]. cbn beta.
  rewrite upd_slk_upd. change (set_sl_pid pid ∘ set_sl_locked true) with (locked_by pid).
  apply eval_release; [done|not_in].
Qed.

Lemma eval_releasesleep lk f :
  slk_in lk = true -> eval p pid [] (releasesleep lk) [] f tt (upd_slk lk unlocked f).
Proof.
  intros Hfs. unfold releasesleep, slk_in in *.
  eapply eval_bind; [apply eval_acquire; [done|not_in]|]. cbn beta.
  eapply eval_bind; [apply eval_modify|]. eapply eval_bind; [apply eval_modify|]. cbn beta.
  rewrite upd_slk_upd. change (set_sl_pid 0 ∘ set_sl_locked false) with unlocked.
  eapply eval_bind.
  { apply eval_wakeup; [apply slk_fs_chan|]. intros i. pose proof (slk_not_proc lk i). not_in. }
  cbn beta. apply eval_release; [done|not_in].
Qed.

Lemma eval_holdingsleep lk f :
  slk_in lk = true -> eval p pid [] (holdingsleep lk) [] f
    (sl_locked (get_slk lk f) && (sl_pid (get_slk lk f) =? pid)) f.
Proof.
  intros Hfs. unfold holdingsleep, slk_in in *.
  eapply eval_bind; [apply eval_acquire; [done|not_in]|]. cbn beta.
  eapply eval_bind; [apply eval_gets|]. cbn beta. eapply eval_bind.
  { instantiate (1 := f). instantiate (1 := sl_locked (get_slk lk f) && (sl_pid (get_slk lk f) =? pid)).
    instantiate (1 := [slk_lock lk]). destruct (sl_locked (get_slk lk f)); [|apply eval_ret].
    eapply eval_bind; [apply eval_curproc|]. cbn beta. apply eval_pid. apply eval_ret. }
  cbn beta. eapply eval_bind; [apply eval_release; [done|not_in]|]. apply eval_ret.
Qed.
End Eval.
