(* ===== verification/Bio.v ===== *)
(** kernel/bio.c: the buffer cache.

    The buffers are on a circular doubly linked list through bcache.head, most
    recently used first. [lru f l] says that the list consists of the buffers
    [l] in that order; on [l], brelse() moves a buffer to the front and bget()
    takes the first match, or recycles the last unused one. *)
From S2P Require Import Prelude Riscv Machine Spinlock KString Kalloc Vm Sched Keeps FsIface.
From S2P Require Import FsState Quiet Sleeplock.

(** What the buffer cache needs of the disk driver: virtio_disk_rw(b, write). *)
Class BlockDev := virtio_disk_rw : nat -> bool -> K (kstate fsys) unit.

(** &bcache.head *)
Definition HEAD : nat := NBUF.

Section Ops.
Context `{Fuel0 : Fuel} `{Dev : BlockDev}.
Abbreviation KM := (K (kstate fsys)).

(** b->next = bcache.head.next; b->prev = &bcache.head; *)
Definition link_front1 (b : nat) (f : fsys) : fsys :=
  let f := upd_buf b (set_b_next (b_next (get_buf HEAD f))) f in
  upd_buf b (set_b_prev HEAD) f.

(** bcache.head.next->prev = b; bcache.head.next = b; *)
Definition link_front2 (b : nat) (f : fsys) : fsys :=
  let f := upd_buf (b_next (get_buf HEAD f)) (set_b_prev b) f in
  upd_buf HEAD (set_b_next b) f.

(** b->next->prev = b->prev; b->prev->next = b->next; *)
Definition unlink_buf (b : nat) (f : fsys) : fsys :=
  let f := upd_buf (b_next (get_buf b f)) (set_b_prev (b_prev (get_buf b f))) f in
  upd_buf (b_prev (get_buf b f)) (set_b_next (b_next (get_buf b f))) f.

Definition binit : KM unit :=
  initlock L_bcache "bcache" ;;
  fs_modify (upd_buf HEAD (set_b_prev HEAD)) ;;
  fs_modify (upd_buf HEAD (set_b_next HEAD)) ;;
  for_ 0 NBUF (fun b =>
    fs_modify (link_front1 b) ;;
    initsleeplock (SL_buf b) "buffer" ;;
    fs_modify (link_front2 b)).

(** The first loop of bget(), from buffer [b] on; the list has at most NBUF
    elements. *)
Fixpoint find_cached (n : nat) (dev blockno : Z) (b : nat) : KM (option nat) :=
  match n with
  | O => out_of_fuel
  | S n =>
      if (b =? HEAD)%nat then ret None else
      x <- fs_gets (get_buf b) ;;
      if (b_dev x =? dev) && (b_blockno x =? blockno) then ret (Some b)
      else find_cached n dev blockno (b_next x)
  end.

(** The second loop. *)
Fixpoint find_unused (n : nat) (b : nat) : KM (option nat) :=
  match n with
  | O => out_of_fuel
  | S n =>
      if (b =? HEAD)%nat then ret None else
      x <- fs_gets (get_buf b) ;;
      if b_refcnt x =? 0 then ret (Some b) else find_unused n (b_prev x)
  end.

Definition add_ref (b : buf) : buf := set_b_refcnt (u32 (b_refcnt b + 1)) b.
Definition sub_ref (b : buf) : buf := set_b_refcnt (u32 (b_refcnt b - 1)) b.

Definition bget (dev blockno : Z) : KM nat :=
  acquire L_bcache ;;
  first <- fs_gets (fun f => b_next (get_buf HEAD f)) ;;
  r <- find_cached (S NBUF) dev blockno first ;;
  match r with
  | Some b =>
      fs_modify (upd_buf b add_ref) ;;
      release L_bcache ;;
      acquiresleep (SL_buf b) ;;
      ret b
  | None =>
      last <- fs_gets (fun f => b_prev (get_buf HEAD f)) ;;
      r <- find_unused (S NBUF) last ;;
      match r with
      | Some b =>
          fs_modify (upd_buf b (set_b_dev dev)) ;;
          fs_modify (upd_buf b (set_b_blockno blockno)) ;;
          fs_modify (upd_buf b (set_b_valid 0)) ;;
          fs_modify (upd_buf b (set_b_refcnt 1)) ;;
          release L_bcache ;;
          acquiresleep (SL_buf b) ;;
          ret b
      | None => panic "bget: no buffers"
      end
  end.

Definition bread (dev blockno : Z) : KM nat :=
  b <- bget dev blockno ;;
  valid <- fs_gets (fun f => b_valid (get_buf b f)) ;;
  (when valid =? 0 do
     (virtio_disk_rw b false ;;
      fs_modify (upd_buf b (set_b_valid 1)))) ;;
  ret b.

Definition bwrite (b : nat) : KM unit :=
  h <- holdingsleep (SL_buf b) ;;
  if negb h then panic "bwrite" else
  virtio_disk_rw b true.

Definition brelse (b : nat) : KM unit :=
  h <- holdingsleep (SL_buf b) ;;
  if negb h then panic "brelse" else
  releasesleep (SL_buf b) ;;
  acquire L_bcache ;;
  fs_modify (upd_buf b sub_ref) ;;
  x <- fs_gets (get_buf b) ;;
  (when b_refcnt x =? 0 do
     (fs_modify (unlink_buf b) ;;
      fs_modify (link_front1 b) ;;
      fs_modify (link_front2 b))) ;;
  release L_bcache.

Definition bpin (b : nat) : KM unit :=
  acquire L_bcache ;;
  fs_modify (upd_buf b add_ref) ;;
  release L_bcache.

Definition bunpin (b : nat) : KM unit :=
  acquire L_bcache ;;
  fs_modify (upd_buf b sub_ref) ;;
  release L_bcache.
End Ops.

(** ** The list *)

Lemma get_buf_upd i j g f :
  (j < length (fs_bufs f))%nat ->
  get_buf i (upd_buf j g f) = if decide (i = j) then g (get_buf i f) else get_buf i f.
Proof.
  intros Hj. unfold get_buf, upd_buf. cbn. case_decide as E; subst.
  - rewrite list_lookup_alter_eq. by destruct (lookup_lt_is_Some_2 _ _ Hj) as [b ->].
  - by rewrite list_lookup_alter_ne by done.
Qed.

Lemma length_upd_buf j g f : length (fs_bufs (upd_buf j g f)) = length (fs_bufs f).
Proof. unfold upd_buf. cbn. apply length_alter. Qed.

(** From [x] the pointers lead through [l], forward and back. *)
Fixpoint linked (f : fsys) (x : nat) (l : list nat) : Prop :=
  match l with
  | [] => True
  | y :: l => b_next (get_buf x f) = y /\ b_prev (get_buf y f) = x /\ linked f y l
  end.

Definition lru (f : fsys) (l : list nat) : Prop :=
  length (fs_bufs f) = S NBUF /\ NoDup l /\ Forall (fun b => (b < NBUF)%nat) l /\
  linked f HEAD (l ++ [HEAD]).

(** The elements whose [next] the chain uses, and its last element. *)
Fixpoint sources (x : nat) (l : list nat) : list nat :=
  match l with
  | [] => []
  | y :: l => x :: sources y l
  end.

Fixpoint end_of (x : nat) (l : list nat) : nat :=
  match l with
  | [] => x
  | y :: l => end_of y l
  end.

Lemma sources_snoc x l y : sources x (l ++ [y]) = x :: l.
Proof. revert x. induction l as [|z l IH]; intros x; [done|]. cbn. by rewrite IH. Qed.

Lemma sources_sub x l z : z ∈ sources x l -> z ∈ x :: l.
Proof.
  revert x. induction l as [|y l IH]; intros x H; cbn in H; [by apply not_elem_of_nil in H|].
  apply elem_of_cons in H as [->|H]; [by left|]. right. by apply IH.
Qed.

Lemma end_of_elem x l : end_of x l ∈ x :: l.
Proof. revert x. induction l as [|y l IH]; intros x; [by left|]. right. apply IH. Qed.

Lemma end_not_source x l : NoDup (x :: l) -> end_of x l ∉ sources x l.
Proof.
  revert x. induction l as [|y l IH]; intros x Hnd; cbn; [apply not_elem_of_nil|].
  apply NoDup_cons in Hnd as [Hx Hnd]. apply not_elem_of_cons. split; [|by apply IH].
  intros <-. apply Hx, end_of_elem.
Qed.

Lemma linked_app f x l y r :
  linked f x (l ++ y :: r) <->
  linked f x l /\ b_next (get_buf (end_of x l) f) = y /\ b_prev (get_buf y f) = end_of x l /\ linked f y r.
Proof.
  revert x. induction l as [|z l IH]; intros x; cbn; [tauto|]. rewrite IH. tauto.
Qed.

Lemma linked_ext f f' x l :
  linked f x l ->
  (forall z, z ∈ sources x l -> b_next (get_buf z f') = b_next (get_buf z f)) ->
  (forall z, z ∈ l -> b_prev (get_buf z f') = b_prev (get_buf z f)) -> linked f' x l.
Proof.
  revert x. induction l as [|y l IH]; intros x; [done|]. cbn. intros (E1 & E2 & Hl) Hn Hp.
  split; [rewrite Hn; [done|by left]|]. split; [rewrite Hp; [done|by left]|].
  apply IH; [done| |]; intros z Hz; [apply Hn|apply Hp]; by right.
Qed.

(** Changing anything but the pointers keeps the list. *)
Lemma lru_ext f f' l :
  lru f l -> length (fs_bufs f') = length (fs_bufs f) ->
  (forall z, b_next (get_buf z f') = b_next (get_buf z f) /\ b_prev (get_buf z f') = b_prev (get_buf z f)) ->
  lru f' l.
Proof.
  intros (H1 & H2 & H3 & H4) Hl He. split; [lia|]. split; [done|]. split; [done|].
  eapply linked_ext; [done| |]; intros z _; apply He.
Qed.

Lemma lru_head_fresh f l : lru f l -> HEAD ∉ l.
Proof.
  intros (_ & _ & H & _) Hin. rewrite Forall_forall in H. specialize (H _ Hin). unfold HEAD in H. lia.
Qed.

Lemma unlink_get b f z :
  length (fs_bufs f) = S NBUF -> (b_next (get_buf b f) < S NBUF)%nat ->
  (b_prev (get_buf b f) < S NBUF)%nat -> b_next (get_buf b f) <> b -> b_prev (get_buf b f) <> b ->
  b_next (get_buf z (unlink_buf b f)) =
    (if decide (z = b_prev (get_buf b f)) then b_next (get_buf b f) else b_next (get_buf z f)) /\
  b_prev (get_buf z (unlink_buf b f)) =
    (if decide (z = b_next (get_buf b f)) then b_prev (get_buf b f) else b_prev (get_buf z f)).
Proof.
  intros Hlen Hn Hp Hnb Hpb. unfold unlink_buf.
  set (f1 := upd_buf (b_next (get_buf b f)) _ f).
  assert (get_buf b f1 = get_buf b f) as Eb.
  { unfold f1. rewrite get_buf_upd by lia. by rewrite decide_False. }
  rewrite !Eb, !get_buf_upd by (unfold f1; rewrite ?length_upd_buf; lia).
  unfold f1. rewrite !get_buf_upd by lia. repeat case_decide; done.
Qed.

Lemma lru_unlink f l1 b l2 : lru f (l1 ++ b :: l2) -> lru (unlink_buf b f) (l1 ++ l2).
Proof.
  intros H. pose proof (lru_head_fresh _ _ H) as Hh. destruct H as (Hlen & Hnd & Hlt & Hl).
  rewrite <- app_assoc in Hl. cbn in Hl. destruct (l2 ++ [HEAD]) as [|c r] eqn:Er; [by destruct l2|].
  apply linked_app in Hl as (Hl1 & Ea & Eb & Hc & Ec & Hr).
  assert (b < NBUF)%nat as Hb by (rewrite Forall_forall in Hlt; apply Hlt; set_solver).
  assert (NoDup (HEAD :: l1 ++ b :: l2)) as Hnd' by by constructor.
  assert (forall z, z ∈ HEAD :: l1 ++ b :: l2 -> (z < S NBUF)%nat) as Hin.
  { intros z [->|Hz]%elem_of_cons; [unfold HEAD; lia|]. rewrite Forall_forall in Hlt.
    specialize (Hlt z Hz). lia. }
  assert (c ∈ HEAD :: l2) as Hcl.
  { assert (c ∈ l2 ++ [HEAD]) as Hcx by (rewrite Er; by left). set_solver. }
  assert (end_of HEAD l1 ∈ HEAD :: l1) as Hal by apply end_of_elem.
  set (a := end_of HEAD l1) in *.
  assert (a <> b /\ c <> b) as [Hab Hcb].
  { split; intros ->; [|]; apply NoDup_cons in Hnd' as [? Hnd'];
      apply NoDup_app in Hnd' as (? & Hx & [? ?]%NoDup_cons); set_solver. }
  assert (forall z, b_next (get_buf z (unlink_buf b f)) = (if decide (z = a) then c else b_next (get_buf z f)) /\
    b_prev (get_buf z (unlink_buf b f)) = (if decide (z = c) then a else b_prev (get_buf z f))) as G.
  { intros z. rewrite <- Hc, <- Eb. apply unlink_get; rewrite ?Hc, ?Eb; try done; apply Hin; set_solver. }
  split; [by unfold unlink_buf; rewrite !length_upd_buf|]. split.
  { apply NoDup_app in Hnd as (? & Hx & [? ?]%NoDup_cons). apply NoDup_app. split; [done|].
    split; [|done]. intros z Hz Hz2. apply (Hx z Hz). by right. }
  split; [by apply Forall_app in Hlt as [? [_ ?]%Forall_cons]; apply Forall_app|].
  rewrite <- app_assoc, Er. apply linked_app. fold a.
  apply NoDup_cons in Hnd' as [_ Hnd']. apply NoDup_app in Hnd' as (Hn1 & Hx & [Hb2 Hn2]%NoDup_cons).
  assert (NoDup (HEAD :: l1)) as Hn1' by (constructor; [set_solver|done]).
  split; [|split; [|split]].
  - apply (linked_ext f); [done| |]; intros z Hz; destruct (G z) as [Gn Gp].
    + rewrite Gn, decide_False; [done|]. intros ->. by apply (end_not_source HEAD l1).
    + rewrite Gp, decide_False; [done|]. intros ->. apply elem_of_cons in Hcl as [->|Hcl]; [set_solver|].
      apply (Hx _ Hz). by right.
  - rewrite (proj1 (G a)). by rewrite decide_True.
  - rewrite (proj2 (G c)). by rewrite decide_True.
  - apply (linked_ext f); [done| |]; intros z Hz; destruct (G z) as [Gn Gp].
    + rewrite Gn, decide_False; [done|]. intros ->.
      assert (sources c r = l2) as Esr.
      { assert (sources b (c :: r) = b :: l2) as Es by (rewrite <- Er; apply sources_snoc).
        cbn in Es. by injection Es. }
      rewrite Esr in Hz. apply elem_of_cons in Hal as [->|Hal]; [set_solver|]. apply (Hx _ Hal). by right.
    + rewrite Gp, decide_False; [done|]. intros ->.
      assert (NoDup (l2 ++ [HEAD])) as Hndr.
      { apply NoDup_app. split; [done|]. split; [set_solver|]. apply NoDup_singleton. }
      rewrite Er in Hndr. by apply NoDup_cons in Hndr as [? _].
Qed.

Lemma front_get b f z :
  length (fs_bufs f) = S NBUF -> (b < NBUF)%nat ->
  (b_next (get_buf HEAD f) < S NBUF)%nat -> b_next (get_buf HEAD f) <> b ->
  b_next (get_buf z (link_front2 b (link_front1 b f))) =
    (if decide (z = HEAD) then b else if decide (z = b) then b_next (get_buf HEAD f) else b_next (get_buf z f)) /\
  b_prev (get_buf z (link_front2 b (link_front1 b f))) =
    (if decide (z = b_next (get_buf HEAD f)) then b else if decide (z = b) then HEAD else b_prev (get_buf z f)).
Proof.
  intros Hlen Hb Hh Hne. assert (HEAD <> b) by (unfold HEAD; lia).
  assert (HEAD < S NBUF)%nat by (unfold HEAD; lia).
  assert (forall w, get_buf w (link_front1 b f) =
    if decide (w = b) then set_b_prev HEAD (set_b_next (b_next (get_buf HEAD f)) (get_buf b f)) else get_buf w f) as E1.
  { intros w. unfold link_front1. rewrite !get_buf_upd by (rewrite ?length_upd_buf; lia).
    case_decide; [|done]. by subst. }
  unfold link_front2. rewrite !get_buf_upd by (rewrite ?length_upd_buf; unfold link_front1;
    rewrite ?length_upd_buf, ?E1; try rewrite !decide_False by done; lia).
  rewrite !E1, (decide_False (P := HEAD = b)) by done.
  split; repeat case_decide; subst; done.
Qed.

Lemma lru_push f l b :
  lru f l -> (b < NBUF)%nat -> (b ∉ l) -> lru (link_front2 b (link_front1 b f)) (b :: l).
Proof.
  intros H Hb Hn. pose proof (lru_head_fresh _ _ H) as Hh. destruct H as (Hlen & Hnd & Hlt & Hl).
  destruct (l ++ [HEAD]) as [|c r] eqn:Er; [by destruct l|]. cbn in Hl. destruct Hl as (Ec & Ep & Hr).
  assert (c ∈ HEAD :: l) as Hc.
  { assert (c ∈ l ++ [HEAD]) as Hcx by (rewrite Er; by left). set_solver. }
  assert (HEAD <> b) as Hhb by (unfold HEAD; lia).
  assert (c <> b) as Hcb by set_solver.
  assert (c < S NBUF)%nat as Hcl.
  { apply elem_of_cons in Hc as [->|Hc]; [unfold HEAD; lia|]. rewrite Forall_forall in Hlt.
    specialize (Hlt _ Hc). lia. }
  rewrite <- Ec in Hcl, Hcb. pose proof (front_get b f) as G.
  specialize (fun z => G z Hlen Hb Hcl Hcb) as G'. clear G. rewrite Ec in G'.
  split; [by unfold link_front2, link_front1; rewrite !length_upd_buf|].
  split; [by constructor|]. split; [by constructor|]. cbn. rewrite Er. cbn.
  split; [rewrite (proj1 (G' HEAD)); by rewrite decide_True|].
  split; [rewrite (proj2 (G' b)), decide_False by congruence; by rewrite decide_True|].
  split; [rewrite (proj1 (G' b)), decide_False by done; by rewrite decide_True|].
  split; [rewrite (proj2 (G' c)); by rewrite decide_True|].
  assert (NoDup (c :: r)) as Hndr.
  { rewrite <- Er. apply NoDup_app. split; [done|]. split; [set_solver|]. apply NoDup_singleton. }
  assert (sources c r = l) as Es.
  { assert (sources b (c :: r) = b :: l) as Es by (rewrite <- Er; apply sources_snoc).
    cbn in Es. by injection Es. }
  assert (forall z, z ∈ r -> z ∈ l ++ [HEAD]) as Hsub by (intros z Hz; rewrite Er; by right).
  apply (linked_ext f); [done| |]; intros z Hz.
  - rewrite Es in Hz. rewrite (proj1 (G' z)), !decide_False by set_solver. done.
  - apply NoDup_cons in Hndr as [Hcr _]. specialize (Hsub z Hz).
    rewrite (proj2 (G' z)), !decide_False by set_solver. done.
Qed.
