(* ===== verification/BioSpec.v ===== *)
(** What the buffer cache promises its clients, without contention.

    For the blocks of one device, [view f n] is the contents of block [n] as the
    kernel sees it — the cached copy if there is a valid one, the disk
    otherwise — [ref f n] the number of references to its buffer and [busy f] the
    number of buffers in use. bread() returns a locked buffer that holds
    [view f n] and adds a reference; brelse() drops it; neither changes the view
    of any block, although a buffer may be recycled on the way. *)
From Stdlib Require Import Permutation.
From S2P Require Import Prelude Riscv Machine Spinlock KString Kalloc Vm Sched Keeps FsIface.
From S2P Require Import FsState Quiet Sleeplock Bio.

Definition disk_block (n : Z) (f : fsys) : block := default ∅ (fs_disk f !! n).

Definition disk_write (n : Z) (d : block) (f : fsys) : fsys :=
  set_fs_writes (fs_writes f ++ [(n, d)]) (set_fs_disk (<[n := d]> (fs_disk f)) f).

(** What the cache relies on: a driver whose state satisfies [dev_ok] transfers
    the block between the buffer and the disk, and returns when that is done. *)
Class BlockDevOk `{World0 : World} (Dev : BlockDev) := {
  dev_ok : vdisk -> Prop;
  dev_read p pid b f : (b < length (fs_bufs f))%nat -> dev_ok (fs_vdisk f) ->
    0 <= b_blockno (get_buf b f) < 2 ^ 31 -> exists v, dev_ok v /\
    eval p pid [] (virtio_disk_rw b false) [] f tt
      (set_fs_vdisk v (upd_buf b (fun x => set_b_disk 0
        (set_b_data (disk_block (b_blockno (get_buf b f)) f) x)) f));
  dev_write p pid b f : (b < length (fs_bufs f))%nat -> dev_ok (fs_vdisk f) ->
    0 <= b_blockno (get_buf b f) < 2 ^ 31 -> exists v, dev_ok v /\
    eval p pid [] (virtio_disk_rw b true) [] f tt
      (set_fs_vdisk v (disk_write (b_blockno (get_buf b f)) (b_data (get_buf b f))
        (upd_buf b (set_b_disk 0) f)))
}.

(** The fields no cache operation touches. *)
Record frame (f f' : fsys) : Prop := {
  fr_log : fs_log f' = fs_log f;
  fr_sb : fs_sb f' = fs_sb f;
  fr_inodes : fs_inodes f' = fs_inodes f;
  fr_cons : fs_cons f' = fs_cons f;
  fr_uart : fs_uart f' = fs_uart f;
  fr_panicked : fs_panicked f' = fs_panicked f;
  fr_locking : fs_locking f' = fs_locking f
}.

Lemma frame_refl f : frame f f.
Proof. by split. Qed.

Lemma frame_trans f g h : frame f g -> frame g h -> frame f h.
Proof. intros [] []. split; congruence. Qed.

(** A buffer but for its links. *)
Definition core (b : buf) : buf := set_b_prev 0 (set_b_next 0 b).

Section Cache.
Context (dev : Z).
Implicit Types f : fsys.

Definition matches (n : Z) f (i : nat) : bool :=
  (b_dev (get_buf i f) =? dev) && (b_blockno (get_buf i f) =? n).

Definition bufof f (n : Z) : option nat := List.find (matches n f) (seq 0 NBUF).

Definition view f (n : Z) : block :=
  match bufof f n with
  | Some i => if b_valid (get_buf i f) =? 0 then disk_block n f else b_data (get_buf i f)
  | None => disk_block n f
  end.

Definition ref f (n : Z) : Z := match bufof f n with Some i => b_refcnt (get_buf i f) | None => 0 end.

Definition lockd f (n : Z) : bool :=
  match bufof f n with Some i => sl_locked (b_lock (get_buf i f)) | None => false end.

Definition in_use f (i : nat) : bool := negb (b_refcnt (get_buf i f) =? 0).
Definition busy f : Z := count (in_use f) (seq 0 NBUF).

(** A buffer: unused ones are unlocked and agree with the disk. *)
Definition buf_ok f (b : buf) : Prop :=
  0 <= b_refcnt b < 2 ^ 31 /\
  (b_refcnt b = 0 -> sl_locked (b_lock b) = false) /\
  (b_dev b = dev -> b_valid b <> 0 -> b_refcnt b = 0 -> b_data b = disk_block (b_blockno b) f).

Record cache_ok f : Prop := {
  c_lru : exists l, lru f l /\ Permutation l (seq 0 NBUF);
  c_unique : forall i j n, (i < NBUF)%nat -> (j < NBUF)%nat ->
    matches n f i = true -> matches n f j = true -> i = j;
  c_buf : forall i, (i < NBUF)%nat -> buf_ok f (get_buf i f);
  c_bno : forall i, (i < NBUF)%nat -> 0 <= b_blockno (get_buf i f) < 2 ^ 31
}.

Lemma c_length f : cache_ok f -> length (fs_bufs f) = S NBUF.
Proof. intros [(l & (H & _) & _) _ _ _]. exact H. Qed.

Lemma bufof_spec f n : 
  match bufof f n with
  | Some i => (i < NBUF)%nat /\ matches n f i = true
  | None => forall i, (i < NBUF)%nat -> matches n f i = false
  end.
Proof.
  unfold bufof. destruct (List.find _ _) eqn:E.
  - apply List.find_some in E as [Hin Hm]. apply in_seq in Hin. split; [lia|done].
  - intros i Hi. apply (List.find_none _ _ E). apply in_seq. lia.
Qed.

Lemma bufof_Some f n i : cache_ok f -> (i < NBUF)%nat -> matches n f i = true -> bufof f n = Some i.
Proof.
  intros H Hi Hm. pose proof (bufof_spec f n) as Hs. destruct (bufof f n) as [j|].
  - destruct Hs as [Hj Hmj]. f_equal. by apply (c_unique f H j i n).
  - rewrite Hs in Hm by done. done.
Qed.

Lemma core_fields b b' :
  core b = core b' ->
  b_valid b = b_valid b' /\ b_dev b = b_dev b' /\ b_blockno b = b_blockno b' /\
  b_lock b = b_lock b' /\ b_refcnt b = b_refcnt b' /\ b_data b = b_data b' /\ b_disk b = b_disk b'.
Proof. destruct b, b'. unfold core. cbn. intros [=]. by subst. Qed.

(** One buffer changes: either it held block [n], or it was unused and no buffer
    held [n]. *)
Lemma cache_step f f' i n :
  cache_ok f -> (i < NBUF)%nat ->
  (forall j, (j < NBUF)%nat -> j <> i -> core (get_buf j f') = core (get_buf j f)) ->
  (forall m, m <> n -> disk_block m f' = disk_block m f) ->
  (matches n f i = true \/ (bufof f n = None /\ b_refcnt (get_buf i f) = 0 /\ 0 <= n < 2 ^ 31)) ->
  matches n f' i = true -> buf_ok f' (get_buf i f') ->
  (exists l, lru f' l /\ Permutation l (seq 0 NBUF)) ->
  cache_ok f' /\ bufof f' n = Some i /\
  forall m, m <> n -> (view f' m = view f m /\ ref f' m = ref f m /\ lockd f' m = lockd f m) /\
    forall j, bufof f m = Some j -> 0 < b_refcnt (get_buf j f) ->
      bufof f' m = Some j /\ core (get_buf j f') = core (get_buf j f).
Proof.
  intros H Hi Hc Hd Hold Hm' Hok Hl.
  assert (forall j m, (j < NBUF)%nat -> j <> i -> matches m f' j = matches m f j) as Hmj.
  { intros j m Hj Hne. unfold matches. destruct (core_fields _ _ (Hc j Hj Hne)) as (_ & -> & -> & _). done. }
  assert (forall j, (j < NBUF)%nat -> j <> i -> matches n f j = false) as Hno.
  { intros j Hj Hne. destruct (matches n f j) eqn:E; [|done]. destruct Hold as [Ho|[Ho _]].
    - by apply (c_unique f H j i n) in E.
    - pose proof (bufof_spec f n) as Hs. rewrite Ho in Hs. by rewrite Hs in E. }
  assert (forall m, matches m f' i = true -> m = n) as Hin.
  { intros m E. unfold matches in *. lia. }
  assert (cache_ok f') as H'.
  { split; [done| | |].
    - intros j k m Hj Hk Ej Ek. destruct (decide (j = i)) as [->|Hji], (decide (k = i)) as [->|Hki]; try done.
      + apply Hin in Ej as ->. rewrite Hmj, Hno in Ek by done. done.
      + apply Hin in Ek as ->. rewrite Hmj, Hno in Ej by done. done.
      + rewrite Hmj in Ej, Ek by done. by apply (c_unique f H j k m).
    - intros j Hj. destruct (decide (j = i)) as [->|Hji]; [done|].
      destruct (core_fields _ _ (Hc j Hj Hji)) as (Ev & Ed & Eb & El & Er & Edt & _).
      destruct (c_buf f H j Hj) as (H1 & H2 & H3). unfold buf_ok. rewrite Ev, Ed, Eb, El, Er, Edt.
      split; [done|]. split; [done|]. intros X Y W. rewrite Hd; [by apply H3|].
      intros E. assert (matches n f j = true) as Em by (unfold matches; lia). by rewrite Hno in Em.
    - intros j Hj. destruct (decide (j = i)) as [->|Hji].
      + replace (b_blockno (get_buf i f')) with n by (unfold matches in Hm'; lia).
        destruct Hold as [Ho|(_ & _ & ?)]; [|done]. unfold matches in Ho.
        pose proof (c_bno f H i Hi). lia.
      + destruct (core_fields _ _ (Hc j Hj Hji)) as (_ & _ & -> & _). by apply (c_bno f H). }
  split; [done|]. split; [by apply bufof_Some|].
  intros m Hm. pose proof (bufof_spec f m) as Hs. pose proof (bufof_spec f' m) as Hs'.
  assert (forall j, bufof f m = Some j -> j <> i -> bufof f' m = Some j) as Hkeep.
  { intros j E Hji. rewrite E in Hs. destruct Hs as [Hj Hmm]. apply bufof_Some; [done|done|].
    by rewrite Hmj. }
  split; cycle 1.
  { intros j E Hr. assert (j <> i) as Hji.
    { intros ->. rewrite E in Hs. destruct Hs as [_ Hmi].
      destruct Hold as [Ho|(_ & Ho & _)]; [unfold matches in *; lia|lia]. }
    split; [by apply Hkeep|]. rewrite E in Hs. destruct Hs as [Hj _]. by apply Hc. }
  unfold view, ref, lockd. destruct (bufof f m) as [j|] eqn:E.
  - destruct (decide (j = i)) as [->|Hji].
    + destruct Hs as [_ Hmi]. destruct (bufof f' m) as [k|] eqn:E'.
      { destruct Hs' as [Hk Hmk]. destruct (decide (k = i)) as [->|Hki]; [by apply Hin in Hmk|].
        rewrite Hmj in Hmk by done. by rewrite (c_unique f H k i m) in Hki. }
      destruct Hold as [Ho|(_ & Hr & _)]; [unfold matches in *; lia|].
      destruct (c_buf f H i Hi) as (_ & H2 & H3). rewrite Hd, (H2 Hr), Hr by done.
      split; [|done]. destruct (b_valid (get_buf i f) =? 0) eqn:Ev; [done|].
      assert (b_blockno (get_buf i f) = m /\ b_dev (get_buf i f) = dev) as [Eb Ed]
        by (unfold matches in Hmi; lia).
      rewrite H3; [by rewrite Eb|done|lia|done].
    + rewrite (Hkeep j eq_refl Hji). destruct Hs as [Hj _].
      destruct (core_fields _ _ (Hc j Hj Hji)) as (-> & _ & _ & -> & -> & -> & _). by rewrite Hd.
  - destruct (bufof f' m) as [k|]; [|by rewrite Hd]. destruct Hs' as [Hk Hmk].
    destruct (decide (k = i)) as [->|Hki]; [by apply Hin in Hmk|]. rewrite Hmj, Hs in Hmk by done. done.
Qed.

Lemma get_buf_alter f f' g i j :
  fs_bufs f' = alter g i (fs_bufs f) -> (i < length (fs_bufs f))%nat ->
  get_buf j f' = if decide (j = i) then g (get_buf i f) else get_buf j f.
Proof.
  intros E Hi. change (get_buf j f') with (default zero_buf (fs_bufs f' !! j)). rewrite E.
  change (default zero_buf (alter g i (fs_bufs f) !! j)) with (get_buf j (upd_buf i g f)).
  rewrite get_buf_upd by done. by case_decide; subst.
Qed.

Lemma busy_step f f' i :
  (i < NBUF)%nat -> (forall j, (j < NBUF)%nat -> j <> i -> in_use f' j = in_use f j) ->
  busy f' = busy f - Z.b2z (in_use f i) + Z.b2z (in_use f' i).
Proof.
  intros Hi Hj. unfold busy. generalize (seq_NoDup NBUF 0).
  assert (forall x, x ∈ seq 0 NBUF -> (x < NBUF)%nat) as Hb.
  { intros x Hx. apply elem_of_seq in Hx. lia. }
  assert (i ∈ seq 0 NBUF) as Hin by (apply elem_of_seq; lia). revert Hb Hin.
  generalize (seq 0 NBUF). intros l Hb Hin Hnd%NoDup_ListNoDup.
  induction l as [|x l IH]; [by apply not_elem_of_nil in Hin|]. rewrite !count_cons.
  apply NoDup_cons in Hnd as [Hx Hnd]. destruct (decide (x = i)) as [->|Hne].
  - rewrite (count_ext (in_use f') (in_use f) l); [lia|]. intros y Hy. apply Hj; [apply Hb; by right|].
    by intros ->.
  - apply elem_of_cons in Hin as [->|Hin]; [done|].
    rewrite IH, (Hj x) by (done || (apply Hb; by left) || (intros y Hy; apply Hb; by right)). lia.
Qed.

Definition keeps_links (g : buf -> buf) : Prop :=
  forall b, b_next (g b) = b_next b /\ b_prev (g b) = b_prev b.

Lemma lru_alter f f' g i l :
  lru f l -> fs_bufs f' = alter g i (fs_bufs f) -> (i < length (fs_bufs f))%nat -> keeps_links g -> lru f' l.
Proof.
  intros Hl E Hi Hg. apply (lru_ext f); [done|by rewrite E, length_alter|].
  intros z. rewrite (get_buf_alter f f' g i z E Hi). case_decide as Ez; [subst; apply Hg|done].
Qed.

Lemma buf_step f f' g i n :
  cache_ok f -> (i < NBUF)%nat -> fs_bufs f' = alter g i (fs_bufs f) ->
  (forall m, m <> n -> disk_block m f' = disk_block m f) -> keeps_links g ->
  (matches n f i = true \/ (bufof f n = None /\ b_refcnt (get_buf i f) = 0 /\ 0 <= n < 2 ^ 31)) ->
  b_dev (g (get_buf i f)) = dev -> b_blockno (g (get_buf i f)) = n -> buf_ok f' (g (get_buf i f)) ->
  cache_ok f' /\ bufof f' n = Some i /\ get_buf i f' = g (get_buf i f) /\
  (forall m, m <> n -> (view f' m = view f m /\ ref f' m = ref f m /\ lockd f' m = lockd f m) /\
    forall j, bufof f m = Some j -> 0 < b_refcnt (get_buf j f) ->
      bufof f' m = Some j /\ core (get_buf j f') = core (get_buf j f)) /\
  busy f' = busy f - Z.b2z (in_use f i) + Z.b2z (negb (b_refcnt (g (get_buf i f)) =? 0)).
Proof.
  intros H Hi E Hd Hg Hold Edev Ebno Hok. pose proof (c_length f H) as Hlen.
  assert (forall j, get_buf j f' = if decide (j = i) then g (get_buf i f) else get_buf j f) as Eg.
  { intros j. apply get_buf_alter; [done|lia]. }
  assert (get_buf i f' = g (get_buf i f)) as Ei by by rewrite Eg, decide_True.
  destruct (c_lru f H) as (l & Hl & Hp).
  destruct (cache_step f f' i n) as (H1 & H2 & H3); [done|done| |done|done| |by rewrite Ei| |].
  { intros j _ Hj. by rewrite Eg, decide_False. }
  { unfold matches. rewrite Ei, Edev, Ebno, !Z.eqb_refl. done. }
  { exists l. split; [|done]. apply (lru_alter f f' g i l); [done|done|lia|done]. }
  do 4 (split; [done|]). rewrite (busy_step f f' i Hi).
  - unfold in_use at 2. by rewrite Ei.
  - intros j _ Hj. unfold in_use. by rewrite Eg, decide_False.
Qed.
End Cache.

(** ** The searches of bget() *)

Section Search.
Context `{Fuel0 : Fuel} `{World0 : World} `{Dev : BlockDev} (dev : Z) (p : nat) (pid : Z).

Lemma eval_find_cached H f n q k :
  (length q < k)%nat -> Forall (fun b => (b < NBUF)%nat) q ->
  match q with [] => True | b :: r => linked f b (r ++ [HEAD]) end ->
  eval p pid H (find_cached k dev n (hd HEAD q)) H f (List.find (matches dev n f) q) f.
Proof.
  revert k. induction q as [|b r IH]; intros k Hk Hlt Hl; (destruct k as [|k]; [cbn in Hk; lia|]);
    cbn [find_cached hd].
  - rewrite Nat.eqb_refl. apply eval_ret.
  - apply Forall_cons in Hlt as [Hb Hlt].
    destruct (b =? HEAD)%nat eqn:E; [apply Nat.eqb_eq in E; unfold HEAD in E; lia|].
    eapply eval_bind; [apply eval_gets|]. cbn beta. cbn [List.find].
    change ((b_dev (get_buf b f) =? dev) && (b_blockno (get_buf b f) =? n)) with (matches dev n f b).
    destruct (matches dev n f b); [apply eval_ret|].
    replace (b_next (get_buf b f)) with (hd HEAD r) by (destruct r; cbn in Hl; symmetry; apply Hl).
    apply IH; [cbn in Hk; lia|done|]. destruct r; [done|]. apply Hl.
Qed.

Lemma end_of_snoc x l y : end_of x (l ++ [y]) = y.
Proof. revert x. induction l as [|z l IH]; intros x; [done|]. apply IH. Qed.

Lemma eval_find_unused H f q k :
  (length q < k)%nat -> Forall (fun b => (b < NBUF)%nat) q -> linked f HEAD q ->
  eval p pid H (find_unused k (end_of HEAD q)) H f
    (List.find (fun b => b_refcnt (get_buf b f) =? 0) (rev q)) f.
Proof.
  revert k. induction q as [|b q IH] using rev_ind; intros k Hk Hlt Hl;
    (destruct k as [|k]; [lia|]); cbn [find_unused].
  - cbn. apply eval_ret.
  - apply Forall_app in Hlt as [Hlt [Hb _]%Forall_cons]. rewrite end_of_snoc, rev_app_distr. cbn.
    destruct (b =? HEAD)%nat eqn:E; [apply Nat.eqb_eq in E; unfold HEAD in E; lia|].
    eapply eval_bind; [apply eval_gets|]. cbn beta.
    destruct (b_refcnt (get_buf b f) =? 0); [apply eval_ret|].
    apply linked_app in Hl as (Hl & _ & -> & _). apply IH; [|done|done].
    rewrite length_app in Hk. cbn in Hk. lia.
Qed.

Lemma find_lru f l n :
  cache_ok dev f -> Permutation l (seq 0 NBUF) -> List.find (matches dev n f) l = bufof dev f n.
Proof.
  intros H Hp. destruct (List.find (matches dev n f) l) as [i|] eqn:E.
  - apply List.find_some in E as [Hin Hm]. apply (Permutation_in _ Hp) in Hin. apply in_seq in Hin.
    symmetry. apply bufof_Some; [done|lia|done].
  - pose proof (bufof_spec dev f n) as Hs. destruct (bufof dev f n) as [i|]; [|done].
    destruct Hs as [Hi Hm]. rewrite (List.find_none _ _ E) in Hm; [done|].
    apply (Permutation_in _ (Permutation_sym Hp)). apply in_seq. lia.
Qed.

(** The recycled buffer is the least recently used one of those not in use. *)
Lemma find_free f l :
  Permutation l (seq 0 NBUF) -> busy f < Z.of_nat NBUF ->
  exists i, List.find (fun b => b_refcnt (get_buf b f) =? 0) (rev l) = Some i /\
    (i < NBUF)%nat /\ b_refcnt (get_buf i f) = 0.
Proof.
  intros Hp Hb. destruct (List.find _ (rev l)) as [i|] eqn:E.
  - apply List.find_some in E as [Hin Hm]. rewrite <- in_rev in Hin.
    apply (Permutation_in _ Hp), in_seq in Hin. exists i. split; [done|]. lia.
  - exfalso. assert (busy f = Z.of_nat NBUF); [|lia]. unfold busy.
    rewrite (count_ext (in_use f) (fun _ => true)).
    + unfold count. by rewrite List.filter_true, length_seq.
    + intros x Hx%elem_of_seq. unfold in_use. rewrite (List.find_none _ _ E); [done|].
      rewrite <- in_rev. apply (Permutation_in _ (Permutation_sym Hp)). apply in_seq. lia.
Qed.
End Search.

(** ** The operations *)

Section Spec.
Context `{Fuel0 : Fuel} `{World0 : World} `{Dev : BlockDev} `{!BlockDevOk Dev} (dev : Z) (p : nat) (pid : Z).
Implicit Types f : fsys.

(** Buffer [i] holds block [n], is valid, and is locked by the caller. *)
Record held f (n : Z) (i : nat) : Prop := {
  h_buf : bufof dev f n = Some i;
  h_valid : b_valid (get_buf i f) <> 0;
  h_locked : sl_locked (b_lock (get_buf i f)) = true;
  h_pid : sl_pid (b_lock (get_buf i f)) = pid;
  h_ref : 0 < b_refcnt (get_buf i f)
}.

Lemma held_view f n i : held f n i -> view dev f n = b_data (get_buf i f).
Proof. intros []. unfold view. rewrite h_buf0. by destruct (_ =? 0) eqn:E; [lia|]. Qed.

Lemma held_ref f n i : held f n i -> ref dev f n = b_refcnt (get_buf i f).
Proof. intros []. unfold ref. by rewrite h_buf0. Qed.

Lemma held_lt f n i :
  held f n i -> (i < NBUF)%nat /\ matches dev n f i = true /\
  b_blockno (get_buf i f) = n /\ b_dev (get_buf i f) = dev.
Proof.
  intros [Hb _ _ _ _]. pose proof (bufof_spec dev f n) as Hs. rewrite Hb in Hs.
  destruct Hs as [Hi Hm]. split; [done|]. split; [done|]. unfold matches in Hm. lia.
Qed.

(** The cache and the driver are in order. *)
Definition fs_ok f : Prop := cache_ok dev f /\ dev_ok (fs_vdisk f).

(** The other blocks are untouched. *)
Definition others_same (n : Z) f f' : Prop :=
  forall m, m <> n -> (view dev f' m = view dev f m /\ ref dev f' m = ref dev f m /\
                       lockd dev f' m = lockd dev f m) /\
                      forall i, held f m i -> held f' m i.

Lemma others_trans n f g h : others_same n f g -> others_same n g h -> others_same n f h.
Proof.
  intros H1 H2 m Hm. destruct (H1 m Hm) as ((E1 & E2 & E3) & E4), (H2 m Hm) as ((E1' & E2' & E3') & E4').
  rewrite E1', E2', E3'. split; [done|]. intros i Hi. by apply E4', E4.
Qed.

Lemma others_intro n f f' :
  (forall m, m <> n -> (view dev f' m = view dev f m /\ ref dev f' m = ref dev f m /\
                        lockd dev f' m = lockd dev f m) /\
    forall j, bufof dev f m = Some j -> 0 < b_refcnt (get_buf j f) ->
      bufof dev f' m = Some j /\ core (get_buf j f') = core (get_buf j f)) ->
  others_same n f f'.
Proof.
  intros H m Hm. destruct (H m Hm) as [H1 H2]. split; [done|]. intros i [Hb Hv Hl Hp Hr].
  destruct (H2 i Hb Hr) as [Hb' Hc]. destruct (core_fields _ _ Hc) as (Ev & _ & _ & El & Er & _).
  split; [done|..]; by rewrite ?Ev, ?El, ?Er.
Qed.

Record got f (n : Z) (i : nat) f' : Prop := {
  g_ok : fs_ok f';
  g_frame : frame f f';
  g_disk : fs_disk f' = fs_disk f;
  g_writes : fs_writes f' = fs_writes f;
  g_held : held f' n i;
  g_view : view dev f' n = view dev f n;
  g_ref : ref dev f' n = ref dev f n + 1;
  g_busy : busy f' = busy f + (if ref dev f n =? 0 then 1 else 0);
  g_others : others_same n f f'
}.

(** The buffer after bget(): the first case finds it, the second recycles it. *)
Definition bget_hit (b : buf) : buf := set_b_lock (locked_by pid (b_lock b)) (add_ref b).
Definition bget_miss (n : Z) (b : buf) : buf :=
  set_b_lock (locked_by pid (b_lock b))
    (set_b_refcnt 1 (set_b_valid 0 (set_b_blockno n (set_b_dev dev b)))).

Lemma upd_buf_upd i g h f : upd_buf i g (upd_buf i h f) = upd_buf i (g ∘ h) f.
Proof. unfold upd_buf. cbn. by rewrite list_alter_alter. Qed.

Lemma eval_bget f n :
  cache_ok dev f -> lockd dev f n = false -> (0 < ref dev f n \/ busy f < Z.of_nat NBUF) ->
  exists i, (i < NBUF)%nat /\
    ((bufof dev f n = Some i /\ eval p pid [] (bget dev n) [] f i (upd_buf i bget_hit f)) \/
     (bufof dev f n = None /\ b_refcnt (get_buf i f) = 0 /\
      eval p pid [] (bget dev n) [] f i (upd_buf i (bget_miss n) f))).
Proof.
  intros H Hlk Hfree. destruct (c_lru dev f H) as (l & Hl & Hp). pose proof Hl as (Hlen & Hnd & Hlt & Hlink).
  assert (length l = NBUF) as Hll by (rewrite (Permutation_length Hp); apply length_seq).
  assert (b_next (get_buf HEAD f) = hd HEAD l) as Efirst.
  { destruct l; cbn in Hlink; apply Hlink. }
  assert (eval p pid [L_bcache] (find_cached (S NBUF) dev n (b_next (get_buf HEAD f))) [L_bcache] f
    (bufof dev f n) f) as Hfc.
  { rewrite Efirst, <- (find_lru dev f l n H Hp). apply eval_find_cached; [lia|done|].
    destruct l; [done|]. apply Hlink. }
  unfold bget. destruct (bufof dev f n) as [i|] eqn:Eb.
  - exists i. pose proof (bufof_spec dev f n) as Hs. rewrite Eb in Hs. destruct Hs as [Hi _].
    split; [done|]. left. split; [done|].
    ev1. ev1. eapply eval_bind; [exact Hfc|]. cbn beta. cbn match. ev1. ev1.
    eapply eval_bind; [|apply eval_ret].
    rewrite <- (upd_buf_upd i (fun b => set_b_lock (locked_by pid (b_lock b)) b) add_ref).
    apply (eval_acquiresleep p pid (SL_buf i)); [by apply slk_in_buf|]. cbn. rewrite get_buf_upd by lia. rewrite decide_True by done.
    cbn. unfold lockd in Hlk. by rewrite Eb in Hlk.
  - destruct Hfree as [Hr|Hfree]; [unfold ref in Hr; rewrite Eb in Hr; lia|].
    destruct (find_free f l Hp Hfree) as (i & Ef & Hi & Hr). exists i. split; [done|]. right.
    split; [done|]. split; [done|].
    ev1. ev1. eapply eval_bind; [exact Hfc|]. cbn beta. cbn match. ev1.
    eapply eval_bind.
    { replace (b_prev (get_buf HEAD f)) with (end_of HEAD l).
      - apply (eval_find_unused p pid [L_bcache] f l (S NBUF)); [lia|done|].
        by apply linked_app in Hlink as (? & _).
      - apply linked_app in Hlink as (_ & _ & E & _). by rewrite E. }
    rewrite Ef. cbn beta. cbn match. do 5 ev1. eapply eval_bind; [|apply eval_ret].
    change (bget_miss n) with ((fun b => set_b_lock (locked_by pid (b_lock b)) b) ∘
      (set_b_refcnt 1 ∘ (set_b_valid 0 ∘ (set_b_blockno n ∘ set_b_dev dev)))).
    rewrite <- !upd_buf_upd.
    apply (eval_acquiresleep p pid (SL_buf i)); [by apply slk_in_buf|]. cbn.
    rewrite !upd_buf_upd, get_buf_upd by lia. rewrite decide_True by done. by apply (c_buf dev f H i Hi).
Qed.

(** A state with the buffer so filled is what bread() promises. *)
Lemma got_intro f f' g i n :
  cache_ok dev f -> (i < NBUF)%nat -> fs_bufs f' = alter g i (fs_bufs f) -> keeps_links g ->
  dev_ok (fs_vdisk f') -> frame f f' -> fs_disk f' = fs_disk f -> fs_writes f' = fs_writes f ->
  (bufof dev f n = Some i \/ (bufof dev f n = None /\ b_refcnt (get_buf i f) = 0 /\ 0 <= n < 2 ^ 31)) ->
  let b := g (get_buf i f) in
  b_dev b = dev -> b_blockno b = n -> b_valid b <> 0 -> sl_locked (b_lock b) = true ->
  sl_pid (b_lock b) = pid -> b_refcnt b = ref dev f n + 1 -> b_refcnt b < 2 ^ 31 ->
  b_data b = view dev f n -> got f n i f'.
Proof.
  intros H Hi E Hg Hv Hfr Hd Hw Hold b Edev Ebno Eval El Ep Er Hr Edt.
  assert (forall m, disk_block m f' = disk_block m f) as Hdb by (intros m; unfold disk_block; by rewrite Hd).
  assert (0 <= ref dev f n) as Hr0.
  { unfold ref. pose proof (bufof_spec dev f n) as Hs. destruct (bufof dev f n) as [j|]; [|done].
    destruct Hs as [Hj _]. destruct (c_buf dev f H j Hj) as ((? & ?) & _). lia. }
  assert (b_refcnt (get_buf i f) = ref dev f n) as Eri.
  { unfold ref. destruct Hold as [->|(-> & -> & _)]; done. }
  destruct (buf_step dev f f' g i n) as (H1 & H2 & H3 & H4 & H5); [done..| |done|done| |].
  { destruct Hold as [Eb|Hm]; [left|by right]. pose proof (bufof_spec dev f n) as Hs. rewrite Eb in Hs. apply Hs. }
  { fold b. split; [lia|]. split; lia. }
  fold b in H3, H5. apply others_intro in H4. assert (held f' n i) as Hh by (split; rewrite ?H3; (done || lia)).
  split; try done.
  - rewrite (held_view _ _ _ Hh), H3. done.
  - rewrite (held_ref _ _ _ Hh), H3. done.
  - rewrite H5. unfold in_use. rewrite Eri, Er.
    destruct (ref dev f n =? 0) eqn:E0, (ref dev f n + 1 =? 0) eqn:E1; cbn; lia.
Qed.

Lemma eval_bread f n :
  fs_ok f -> lockd dev f n = false -> (0 < ref dev f n \/ busy f < Z.of_nat NBUF) ->
  ref dev f n < 2 ^ 31 - 1 -> 0 <= n < 2 ^ 31 ->
  exists i f', eval p pid [] (bread dev n) [] f i f' /\ got f n i f'.
Proof.
  intros [H Hv] Hlk Hfree Hmax Hbn. pose proof (c_length dev f H) as Hlen.
  destruct (eval_bget f n H Hlk Hfree) as (i & Hi & Hcase). exists i. unfold bread.
  pose proof (c_buf dev f H i Hi) as ((Hr0 & _) & _ & _).
  assert (forall g, get_buf i (upd_buf i g f) = g (get_buf i f)) as Eg.
  { intros g. rewrite get_buf_upd by lia. by rewrite decide_True. }
  destruct Hcase as [[Eb Hev]|(Eb & Hr & Hev)].
  - pose proof (bufof_spec dev f n) as Hs. rewrite Eb in Hs. destruct Hs as [_ Hm].
    assert (b_dev (get_buf i f) = dev /\ b_blockno (get_buf i f) = n) as [Ed En] by (unfold matches in Hm; lia).
    assert (b_refcnt (get_buf i f) = ref dev f n) as Er by (unfold ref; by rewrite Eb).
    assert (u32 (b_refcnt (get_buf i f) + 1) = ref dev f n + 1) as Eu by (rewrite Er; apply u32_small; lia).
    destruct (b_valid (get_buf i f) =? 0) eqn:Ev.
    + destruct (dev_read p pid i (upd_buf i bget_hit f)) as (v & Hv' & Hrd);
        [cbn; rewrite length_alter; lia|exact Hv|rewrite Eg; cbn; lia|].
      rewrite Eg in Hrd. cbn [b_blockno bget_hit set_b_lock add_ref set_b_refcnt] in Hrd. rewrite En in Hrd.
      eexists. split.
      { eapply eval_bind; [exact Hev|]. cbn beta. eapply eval_bind; [apply eval_gets|]. cbn beta.
        rewrite Eg. cbn [b_valid bget_hit set_b_lock add_ref set_b_refcnt]. rewrite Ev.
        eapply eval_bind; [eapply eval_bind; [exact Hrd|apply eval_modify]|]. apply eval_ret. }
      apply (got_intro f _ (set_b_valid 1 ∘ set_b_disk 0 ∘ set_b_data (disk_block n f) ∘ bget_hit)); try done; try lia.
      * unfold upd_buf. cbn. by rewrite !list_alter_alter.
      * by left.
      * cbn. lia.
      * cbn. unfold view. by rewrite Eb, Ev.
    + eexists. split.
      { eapply eval_bind; [exact Hev|]. cbn beta. eapply eval_bind; [apply eval_gets|]. cbn beta.
        rewrite Eg. cbn [b_valid bget_hit set_b_lock add_ref set_b_refcnt]. rewrite Ev.
        eapply eval_bind; apply eval_ret. }
      apply (got_intro f _ bget_hit); try done; try lia.
      * by left.
      * cbn. lia.
      * cbn. lia.
      * cbn. unfold view. by rewrite Eb, Ev.
  - destruct (dev_read p pid i (upd_buf i (bget_miss n) f)) as (v & Hv' & Hrd);
      [cbn; rewrite length_alter; lia|exact Hv|rewrite Eg; cbn; lia|].
    rewrite Eg in Hrd. cbn [b_blockno bget_miss set_b_lock set_b_refcnt set_b_valid set_b_blockno] in Hrd.
    assert (ref dev f n = 0) as Er by (unfold ref; by rewrite Eb).
    eexists. split.
    { eapply eval_bind; [exact Hev|]. cbn beta. eapply eval_bind; [apply eval_gets|]. cbn beta.
      rewrite Eg. cbn [b_valid bget_miss set_b_lock set_b_refcnt set_b_valid Z.eqb].
      eapply eval_bind; [eapply eval_bind; [exact Hrd|apply eval_modify]|]. apply eval_ret. }
    apply (got_intro f _ (set_b_valid 1 ∘ set_b_disk 0 ∘ set_b_data (disk_block n f) ∘ bget_miss n)); try done; try lia.
    + unfold upd_buf. cbn. by rewrite !list_alter_alter.
    + by right.
    + cbn. lia.
    + cbn. unfold view. by rewrite Eb.
Qed.

(** *** Changing a held buffer *)

(** [f'] is [f] but for the buffer of block [n], which is still held. *)
Record touched f (n : Z) (i : nat) (d : block) (k : Z) f' : Prop := {
  t_ok : fs_ok f';
  t_frame : frame f f';
  t_held : held f' n i;
  t_view : view dev f' n = d;
  t_ref : ref dev f' n = k;
  t_busy : busy f' = busy f;
  t_others : others_same n f f'
}.

Lemma touched_intro f f' g n i :
  fs_ok f -> held f n i -> fs_bufs f' = alter g i (fs_bufs f) -> keeps_links g ->
  dev_ok (fs_vdisk f') -> frame f f' -> (forall m, m <> n -> disk_block m f' = disk_block m f) ->
  let b := g (get_buf i f) in
  b_dev b = dev -> b_blockno b = n -> b_valid b <> 0 -> b_lock b = b_lock (get_buf i f) ->
  0 < b_refcnt b < 2 ^ 31 -> touched f n i (b_data b) (b_refcnt b) f'.
Proof.
  intros [H Hv] Hh E Hg Hv' Hfr Hd b Edev Ebno Eval El Hr.
  destruct (held_lt f n i Hh) as (Hi & Hm & _).
  destruct (buf_step dev f f' g i n) as (H1 & H2 & H3 & H4 & H5); [done..|by left|done|done| |].
  { fold b. split; [lia|]. split; lia. }
  fold b in H3, H5. apply others_intro in H4. destruct Hh as [Hb1 Hb2 Hb3 Hb4 Hb5].
  assert (held f' n i) as Hh' by (split; rewrite ?H3, ?El; (done || lia)).
  split; try done.
  - by rewrite (held_view _ _ _ Hh'), H3.
  - by rewrite (held_ref _ _ _ Hh'), H3.
  - rewrite H5. unfold in_use. destruct (b_refcnt (get_buf i f) =? 0) eqn:E1, (b_refcnt b =? 0) eqn:E2; cbn; lia.
Qed.

Lemma held_small f n i : fs_ok f -> held f n i -> b_refcnt (get_buf i f) < 2 ^ 31.
Proof. intros [H _] Hh. apply (c_buf dev f H). by apply (held_lt f n i). Qed.

(** Writing the buffer's data in memory. *)
Lemma set_data_spec f n i d :
  fs_ok f -> held f n i ->
  touched f n i d (ref dev f n) (upd_buf i (set_b_data d) f) /\
  fs_disk (upd_buf i (set_b_data d) f) = fs_disk f /\
  fs_writes (upd_buf i (set_b_data d) f) = fs_writes f.
Proof.
  intros Hok Hh. destruct (held_lt f n i Hh) as (Hi & Hm & En & Ed).
  split; [|done]. rewrite (held_ref f n i Hh).
  apply (touched_intro f (upd_buf i (set_b_data d) f) (set_b_data d) n i); try done.
  - apply Hok.
  - by destruct Hh.
  - cbn. split; [by destruct Hh|by eapply held_small].
Qed.

Lemma eval_holding f n i :
  held f n i -> eval p pid [] (holdingsleep (SL_buf i)) [] f true f.
Proof.
  intros Hh. destruct (held_lt f n i Hh) as (Hi & _). destruct Hh as [_ _ Hl Hp _].
  pose proof (eval_holdingsleep p pid (SL_buf i) f (slk_in_buf i Hi)) as E. cbn in E.
  by rewrite Hl, Hp, Z.eqb_refl in E.
Qed.

Lemma eval_bwrite f n i :
  fs_ok f -> held f n i ->
  exists f', eval p pid [] (bwrite i) [] f tt f' /\ touched f n i (view dev f n) (ref dev f n) f' /\
    fs_disk f' = <[n := view dev f n]> (fs_disk f) /\
    fs_writes f' = fs_writes f ++ [(n, view dev f n)].
Proof.
  intros Hok Hh. pose proof Hok as [H Hv]. destruct (held_lt f n i Hh) as (Hi & Hm & En & Ed).
  pose proof (c_bno dev f H i Hi) as Hbn. pose proof (c_length dev f H) as Hlen.
  destruct (dev_write p pid i f) as (v & Hv' & Hw); [lia|done|done|]. rewrite En in Hw.
  rewrite (held_view f n i Hh), (held_ref f n i Hh). eexists. split.
  { unfold bwrite. eapply eval_bind; [by eapply eval_holding|]. cbn [negb]. exact Hw. }
  split; [|done].
  apply (touched_intro f _ (set_b_disk 0) n i); try done.
  - intros m Hne. unfold disk_block. cbn. by rewrite lookup_insert_ne by done.
  - by destruct Hh.
  - cbn. split; [by destruct Hh|by eapply held_small].
Qed.

Lemma eval_bpin H f n i :
  (L_bcache ∉ H) -> fs_ok f -> held f n i -> ref dev f n < 2 ^ 31 - 1 ->
  exists f', eval p pid H (bpin i) H f tt f' /\ touched f n i (view dev f n) (ref dev f n + 1) f' /\
    fs_disk f' = fs_disk f /\ fs_writes f' = fs_writes f.
Proof.
  intros HH Hok Hh Hr. destruct (held_lt f n i Hh) as (Hi & Hm & En & Ed). pose proof (h_ref _ _ _ Hh).
  exists (upd_buf i add_ref f). split; [unfold bpin; ev|]. split; [|done].
  rewrite (held_view f n i Hh). rewrite (held_ref f n i Hh) in *.
  replace (b_refcnt (get_buf i f) + 1) with (b_refcnt (add_ref (get_buf i f))) by (apply u32_small; lia).
  apply (touched_intro f (upd_buf i add_ref f) add_ref n i); try done.
  - apply Hok.
  - by destruct Hh.
  - cbn. rewrite u32_small; lia.
Qed.

Lemma eval_bunpin f n i :
  fs_ok f -> held f n i -> 1 < ref dev f n ->
  exists f', eval p pid [] (bunpin i) [] f tt f' /\ touched f n i (view dev f n) (ref dev f n - 1) f' /\
    fs_disk f' = fs_disk f /\ fs_writes f' = fs_writes f.
Proof.
  intros Hok Hh Hr. destruct (held_lt f n i Hh) as (Hi & Hm & En & Ed). pose proof (held_small _ _ _ Hok Hh).
  exists (upd_buf i sub_ref f). split; [unfold bunpin; ev|]. split; [|done].
  rewrite (held_view f n i Hh). rewrite (held_ref f n i Hh) in *.
  replace (b_refcnt (get_buf i f) - 1) with (b_refcnt (sub_ref (get_buf i f))) by (apply u32_small; lia).
  apply (touched_intro f (upd_buf i sub_ref f) sub_ref n i); try done.
  - apply Hok.
  - by destruct Hh.
  - cbn. rewrite u32_small; lia.
Qed.

(** *** Releasing *)

Lemma core_next z j v f : core (get_buf z (upd_buf j (set_b_next v) f)) = core (get_buf z f).
Proof.
  unfold get_buf, upd_buf. cbn. destruct (decide (z = j)) as [->|Hne].
  - rewrite list_lookup_alter_eq. by destruct (fs_bufs f !! j).
  - by rewrite list_lookup_alter_ne.
Qed.

Lemma core_prev z j v f : core (get_buf z (upd_buf j (set_b_prev v) f)) = core (get_buf z f).
Proof.
  unfold get_buf, upd_buf. cbn. destruct (decide (z = j)) as [->|Hne].
  - rewrite list_lookup_alter_eq. by destruct (fs_bufs f !! j).
  - by rewrite list_lookup_alter_ne.
Qed.

Definition to_front (i : nat) f : fsys := link_front2 i (link_front1 i (unlink_buf i f)).

Lemma core_to_front i z f : core (get_buf z (to_front i f)) = core (get_buf z f).
Proof.
  unfold to_front, link_front2, link_front1, unlink_buf.
  by rewrite core_next, core_prev, core_prev, core_next, core_next, core_prev.
Qed.

Lemma lru_to_front f l i :
  lru f l -> Permutation l (seq 0 NBUF) -> (i < NBUF)%nat ->
  exists l1 l2, l = l1 ++ i :: l2 /\ lru (to_front i f) (i :: l1 ++ l2) /\
    Permutation (i :: l1 ++ l2) (seq 0 NBUF).
Proof.
  intros Hl Hp Hi. assert (i ∈ l) as Hin.
  { rewrite Hp. apply elem_of_seq. lia. }
  apply list_elem_of_split in Hin as (l1 & l2 & ->). exists l1, l2. split; [done|].
  pose proof Hl as (_ & Hnd & _). split.
  - apply lru_push; [by apply lru_unlink|done|].
    apply NoDup_app in Hnd as (_ & Hx & [Hi2 _]%NoDup_cons). intros [H1|H2]%elem_of_app; [|done].
    apply (Hx i H1). by left.
  - rewrite <- Hp. apply Permutation_middle.
Qed.

Record released f (n : Z) f' : Prop := {
  r_ok : fs_ok f';
  r_frame : frame f f';
  r_disk : fs_disk f' = fs_disk f;
  r_writes : fs_writes f' = fs_writes f;
  r_view : view dev f' n = view dev f n;
  r_ref : ref dev f' n = ref dev f n - 1;
  r_lockd : lockd dev f' n = false;
  r_busy : busy f' = busy f - (if ref dev f n =? 1 then 1 else 0);
  r_others : others_same n f f'
}.

Definition dropped (b : buf) : buf := sub_ref (set_b_lock (unlocked (b_lock b)) b).

Lemma released_intro f f' n i :
  fs_ok f -> held f n i -> (ref dev f n = 1 -> disk_block n f = view dev f n) ->
  (forall z, (z < NBUF)%nat -> core (get_buf z f') = core (get_buf z (upd_buf i dropped f))) ->
  (exists l, lru f' l /\ Permutation l (seq 0 NBUF)) ->
  fs_vdisk f' = fs_vdisk f -> fs_disk f' = fs_disk f -> fs_writes f' = fs_writes f -> frame f f' ->
  released f n f'.
Proof.
  intros Hok Hh Hcl Hcore Hl Ev Ed Ew Hfr. pose proof Hok as [H Hv].
  pose proof (c_length dev f H) as Hlen. pose proof (held_small _ _ _ Hok Hh) as Hs.
  destruct (held_lt f n i Hh) as (Hi & Hm & En & Edv). pose proof (h_ref _ _ _ Hh) as Hr.
  assert (forall m, disk_block m f' = disk_block m f) as Hdb by (intros m; unfold disk_block; by rewrite Ed).
  assert (forall z, (z < NBUF)%nat -> core (get_buf z f') =
    core (if decide (z = i) then dropped (get_buf i f) else get_buf z f)) as Hc.
  { intros z Hz. rewrite Hcore, get_buf_upd by (done || lia). by case_decide; subst. }
  pose proof (Hc i Hi) as Hci. rewrite decide_True in Hci by done.
  destruct (core_fields _ _ Hci) as (Fv & Fd & Fb & Fl & Fr & Fdt & _).
  assert (b_refcnt (get_buf i f') = b_refcnt (get_buf i f) - 1) as Fr' by (rewrite Fr; apply u32_small; lia).
  cbn in Fv, Fd, Fb, Fl, Fdt.
  destruct (cache_step dev f f' i n) as (H1 & H2 & H3); [done|done| |done|by left| | |done|].
  { intros j Hj Hne. rewrite Hc by done. by rewrite decide_False. }
  { unfold matches in *. by rewrite Fd, Fb. }
  { split; [lia|]. split; [intros _; by rewrite Fl|]. intros _ _ Hz. rewrite Fdt, Fb, Hdb, En.
    rewrite <- (held_view f n i Hh). symmetry. apply Hcl. rewrite (held_ref f n i Hh). lia. }
  apply others_intro in H3. split; try done.
  - split; [done|by rewrite Ev].
  - unfold view at 1. rewrite H2, Fv, Fdt, (held_view f n i Hh).
    destruct (_ =? 0) eqn:E; [|done]. destruct Hh. lia.
  - unfold ref at 1. by rewrite H2, Fr', (held_ref f n i Hh).
  - unfold lockd. by rewrite H2, Fl.
  - rewrite (busy_step f f' i Hi).
    + unfold in_use. rewrite Fr', (held_ref f n i Hh).
      destruct (b_refcnt (get_buf i f) =? 0) eqn:E0, (b_refcnt (get_buf i f) =? 1) eqn:E1,
        (b_refcnt (get_buf i f) - 1 =? 0) eqn:E2; cbn; lia.
    + intros j Hj Hne. unfold in_use. pose proof (Hc j Hj) as Hcj. rewrite decide_False in Hcj by done.
      destruct (core_fields _ _ Hcj) as (_ & _ & _ & _ & -> & _). done.
Qed.

Lemma eval_brelse f n i :
  fs_ok f -> held f n i -> (ref dev f n = 1 -> disk_block n f = view dev f n) ->
  exists f', eval p pid [] (brelse i) [] f tt f' /\ released f n f'.
Proof.
  intros Hok Hh Hcl. pose proof Hok as [H Hv]. pose proof (c_length dev f H) as Hlen.
  destruct (held_lt f n i Hh) as (Hi & _). pose proof (h_ref _ _ _ Hh) as Hr.
  pose proof (held_small _ _ _ Hok Hh) as Hs.
  set (f2 := upd_buf i sub_ref (upd_slk (SL_buf i) unlocked f)).
  assert (f2 = upd_buf i dropped f) as E2.
  { unfold f2. cbn. by rewrite upd_buf_upd. }
  assert (b_refcnt (get_buf i f2) = b_refcnt (get_buf i f) - 1) as Er.
  { rewrite E2, get_buf_upd by lia. rewrite decide_True by done. cbn. apply u32_small. lia. }
  destruct (c_lru dev f H) as (l & Hl & Hp).
  assert (lru f2 l) as Hl2.
  { apply (lru_alter f f2 dropped i l); [done|by rewrite E2|lia|done]. }
  exists (if b_refcnt (get_buf i f) =? 1 then to_front i f2 else f2). split.
  { unfold brelse. eapply eval_bind; [by eapply eval_holding|]. cbn [negb].
    eapply eval_bind; [by apply eval_releasesleep, slk_in_buf|]. cbn beta. ev1. ev1. ev1. fold f2. rewrite Er.
    eapply eval_bind; [|ev1]. destruct (b_refcnt (get_buf i f) =? 1) eqn:E1.
    - destruct (_ - 1 =? 0) eqn:E0; [|lia]. unfold to_front. ev1. ev1. apply eval_modify.
    - destruct (_ - 1 =? 0) eqn:E0; [lia|]. apply eval_ret. }
  destruct (b_refcnt (get_buf i f) =? 1) eqn:E1.
  - destruct (lru_to_front f2 l i Hl2 Hp Hi) as (l1 & l2 & _ & Hl' & Hp').
    apply (released_intro f (to_front i f2) n i); try done.
    + intros z Hz. by rewrite core_to_front, E2.
    + by eexists.
  - apply (released_intro f f2 n i); try done.
    + intros z Hz. by rewrite E2.
    + by exists l.
Qed.
End Spec.
