(* ===== verification/Log.v ===== *)
(** kernel/log.c: the redo log that makes the disk updates of a system call atomic. *)
From S2P Require Import Prelude Riscv Machine Spinlock KString Kalloc Vm Sched Keeps FsIface.
From S2P Require Import FsState Quiet Sleeplock Bio.

(** struct logheader laid over a block: n at offset 0, block[i] at 4 + 4 i. *)
Definition lh_n (d : block) : Z := s32 (ld32 d 0).
Definition lh_block (d : block) (i : nat) : Z := s32 (ld32 d (4 + 4 * Z.of_nat i)).
Definition sizeof_logheader : Z := 4 + 4 * LOGSIZE.

(** log.lh.block[i] *)
Definition log_block (i : nat) (f : fsys) : Z := nth i (lg_block (fs_log f)) 0.
Definition set_log_block (i : nat) (v : Z) (f : fsys) : fsys :=
  upd_log (fun g => set_lg_block (<[i := v]> (lg_block g)) g) f.

Section Ops.
Context `{Fuel0 : Fuel} `{Dev : BlockDev}.
Abbreviation KM := (K (kstate fsys)).

(** for (tail = 0; tail < log.lh.n; tail++) body *)
Fixpoint tail_loop (k tail : nat) (body : nat -> KM unit) : KM unit :=
  match k with
  | O => out_of_fuel
  | S k =>
      n <- fs_gets (fun f => lg_n (fs_log f)) ;;
      if Z.of_nat tail <? n then body tail ;; tail_loop k (S tail) body else ret tt
  end.

Definition for_tail (body : nat -> KM unit) : KM unit :=
  n <- fs_gets (fun f => lg_n (fs_log f)) ;;
  tail_loop (S (Z.to_nat n)) 0 body.

(** bread(log.dev, log.start+tail+1) and bread(log.dev, log.lh.block[tail]) *)
Definition bread_log (tail : nat) : KM nat :=
  g <- fs_gets fs_log ;; bread (u32 (lg_dev g)) (u32 (lg_start g + Z.of_nat tail + 1)).

Definition bread_home (tail : nat) : KM nat :=
  dev <- fs_gets (fun f => lg_dev (fs_log f)) ;;
  n <- fs_gets (log_block tail) ;;
  bread (u32 dev) (u32 n).

(** memmove(dst->data, src->data, BSIZE): the whole of the data array. *)
Definition copy_data (dst src : nat) : KM unit :=
  d <- fs_gets (fun f => b_data (get_buf src f)) ;;
  fs_modify (upd_buf dst (set_b_data d)).

Definition install_body (recovering : bool) (tail : nat) : KM unit :=
  lbuf <- bread_log tail ;;
  dbuf <- bread_home tail ;;
  copy_data dbuf lbuf ;;
  bwrite dbuf ;;
  (when negb recovering do bunpin dbuf) ;;
  brelse lbuf ;;
  brelse dbuf.

Definition install_trans (recovering : bool) : KM unit := for_tail (install_body recovering).

Definition read_head : KM unit :=
  g <- fs_gets fs_log ;;
  buf <- bread (u32 (lg_dev g)) (u32 (lg_start g)) ;;
  d <- fs_gets (fun f => b_data (get_buf buf f)) ;;
  fs_modify (upd_log (set_lg_n (lh_n d))) ;;
  for_tail (fun i =>
    d <- fs_gets (fun f => b_data (get_buf buf f)) ;;
    fs_modify (set_log_block i (lh_block d i))) ;;
  brelse buf.

(** *(int * )(b->data + off) = v *)
Definition put_int (b : nat) (off v : Z) : fsys -> fsys :=
  upd_buf b (fun x => set_b_data (st32 (b_data x) off v) x).

Definition write_head : KM unit :=
  g <- fs_gets fs_log ;;
  buf <- bread (u32 (lg_dev g)) (u32 (lg_start g)) ;;
  n <- fs_gets (fun f => lg_n (fs_log f)) ;;
  fs_modify (put_int buf 0 n) ;;
  for_tail (fun i =>
    v <- fs_gets (log_block i) ;;
    fs_modify (put_int buf (4 + 4 * Z.of_nat i) v)) ;;
  bwrite buf ;;
  brelse buf.

Definition recover_from_log : KM unit :=
  read_head ;;
  install_trans true ;;
  fs_modify (upd_log (set_lg_n 0)) ;;
  write_head.

Definition initlog (dev : Z) (sb : superblock) : KM unit :=
  if sizeof_logheader >=? BSIZE then panic "initlog: too big logheader" else
  initlock L_log "log" ;;
  fs_modify (upd_log (set_lg_start (s32 (sb_logstart sb)))) ;;
  fs_modify (upd_log (set_lg_size (s32 (sb_nlog sb)))) ;;
  fs_modify (upd_log (set_lg_dev dev)) ;;
  recover_from_log.

(** The operation might exhaust the log space. *)
Definition log_full (g : logst) : bool :=
  lg_n g + (lg_outstanding g + 1) * MAXOPBLOCKS >? LOGSIZE.

Fixpoint begin_op_loop (k : nat) : KM unit :=
  match k with
  | O => out_of_fuel
  | S k =>
      g <- fs_gets fs_log ;;
      if negb (lg_committing g =? 0) then sleep Ch_log L_log ;; begin_op_loop k
      else if log_full g then sleep Ch_log L_log ;; begin_op_loop k
      else fs_modify (upd_log (fun g => set_lg_outstanding (s32 (lg_outstanding g + 1)) g)) ;;
           release L_log
  end.

Definition begin_op : KM unit :=
  acquire L_log ;;
  begin_op_loop (S fuel).

Definition write_log_body (tail : nat) : KM unit :=
  to <- bread_log tail ;;
  from <- bread_home tail ;;
  copy_data to from ;;
  bwrite to ;;
  brelse from ;;
  brelse to.

Definition write_log : KM unit := for_tail write_log_body.

Definition commit : KM unit :=
  n <- fs_gets (fun f => lg_n (fs_log f)) ;;
  when n >? 0 do
    (write_log ;;
     write_head ;;
     install_trans false ;;
     fs_modify (upd_log (set_lg_n 0)) ;;
     write_head).

Definition end_op : KM unit :=
  acquire L_log ;;
  fs_modify (upd_log (fun g => set_lg_outstanding (s32 (lg_outstanding g - 1)) g)) ;;
  g <- fs_gets fs_log ;;
  if negb (lg_committing g =? 0) then panic "log.committing" else
  do_commit <- (if lg_outstanding g =? 0
                then fs_modify (upd_log (set_lg_committing 1)) ;; ret true
                else wakeup Ch_log ;; ret false) ;;
  release L_log ;;
  when do_commit do
    (commit ;;
     acquire L_log ;;
     fs_modify (upd_log (set_lg_committing 0)) ;;
     wakeup Ch_log ;;
     release L_log).

(** for (i = 0; i < log.lh.n; i++) if (log.lh.block[i] == b->blockno) break; *)
Fixpoint absorb (k : nat) (l : list Z) (bno : Z) (i : nat) : nat :=
  match k with
  | O => i
  | S k => if u32 (nth i l 0) =? bno then i else absorb k l bno (S i)
  end.

Definition log_write (b : nat) : KM unit :=
  acquire L_log ;;
  g <- fs_gets fs_log ;;
  if (lg_n g >=? LOGSIZE) || (lg_n g >=? s32 (lg_size g - 1)) then panic "too big a transaction" else
  if lg_outstanding g <? 1 then panic "log_write outside of trans" else
  bno <- fs_gets (fun f => b_blockno (get_buf b f)) ;;
  let i := absorb (Z.to_nat (lg_n g)) (lg_block g) bno 0 in
  fs_modify (set_log_block i (s32 bno)) ;;
  (when Z.of_nat i =? lg_n g do
     (bpin b ;; fs_modify (upd_log (fun g => set_lg_n (s32 (lg_n g + 1)) g)))) ;;
  release L_log.
End Ops.
