(* ===== verification/LogSpec.v ===== *)
(** The log, without contention: what a commit writes to the disk and in which
    order, what recovery makes of any prefix of it, and hence that a transaction
    is atomic across a crash. *)
From stdpp Require Import functions.
From S2P Require Import Prelude Riscv Machine Spinlock KString Kalloc Vm Sched Keeps FsIface.
From S2P Require Import FsState Quiet Sleeplock Bio BioSpec Log.

Lemma in_take {A} (x : A) j l : x ∈ take j l -> x ∈ l.
Proof. intros H. rewrite <- (take_drop j l). apply elem_of_app. by left. Qed.

(** ** Sequences of disk writes *)

Definition apply_writes (ws : list (Z * block)) (D : Z -> block) : Z -> block :=
  foldl (fun D w => <[w.1 := w.2]> D) D ws.

Lemma apply_writes_app ws ws' D : apply_writes (ws ++ ws') D = apply_writes ws' (apply_writes ws D).
Proof. apply foldl_app. Qed.

Lemma apply_writes_cons n d ws D : apply_writes ((n, d) :: ws) D = apply_writes ws (<[n := d]> D).
Proof. done. Qed.

Lemma apply_writes_other ws D m : (m ∉ ws.*1) -> apply_writes ws D m = D m.
Proof.
  revert D. induction ws as [|[n d] ws IH]; intros D Hm; [done|].
  cbn in Hm. apply not_elem_of_cons in Hm as [Hne Hm]. cbn. fold (apply_writes ws (<[n:=d]> D)).
  rewrite IH by done. by rewrite fn_lookup_insert_ne.
Qed.

Lemma apply_writes_last ws D n d : NoDup ws.*1 -> (n, d) ∈ ws -> apply_writes ws D n = d.
Proof.
  revert D. induction ws as [|[n' d'] ws IH]; intros D Hnd Hin; [by apply elem_of_nil in Hin|].
  cbn in Hnd. apply NoDup_cons in Hnd as [Hn Hnd]. cbn. fold (apply_writes ws (<[n':=d']> D)).
  apply elem_of_cons in Hin as [[= <- <-]|Hin]; [|by apply IH].
  rewrite apply_writes_other by done. by rewrite fn_lookup_insert.
Qed.

Lemma apply_writes_agree ws D D' m : D m = D' m -> apply_writes ws D m = apply_writes ws D' m.
Proof.
  revert D D'. induction ws as [|[n d] ws IH]; intros D D' E; [done|]. cbn.
  apply IH. destruct (decide (n = m)) as [->|Hne].
  - by rewrite !fn_lookup_insert.
  - by rewrite !fn_lookup_insert_ne.
Qed.

Ltac fn_simpl :=
  repeat match goal with
  | |- context [insert ?k ?v ?g ?x] =>
      first [ constr_eq k x; rewrite (fn_lookup_insert g k v)
            | rewrite (fn_lookup_insert_ne g k x v) by congruence ]
  end.

(** ** The header block *)

Fixpoint put_blocks (d : block) (i : nat) (bs : list Z) : block :=
  match bs with
  | [] => d
  | b :: bs => put_blocks (st32 d (4 + 4 * Z.of_nat i) b) (S i) bs
  end.

(** The header write_head() makes of the old one for the transaction [bs]. *)
Definition hdr (d : block) (bs : list Z) : block := put_blocks (st32 d 0 (Z.of_nat (length bs))) 0 bs.

Lemma put_blocks_snoc_at d k l n :
  put_blocks d k (l ++ [n]) = st32 (put_blocks d k l) (4 + 4 * Z.of_nat (k + length l)) n.
Proof.
  revert d k. induction l as [|x l IH]; intros d k; cbn [app put_blocks length].
  - by rewrite Nat.add_0_r.
  - rewrite IH. do 4 f_equal. lia.
Qed.

Lemma put_blocks_snoc d l n :
  put_blocks d 0 (l ++ [n]) = st32 (put_blocks d 0 l) (4 + 4 * Z.of_nat (length l)) n.
Proof. apply put_blocks_snoc_at. Qed.

Lemma ld32_put_blocks d k l a : a + 4 <= 4 + 4 * Z.of_nat k -> ld32 (put_blocks d k l) a = ld32 d a.
Proof.
  revert d k. induction l as [|x l IH]; intros d k Ha; [done|]. cbn [put_blocks].
  rewrite IH by lia. rewrite ld_st_disj by lia. done.
Qed.

Lemma lh_block_put d k l i b :
  l !! i = Some b -> - 2 ^ 31 <= b < 2 ^ 31 -> lh_block (put_blocks d k l) (k + i) = b.
Proof.
  revert d k i. induction l as [|x l IH]; intros d k i Hi Hb; [done|]. cbn [put_blocks].
  destruct i as [|i].
  - injection Hi as ->. unfold lh_block. rewrite Nat.add_0_r, ld32_put_blocks, ld_st_same by lia.
    change (s32 (u32 b) = b). by rewrite s32_u32, s32_small.
  - replace (k + S i)%nat with (S k + i)%nat by lia. by apply IH.
Qed.

Lemma lh_n_hdr d bs : Z.of_nat (length bs) < 2 ^ 31 -> lh_n (hdr d bs) = Z.of_nat (length bs).
Proof.
  intros H. unfold lh_n, hdr. rewrite ld32_put_blocks, ld_st_same by lia.
  change (s32 (u32 (Z.of_nat (length bs))) = Z.of_nat (length bs)). by rewrite s32_u32, s32_small by lia.
Qed.

(** The transaction a header describes. *)
Definition hdr_blocks (d : block) : list Z := map (lh_block d) (seq 0 (Z.to_nat (lh_n d))).

Lemma hdr_blocks_hdr d bs :
  Z.of_nat (length bs) < 2 ^ 31 -> (forall b, b ∈ bs -> 0 <= b < 2 ^ 31) -> hdr_blocks (hdr d bs) = bs.
Proof.
  intros Hn Hb. unfold hdr_blocks. rewrite lh_n_hdr, Nat2Z.id by done. apply list_eq. intros i.
  rewrite list_lookup_fmap. destruct (bs !! i) as [b|] eqn:E.
  - pose proof (lookup_lt_Some _ _ _ E). rewrite lookup_seq_lt by done. cbn. f_equal.
    change i with (0 + i)%nat. apply lh_block_put; [done|].
    assert (0 <= b < 2 ^ 31); [|lia]. apply Hb. by eapply list_elem_of_lookup_2.
  - apply lookup_ge_None in E. by rewrite lookup_seq_ge.
Qed.

(** ** The state of the cache, block by block *)

Section Spec.
Context `{Fuel0 : Fuel} `{World0 : World} `{Dev : BlockDev} `{!BlockDevOk Dev} (dev : Z) (p : nat) (pid : Z).
Implicit Types f : fsys.

(** Block [m] reads [V m], has [R m] references, is locked if [Lk m], and is
    [D m] on disk; [b] buffers are in use. *)
Record cst f (V : Z -> block) (R : Z -> Z) (Lk : Z -> bool) (D : Z -> block) (b : Z) : Prop := {
  s_ok : fs_ok dev f;
  s_view m : view dev f m = V m;
  s_ref m : ref dev f m = R m;
  s_lock m : lockd dev f m = Lk m;
  s_disk m : disk_block m f = D m;
  s_busy : busy f = b
}.

Lemma cst_ext f V R Lk D b V' R' Lk' D' b' :
  cst f V R Lk D b -> (forall m, V m = V' m) -> (forall m, R m = R' m) -> (forall m, Lk m = Lk' m) ->
  (forall m, D m = D' m) -> b = b' -> cst f V' R' Lk' D' b'.
Proof. intros [] ? ? ? ? <-. split; [done|congruence..]. Qed.

(** A block that nobody references is as on disk. *)
Lemma unref_clean f n : fs_ok dev f -> ref dev f n = 0 -> view dev f n = disk_block n f.
Proof.
  intros [H _] Hr. unfold ref, view in *. pose proof (bufof_spec dev f n) as Hs.
  destruct (bufof dev f n) as [i|] eqn:E; [|done]. destruct (_ =? 0) eqn:Ev; [done|].
  destruct Hs as [Hi Hm]. destruct (c_buf dev f H i Hi) as (_ & _ & Hd).
  unfold matches in Hm. rewrite Hd by lia. f_equal. lia.
Qed.

Lemma cst_unref f V R Lk D b n : cst f V R Lk D b -> R n = 0 -> V n = D n.
Proof. intros [] Hr. rewrite <- s_view0, <- s_disk0. apply unref_clean; congruence. Qed.

Lemma disk_same f f' : fs_disk f' = fs_disk f -> forall m, disk_block m f' = disk_block m f.
Proof. intros E m. unfold disk_block. by rewrite E. Qed.

Lemma insert_case {A} (g h : Z -> A) n x :
  h n = x -> (forall m, m <> n -> h m = g m) -> forall m, h m = <[n := x]> g m.
Proof.
  intros Hn Hm m. destruct (decide (m = n)) as [->|Hne].
  - by rewrite fn_lookup_insert.
  - rewrite fn_lookup_insert_ne by done. by apply Hm.
Qed.

Lemma held_lockd f n i : held dev pid f n i -> lockd dev f n = true.
Proof. intros [Hb _ Hl _ _]. unfold lockd. by rewrite Hb. Qed.

(** The other buffers the caller holds, it still holds. *)
Definition keeps_held (n : Z) f f' : Prop :=
  forall m i, m <> n -> held dev pid f m i -> held dev pid f' m i.

(** A cache operation on block [n] alone. *)
Lemma cst_step f f' V R Lk D b n (v : block) (r : Z) (l : bool) (d : block) (b' : Z) :
  cst f V R Lk D b -> fs_ok dev f' -> others_same dev pid n f f' ->
  view dev f' n = v -> ref dev f' n = r -> lockd dev f' n = l ->
  disk_block n f' = d -> (forall m, m <> n -> disk_block m f' = disk_block m f) -> busy f' = b' ->
  cst f' (<[n := v]> V) (<[n := r]> R) (<[n := l]> Lk) (<[n := d]> D) b' /\ keeps_held n f f'.
Proof.
  intros [Hok HV HR HL HD Hb] Hok' Ho Hv Hr Hl Hd Hdm Hb'. split; [split; try assumption|].
  - apply insert_case; [done|]. intros m Hne. destruct (Ho m Hne) as ((-> & _) & _). apply HV.
  - apply insert_case; [done|]. intros m Hne. destruct (Ho m Hne) as ((_ & -> & _) & _). apply HR.
  - apply insert_case; [done|]. intros m Hne. destruct (Ho m Hne) as ((_ & _ & ->) & _). apply HL.
  - apply insert_case; [done|]. intros m Hne. rewrite Hdm by done. apply HD.
  - intros m i Hne. apply (Ho m Hne).
Qed.

Lemma insert_same {A} (g : Z -> A) n : forall m, <[n := g n]> g m = g m.
Proof. intros m. symmetry. revert m. by apply insert_case. Qed.

Lemma cst_bread f V R Lk D b n :
  cst f V R Lk D b -> Lk n = false -> (0 < R n \/ b < Z.of_nat NBUF) -> R n < 2 ^ 31 - 1 ->
  0 <= n < 2 ^ 31 ->
  exists i f', eval p pid [] (bread dev n) [] f i f' /\
    cst f' V (<[n := R n + 1]> R) (<[n := true]> Lk) D (b + if R n =? 0 then 1 else 0) /\
    frame f f' /\ fs_writes f' = fs_writes f /\ held dev pid f' n i /\ keeps_held n f f'.
Proof.
  intros Hc Hl Hfree Hsm Hbn. pose proof Hc as [Hok HV HR HL HD Hb].
  destruct (eval_bread dev p pid f n) as (i & f' & He & [? ? Hd ? Hh Hv Hr Hb' Ho]);
    [done|congruence|by rewrite HR, Hb|by rewrite HR|done|].
  exists i, f'. split; [exact He|].
  destruct (cst_step f f' V R Lk D b n (V n) (R n + 1) true (D n) (b + if R n =? 0 then 1 else 0)) as [Hc' Hk];
    try done; try congruence.
  - by eapply held_lockd.
  - by rewrite (disk_same f).
  - intros m _. by rewrite (disk_same f).
  - by rewrite <- HR, <- Hb.
  - split; [|done]. apply (cst_ext _ _ _ _ _ _ _ _ _ _ _ Hc'); (done || apply insert_same).
Qed.

Lemma cst_touch f V R Lk D b n i f' v k :
  cst f V R Lk D b -> held dev pid f n i -> touched dev pid f n i v k f' ->
  (forall m, m <> n -> disk_block m f' = disk_block m f) ->
  cst f' (<[n := v]> V) (<[n := k]> R) Lk (<[n := disk_block n f']> D) b /\
  frame f f' /\ held dev pid f' n i /\ keeps_held n f f'.
Proof.
  intros Hc Hh [? ? Hh' Hv Hr Hb Ho] Hd. pose proof (s_lock _ _ _ _ _ _ Hc) as Hlk.
  destruct (cst_step f f' V R Lk D b n v k (Lk n) (disk_block n f') b) as [Hc' Hk]; try done.
  - rewrite <- Hlk, (held_lockd _ _ _ Hh). by eapply held_lockd.
  - rewrite Hb. apply Hc.
  - split; [|done]. apply (cst_ext _ _ _ _ _ _ _ _ _ _ _ Hc'); (done || apply insert_same).
Qed.

Lemma cst_data f V R Lk D b n i d :
  cst f V R Lk D b -> held dev pid f n i ->
  let f' := upd_buf i (set_b_data d) f in
  cst f' (<[n := d]> V) R Lk D b /\ held dev pid f' n i /\ keeps_held n f f'.
Proof.
  intros Hc Hh f'. destruct (set_data_spec dev pid f n i d (s_ok _ _ _ _ _ _ Hc) Hh) as (Ht & Hd & Hw).
  destruct (cst_touch f V R Lk D b n i f' d (ref dev f n)) as (Hc' & _ & ? & ?); [done..|].
  split; [|done]. rewrite (disk_same f f' Hd), (s_disk _ _ _ _ _ _ Hc), (s_ref _ _ _ _ _ _ Hc) in Hc'.
  apply (cst_ext _ _ _ _ _ _ _ _ _ _ _ Hc'); (done || apply insert_same).
Qed.

Lemma cst_bwrite f V R Lk D b n i :
  cst f V R Lk D b -> held dev pid f n i ->
  exists f', eval p pid [] (bwrite i) [] f tt f' /\ cst f' V R Lk (<[n := V n]> D) b /\
    frame f f' /\ fs_writes f' = fs_writes f ++ [(n, V n)] /\
    held dev pid f' n i /\ keeps_held n f f'.
Proof.
  intros Hc Hh. destruct (eval_bwrite dev p pid f n i (s_ok _ _ _ _ _ _ Hc) Hh) as (f' & He & Ht & Hd & Hw).
  rewrite (s_view _ _ _ _ _ _ Hc), (s_ref _ _ _ _ _ _ Hc) in Ht. rewrite (s_view _ _ _ _ _ _ Hc) in Hd, Hw.
  exists f'. split; [exact He|].
  destruct (cst_touch f V R Lk D b n i f' (V n) (R n)) as (Hc' & ? & ? & ?); [done..| |].
  { intros m Hne. unfold disk_block. by rewrite Hd, lookup_insert_ne. }
  split; [|done]. assert (disk_block n f' = V n) as E by (unfold disk_block; by rewrite Hd, lookup_insert_eq).
  rewrite E in Hc'. apply (cst_ext _ _ _ _ _ _ _ _ _ _ _ Hc'); (done || apply insert_same).
Qed.

Lemma cst_pin H (c : nat -> K (kstate fsys) unit) (k : Z) f V R Lk D b n i :
  cst f V R Lk D b -> held dev pid f n i ->
  (exists f', eval p pid H (c i) H f tt f' /\ touched dev pid f n i (view dev f n) (ref dev f n + k) f' /\
    fs_disk f' = fs_disk f /\ fs_writes f' = fs_writes f) ->
  exists f', eval p pid H (c i) H f tt f' /\ cst f' V (<[n := R n + k]> R) Lk D b /\
    frame f f' /\ fs_writes f' = fs_writes f /\ held dev pid f' n i /\ keeps_held n f f'.
Proof.
  intros Hc Hh (f' & He & Ht & Hd & Hw). exists f'. split; [exact He|].
  rewrite (s_view _ _ _ _ _ _ Hc), (s_ref _ _ _ _ _ _ Hc) in Ht.
  destruct (cst_touch f V R Lk D b n i f' (V n) (R n + k)) as (Hc' & ? & ? & ?); [done..| |].
  { intros m _. by rewrite (disk_same f). }
  split; [|done]. rewrite (disk_same f f' Hd), (s_disk _ _ _ _ _ _ Hc) in Hc'.
  apply (cst_ext _ _ _ _ _ _ _ _ _ _ _ Hc'); (done || apply insert_same).
Qed.

Lemma cst_bpin H f V R Lk D b n i :
  (L_bcache ∉ H) -> cst f V R Lk D b -> held dev pid f n i -> R n < 2 ^ 31 - 1 ->
  exists f', eval p pid H (bpin i) H f tt f' /\ cst f' V (<[n := R n + 1]> R) Lk D b /\
    frame f f' /\ fs_writes f' = fs_writes f /\ held dev pid f' n i /\ keeps_held n f f'.
Proof.
  intros HH Hc Hh Hr. apply cst_pin; [done|done|].
  apply eval_bpin; [done|apply Hc|done|by rewrite (s_ref _ _ _ _ _ _ Hc)].
Qed.

Lemma cst_bunpin f V R Lk D b n i :
  cst f V R Lk D b -> held dev pid f n i -> 1 < R n ->
  exists f', eval p pid [] (bunpin i) [] f tt f' /\ cst f' V (<[n := R n - 1]> R) Lk D b /\
    frame f f' /\ fs_writes f' = fs_writes f /\ held dev pid f' n i /\ keeps_held n f f'.
Proof.
  intros Hc Hh Hr. apply cst_pin; [done|done|].
  apply eval_bunpin; [apply Hc|done|by rewrite (s_ref _ _ _ _ _ _ Hc)].
Qed.

Lemma cst_brelse f V R Lk D b n i :
  cst f V R Lk D b -> held dev pid f n i -> (R n = 1 -> D n = V n) ->
  exists f', eval p pid [] (brelse i) [] f tt f' /\
    cst f' V (<[n := R n - 1]> R) (<[n := false]> Lk) D (b - if R n =? 1 then 1 else 0) /\
    frame f f' /\ fs_writes f' = fs_writes f /\ keeps_held n f f'.
Proof.
  intros Hc Hh Hcl. pose proof Hc as [Hok HV HR HL HD Hb].
  destruct (eval_brelse dev p pid f n i) as (f' & He & [? ? Hd ? Hv Hr Hl' Hb' Ho]); [done|done| |].
  { by rewrite HR, HD, HV. }
  exists f'. split; [exact He|].
  destruct (cst_step f f' V R Lk D b n (V n) (R n - 1) false (D n) (b - if R n =? 1 then 1 else 0)) as [Hc' Hk];
    try done; try congruence.
  - by rewrite (disk_same f).
  - intros m _. by rewrite (disk_same f).
  - by rewrite <- HR, <- Hb.
  - split; [|done]. apply (cst_ext _ _ _ _ _ _ _ _ _ _ _ Hc'); (done || apply insert_same).
Qed.

(** ** The loops of the log *)

Lemma eval_for_tail (P : nat -> fsys -> Prop) n body f :
  0 <= n -> (forall j g, P j g -> lg_n (fs_log g) = n) ->
  (forall j g, Z.of_nat j < n -> P j g -> exists g', eval p pid [] (body j) [] g tt g' /\ P (S j) g') ->
  P O f -> exists f', eval p pid [] (for_tail body) [] f tt f' /\ P (Z.to_nat n) f'.
Proof.
  intros Hn Hlg Hb H0.
  assert (forall k j g, (j + k = Z.to_nat n)%nat -> P j g ->
    exists g', eval p pid [] (tail_loop (S k) j body) [] g tt g' /\ P (Z.to_nat n) g') as Hloop.
  { induction k as [|k IH]; intros j g Hj Hg; pose proof (Hlg j g Hg) as En.
    - exists g. assert (j = Z.to_nat n) as -> by lia. split; [|done].
      cbn [tail_loop]. eapply eval_bind; [apply eval_gets|]. cbn beta. rewrite En.
      rewrite (proj2 (Z.ltb_ge _ n)) by lia. apply eval_ret.
    - destruct (Hb j g) as (g1 & He & Hg1); [lia|done|].
      destruct (IH (S j) g1) as (g' & He' & Hg'); [lia|done|]. exists g'. split; [|done].
      change (tail_loop (S (S k)) j body) with
        (n <- fs_gets (fun f => lg_n (fs_log f)) ;;
         if Z.of_nat j <? n then body j ;; tail_loop (S k) (S j) body else ret tt).
      eapply eval_bind; [apply eval_gets|]. cbn beta. rewrite En.
      rewrite (proj2 (Z.ltb_lt _ n)) by lia. eapply eval_bind; [exact He|exact He']. }
  destruct (Hloop (Z.to_nat n) O f eq_refl H0) as (f' & He & Hf'). exists f'. split; [|done].
  unfold for_tail. eapply eval_bind; [apply eval_gets|]. cbn beta. by rewrite (Hlg O f H0).
Qed.

(** The in-memory header: [bs] are the blocks of the transaction, and the log
    starts at block [start] of this device. *)
Record log_at (start : Z) (bs : list Z) f : Prop := {
  l_start : lg_start (fs_log f) = start;
  l_dev : u32 (lg_dev (fs_log f)) = dev;
  l_n : lg_n (fs_log f) = Z.of_nat (length bs);
  l_blocks : forall i b, bs !! i = Some b -> log_block i f = b
}.

Lemma log_at_frame start bs f f' : frame f f' -> log_at start bs f -> log_at start bs f'.
Proof. intros [E _ _ _ _ _ _] []. unfold log_block in *. split; unfold log_block; by rewrite E. Qed.

(** The blocks of the transaction are neither the header nor log blocks. *)
Record log_shape (start : Z) (bs : list Z) : Prop := {
  sh_start : 0 <= start;
  sh_end : start + Z.of_nat (length bs) < 2 ^ 31;
  sh_nodup : NoDup bs;
  sh_home b : b ∈ bs -> 0 <= b < 2 ^ 31 /\ (b < start \/ start + Z.of_nat (length bs) < b)
}.

Lemma eval_bread_log start bs f j i f' :
  log_at start bs f -> log_shape start bs -> (j < length bs)%nat ->
  eval p pid [] (bread dev (start + Z.of_nat j + 1)) [] f i f' ->
  eval p pid [] (bread_log j) [] f i f'.
Proof.
  intros [Es Ed _ _] [? ? _ _] Hj He. unfold bread_log. eapply eval_bind; [apply eval_gets|]. cbn beta.
  by rewrite Es, Ed, u32_small by lia.
Qed.

Lemma eval_bread_home start bs f j n i f' :
  log_at start bs f -> log_shape start bs -> bs !! j = Some n ->
  eval p pid [] (bread dev n) [] f i f' -> eval p pid [] (bread_home j) [] f i f'.
Proof.
  intros [_ Ed _ Eb] Hsh Hj He. unfold bread_home. eapply eval_bind; [apply eval_gets|]. cbn beta.
  eapply eval_bind; [apply eval_gets|]. cbn beta. rewrite Ed, (Eb j n Hj).
  destruct (sh_home _ _ Hsh n) as (? & _); [by eapply list_elem_of_lookup_2|]. by rewrite u32_small by lia.
Qed.

Lemma cst_copy f V R Lk D b m n i j :
  cst f V R Lk D b -> held dev pid f m i -> held dev pid f n j ->
  exists f', eval p pid [] (copy_data j i) [] f tt f' /\ cst f' (<[n := V m]> V) R Lk D b /\
    frame f f' /\ fs_writes f' = fs_writes f /\ held dev pid f' n j /\ keeps_held n f f'.
Proof.
  intros Hc Hm Hn. destruct (cst_data f V R Lk D b n j (V m) Hc Hn) as (Hc' & Hn' & Hk).
  eexists. split; [|split; [exact Hc'|]].
  { unfold copy_data. eapply eval_bind; [apply eval_gets|]. cbn beta.
    rewrite <- (held_view dev pid f m i Hm), (s_view _ _ _ _ _ _ Hc). apply eval_modify. }
  split; [done|]. split; [done|]. split; [exact Hn'|exact Hk].
Qed.

(** The blocks are unlocked. *)
Abbreviation nolk := (fun _ : Z => false).

(** One round of write_log() or install_trans(): block [m] is read first, then
    [n]; both are read already when [g] is reached. *)
Definition both_read f V R D b (m n : Z) i j f' : Prop :=
  cst f' V (<[n := R n + 1]> (<[m := R m + 1]> R)) (<[n := true]> (<[m := true]> nolk)) D
    (b + (if R m =? 0 then 1 else 0) + (if R n =? 0 then 1 else 0)) /\
  frame f f' /\ fs_writes f' = fs_writes f /\ held dev pid f' m i /\ held dev pid f' n j.

Lemma cst_bread2 f V R D b m n :
  cst f V R nolk D b -> m <> n ->
  (0 < R m \/ b < Z.of_nat NBUF) -> R m < 2 ^ 31 - 1 ->
  (0 < R n \/ b + (if R m =? 0 then 1 else 0) < Z.of_nat NBUF) -> R n < 2 ^ 31 - 1 ->
  0 <= m < 2 ^ 31 -> 0 <= n < 2 ^ 31 ->
  exists i f1 j f', eval p pid [] (bread dev m) [] f i f1 /\ eval p pid [] (bread dev n) [] f1 j f' /\
    frame f f1 /\ both_read f V R D b m n i j f'.
Proof.
  intros Hc Hmn Hm Hm2 Hn Hn2 Hbm Hbn.
  destruct (cst_bread f V R nolk D b m Hc eq_refl Hm Hm2 Hbm) as (i & f1 & He & Hc1 & Hfr & Hw & Hh & _).
  assert (forall A (g : Z -> A) x, <[m := x]> g n = g n) as Hne by (intros; by apply fn_lookup_insert_ne).
  destruct (cst_bread f1 _ _ _ _ _ n Hc1) as (j & f' & He' & Hc' & Hfr' & Hw' & Hh' & Hk).
  { by rewrite Hne. } { by rewrite Hne. } { by rewrite Hne. } { done. }
  exists i, f1, j, f'. split; [exact He|]. split; [exact He'|]. split; [done|]. split.
  { apply (cst_ext _ _ _ _ _ _ _ _ _ _ _ Hc'); try done; by rewrite !Hne. }
  split; [by eapply frame_trans|]. split; [by rewrite Hw'|]. split; [|done]. by apply (Hk m i).
Qed.

Lemma write_round start bs f V R D b j n :
  cst f V R nolk D b -> log_at start bs f -> log_shape start bs -> bs !! j = Some n ->
  b < Z.of_nat NBUF -> (forall k, 0 <= R k < 2 ^ 31 - 1) -> 0 < R n ->
  let m := start + Z.of_nat j + 1 in
  exists f', eval p pid [] (write_log_body j) [] f tt f' /\
    cst f' (<[m := V n]> V) R nolk (<[m := V n]> D) b /\
    frame f f' /\ fs_writes f' = fs_writes f ++ [(m, V n)].
Proof.
  intros Hc Hl Hsh Hj Hb HR Hn m. pose proof (lookup_lt_Some _ _ _ Hj) as Hlt.
  assert (m <> n) as Hmn.
  { destruct (sh_home _ _ Hsh n) as [_ ?]; [by eapply list_elem_of_lookup_2|]. lia. }
  assert (0 <= m < 2 ^ 31) as Hbm by (destruct Hsh; lia).
  assert (0 <= n < 2 ^ 31) as Hbn by (apply (sh_home _ _ Hsh); by eapply list_elem_of_lookup_2).
  pose proof (HR m) as Hm. pose proof (HR n) as Hn'.
  destruct (cst_bread2 f V R D b m n Hc Hmn) as (i & f1 & k & f2 & E1 & E2 & Fr1 & Hc2 & Fr2 & W2 & Hi & Hk);
    [lia..|].
  destruct (cst_copy f2 _ _ _ _ _ n m k i Hc2 Hk Hi) as (f3 & E3 & Hc3 & Fr3 & W3 & Hi3 & Hk3).
  destruct (cst_bwrite f3 _ _ _ _ _ m i Hc3 Hi3) as (f4 & E4 & Hc4 & Fr4 & W4 & Hi4 & Hk4).
  rewrite fn_lookup_insert in W4, Hc4.
  destruct (cst_brelse f4 _ _ _ _ _ n k Hc4) as (f5 & E5 & Hc5 & Fr5 & W5 & Hk5).
  { apply Hk4; [done|]. by apply Hk3. } { rewrite fn_lookup_insert. lia. }
  destruct (cst_brelse f5 _ _ _ _ _ m i Hc5) as (f6 & E6 & Hc6 & Fr6 & W6 & _).
  { by apply Hk5. } { intros _. by rewrite !fn_lookup_insert. }
  exists f6. split.
  { unfold write_log_body. eapply eval_bind; [by eapply eval_bread_log|].
    eapply eval_bind; [eapply eval_bread_home; [by eapply log_at_frame|done|done|exact E2]|].
    do 2 (eapply eval_bind; [eassumption|]). eapply eval_bind; [exact E5|exact E6]. }
  split; [|split; [by repeat (eapply frame_trans; [eassumption|])|congruence]].
  apply (cst_ext _ _ _ _ _ _ _ _ _ _ _ Hc6); try done.
  - intros x. destruct (decide (x = m)) as [->|Hx]; [|destruct (decide (x = n)) as [->|Hx']]; fn_simpl; lia.
  - intros x. destruct (decide (x = m)) as [->|Hx]; [|destruct (decide (x = n)) as [->|Hx']]; fn_simpl; done.
  - fn_simpl. destruct (R m =? 0) eqn:?, (R n =? 0) eqn:?, (R n + 1 =? 1) eqn:?, (R m + 1 =? 1) eqn:?; lia.
Qed.

Definition dec_if (c : bool) (n : Z) (R : Z -> Z) : Z -> Z := if c then R else <[n := R n - 1]> R.

Lemma install_round recov start bs f V R D b j n :
  cst f V R nolk D b -> log_at start bs f -> log_shape start bs -> bs !! j = Some n ->
  b < Z.of_nat NBUF -> (forall k, 0 <= R k < 2 ^ 31 - 1) ->
  (if recov : bool then b + 1 < Z.of_nat NBUF else 0 < R n) ->
  let m := start + Z.of_nat j + 1 in
  exists f', eval p pid [] (install_body recov j) [] f tt f' /\
    cst f' (<[n := V m]> V) (dec_if recov n R) nolk (<[n := V m]> D)
      (b - if negb recov && (R n =? 1) then 1 else 0) /\
    frame f f' /\ fs_writes f' = fs_writes f ++ [(n, V m)].
Proof.
  intros Hc Hl Hsh Hj Hb HR Hn m. pose proof (lookup_lt_Some _ _ _ Hj) as Hlt.
  assert (m <> n) as Hmn.
  { destruct (sh_home _ _ Hsh n) as [_ ?]; [by eapply list_elem_of_lookup_2|]. lia. }
  assert (0 <= m < 2 ^ 31) as Hbm by (destruct Hsh; lia).
  assert (0 <= n < 2 ^ 31) as Hbn by (apply (sh_home _ _ Hsh); by eapply list_elem_of_lookup_2).
  pose proof (HR m) as Hm. pose proof (HR n) as Hn'.
  destruct (cst_bread2 f V R D b m n Hc Hmn) as (i & f1 & k & f2 & E1 & E2 & Fr1 & Hc2 & Fr2 & W2 & Hi & Hk);
    [lia|lia| |lia|done|done|].
  { destruct recov; [right; destruct (R m =? 0); lia|by left]. }
  destruct (cst_copy f2 _ _ _ _ _ m n i k Hc2 Hi Hk) as (f3 & E3 & Hc3 & Fr3 & W3 & Hk3 & Hi3).
  destruct (cst_bwrite f3 _ _ _ _ _ n k Hc3 Hk3) as (f4 & E4 & Hc4 & Fr4 & W4 & Hk4 & Hi4).
  rewrite fn_lookup_insert in W4, Hc4.
  assert (exists f5, eval p pid [] (when negb recov do bunpin k) [] f4 tt f5 /\
    cst f5 (<[n := V m]> V) (<[n := dec_if recov n R n + 1]> (<[m := R m + 1]> R))
      (<[n := true]> (<[m := true]> nolk)) (<[n := V m]> D)
      (b + (if R m =? 0 then 1 else 0) + (if R n =? 0 then 1 else 0)) /\
    frame f4 f5 /\ fs_writes f5 = fs_writes f4 /\ held dev pid f5 n k /\ held dev pid f5 m i)
    as (f5 & E5 & Hc5 & Fr5 & W5 & Hk5 & Hi5).
  { destruct recov; cbn [negb].
    - exists f4. split; [apply eval_ret|]. split; [exact Hc4|]. do 2 (split; [done|]). split; [done|].
      apply Hi4; [done|]. by apply Hi3.
    - destruct (cst_bunpin f4 _ _ _ _ _ n k Hc4 Hk4) as (f5 & E5 & Hc5 & Fr5 & W5 & Hk5 & Hi5).
      { rewrite fn_lookup_insert. lia. }
      exists f5. split; [exact E5|]. split; [|do 2 (split; [done|]); split; [done|]].
      + apply (cst_ext _ _ _ _ _ _ _ _ _ _ _ Hc5); try done. intros x.
        destruct (decide (x = n)) as [->|Hx]; unfold dec_if; fn_simpl; [lia|done].
      + apply Hi5; [done|]. apply Hi4; [done|]. by apply Hi3. }
  destruct (cst_brelse f5 _ _ _ _ _ m i Hc5 Hi5) as (f6 & E6 & Hc6 & Fr6 & W6 & Hk6).
  { fn_simpl. intros Hm1. symmetry. apply (cst_unref f V R nolk D b m Hc). lia. }
  destruct (cst_brelse f6 _ _ _ _ _ n k Hc6) as (f7 & E7 & Hc7 & Fr7 & W7 & _).
  { by apply Hk6. } { intros _. by rewrite !fn_lookup_insert. }
  exists f7. split.
  { unfold install_body. eapply eval_bind; [by eapply eval_bread_log|].
    eapply eval_bind; [eapply eval_bread_home; [by eapply log_at_frame|done|done|exact E2]|].
    do 4 (eapply eval_bind; [eassumption|]). exact E7. }
  split; [|split; [by repeat (eapply frame_trans; [eassumption|])|congruence]].
  apply (cst_ext _ _ _ _ _ _ _ _ _ _ _ Hc7); try done.
  - intros x. destruct (decide (x = m)) as [->|Hx]; [|destruct (decide (x = n)) as [->|Hx']];
      destruct recov; unfold dec_if; fn_simpl; lia.
  - intros x. destruct (decide (x = m)) as [->|Hx]; [|destruct (decide (x = n)) as [->|Hx']]; fn_simpl; done.
  - destruct recov; unfold dec_if; fn_simpl; cbn [negb andb].
    + destruct (R m =? 0) eqn:?, (R n =? 0) eqn:?, (R m + 1 =? 1) eqn:?, (R n + 1 =? 1) eqn:?; lia.
    + destruct (R m =? 0) eqn:?, (R n =? 0) eqn:?, (R m + 1 =? 1) eqn:?, (R n =? 1) eqn:?,
        (R n - 1 + 1 =? 1) eqn:?; lia.
Qed.

(** *** write_log() and install_trans() *)

Definition log_writes (start : Z) (bs : list Z) (V : Z -> block) : list (Z * block) :=
  imap (fun i n => (start + Z.of_nat i + 1, V n)) bs.
Definition home_writes (start : Z) (bs : list Z) (V : Z -> block) : list (Z * block) :=
  imap (fun i n => (n, V (start + Z.of_nat i + 1))) bs.

Lemma take_snoc (bs : list Z) j n : bs !! j = Some n -> take (S j) bs = take j bs ++ [n].
Proof. apply take_S_r. Qed.

Lemma log_writes_S start bs V j n :
  bs !! j = Some n ->
  log_writes start (take (S j) bs) V = log_writes start (take j bs) V ++ [(start + Z.of_nat j + 1, V n)].
Proof.
  intros Hj. pose proof (lookup_lt_Some _ _ _ Hj). unfold log_writes.
  rewrite (take_snoc _ _ _ Hj), imap_app. cbn. do 4 f_equal. rewrite length_take. lia.
Qed.

Lemma home_writes_S start bs V j n :
  bs !! j = Some n ->
  home_writes start (take (S j) bs) V = home_writes start (take j bs) V ++ [(n, V (start + Z.of_nat j + 1))].
Proof.
  intros Hj. pose proof (lookup_lt_Some _ _ _ Hj). unfold home_writes.
  rewrite (take_snoc _ _ _ Hj), imap_app. cbn. do 5 f_equal. rewrite length_take. lia.
Qed.

Lemma log_writes_fst start bs V m :
  m ∈ (log_writes start bs V).*1 -> start < m <= start + Z.of_nat (length bs).
Proof.
  intros ([m' d] & -> & Hin)%list_elem_of_fmap. apply elem_of_lookup_imap in Hin as (i & n & [= -> ->] & Hi).
  apply lookup_lt_Some in Hi. cbn. lia.
Qed.

Lemma home_writes_fst start bs V : (home_writes start bs V).*1 = bs.
Proof.
  unfold home_writes. apply list_eq. intros i. rewrite list_lookup_fmap, list_lookup_imap.
  by destruct (bs !! i).
Qed.

Lemma home_not_log start bs V n : log_shape start bs -> n ∈ bs -> n ∉ (log_writes start bs V).*1.
Proof. intros Hsh Hn Hin%log_writes_fst. destruct (sh_home _ _ Hsh n Hn). lia. Qed.

Lemma log_writes_take start bs V j n :
  n ∉ (log_writes start bs V).*1 -> n ∉ (log_writes start (take j bs) V).*1.
Proof.
  intros Hn Hin. apply Hn. apply list_elem_of_fmap in Hin as (w & -> & Hin). apply list_elem_of_fmap.
  exists w. split; [done|]. rewrite <- (take_drop j bs). unfold log_writes. rewrite imap_app.
  apply elem_of_app. by left.
Qed.

Lemma eval_write_log start bs f V R D b :
  cst f V R nolk D b -> log_at start bs f -> log_shape start bs -> b < Z.of_nat NBUF ->
  (forall k, 0 <= R k < 2 ^ 31 - 1) -> (forall n, n ∈ bs -> 0 < R n) ->
  let ws := log_writes start bs V in
  exists f', eval p pid [] write_log [] f tt f' /\
    cst f' (apply_writes ws V) R nolk (apply_writes ws D) b /\
    frame f f' /\ fs_writes f' = fs_writes f ++ ws.
Proof.
  intros Hc Hl Hsh Hb HR Hn ws.
  destruct (eval_for_tail (fun j g => let ws := log_writes start (take j bs) V in
    cst g (apply_writes ws V) R nolk (apply_writes ws D) b /\ frame f g /\
    fs_writes g = fs_writes f ++ ws) (Z.of_nat (length bs)) write_log_body f) as (f' & He & H'); [lia| | | |].
  - intros j g (_ & Hfr & _). apply (log_at_frame start bs _ _ Hfr Hl).
  - intros j g Hj (Hcg & Hfr & Hw). destruct (lookup_lt_is_Some_2 bs j) as [n En]; [lia|].
    assert (n ∈ bs) as Hin by by eapply list_elem_of_lookup_2.
    destruct (write_round start bs g _ R _ b j n Hcg) as (g' & He & Hc' & Hfr' & Hw'); [|done..|by apply Hn|].
    { by apply (log_at_frame _ _ f). }
    exists g'. split; [exact He|]. cbn zeta. rewrite (log_writes_S start bs V j n En), !apply_writes_app.
    rewrite (apply_writes_other _ V n) in Hc', Hw' by (by apply log_writes_take, home_not_log).
    split; [exact Hc'|]. split; [by eapply frame_trans|]. by rewrite Hw', Hw, app_assoc.
  - split; [exact Hc|]. split; [apply frame_refl|by rewrite app_nil_r].
  - rewrite Nat2Z.id, firstn_all in H'. exists f'. split; [exact He|exact H'].
Qed.

(** The references after the blocks are unpinned. *)
Definition unpin (recov : bool) (bs : list Z) (R : Z -> Z) (m : Z) : Z :=
  if recov then R m else if decide (m ∈ bs) then R m - 1 else R m.

Lemma eval_install_trans recov start bs f V R D b :
  cst f V R nolk D b -> log_at start bs f -> log_shape start bs -> b + Z.b2z recov < Z.of_nat NBUF ->
  (forall k, 0 <= R k < 2 ^ 31 - 1) -> (recov = false -> forall n, n ∈ bs -> 0 < R n) ->
  let ws := home_writes start bs V in
  exists f' b', eval p pid [] (install_trans recov) [] f tt f' /\ b' <= b /\
    cst f' (apply_writes ws V) (unpin recov bs R) nolk (apply_writes ws D) b' /\
    frame f f' /\ fs_writes f' = fs_writes f ++ ws.
Proof.
  intros Hc Hl Hsh Hb HR Hn ws.
  destruct (eval_for_tail (fun j g => let ws := home_writes start (take j bs) V in exists b', b' <= b /\
    cst g (apply_writes ws V) (unpin recov (take j bs) R) nolk (apply_writes ws D) b' /\ frame f g /\
    fs_writes g = fs_writes f ++ ws) (Z.of_nat (length bs)) (install_body recov) f) as (f' & He & H'); [lia| | | |].
  - intros j g (b' & _ & _ & Hfr & _). apply (log_at_frame start bs _ _ Hfr Hl).
  - intros j g Hj (b' & Hb' & Hcg & Hfr & Hw). destruct (lookup_lt_is_Some_2 bs j) as [n En]; [lia|].
    assert (n ∈ bs) as Hin by by eapply list_elem_of_lookup_2.
    assert (n ∉ take j bs) as Hnt.
    { pose proof (sh_nodup _ _ Hsh) as Hnd. rewrite <- (take_drop j bs) in Hnd.
      apply NoDup_app in Hnd as (_ & Hx & _). intros Hin'. apply (Hx n Hin').
      rewrite (drop_S _ _ _ En). by left. }
    destruct (install_round recov start bs g _ _ _ b' j n Hcg) as (g' & He & Hc' & Hfr' & Hw').
    { by apply (log_at_frame _ _ f). } { done. } { done. } { destruct recov; cbn in Hb; lia. }
    { intros k. unfold unpin. pose proof (HR k). destruct recov; [lia|]. case_decide as Hk; [|lia].
      pose proof (Hn eq_refl k (in_take _ _ _ Hk)). lia. }
    { destruct recov; cbn in Hb; [lia|]. unfold unpin. rewrite decide_False by done. by apply Hn. }
    exists g'. split; [exact He|]. cbn zeta. rewrite (home_writes_S start bs V j n En), !apply_writes_app.
    assert (start + Z.of_nat j + 1 ∉ (home_writes start (take j bs) V).*1) as Hlog.
    { rewrite home_writes_fst. intros Hin'. destruct (sh_home _ _ Hsh (start + Z.of_nat j + 1)) as [_ ?]; [|lia].
      by eapply in_take. }
    rewrite (apply_writes_other _ V _ Hlog) in Hc', Hw'.
    exists (b' - if negb recov && (unpin recov (take j bs) R n =? 1) then 1 else 0).
    split; [destruct (negb recov && _); lia|].
    split; [|split; [by eapply frame_trans|by rewrite Hw', Hw, app_assoc]].
    apply (cst_ext _ _ _ _ _ _ _ _ _ _ _ Hc'); try done. intros k. unfold dec_if, unpin.
    rewrite (take_snoc _ _ _ En). destruct recov; [done|]. rewrite (decide_False (P := n ∈ take j bs)) by done.
    destruct (decide (k = n)) as [->|Hne]; fn_simpl.
    + rewrite decide_True; [done|]. apply elem_of_app. right. by left.
    + destruct (decide (k ∈ take j bs)) as [Hk|Hk].
      * rewrite decide_True; [done|]. apply elem_of_app. by left.
      * rewrite decide_False; [done|]. rewrite elem_of_app, list_elem_of_singleton. naive_solver.
  - exists b. split; [lia|]. split; [|split; [apply frame_refl|by rewrite app_nil_r]].
    apply (cst_ext _ _ _ _ _ _ _ _ _ _ _ Hc); try done. intros k. unfold unpin. destruct recov; [done|].
    rewrite decide_False; [done|]. apply not_elem_of_nil.
  - rewrite Nat2Z.id, firstn_all in H'. destruct H' as (b' & Hb' & H'). exists f', b'.
    split; [exact He|]. split; [done|exact H'].
Qed.

(** *** The header block *)

Lemma cst_put f V R Lk D b n i off v :
  cst f V R Lk D b -> held dev pid f n i ->
  cst (put_int i off v f) (<[n := st32 (V n) off v]> V) R Lk D b /\ held dev pid (put_int i off v f) n i.
Proof.
  intros Hc Hh. destruct (cst_data f V R Lk D b n i (st32 (V n) off v) Hc Hh) as (Hc' & Hh' & _).
  assert (put_int i off v f = upd_buf i (set_b_data (st32 (V n) off v)) f) as ->; [|by split].
  unfold put_int, upd_buf. f_equal. apply list_alter_ext'. intros x Hx. f_equal. f_equal.
  rewrite <- (s_view _ _ _ _ _ _ Hc), (held_view _ _ _ _ _ Hh). unfold get_buf. by rewrite Hx.
Qed.

Lemma frame_put f i off v : frame f (put_int i off v f).
Proof. by split. Qed.

Lemma eval_write_head start bs f V R D b :
  cst f V R nolk D b -> log_at start bs f -> log_shape start bs -> b < Z.of_nat NBUF ->
  0 <= R start < 2 ^ 31 - 1 ->
  let d := hdr (V start) bs in
  exists f', eval p pid [] write_head [] f tt f' /\
    cst f' (<[start := d]> V) R nolk (<[start := d]> D) b /\
    frame f f' /\ fs_writes f' = fs_writes f ++ [(start, d)].
Proof.
  intros Hc Hl Hsh Hb HR d. pose proof Hl as [Es Ed En Eb].
  destruct (cst_bread f V R nolk D b start Hc eq_refl) as (i & f1 & E1 & Hc1 & Fr1 & W1 & Hi & _);
    [lia|lia|destruct Hsh; lia|].
  destruct (cst_put f1 _ _ _ _ _ start i 0 (Z.of_nat (length bs)) Hc1 Hi) as [Hc2 Hi2].
  set (R1 := <[start := R start + 1]> R) in *. set (L1 := <[start := true]> nolk) in *.
  set (b1 := b + if R start =? 0 then 1 else 0) in *.
  destruct (eval_for_tail (fun j g =>
    cst g (<[start := put_blocks (st32 (V start) 0 (Z.of_nat (length bs))) 0 (take j bs)]> V) R1 L1 D b1 /\
    held dev pid g start i /\ frame f g /\ fs_writes g = fs_writes f)
    (Z.of_nat (length bs)) (fun j => v <- fs_gets (log_block j) ;; fs_modify (put_int i (4 + 4 * Z.of_nat j) v))
    (put_int i 0 (Z.of_nat (length bs)) f1)) as (f3 & E3 & Hc3 & Hi3 & Fr3 & W3); [lia| | | |].
  - intros j g (_ & _ & Hfr & _). apply (log_at_frame start bs _ _ Hfr Hl).
  - intros j g Hj (Hcg & Hh & Hfr & Hw). destruct (lookup_lt_is_Some_2 bs j) as [n Ej]; [lia|].
    destruct (cst_put g _ _ _ _ _ start i (4 + 4 * Z.of_nat j) n Hcg Hh) as [Hc' Hh']. eexists. split.
    { eapply eval_bind; [apply eval_gets|]. cbn beta.
      rewrite (l_blocks _ _ _ (log_at_frame _ _ _ _ Hfr Hl) j n Ej). apply eval_modify. }
    split; [|split; [exact Hh'|split; [eapply frame_trans; [exact Hfr|apply frame_put]|exact Hw]]].
    apply (cst_ext _ _ _ _ _ _ _ _ _ _ _ Hc'); try done. intros x. rewrite (take_snoc _ _ _ Ej), put_blocks_snoc.
    rewrite length_take, Nat.min_l by lia. destruct (decide (x = start)) as [->|Hx]; fn_simpl; done.
  - split; [|split; [exact Hi2|split; [eapply frame_trans; [exact Fr1|apply frame_put]|exact W1]]].
    apply (cst_ext _ _ _ _ _ _ _ _ _ _ _ Hc2); done.
  - rewrite Nat2Z.id, firstn_all in Hc3. fold (hdr (V start) bs) in Hc3. fold d in Hc3.
    destruct (cst_bwrite f3 _ _ _ _ _ start i Hc3 Hi3) as (f4 & E4 & Hc4 & Fr4 & W4 & Hi4 & _).
    rewrite fn_lookup_insert in Hc4, W4.
    destruct (cst_brelse f4 _ _ _ _ _ start i Hc4 Hi4) as (f5 & E5 & Hc5 & Fr5 & W5 & _).
    { intros _. by rewrite !fn_lookup_insert. }
    exists f5. split.
    { unfold write_head. eapply eval_bind; [apply eval_gets|]. cbn beta. rewrite Ed, Es, u32_small by (destruct Hsh; lia).
      eapply eval_bind; [exact E1|]. cbn beta. eapply eval_bind; [apply eval_gets|]. cbn beta.
      rewrite (fr_log _ _ Fr1), En. eapply eval_bind; [apply eval_modify|]. cbn beta.
      eapply eval_bind; [exact E3|]. eapply eval_bind; [exact E4|exact E5]. }
    split; [|split; [by repeat (eapply frame_trans; [eassumption|])|congruence]].
    apply (cst_ext _ _ _ _ _ _ _ _ _ _ _ Hc5); try done; unfold R1, L1, b1.
    + intros x. destruct (decide (x = start)) as [->|Hx]; fn_simpl; lia.
    + intros x. destruct (decide (x = start)) as [->|Hx]; fn_simpl; done.
    + fn_simpl. destruct (R start =? 0) eqn:?, (R start + 1 =? 1) eqn:?; lia.
Qed.

(** *** Changing the in-memory header *)

(** The fields that neither the cache nor the log touches. *)
Record lframe f f' : Prop := {
  lf_sb : fs_sb f' = fs_sb f;
  lf_inodes : fs_inodes f' = fs_inodes f;
  lf_cons : fs_cons f' = fs_cons f;
  lf_uart : fs_uart f' = fs_uart f;
  lf_panicked : fs_panicked f' = fs_panicked f;
  lf_locking : fs_locking f' = fs_locking f
}.

Lemma frame_lframe f f' : frame f f' -> lframe f f'.
Proof. intros []. by split. Qed.

Lemma lframe_trans f g h : lframe f g -> lframe g h -> lframe f h.
Proof. intros [] []. split; congruence. Qed.

Lemma fs_ok_log g f : fs_ok dev f -> fs_ok dev (upd_log g f).
Proof.
  intros [[Hl Hu Hb Hn] Hv]. split; [split|exact Hv]; [|exact Hu|exact Hb|exact Hn].
  destruct Hl as (l & (H1 & H2 & H3 & H4) & Hp). exists l. split; [|done].
  apply (lru_ext f); [by split|done|done].
Qed.

Lemma cst_log g f V R Lk D b : cst f V R Lk D b -> cst (upd_log g f) V R Lk D b.
Proof. intros [H1 H2 H3 H4 H5 H6]. split; [by apply fs_ok_log|exact H2|exact H3|exact H4|exact H5|exact H6]. Qed.

Lemma held_log g f n i : held dev pid f n i -> held dev pid (upd_log g f) n i.
Proof. intros [H1 H2 H3 H4 H5]. split; [exact H1|exact H2|exact H3|exact H4|exact H5]. Qed.

(** The log before its header is read. *)
Record log_place (start : Z) f : Prop := {
  p_start : lg_start (fs_log f) = start;
  p_dev : u32 (lg_dev (fs_log f)) = dev;
  p_len : length (lg_block (fs_log f)) = Z.to_nat LOGSIZE
}.

Lemma log_place_frame start f f' : frame f f' -> log_place start f -> log_place start f'.
Proof. intros [E _ _ _ _ _ _] []. split; by rewrite E. Qed.

Lemma log_block_set i v f j :
  (i < length (lg_block (fs_log f)))%nat ->
  log_block j (set_log_block i v f) = if decide (j = i) then v else log_block j f.
Proof.
  intros Hi. unfold log_block, set_log_block. cbn. rewrite !nth_lookup. case_decide as E.
  - subst. by rewrite list_lookup_insert_eq.
  - by rewrite list_lookup_insert_ne by done.
Qed.

Lemma eval_read_head start f V R D b :
  cst f V R nolk D b -> log_place start f -> 0 <= start < 2 ^ 31 -> b < Z.of_nat NBUF -> R start = 0 ->
  0 <= lh_n (V start) <= LOGSIZE ->
  exists f', eval p pid [] read_head [] f tt f' /\ cst f' V R nolk D b /\
    log_place start f' /\ log_at start (hdr_blocks (V start)) f' /\ lframe f f' /\ fs_writes f' = fs_writes f.
Proof.
  intros Hc Hl Hst Hb HR Hn. pose proof Hl as [Es Ed Elen].
  destruct (cst_bread f V R nolk D b start Hc eq_refl) as (i & f1 & E1 & Hc1 & Fr1 & W1 & Hi & _); [lia|lia|lia|].
  set (R1 := <[start := R start + 1]> R) in *. set (L1 := <[start := true]> nolk) in *.
  set (b1 := b + if R start =? 0 then 1 else 0) in *. set (n := lh_n (V start)) in *.
  destruct (eval_for_tail (fun j g => cst g V R1 L1 D b1 /\ held dev pid g start i /\ lframe f g /\
      fs_writes g = fs_writes f /\ log_place start g /\ lg_n (fs_log g) = n /\
      forall k, (k < j)%nat -> log_block k g = lh_block (V start) k)
    n (fun j => d <- fs_gets (fun f => b_data (get_buf i f)) ;; fs_modify (set_log_block j (lh_block d j)))
    (upd_log (set_lg_n n) f1)) as (f3 & E3 & Hc3 & Hi3 & Fr3 & W3 & Hp3 & En3 & Hk3); [lia|naive_solver| | |].
  - intros j g Hj (Hcg & Hh & Hfr & Hw & Hp & En & Hk). eexists. split.
    { eapply eval_bind; [apply eval_gets|]. cbn beta.
      rewrite <- (held_view _ _ _ _ _ Hh), (s_view _ _ _ _ _ _ Hcg). apply eval_modify. }
    split; [by apply cst_log|]. split; [by apply held_log|]. split; [by destruct Hfr; split|].
    split; [exact Hw|]. split; [|split; [exact En|]].
    { destruct Hp. split; [done|done|]. cbn. by rewrite length_insert. }
    intros k Hk'. rewrite log_block_set by (rewrite (p_len _ _ Hp); unfold LOGSIZE in *; lia).
    case_decide as E; [by subst|]. apply Hk. lia.
  - split; [by apply cst_log|]. split; [by apply held_log|].
    split; [by destruct (frame_lframe _ _ Fr1); split|]. split; [exact W1|].
    destruct (log_place_frame _ _ _ Fr1 Hl). split; [by split|]. split; [done|]. intros k Hk. lia.
  - destruct (cst_brelse f3 _ _ _ _ _ start i Hc3 Hi3) as (f4 & E4 & Hc4 & Fr4 & W4 & _).
    { intros _. symmetry. by apply (cst_unref f V R nolk D b start Hc). }
    exists f4. split.
    { unfold read_head. eapply eval_bind; [apply eval_gets|]. cbn beta. rewrite Ed, Es, u32_small by lia.
      eapply eval_bind; [exact E1|]. cbn beta. eapply eval_bind; [apply eval_gets|]. cbn beta.
      rewrite <- (held_view _ _ _ _ _ Hi), (s_view _ _ _ _ _ _ Hc1). fold n.
      eapply eval_bind; [apply eval_modify|]. cbn beta. eapply eval_bind; [exact E3|exact E4]. }
    split.
    { apply (cst_ext _ _ _ _ _ _ _ _ _ _ _ Hc4); try done; unfold R1, L1, b1.
      - intros x. destruct (decide (x = start)) as [->|Hx]; fn_simpl; lia.
      - intros x. destruct (decide (x = start)) as [->|Hx]; fn_simpl; done.
      - fn_simpl. destruct (R start =? 0) eqn:?, (R start + 1 =? 1) eqn:?; lia. }
    split; [by eapply log_place_frame|]. split.
    { apply (log_at_frame _ _ _ _ Fr4). destruct Hp3. split; [done|done| |].
      - unfold hdr_blocks. rewrite length_map, length_seq, En3. fold n. lia.
      - intros k x Hx. unfold hdr_blocks in Hx. apply list_lookup_fmap_Some in Hx as (k' & -> & Hk').
        apply lookup_seq in Hk' as [-> Hk']. apply Hk3. exact Hk'. }
    split; [|congruence]. eapply lframe_trans; [exact Fr3|by apply frame_lframe].
Qed.

(** *** commit() and recover_from_log() *)

Definition commit_writes (start : Z) (bs : list Z) (V : Z -> block) : list (Z * block) :=
  log_writes start bs V ++ (start, hdr (V start) bs) ::
  map (fun n => (n, V n)) bs ++ [(start, hdr (hdr (V start) bs) [])].

Lemma log_at_nil start bs f :
  log_at start bs f -> log_at start [] (upd_log (set_lg_n 0) f).
Proof. intros []. by split. Qed.

Lemma log_shape_nil start bs : log_shape start bs -> log_shape start [].
Proof. intros []. split; [done|cbn; lia|apply NoDup_nil_2|]. intros b Hb. by apply elem_of_nil in Hb. Qed.

Lemma apply_log_writes start bs V D i n :
  bs !! i = Some n -> apply_writes (log_writes start bs V) D (start + Z.of_nat i + 1) = V n.
Proof.
  intros Hi. apply apply_writes_last.
  - unfold log_writes. rewrite fmap_imap. apply NoDup_alt. intros j k x Hj Hk.
    rewrite list_lookup_imap in Hj, Hk. destruct (bs !! j), (bs !! k); cbn in Hj, Hk; try done.
    injection Hj as <-. injection Hk. lia.
  - apply elem_of_lookup_imap. by exists i, n.
Qed.

Lemma apply_log_start start bs V D : apply_writes (log_writes start bs V) D start = D start.
Proof. apply apply_writes_other. intros H%log_writes_fst. lia. Qed.

Lemma home_writes_logged start bs V V' :
  (forall i n, bs !! i = Some n -> V' (start + Z.of_nat i + 1) = V n) ->
  home_writes start bs V' = map (fun n => (n, V n)) bs.
Proof.
  intros H. apply list_eq. intros i. unfold home_writes. rewrite list_lookup_imap, list_lookup_fmap.
  destruct (bs !! i) as [n|] eqn:E; [|done]. cbn. by rewrite (H i n E).
Qed.

Lemma map_fst (V : Z -> block) bs : (map (fun n => (n, V n)) bs).*1 = bs.
Proof. induction bs as [|b bs IH]; [done|]. cbn. by f_equal. Qed.

Lemma start_not_home start bs : log_shape start bs -> start ∉ bs.
Proof. intros Hsh H. destruct (sh_home _ _ Hsh _ H). lia. Qed.

Lemma eval_commit start bs f V R D b :
  cst f V R nolk D b -> log_at start bs f -> log_shape start bs -> bs <> [] -> b < Z.of_nat NBUF ->
  (forall k, 0 <= R k < 2 ^ 31 - 1) -> (forall n, n ∈ bs -> 0 < R n) ->
  let ws := commit_writes start bs V in
  exists f' b', eval p pid [] commit [] f tt f' /\ b' <= b /\
    cst f' (apply_writes ws V) (unpin false bs R) nolk (apply_writes ws D) b' /\
    log_at start [] f' /\ fs_log f' = set_lg_n 0 (fs_log f) /\ lframe f f' /\
    fs_writes f' = fs_writes f ++ ws.
Proof.
  intros Hc Hl Hsh Hne Hb HR Hpin ws. pose proof (start_not_home _ _ Hsh) as Hs.
  destruct (eval_write_log start bs f V R D b) as (f1 & E1 & Hc1 & Fr1 & W1); [done..|].
  pose proof (log_at_frame _ _ _ _ Fr1 Hl) as Hl1.
  destruct (eval_write_head start bs f1 _ _ _ _ Hc1) as (f2 & E2 & Hc2 & Fr2 & W2); [done|done|done|apply HR|].
  rewrite apply_log_start in Hc2, W2. pose proof (log_at_frame _ _ _ _ Fr2 Hl1) as Hl2.
  destruct (eval_install_trans false start bs f2 _ _ _ _ Hc2) as (f3 & b3 & E3 & Hb3 & Hc3 & Fr3 & W3);
    [done|done|cbn; lia|done|done|].
  rewrite (home_writes_logged _ _ V) in Hc3, W3.
  2-3: (intros i n Hi; rewrite fn_lookup_insert_ne by lia; by apply apply_log_writes).
  pose proof (log_at_nil _ _ _ (log_at_frame _ _ _ _ Fr3 Hl2)) as Hl3.
  destruct (eval_write_head start [] (upd_log (set_lg_n 0) f3) _ _ _ _ (cst_log _ _ _ _ _ _ _ Hc3))
    as (f4 & E4 & Hc4 & Fr4 & W4); [done|by eapply log_shape_nil|lia| |].
  { unfold unpin. rewrite decide_False by done. apply HR. }
  rewrite (apply_writes_other (map _ _)), fn_lookup_insert in Hc4, W4 by by rewrite map_fst.
  exists f4, b3. split.
  { unfold commit. eapply eval_bind; [apply eval_gets|]. cbn beta. rewrite (l_n _ _ _ Hl).
    rewrite (proj2 (Z.gtb_lt _ _)) by (destruct bs; [done|cbn; lia]).
    do 3 (eapply eval_bind; [eassumption|]). eapply eval_bind; [apply eval_modify|exact E4]. }
  split; [lia|]. split; [|split; [by eapply log_at_frame|split; [|split]]].
  - unfold ws, commit_writes. rewrite !apply_writes_app, !apply_writes_cons, !apply_writes_app. exact Hc4.
  - rewrite (fr_log _ _ Fr4). cbn. by rewrite (fr_log _ _ Fr3), (fr_log _ _ Fr2), (fr_log _ _ Fr1).
  - eapply lframe_trans; [|by apply frame_lframe]. apply (lframe_trans _ f3); [|by split].
    apply frame_lframe. by repeat (eapply frame_trans; [eassumption|]).
  - rewrite W4. cbn [fs_writes upd_log set_fs_log]. rewrite W3, W2, W1. unfold ws, commit_writes.
    by rewrite <- !app_assoc.
Qed.

Definition recover_writes (start : Z) (D : Z -> block) : list (Z * block) :=
  home_writes start (hdr_blocks (D start)) D ++ [(start, hdr (D start) [])].

Lemma eval_recover start f D b :
  cst f D (fun _ => 0) nolk D b -> log_place start f -> b + 1 < Z.of_nat NBUF ->
  0 <= lh_n (D start) <= LOGSIZE -> log_shape start (hdr_blocks (D start)) ->
  let ws := recover_writes start D in
  exists f' b', eval p pid [] recover_from_log [] f tt f' /\ b' <= b /\
    cst f' (apply_writes ws D) (fun _ => 0) nolk (apply_writes ws D) b' /\
    log_at start [] f' /\ lframe f f' /\ fs_writes f' = fs_writes f ++ ws.
Proof.
  intros Hc Hp Hb Hn Hsh ws. pose proof (start_not_home _ _ Hsh) as Hs. pose proof Hsh as [? ? _ _].
  destruct (eval_read_head start f D (fun _ => 0) D b) as (f1 & E1 & Hc1 & Hp1 & Hl1 & Fr1 & W1); try done; try lia.
  destruct (eval_install_trans true start _ f1 _ _ _ _ Hc1 Hl1 Hsh) as (f2 & b2 & E2 & Hb2 & Hc2 & Fr2 & W2);
    [cbn; lia|lia|done|].
  pose proof (log_at_nil _ _ _ (log_at_frame _ _ _ _ Fr2 Hl1)) as Hl2.
  destruct (eval_write_head start [] (upd_log (set_lg_n 0) f2) _ _ _ _ (cst_log _ _ _ _ _ _ _ Hc2))
    as (f3 & E3 & Hc3 & Fr3 & W3); [done|by eapply log_shape_nil|lia|done|].
  rewrite (apply_writes_other (home_writes _ _ _)) in Hc3, W3 by by rewrite home_writes_fst.
  exists f3, b2. split.
  { unfold recover_from_log. do 2 (eapply eval_bind; [eassumption|]).
    eapply eval_bind; [apply eval_modify|exact E3]. }
  split; [lia|]. split; [|split; [by eapply log_at_frame|split]].
  - unfold ws, recover_writes. rewrite apply_writes_app. exact Hc3.
  - eapply lframe_trans; [|by apply frame_lframe]. apply (lframe_trans _ f2); [|by split].
    eapply lframe_trans; [exact Fr1|by apply frame_lframe].
  - rewrite W3. cbn [fs_writes upd_log set_fs_log]. rewrite W2, W1. unfold ws, recover_writes.
    by rewrite <- app_assoc.
Qed.

(** ** Crashes *)

(** The blocks outside the log. *)
Definition home (start : Z) (bs : list Z) (m : Z) : Prop := m < start \/ start + Z.of_nat (length bs) < m.

(** The blocks of the disk after the transaction. *)
Definition after (bs : list Z) (V D : Z -> block) (m : Z) : block := if decide (m ∈ bs) then V m else D m.

Lemma recover_clean start D :
  0 <= start < 2 ^ 31 -> lh_n (D start) = 0 ->
  log_shape start (hdr_blocks (D start)) /\
  forall m, m <> start -> apply_writes (recover_writes start D) D m = D m.
Proof.
  intros Hs E. assert (hdr_blocks (D start) = []) as En by (unfold hdr_blocks; by rewrite E).
  unfold recover_writes. rewrite En. split.
  - split; [lia|cbn; lia|apply NoDup_nil_2|]. intros b Hb. by apply elem_of_nil in Hb.
  - intros m Hm. apply apply_writes_other. cbn. by rewrite list_elem_of_singleton.
Qed.

Lemma recover_logged start bs V D D1 :
  log_shape start bs -> hdr_blocks (D1 start) = bs ->
  (forall i n, bs !! i = Some n -> D1 (start + Z.of_nat i + 1) = V n) ->
  (forall m, (m ∉ bs) -> home start bs m -> D1 m = D m) ->
  forall m, home start bs m -> apply_writes (recover_writes start D1) D1 m = after bs V D m.
Proof.
  intros Hsh Hh Hlog Hout m Hm. unfold recover_writes. rewrite apply_writes_app, Hh, (home_writes_logged _ _ V) by done.
  rewrite apply_writes_cons. cbn. rewrite fn_lookup_insert_ne by (unfold home in Hm; lia).
  unfold after. case_decide as Hin.
  - apply apply_writes_last; [rewrite map_fst; apply Hsh|]. apply list_elem_of_fmap. by exists m.
  - rewrite apply_writes_other by by rewrite map_fst. by apply Hout.
Qed.

(** The disk during the commit, seen from the header: nothing is committed until
    the header is written, everything is from then on. *)
Lemma crash_disk start bs V D k :
  log_shape start bs -> Z.of_nat (length bs) <= LOGSIZE -> lh_n (D start) = 0 ->
  let D1 := apply_writes (take k (commit_writes start bs V)) D in
  0 <= lh_n (D1 start) <= LOGSIZE /\ log_shape start (hdr_blocks (D1 start)) /\
  forall m, home start bs m ->
    apply_writes (recover_writes start D1) D1 m = if (k <=? length bs)%nat then D m else after bs V D m.
Proof.
  intros Hsh Hsz Hclean D1. pose proof Hsh as [? ? Hnd Hhm]. pose proof (start_not_home _ _ Hsh) as Hs.
  assert (0 <= LOGSIZE) as HL by (unfold LOGSIZE; lia).
  assert (length (log_writes start bs V) = length bs) as Hlen by apply length_imap.
  assert (forall m, home start bs m -> m ∉ (log_writes start bs V).*1) as Hnl.
  { intros m Hm Hin%log_writes_fst. unfold home in Hm. lia. }
  unfold D1, commit_writes. destruct (k <=? length bs)%nat eqn:Ek.
  - apply Nat.leb_le in Ek. rewrite take_app_le by lia.
    assert (forall m, home start bs m \/ m = start ->
      apply_writes (take k (log_writes start bs V)) D m = D m) as HD.
    { intros m Hm. apply apply_writes_other. intros Hin. rewrite fmap_take in Hin.
      apply in_take in Hin.
      destruct Hm as [Hm| ->]; [by apply (Hnl m Hm)|]. apply log_writes_fst in Hin. lia. }
    destruct (recover_clean start (apply_writes (take k (log_writes start bs V)) D)) as [H1 H2];
      [lia|rewrite HD; auto|].
    split; [rewrite HD, Hclean by auto; lia|]. split; [done|].
    intros m Hm. rewrite H2, HD by (auto || (unfold home in Hm; lia)). done.
  - apply Nat.leb_gt in Ek. destruct (k - length bs)%nat as [|j] eqn:Ej; [lia|].
    rewrite take_app_ge, Hlen, Ej by lia. cbn [take]. rewrite apply_writes_app, apply_writes_cons.
    set (D2 := apply_writes (log_writes start bs V) D).
    set (h := hdr (V start) bs). set (D3 := <[start := h]> D2).
    assert (forall m, home start bs m -> D3 m = D m) as H3.
    { intros m Hm. unfold D3. rewrite fn_lookup_insert_ne by (unfold home in Hm; lia).
      by apply apply_writes_other, Hnl. }
    assert (forall i n, bs !! i = Some n -> D3 (start + Z.of_nat i + 1) = V n) as H3log.
    { intros i n Hi. unfold D3. rewrite fn_lookup_insert_ne by lia. by apply apply_log_writes. }
    destruct (decide (j <= length bs)%nat) as [Hj|Hj].
    + rewrite take_app_le by (rewrite length_map; lia).
      set (D4 := apply_writes (take j (map (fun n => (n, V n)) bs)) D3).
      assert (forall m, (m ∉ bs) -> D4 m = D3 m) as H4.
      { intros m Hm. apply apply_writes_other. rewrite fmap_take, map_fst.
        intros Hi%in_take. by apply Hm. }
      assert (D4 start = h) as E4 by (rewrite H4 by done; apply fn_lookup_insert).
      assert (hdr_blocks h = bs) as Eh.
      { apply hdr_blocks_hdr; [lia|]. intros b Hb. apply (Hhm b Hb). }
      rewrite E4, Eh. split; [unfold h; rewrite lh_n_hdr; lia|]. split; [done|].
      apply recover_logged; [done|by rewrite E4| |].
      * intros i n Hi. rewrite H4; [by apply H3log|]. intros Hin. destruct (Hhm _ Hin) as [_ ?].
        apply lookup_lt_Some in Hi. lia.
      * intros m Hm Hh. by rewrite H4, H3.
    + rewrite take_ge by (rewrite length_app, length_map; cbn; lia). rewrite apply_writes_app.
      set (D4 := apply_writes (map (fun n => (n, V n)) bs) D3). rewrite apply_writes_cons.
      cbn [apply_writes foldl]. set (D5 := <[start := hdr h []]> D4).
      assert (D5 start = hdr h []) as E5 by apply fn_lookup_insert.
      destruct (recover_clean start D5) as [H1 H2]; [lia|rewrite E5; by apply lh_n_hdr|].
      split; [rewrite E5, lh_n_hdr; cbn; lia|]. split; [done|].
      intros m Hm. rewrite H2 by (unfold home in Hm; lia). unfold D5.
      rewrite fn_lookup_insert_ne by (unfold home in Hm; lia). unfold after. case_decide as Hin.
      * apply apply_writes_last; [by rewrite map_fst|]. apply list_elem_of_fmap. by exists m.
      * unfold D4. rewrite apply_writes_other by by rewrite map_fst. by apply H3.
Qed.

(** C3: a transaction is atomic across crashes. commit() writes the disk; if the
    machine stops after any number [k] of these writes and recovery runs on the
    disk as it is then, with an empty cache, every block outside the log is as
    before the transaction (while the header is not yet written, k <= n) or every one is as
    after it, and the log on disk is empty again. *)
Theorem commit_crash_atomic start bs f V R D b :
  cst f V R nolk D b -> log_at start bs f -> log_shape start bs -> bs <> [] ->
  Z.of_nat (length bs) <= LOGSIZE -> b < Z.of_nat NBUF ->
  (forall k, 0 <= R k < 2 ^ 31 - 1) -> (forall n, n ∈ bs -> 0 < R n) -> lh_n (D start) = 0 ->
  exists f' ws, eval p pid [] commit [] f tt f' /\ fs_writes f' = fs_writes f ++ ws /\
    forall k g, let D1 := apply_writes (take k ws) D in
      cst g D1 (fun _ => 0) nolk D1 0 -> log_place start g ->
      exists g', eval p pid [] recover_from_log [] g tt g' /\
        lh_n (disk_block start g') = 0 /\
        forall m, home start bs m ->
          disk_block m g' = if (k <=? length bs)%nat then D m else after bs V D m.
Proof.
  intros Hc Hl Hsh Hne Hsz Hb HR Hpin Hclean.
  destruct (eval_commit start bs f V R D b) as (f' & b' & He & _ & _ & _ & _ & _ & Hw); [done..|].
  exists f', (commit_writes start bs V). split; [exact He|]. split; [exact Hw|].
  intros k g D1 Hg Hp. destruct (crash_disk start bs V D k Hsh Hsz Hclean) as (Hn & Hsh1 & Hm).
  fold D1 in Hn, Hsh1, Hm.
  destruct (eval_recover start g D1 0 Hg Hp) as (g' & b1 & He' & _ & Hc' & _); [by vm_compute|done|done|].
  exists g'. split; [exact He'|]. split.
  - rewrite (s_disk _ _ _ _ _ _ Hc'). unfold recover_writes. rewrite apply_writes_app, apply_writes_cons. cbn [apply_writes foldl].
    rewrite fn_lookup_insert. by apply (lh_n_hdr _ []).
  - intros m Hh. rewrite (s_disk _ _ _ _ _ _ Hc'). by apply Hm.
Qed.

(** ** Operations of a transaction *)

Lemma eval_begin_op f :
  lg_committing (fs_log f) = 0 -> log_full (fs_log f) = false ->
  eval p pid [] begin_op [] f tt
    (upd_log (fun g => set_lg_outstanding (s32 (lg_outstanding g + 1)) g) f).
Proof.
  intros Hc Hf. unfold begin_op. eapply eval_bind; [apply eval_acquire; [done|not_in]|]. cbn beta.
  cbn [begin_op_loop]. eapply eval_bind; [apply eval_gets|]. cbn beta. rewrite Hc, Hf. cbn [Z.eqb negb].
  eapply eval_bind; [apply eval_modify|]. apply eval_release; [done|not_in].
Qed.

Lemma absorb_spec l bs bno :
  (forall i b, bs !! i = Some b -> nth i l 0 = b /\ 0 <= b < 2 ^ 31) ->
  absorb (length bs) l bno 0 =
    match list_find (fun b => b = bno) bs with Some (i, _) => i | None => length bs end.
Proof.
  intros H. change (absorb (length bs) l bno 0 = 0 + match list_find (fun b => b = bno) bs with
    Some (i, _) => i | None => length bs end)%nat.
  assert (forall i b, bs !! i = Some b -> nth (0 + i) l 0 = b /\ 0 <= b < 2 ^ 31) as H' by exact H.
  clear H. revert H'. generalize O as k. induction bs as [|b bs IH]; intros k H; [cbn; lia|].
  cbn [absorb length list_find]. destruct (H O b eq_refl) as [Eb Hb]. rewrite Nat.add_0_r in Eb.
  rewrite Eb, u32_small by lia. case_decide as E.
  - subst. rewrite Z.eqb_refl. lia.
  - rewrite (proj2 (Z.eqb_neq b bno)) by done. rewrite (IH (S k)).
    + destruct (list_find (fun b => b = bno) bs) as [[]|]; cbn; lia.
    + intros i x Hx. rewrite Nat.add_succ_comm. by apply (H (S i)).
Qed.

(** The blocks of a transaction after [n] is logged, and the references: a new
    block is pinned, one that is already in the transaction is absorbed. *)
Definition logged (n : Z) (bs : list Z) : list Z := if decide (n ∈ bs) then bs else bs ++ [n].
Definition pinned (n : Z) (bs : list Z) (R : Z -> Z) : Z -> Z :=
  if decide (n ∈ bs) then R else <[n := R n + 1]> R.

(** The rest of the in-memory log. *)
Definition log_same f f' : Prop :=
  lg_start (fs_log f') = lg_start (fs_log f) /\ lg_size (fs_log f') = lg_size (fs_log f) /\
  lg_outstanding (fs_log f') = lg_outstanding (fs_log f) /\
  lg_committing (fs_log f') = lg_committing (fs_log f) /\ lg_dev (fs_log f') = lg_dev (fs_log f) /\
  length (lg_block (fs_log f')) = length (lg_block (fs_log f)).

Lemma logged_lookup n bs :
  exists i, logged n bs !! i = Some n /\
    i = match list_find (fun b => b = n) bs with Some (i, _) => i | None => length bs end /\
    (forall j b, logged n bs !! j = Some b -> j <> i -> bs !! j = Some b) /\
    length (logged n bs) = if (i =? length bs)%nat then S (length bs) else length bs.
Proof.
  unfold logged. destruct (list_find (fun b => b = n) bs) as [[i b]|] eqn:E.
  - apply list_find_Some in E as (Hi & -> & _). exists i. pose proof (lookup_lt_Some _ _ _ Hi).
    rewrite decide_True by by eapply list_elem_of_lookup_2. split; [done|]. split; [done|].
    split; [done|]. by rewrite (proj2 (Nat.eqb_neq _ _)) by lia.
  - apply list_find_None in E. rewrite Forall_forall in E. exists (length bs).
    rewrite decide_False by (intros Hn; by apply (E n)). rewrite Nat.eqb_refl, length_app. cbn.
    split; [apply list_lookup_middle; done|]. split; [done|]. split; [|lia].
    intros j b [Hj|[Hj Hb]]%lookup_app_Some Hne; [done|]. apply list_lookup_singleton_Some in Hb as [Hb _]. lia.
Qed.

Lemma eval_log_write start bs f V R Lk D b n i :
  cst f V R Lk D b -> held dev pid f n i -> log_at start bs f ->
  length (lg_block (fs_log f)) = Z.to_nat LOGSIZE -> Z.of_nat (length bs) < LOGSIZE ->
  Z.of_nat (length bs) < lg_size (fs_log f) - 1 < 2 ^ 31 - 1 -> 1 <= lg_outstanding (fs_log f) ->
  (forall x, x ∈ bs -> 0 <= x < 2 ^ 31) -> 0 <= n < 2 ^ 31 -> R n < 2 ^ 31 - 1 ->
  exists f', eval p pid [] (log_write i) [] f tt f' /\ cst f' V (pinned n bs R) Lk D b /\
    log_at start (logged n bs) f' /\ log_same f f' /\ lframe f f' /\ fs_writes f' = fs_writes f /\
    held dev pid f' n i /\ keeps_held n f f'.
Proof.
  intros Hc Hh Hl Hlen Hn Hsz Hout Hbs Hbn HR. pose proof Hl as [Es Ed En Eb].
  destruct (held_lt dev pid f n i Hh) as (_ & _ & Ebn & _).
  destruct (logged_lookup n bs) as (j & Hj & Ej & Hold & Hlj).
  assert (j < Z.to_nat LOGSIZE)%nat as Hjl.
  { apply lookup_lt_Some in Hj. rewrite Hlj in Hj. destruct (j =? length bs)%nat eqn:E.
    - apply Nat.eqb_eq in E. lia.
    - lia. }
  assert (absorb (Z.to_nat (lg_n (fs_log f))) (lg_block (fs_log f)) n 0 = j) as Ea.
  { rewrite En, Nat2Z.id, Ej. apply absorb_spec. intros k x Hx. split; [by apply Eb|].
    apply Hbs. by eapply list_elem_of_lookup_2. }
  set (f1 := set_log_block j (s32 n) f).
  assert (forall k x, logged n bs !! k = Some x -> log_block k f1 = x) as Hb1.
  { intros k x Hx. unfold f1. rewrite log_block_set by lia. case_decide as E.
    - subst k. rewrite s32_small by lia. congruence.
    - apply Eb. by apply Hold. }
  assert (exists f', eval p pid [L_log] (when Z.of_nat j =? lg_n (fs_log f) do
      (bpin i ;; fs_modify (upd_log (fun g => set_lg_n (s32 (lg_n g + 1)) g)))) [L_log] f1 tt f' /\
    cst f' V (pinned n bs R) Lk D b /\ log_at start (logged n bs) f' /\ log_same f f' /\ lframe f f' /\
    fs_writes f' = fs_writes f /\ held dev pid f' n i /\ keeps_held n f f') as (f' & He & Hrest).
  { rewrite En. destruct (j =? length bs)%nat eqn:E.
    - apply Nat.eqb_eq in E. assert (n ∉ bs) as Hnin.
      { intros Hin. unfold logged in Hlj. rewrite decide_True in Hlj by done. lia. }
      destruct (cst_bpin [L_log] f1 V R Lk D b n i) as (f2 & E2 & Hc2 & Fr2 & W2 & Hh2 & Hk2);
        [not_in|by apply cst_log|by apply held_log|done|].
      exists (upd_log (fun g => set_lg_n (s32 (lg_n g + 1)) g) f2). pose proof (fr_log _ _ Fr2) as Elog. split.
      { rewrite E, Z.eqb_refl. eapply eval_bind; [exact E2|apply eval_modify]. }
      split; [unfold pinned; rewrite decide_False by done; by apply cst_log|].
      split; [split; cbn [upd_log fs_log set_fs_log lg_start lg_dev lg_n set_lg_n]; rewrite ?Elog;
        [exact Es|exact Ed| |]|].
      { rewrite Hlj. change (lg_n (fs_log f1)) with (lg_n (fs_log f)). rewrite En, s32_small; lia. }
      { intros k x Hx. unfold log_block. cbn [upd_log fs_log set_fs_log lg_block set_lg_n]. rewrite Elog. by apply Hb1. }
      split; [unfold log_same; cbn; rewrite Elog; cbn; by rewrite length_insert|].
      split; [by destruct Fr2; split|]. split; [done|]. split; [by apply held_log|].
      intros m k Hne Hm. apply held_log. apply Hk2; [done|]. by apply held_log.
    - apply Nat.eqb_neq in E. assert (n ∈ bs) as Hin.
      { destruct (decide (n ∈ bs)) as [|Hx]; [done|]. unfold logged in Hlj. rewrite decide_False in Hlj by done.
        rewrite length_app in Hlj. cbn in Hlj. lia. }
      exists f1. split; [rewrite (proj2 (Z.eqb_neq _ _)) by lia; apply eval_ret|].
      split; [unfold pinned; rewrite decide_True by done; by apply cst_log|].
      split; [split; try done; cbn; by rewrite En, Hlj|].
      split; [unfold log_same; cbn; by rewrite length_insert|].
      split; [done|]. split; [done|]. split; [by apply held_log|]. intros m k Hne Hm. by apply held_log. }
  exists f'. split; [|exact Hrest]. unfold log_write. eapply eval_bind; [apply eval_acquire; [done|not_in]|]. cbn beta.
  eapply eval_bind; [apply eval_gets|]. cbn beta.
  rewrite s32_small, !Z.geb_leb by lia.
  rewrite (proj2 (Z.leb_gt LOGSIZE _)), (proj2 (Z.leb_gt (_ - 1) _)) by lia. cbn [orb].
  rewrite (proj2 (Z.ltb_ge _ 1)) by lia. eapply eval_bind; [apply eval_gets|]. cbn beta zeta.
  rewrite Ebn, Ea. eapply eval_bind; [apply eval_modify|]. cbn beta. fold f1.
  eapply eval_bind; [exact He|]. apply eval_release; [done|not_in].
Qed.

Lemma commit_home start bs V D n :
  log_shape start bs -> home start bs n ->
  apply_writes (commit_writes start bs V) D n = after bs V D n /\
  apply_writes (commit_writes start bs V) V n = after bs V V n.
Proof.
  intros Hsh Hn. assert (forall X, apply_writes (commit_writes start bs V) X n = after bs V X n) as H; [|by split].
  intros X. unfold commit_writes. rewrite apply_writes_app, apply_writes_cons, apply_writes_app, apply_writes_cons.
  cbn [apply_writes foldl]. rewrite fn_lookup_insert_ne by (unfold home in Hn; lia).
  unfold after. case_decide as Hin.
  - apply apply_writes_last; [rewrite map_fst; apply Hsh|]. apply list_elem_of_fmap. by exists n.
  - rewrite apply_writes_other by by rewrite map_fst. rewrite fn_lookup_insert_ne by (unfold home in Hn; lia).
    apply apply_writes_other. intros Hx%log_writes_fst. unfold home in Hn. lia.
Qed.

Lemma commit_start start bs V D : lh_n (apply_writes (commit_writes start bs V) D start) = 0.
Proof.
  unfold commit_writes. rewrite apply_writes_app, apply_writes_cons, apply_writes_app, apply_writes_cons.
  cbn [apply_writes foldl]. rewrite fn_lookup_insert. by apply (lh_n_hdr _ []).
Qed.

(** C6: end_op() of the last outstanding operation makes its transaction
    durable: afterwards every block outside the log is on disk as the cache has
    it, the pins are gone and the log is empty, in memory and on disk. *)
Theorem end_op_durable start bs f V R D b :
  cst f V R nolk D b -> log_at start bs f -> log_shape start bs -> b < Z.of_nat NBUF ->
  (forall k, 0 <= R k < 2 ^ 31 - 1) -> (forall n, n ∈ bs -> 0 < R n) ->
  (forall n, (n ∉ bs) -> V n = D n) -> lh_n (D start) = 0 ->
  lg_outstanding (fs_log f) = 1 -> lg_committing (fs_log f) = 0 ->
  exists f', eval p pid [] end_op [] f tt f' /\
    (forall n, home start bs n -> disk_block n f' = V n /\ view dev f' n = V n) /\
    (forall n, ref dev f' n = unpin false bs R n) /\ lh_n (disk_block start f') = 0 /\
    log_at start [] f' /\ lg_outstanding (fs_log f') = 0 /\ lg_committing (fs_log f') = 0.
Proof.
  intros Hc Hl Hsh Hb HR Hpin Hun Hclean Hout Hcom. pose proof (start_not_home _ _ Hsh) as Hs.
  set (f1 := upd_log (set_lg_committing 1)
    (upd_log (fun g => set_lg_outstanding (s32 (lg_outstanding g - 1)) g) f)).
  assert (cst f1 V R nolk D b) as Hc1 by (apply cst_log, cst_log, Hc).
  assert (log_at start bs f1) as Hl1 by (destruct Hl; by split).
  assert (exists f2 b2, eval p pid [] commit [] f1 tt f2 /\
    cst f2 (apply_writes (if decide (bs = []) then [] else commit_writes start bs V) V) (unpin false bs R) nolk
      (apply_writes (if decide (bs = []) then [] else commit_writes start bs V) D) b2 /\
    log_at start [] f2 /\ fs_log f2 = set_lg_n 0 (fs_log f1)) as (f2 & b2 & E2 & Hc2 & Hl2 & El2).
  { destruct (decide (bs = [])) as [->|Hne].
    - exists f1, b. split; [|split; [|split; [exact Hl1|]]].
      + unfold commit. eapply eval_bind; [apply eval_gets|]. cbn beta. rewrite (l_n _ _ _ Hl1). apply eval_ret.
      + apply (cst_ext _ _ _ _ _ _ _ _ _ _ _ Hc1); done.
      + pose proof (l_n _ _ _ Hl1) as E0. destruct (fs_log f1) eqn:Eg. cbn in E0. by subst.
    - destruct (eval_commit start bs f1 V R D b) as (f2 & b2 & E2 & _ & Hc2 & Hl2 & El2 & _); [done..|].
      exists f2, b2. by split. }
  exists (upd_log (set_lg_committing 0) f2). split.
  { unfold end_op. eapply eval_bind; [apply eval_acquire; [done|not_in]|]. cbn beta.
    eapply eval_bind; [apply eval_modify|]. cbn beta. eapply eval_bind; [apply eval_gets|]. cbn beta.
    cbn [fs_log upd_log set_fs_log lg_committing lg_outstanding set_lg_outstanding]. rewrite Hcom, Hout.
    cbn [Z.eqb negb]. change (s32 (1 - 1) =? 0) with true. cbn match.
    eapply eval_bind; [eapply eval_bind; [apply eval_modify|apply eval_ret]|]. cbn beta.
    eapply eval_bind; [apply eval_release; [done|not_in]|]. cbn match.
    eapply eval_bind; [exact E2|]. eapply eval_bind; [apply eval_acquire; [done|not_in]|].
    eapply eval_bind; [apply eval_modify|]. cbn beta.
    eapply eval_bind; [apply eval_wakeup; [done|intros i; not_in]|]. apply eval_release; [done|not_in]. }
  pose proof (cst_log (set_lg_committing 0) _ _ _ _ _ _ Hc2) as Hc3.
  split; [|split; [apply Hc3|split; [|split; [by destruct Hl2; split|]]]].
  - intros n Hn. rewrite (s_disk _ _ _ _ _ _ Hc3), (s_view _ _ _ _ _ _ Hc3).
    destruct (commit_home start bs V D n Hsh Hn) as [E1 E3].
    destruct (decide (bs = [])) as [->|_].
    + cbn. split; [|done]. symmetry. apply Hun, not_elem_of_nil.
    + rewrite E1, E3. unfold after. split; [case_decide; [done|by rewrite Hun]|by case_decide].
  - rewrite (s_disk _ _ _ _ _ _ Hc3). case_decide; [done|]. by apply commit_start.
  - cbn. rewrite El2. cbn. rewrite Hout. done.
Qed.
End Spec.
