(* ===== verification/BlockSpec.v ===== *)
(** The buffer cache from boot, and as a store of blocks: what a client writes
    through it is on disk and is what a later client reads. *)
From Stdlib Require Import Permutation.
From stdpp Require Import functions.
From S2P Require Import Prelude Riscv Machine Spinlock KString Kalloc Vm Sched Keeps FsIface.
From S2P Require Import FsState Quiet Sleeplock Bio BioSpec Log LogSpec.

Section Spec.
Context `{Fuel0 : Fuel} `{World0 : World} `{Dev : BlockDev} `{!BlockDevOk Dev} (dev : Z) (p : nat) (pid : Z).
Implicit Types f : fsys.

(** A client that overwrites a block and one that reads it. *)
Definition store_block (n : Z) (d : block) : K (kstate fsys) unit :=
  i <- bread dev n ;;
  fs_modify (upd_buf i (set_b_data d)) ;;
  bwrite i ;;
  brelse i.

Definition load_block (n : Z) : K (kstate fsys) block :=
  i <- bread dev n ;;
  d <- fs_gets (fun f => b_data (get_buf i f)) ;;
  brelse i ;;
  ret d.

Lemma cst_store_block f V R D b n d :
  cst dev f V R (fun _ => false) D b -> (0 < R n \/ b < Z.of_nat NBUF) -> 0 <= R n < 2 ^ 31 - 1 -> 0 <= n < 2 ^ 31 ->
  exists f', eval p pid [] (store_block n d) [] f tt f' /\
    cst dev f' (<[n := d]> V) R (fun _ => false) (<[n := d]> D) b /\ fs_writes f' = fs_writes f ++ [(n, d)].
Proof.
  intros Hc Hf Hr Hn. destruct (cst_bread dev p pid f V R (fun _ => false) D b n) as (i & f1 & E1 & C1 & _ & W1 & H1 & _); [done|done|done|lia|done|].
  destruct (cst_data dev pid f1 _ _ _ _ _ n i d C1 H1) as (C2 & H2 & _).
  destruct (cst_bwrite dev p pid _ _ _ _ _ _ n i C2 H2) as (f3 & E3 & C3 & _ & W3 & H3 & _).
  destruct (cst_brelse dev p pid _ _ _ _ _ _ n i C3 H3) as (f4 & E4 & C4 & _ & W4 & _); [by fn_simpl|].
  exists f4. split; [|split].
  - unfold store_block. eapply eval_bind; [exact E1|]. cbn beta. eapply eval_bind; [apply eval_modify|]. cbn beta.
    eapply eval_bind; [exact E3|]. exact E4.
  - eapply cst_ext; [exact C4|done|..].
    + intros m. destruct (decide (m = n)) as [->|Hne]; fn_simpl; lia.
    + intros m. by destruct (decide (m = n)) as [->|Hne]; fn_simpl.
    + intros m. by destruct (decide (m = n)) as [->|Hne]; fn_simpl.
    + fn_simpl. destruct (R n =? 0) eqn:E0, (R n + 1 =? 1) eqn:E1'; lia.
  - rewrite W4, W3. cbn. fn_simpl. by rewrite W1.
Qed.

Lemma cst_load_block f V R D b n :
  cst dev f V R (fun _ => false) D b -> (0 < R n \/ b < Z.of_nat NBUF) -> 0 <= R n < 2 ^ 31 - 1 -> 0 <= n < 2 ^ 31 ->
  exists f', eval p pid [] (load_block n) [] f (V n) f' /\
    cst dev f' V R (fun _ => false) D b /\ fs_writes f' = fs_writes f.
Proof.
  intros Hc Hf Hr Hn. destruct (cst_bread dev p pid f V R (fun _ => false) D b n) as (i & f1 & E1 & C1 & _ & W1 & H1 & _); [done|done|done|lia|done|].
  destruct (cst_brelse dev p pid _ _ _ _ _ _ n i C1 H1) as (f4 & E4 & C4 & _ & W4 & _).
  { fn_simpl. intros E. symmetry. apply (cst_unref dev f V R (fun _ => false) D b); [done|lia]. }
  exists f4. split; [|split].
  - unfold load_block. eapply eval_bind; [exact E1|]. cbn beta. eapply eval_bind; [apply eval_gets|]. cbn beta.
    rewrite <- (held_view dev pid f1 n i H1), (s_view _ _ _ _ _ _ _ C1). eapply eval_bind; [exact E4|]. apply eval_ret.
  - eapply cst_ext; [exact C4|done|..].
    + intros m. destruct (decide (m = n)) as [->|Hne]; fn_simpl; lia.
    + intros m. by destruct (decide (m = n)) as [->|Hne]; fn_simpl.
    + done.
    + fn_simpl. destruct (R n =? 0) eqn:E0, (R n + 1 =? 1) eqn:E1'; lia.
  - by rewrite W4.
Qed.

(** C9: the buffer cache is a store of blocks. A client that reads block [n] into
    a buffer, overwrites it, writes it back and releases it leaves [d] in the cache
    and on disk, with exactly one disk write; whatever other blocks [m] are read
    afterwards (so buffers may be recycled), a read of [n] then returns [d], and a
    read of [m] what it held before. The reference counts and the number of busy
    buffers are as at the start, so no buffer is leaked. *)
Theorem block_store_load f V R D b n m d :
  cst dev f V R (fun _ => false) D b -> b < Z.of_nat NBUF -> (forall k, 0 <= R k < 2 ^ 31 - 1) ->
  0 <= n < 2 ^ 31 -> 0 <= m < 2 ^ 31 ->
  exists f', eval p pid [] (store_block n d ;; x <- load_block m ;; y <- load_block n ;; ret (x, y)) [] f
      (if decide (m = n) then d else V m, d) f' /\
    cst dev f' (<[n := d]> V) R (fun _ => false) (<[n := d]> D) b /\ fs_writes f' = fs_writes f ++ [(n, d)].
Proof.
  intros Hc Hb Hr Hn Hm.
  destruct (cst_store_block f V R D b n d) as (f1 & E1 & C1 & W1); [done|by right|done|done|].
  destruct (cst_load_block f1 _ R _ b m C1) as (f2 & E2 & C2 & W2); [by right|done|done|].
  destruct (cst_load_block f2 _ R _ b n C2) as (f3 & E3 & C3 & W3); [by right|done|done|].
  exists f3. split; [|split; [done|by rewrite W3, W2]].
  eapply eval_bind; [exact E1|]. cbn beta. eapply eval_bind; [exact E2|]. cbn beta.
  eapply eval_bind; [exact E3|]. cbn beta. rewrite fn_lookup_insert.
  destruct (decide (m = n)) as [->|Hne]; fn_simpl; apply eval_ret.
Qed.
End Spec.

(** ** Boot *)

(** What binit() makes of the buffers, the other fields apart. *)
Definition binit_step (bs : list buf) (b : nat) : list buf :=
  let at_ i (bs : list buf) := default zero_buf (bs !! i) in
  let bs := alter (set_b_next (b_next (at_ HEAD bs))) b bs in
  let bs := alter (set_b_prev HEAD) b bs in
  let bs := alter (fun x => set_b_lock (set_sl_name "buffer" (b_lock x)) x) b bs in
  let bs := alter (fun x => set_b_lock (set_sl_locked false (b_lock x)) x) b bs in
  let bs := alter (fun x => set_b_lock (set_sl_pid 0 (b_lock x)) x) b bs in
  let bs := alter (set_b_prev b) (b_next (at_ HEAD bs)) bs in
  alter (set_b_next b) HEAD bs.

Definition binit_bufs (bs : list buf) : list buf :=
  foldl binit_step (alter (set_b_next HEAD) HEAD (alter (set_b_prev HEAD) HEAD bs)) (seq 0 NBUF).

Lemma binit_loop n b (s : kstate fsys) :
  exists s', for_ b n (fun b => fs_modify (link_front1 b) ;; initsleeplock (SL_buf b) "buffer" ;;
      fs_modify (link_front2 b)) s = Ret tt s' /\
    k_fs s' = set_fs_bufs (foldl binit_step (fs_bufs (k_fs s)) (seq b n)) (k_fs s).
Proof.
  revert b s. induction n as [|n IH]; intros b s.
  { exists s. split; [done|]. by destruct (k_fs s). }
  edestruct IH as (s' & E & Hs'). exists s'. split; [exact E|]. rewrite Hs'. reflexivity.
Qed.

Lemma binit_effect (s : kstate fsys) :
  exists s', binit s = Ret tt s' /\ k_fs s' = set_fs_bufs (binit_bufs (fs_bufs (k_fs s))) (k_fs s).
Proof. edestruct binit_loop as (s' & E & Hs'). exists s'. split; [exact E|].
  rewrite Hs'. unfold binit_bufs. generalize (seq 0 NBUF) as l. reflexivity. Qed.

(** The buffers after boot, by position: unused, unlocked, holding nothing, and
    linked in the order of binit()'s insertions. *)
Definition boot_buf (b : buf) : bool :=
  (b_valid b =? 0) && (b_dev b =? 0) && (b_blockno b =? 0) && (b_refcnt b =? 0) && negb (sl_locked (b_lock b)).

Fixpoint chained (bs : list buf) (x : nat) (l : list nat) : bool :=
  match l with
  | [] => true
  | y :: l => (b_next (default zero_buf (bs !! x)) =? y)%nat && (b_prev (default zero_buf (bs !! y)) =? x)%nat &&
      chained bs y l
  end.

Lemma chained_sound f x l : chained (fs_bufs f) x l = true -> linked f x l.
Proof.
  revert x. induction l as [|y l IH]; intros x; [done|]. cbn [chained linked].
  rewrite !andb_true_iff, !Nat.eqb_eq. intros [[H1 H2] H3]. by auto.
Qed.

Lemma boot_bufs : let bs := binit_bufs (replicate (S NBUF) zero_buf) in
  length bs = S NBUF /\ forallb boot_buf bs = true /\ chained bs HEAD (rev (seq 0 NBUF) ++ [HEAD]) = true.
Proof. vm_compute. auto. Qed.

Lemma count_false {A} (g : A -> bool) (l : list A) : (forall x, x ∈ l -> g x = false) -> count g l = 0.
Proof.
  induction l as [|x l IH]; intros H; [done|]. rewrite count_cons, IH, H; [done|by left|].
  intros y Hy. apply H. by right.
Qed.

(** The cache with these buffers: all of them in the list, none caches a block. *)
Lemma boot_cache dev f :
  dev <> 0 -> fs_bufs f = binit_bufs (replicate (S NBUF) zero_buf) ->
  lru f (rev (seq 0 NBUF)) /\ cache_ok dev f /\ busy f = 0 /\ forall n, bufof dev f n = None.
Proof.
  intros Hd Hbs. destruct boot_bufs as (Hlen & Hb & Hc). set (bs := binit_bufs _) in *. clearbody bs.
  assert (forall i, (i < NBUF)%nat -> let b := get_buf i f in
    b_valid b = 0 /\ b_dev b = 0 /\ b_blockno b = 0 /\ b_refcnt b = 0 /\ sl_locked (b_lock b) = false) as Hf.
  { intros i Hi b. assert (boot_buf b = true) as Hbuf.
    { unfold b, get_buf. rewrite Hbs. destruct (lookup_lt_is_Some_2 bs i) as [x Hx]; [lia|].
      rewrite Hx. cbn. rewrite forallb_forall in Hb. apply Hb. apply list_elem_of_In. by eapply list_elem_of_lookup_2. }
    unfold boot_buf in Hbuf. rewrite !andb_true_iff, negb_true_iff in Hbuf. repeat split; lia || apply Hbuf. }
  assert (forall n i, (i < NBUF)%nat -> matches dev n f i = false) as Hm.
  { intros n i Hi. unfold matches. destruct (Hf i Hi) as (_ & -> & _). lia. }
  assert (lru f (rev (seq 0 NBUF))) as Hl.
  { split; [by rewrite Hbs|]. split; [by apply (bool_decide_unpack _)|].
    split; [by apply (bool_decide_unpack _)|]. apply chained_sound. by rewrite Hbs. }
  split; [done|]. split; [|split].
  - split.
    + exists (rev (seq 0 NBUF)). split; [done|]. symmetry. apply Permutation_rev.
    + intros i j n Hi _ H. by rewrite Hm in H.
    + intros i Hi. destruct (Hf i Hi) as (Hv & _ & _ & Hr & Hlk). unfold buf_ok. rewrite Hr. split; [lia|]. by split.
    + intros i Hi. destruct (Hf i Hi) as (_ & _ & -> & _). lia.
  - apply count_false. intros i Hi%elem_of_seq. unfold in_use. destruct (Hf i) as (_ & _ & _ & -> & _); [lia|done].
  - intros n. pose proof (bufof_spec dev f n) as Hs. destruct (bufof _ _ _) as [i|]; [|done].
    destruct Hs as [Hi Hs]. by rewrite Hm in Hs.
Qed.

(** C25: binit() run on the zeroed buffers of a loaded kernel returns, and leaves
    the circular list of all NBUF buffers, most recently inserted first, with
    consistent links both ways. The cache invariant then holds for every device
    but 0, no buffer is in use, and every block reads as it is on disk: the
    cache starts empty and coherent. *)
Theorem binit_cache dev (s : kstate fsys) :
  dev <> 0 -> fs_bufs (k_fs s) = replicate (S NBUF) zero_buf ->
  exists s', binit s = Ret tt s' /\ lru (k_fs s') (rev (seq 0 NBUF)) /\ cache_ok dev (k_fs s') /\
    busy (k_fs s') = 0 /\ (forall n, view dev (k_fs s') n = disk_block n (k_fs s)) /\
    fs_disk (k_fs s') = fs_disk (k_fs s).
Proof.
  intros Hd Hz. destruct (binit_effect s) as (s' & E & Hs'). exists s'. split; [done|].
  rewrite Hz in Hs'. assert (fs_disk (k_fs s') = fs_disk (k_fs s)) as Hdk by by rewrite Hs'.
  destruct (boot_cache dev (k_fs s') Hd) as (H1 & H2 & H3 & Hno); [by rewrite Hs'|].
  repeat (split; [done|]). split; [|done]. intros n. unfold view, disk_block. by rewrite Hno, Hdk.
Qed.
