(* ===== verification/Console.v ===== *)
(** The console: kernel/uart.c, kernel/console.c and kernel/printf.c, with
    procdump() of kernel/proc.c.

    The UART is a device: what LSR and RHR answer is part of the state ([ut_idle],
    [ut_rx]); the bytes written to THR are appended to the kernel's output. *)
From Stdlib Require Import Ascii.
From S2P Require Import Prelude Riscv Machine Spinlock KString Kalloc Vm Sched Keeps FsIface File Proc.
From S2P Require Import FsState.

(** The bytes of a string literal, without its NUL. *)
Fixpoint bytes (s : string) : list Z :=
  match s with
  | EmptyString => []
  | String c s => Z.of_nat (nat_of_ascii c) :: bytes s
  end.

Definition newline : string := String "010" EmptyString.

Abbreviation UART_TX_BUF_SIZE := (32).
Abbreviation INPUT_BUF_SIZE := (128).
Abbreviation BACKSPACE := (0x100).
Abbreviation ctrl c := (c - 64) (only parsing).   (* C(x) *)
Definition CONSOLE : Z := 1.
Abbreviation LSR_RX_READY := (1).
Abbreviation IER := (1).
Abbreviation IER_RX_ENABLE := (Z.shiftl 1 0).
Abbreviation IER_TX_ENABLE := (Z.shiftl 1 1).
Abbreviation FCR := (2).
Abbreviation FCR_FIFO_ENABLE := (Z.shiftl 1 0).
Abbreviation FCR_FIFO_CLEAR := (Z.shiftl 3 1).
Abbreviation LCR := (3).
Abbreviation LCR_EIGHT_BITS := (Z.shiftl 3 0).
Abbreviation LCR_BAUD_LATCH := (Z.shiftl 1 7).
Abbreviation LSR_TX_IDLE := (32).

(** Reading LSR until LSR_TX_IDLE is set: the answers that are left. *)
Fixpoint wait_idle (idle : list bool) : list bool :=
  match idle with
  | [] => []
  | true :: idle => idle
  | false :: idle => wait_idle idle
  end.

(** ** printf: the characters of an integer and of a pointer *)

Definition digit (d : Z) : Z := if d <? 10 then 48 + d else 97 + (d - 10).

(** The digits of [x], least significant first: the loop fills buf[16]. *)
Fixpoint digits_rev (k : nat) (x base : Z) : list Z :=
  match k with
  | O => []
  | S k => digit (x `mod` base) :: if x / base =? 0 then [] else digits_rev k (x / base) base
  end.

Definition printint_chars (xx base : Z) (sign : bool) : list Z :=
  let neg := sign && (xx <? 0) in
  let x := u32 (if neg then - xx else xx) in
  (if neg then [45] else []) ++ rev (digits_rev 16 x base).

(** for (i = 0; i < 16; i++, x <<= 4) consputc(digits[x >> 60]) *)
Fixpoint printptr_digits (k : nat) (x : Z) : list Z :=
  match k with
  | O => []
  | S k => digit (Z.shiftr x 60) :: printptr_digits k (u64 (Z.shiftl x 4))
  end.

Definition printptr_chars (x : Z) : list Z := [48; 120] ++ printptr_digits 16 x.

(** The arguments of printf. *)
Inductive parg := A_int (n : Z) | A_ptr (x : Z) | A_str (s : list Z).

(** The characters printf sends for one directive, and the arguments left. *)
Definition directive (c : Z) (ap : list parg) : list Z * list parg :=
  if c =? 100 then (match ap with A_int n :: ap => (printint_chars n 10 true, ap) | _ => ([], ap) end) else
  if c =? 120 then (match ap with A_int n :: ap => (printint_chars n 16 true, ap) | _ => ([], ap) end) else
  if c =? 112 then (match ap with A_ptr x :: ap => (printptr_chars x, ap) | _ => ([], ap) end) else
  if c =? 115 then (match ap with A_str s :: ap => (s, ap) | _ => ([], ap) end) else
  if c =? 37 then ([37], ap) else ([37; c], ap).

Fixpoint format (fmt : list Z) (ap : list parg) : list Z :=
  match fmt with
  | [] => []
  | c :: fmt =>
      if negb (c =? 37) then c :: format fmt ap else
      match fmt with
      | [] => []
      | c :: fmt => let '(out, ap) := directive c ap in out ++ format fmt ap
      end
  end.

Section Ops.
Context `{L : Layout} `{Fuel0 : Fuel}.
Abbreviation KM := (K (kstate fsys)).

(** for(;;) ; *)
Definition forever {A} : KM A := fun s => Spin s.

(** ReadReg(LSR) and WriteReg(THR, c) *)
Definition read_LSR : KM Z :=
  u <- fs_gets fs_uart ;;
  fs_modify (upd_uart (set_ut_idle (tl (ut_idle u)))) ;;
  ret (Z.lor (if hd true (ut_idle u) then LSR_TX_IDLE else 0)
             (match ut_rx u with [] => 0 | _ => LSR_RX_READY end)).

Definition read_RHR : KM Z :=
  u <- fs_gets fs_uart ;;
  fs_modify (upd_uart (set_ut_rx (tl (ut_rx u)))) ;;
  ret (hd 0 (ut_rx u)).

Definition write_THR (c : Z) : KM unit := modify (fun s => set_k_out (k_out s ++ [u8 c]) s).

Definition uartinit : KM unit :=
  mmio_write (UART0 + IER) 0 ;;
  mmio_write (UART0 + LCR) LCR_BAUD_LATCH ;;
  mmio_write (UART0 + 0) 3 ;;
  mmio_write (UART0 + 1) 0 ;;
  mmio_write (UART0 + LCR) LCR_EIGHT_BITS ;;
  mmio_write (UART0 + FCR) (Z.lor FCR_FIFO_ENABLE FCR_FIFO_CLEAR) ;;
  mmio_write (UART0 + IER) (Z.lor IER_TX_ENABLE IER_RX_ENABLE) ;;
  initlock L_uart "uart".

Fixpoint uartstart_loop (k : nat) : KM unit :=
  match k with
  | O => out_of_fuel
  | S k =>
      u <- fs_gets fs_uart ;;
      if ut_w u =? ut_r u then ret tt else
      lsr <- read_LSR ;;
      if Z.land lsr LSR_TX_IDLE =? 0 then ret tt else
      u <- fs_gets fs_uart ;;
      let c := nth (Z.to_nat (ut_r u `mod` UART_TX_BUF_SIZE)) (ut_buf u) 0 in
      fs_modify (upd_uart (set_ut_r (u64 (ut_r u + 1)))) ;;
      wakeup Ch_uart ;;
      write_THR c ;;
      uartstart_loop k
  end.

Definition uartstart : KM unit := uartstart_loop (S (Z.to_nat UART_TX_BUF_SIZE)).

Fixpoint uartputc_wait (k : nat) : KM unit :=
  match k with
  | O => out_of_fuel
  | S k =>
      u <- fs_gets fs_uart ;;
      if ut_w u =? u64 (ut_r u + UART_TX_BUF_SIZE)
      then sleep Ch_uart L_uart ;; uartputc_wait k
      else ret tt
  end.

Definition uart_put (c : Z) (u : uart) : uart :=
  set_ut_w (u64 (ut_w u + 1))
    (set_ut_buf (<[Z.to_nat (ut_w u `mod` UART_TX_BUF_SIZE) := u8 c]> (ut_buf u)) u).

Definition uartputc (c : Z) : KM unit :=
  acquire L_uart ;;
  p <- fs_gets fs_panicked ;;
  if p : bool then forever else
  uartputc_wait (S fuel) ;;
  fs_modify (upd_uart (uart_put c)) ;;
  uartstart ;;
  release L_uart.

Definition uartputc_sync (c : Z) : KM unit :=
  push_off ;;
  p <- fs_gets fs_panicked ;;
  if p : bool then forever else
  fs_modify (upd_uart (fun u => set_ut_idle (wait_idle (ut_idle u)) u)) ;;
  write_THR c ;;
  pop_off.

Definition uartgetc : KM Z :=
  lsr <- read_LSR ;;
  if negb (Z.land lsr 1 =? 0) then read_RHR else ret (-1).

(** *** kernel/console.c and kernel/printf.c *)

Definition consputc (c : Z) : KM unit :=
  if c =? BACKSPACE
  then uartputc_sync 8 ;; uartputc_sync 32 ;; uartputc_sync 8
  else uartputc_sync c.

Fixpoint consputs (cs : list Z) : KM unit :=
  match cs with
  | [] => ret tt
  | c :: cs => consputc c ;; consputs cs
  end.

Definition printf (fmt : string) (ap : list parg) : KM unit :=
  locking <- fs_gets fs_locking ;;
  (when (locking : bool) do acquire L_pr) ;;
  consputs (format (bytes fmt) ap) ;;
  (when (locking : bool) do release L_pr).

Definition printfinit : KM unit :=
  initlock L_pr "pr" ;;
  fs_modify (set_fs_locking true).

(** The name of a state, padded as procdump() does. *)
Definition state_name (st : procstate) : string :=
  match st with
  | UNUSED => "unused" | USED => "used" | SLEEPING => "sleep "
  | RUNNABLE => "runble" | RUNNING => "run   " | ZOMBIE => "zombie"
  end.

(** A C string in a buffer: the bytes before the first NUL. *)
Fixpoint c_string (l : list Z) : list Z :=
  match l with
  | [] => []
  | c :: l => if c =? 0 then [] else c :: c_string l
  end.

Definition procdump : KM unit :=
  printf newline [] ;;
  for_ 0 NPROC (fun i =>
    p <- gets (get_proc i) ;;
    if bool_decide (p_state p = UNUSED) then ret tt else
    printf "%d %s %s" [A_int (p_pid p); A_str (bytes (state_name (p_state p)));
                       A_str (c_string (p_name p))] ;;
    printf newline []).

(** for(i = 0; i < n; i++) { either_copyin(&c, user_src, src+i, 1); uartputc(c); } *)
Fixpoint consolewrite_loop (k : nat) (user_src : bool) (src i : Z) : KM Z :=
  match k with
  | O => ret i
  | S k =>
      r <- either_copyin user_src (u64 (src + i)) 1 ;;
      if r.1 =? -1 then ret i else
      uartputc (nth 0 r.2 0) ;;
      consolewrite_loop k user_src src (i + 1)
  end.

Definition consolewrite (user_src : bool) (src n : Z) : KM Z :=
  consolewrite_loop (Z.to_nat n) user_src src 0.

(** while(cons.r == cons.w): false if the reader was killed. *)
Fixpoint consoleread_wait (k : nat) : KM bool :=
  match k with
  | O => out_of_fuel
  | S k =>
      c <- fs_gets fs_cons ;;
      if co_r c =? co_w c then
        p <- curproc ;;
        dead <- killed p ;;
        if negb (dead =? 0) then release L_cons ;; ret false else
        sleep Ch_cons L_cons ;;
        consoleread_wait k
      else ret true
  end.

(** c = cons.buf[cons.r++ % INPUT_BUF_SIZE] *)
Abbreviation cons_head c := (nth (Z.to_nat (co_r c `mod` INPUT_BUF_SIZE)) (co_buf c) 0) (only parsing).

Fixpoint consoleread_loop (k : nat) (user_dst : bool) (dst target n : Z) : KM Z :=
  match k with
  | O => release L_cons ;; ret (s32 (target - n))
  | S k =>
      go <- consoleread_wait (S fuel) ;;
      if negb go then ret (-1) else
      co <- fs_gets fs_cons ;;
      let c := cons_head co in
      fs_modify (upd_cons (set_co_r (u32 (co_r co + 1)))) ;;
      if c =? ctrl 68 then
        (when u32 n <? target do fs_modify (upd_cons (fun co => set_co_r (u32 (co_r co - 1)) co))) ;;
        release L_cons ;; ret (s32 (target - n))
      else
        r <- either_copyout user_dst dst [c] ;;
        if r =? -1 then release L_cons ;; ret (s32 (target - n)) else
        if c =? 10 then release L_cons ;; ret (s32 (target - (n - 1)))
        else consoleread_loop k user_dst (u64 (dst + 1)) target (n - 1)
  end.

Definition consoleread (user_dst : bool) (dst n : Z) : KM Z :=
  acquire L_cons ;;
  consoleread_loop (Z.to_nat n) user_dst dst (u32 n) n.

Fixpoint kill_line (k : nat) : KM unit :=
  match k with
  | O => out_of_fuel
  | S k =>
      c <- fs_gets fs_cons ;;
      if negb (co_e c =? co_w c) &&
         negb (nth (Z.to_nat (u32 (co_e c - 1) `mod` INPUT_BUF_SIZE)) (co_buf c) 0 =? 10) then
        fs_modify (upd_cons (fun c => set_co_e (u32 (co_e c - 1)) c)) ;;
        consputc BACKSPACE ;;
        kill_line k
      else ret tt
  end.

(** cons.buf[cons.e++ % INPUT_BUF_SIZE] = c *)
Definition cons_put (ch : Z) (c : console) : console :=
  set_co_e (u32 (co_e c + 1))
    (set_co_buf (<[Z.to_nat (co_e c `mod` INPUT_BUF_SIZE) := u8 ch]> (co_buf c)) c).

Definition consoleintr (c : Z) : KM unit :=
  acquire L_cons ;;
  (if c =? ctrl 80 then procdump
   else if c =? ctrl 85 then kill_line (S (Z.to_nat INPUT_BUF_SIZE))
   else if (c =? ctrl 72) || (c =? 0x7f) then
     co <- fs_gets fs_cons ;;
     when negb (co_e co =? co_w co) do
       (fs_modify (upd_cons (fun c => set_co_e (u32 (co_e c - 1)) c)) ;;
        consputc BACKSPACE)
   else
     co <- fs_gets fs_cons ;;
     if negb (c =? 0) && (u32 (co_e co - co_r co) <? INPUT_BUF_SIZE) then
       let c := if c =? 13 then 10 else c in
       consputc c ;;
       fs_modify (upd_cons (cons_put c)) ;;
       co <- fs_gets fs_cons ;;
       when (c =? 10) || (c =? ctrl 68) || (u32 (co_e co - co_r co) =? INPUT_BUF_SIZE) do
         (fs_modify (upd_cons (fun c => set_co_w (co_e c) c)) ;;
          wakeup Ch_cons)
     else ret tt) ;;
  release L_cons.

Definition consoleinit : KM unit :=
  initlock L_cons "cons" ;;
  uartinit.

(** while(1) { int c = uartgetc(); if(c == -1) break; consoleintr(c); } *)
Fixpoint uartintr_loop (k : nat) : KM unit :=
  match k with
  | O => out_of_fuel
  | S k =>
      c <- uartgetc ;;
      if c =? -1 then ret tt else
      consoleintr c ;;
      uartintr_loop k
  end.

Definition uartintr : KM unit :=
  n <- fs_gets (fun f => length (ut_rx (fs_uart f))) ;;
  uartintr_loop (S n) ;;
  acquire L_uart ;;
  uartstart ;;
  release L_uart.
End Ops.
