(* ===== verification/UserLib.v ===== *)
(** Programs of user space: the string functions of user/ulib.c, and the pattern
    matcher and the line filter of user/grep.c.

    A C string is the list of its bytes from the pointer on; [hd 0 s] is [*s] and
    [tl s] is [s + 1], so the end of the list stands for the terminating NUL. *)
From S2P Require Import Prelude Riscv Machine Spinlock KString Console.

Module Ulib.

(** strcpy(s, t): the bytes of the destination after the copy. *)
Fixpoint strcpy (s t : list Z) : list Z :=
  match t with
  | [] => 0 :: tl s
  | c :: t => if c =? 0 then 0 :: tl s else c :: strcpy (tl s) t
  end.

Fixpoint strcmp (p q : list Z) : Z :=
  match p with
  | c :: p' => if negb (c =? 0) && (c =? hd 0 q) then strcmp p' (tl q) else u8 c - u8 (hd 0 q)
  | [] => u8 0 - u8 (hd 0 q)
  end.

Fixpoint strlen (s : list Z) : Z :=
  match s with
  | c :: s => if c =? 0 then 0 else u32 (1 + strlen s)
  | [] => 0
  end.

(** strchr(s, c): the part of the string that starts at the first [c]. *)
Fixpoint strchr (s : list Z) (c : Z) : option (list Z) :=
  match s with
  | d :: s' => if d =? 0 then None else if d =? c then Some s else strchr s' c
  | [] => None
  end.

Fixpoint atoi_loop (s : list Z) (n : Z) : Z :=
  match s with
  | c :: s => if (48 <=? c) && (c <=? 57) then atoi_loop s (s32 (n * 10 + c - 48)) else n
  | [] => n
  end.

Definition atoi (s : list Z) : Z := atoi_loop s 0.

(** The functions on memory; char is unsigned. *)
Definition umemset (m : memory) (dst c n : Z) : memory := memset_loop m dst c (Z.to_nat (u32 n)).

Definition umemmove (m : memory) (vdst vsrc n : Z) : memory :=
  let n := s32 n in
  if vsrc >? vdst then copy_forward m vdst vsrc (Z.to_nat n)
  else copy_backward m (vdst + n) (vsrc + n) (Z.to_nat n).

Definition umemcmp (m : memory) (s1 s2 n : Z) : Z := memcmp_loop m s1 s2 (Z.to_nat (u32 n)).

Definition umemcpy (m : memory) (dst src n : Z) : memory := umemmove m dst src n.
End Ulib.

(** memmove() of user space decides by the order of the pointers alone which end to
    start from; it does what the kernel's memmove() does. *)
Lemma umemmove_kernel m dst src n x : 0 <= n < 2 ^ 31 ->
  ld8 (Ulib.umemmove m dst src n) x = ld8 (memmove m dst src n) x.
Proof.
  intros Hn. rewrite ld8_memmove by lia. unfold Ulib.umemmove. rewrite s32_small by lia.
  rewrite Z.gtb_ltb. destruct (Z.ltb_spec dst src).
  - rewrite ld8_copy_forward, Z2Nat.id by lia. done.
  - rewrite ld8_copy_backward, Z2Nat.id by lia. repeat case_decide; try lia; try done. f_equal. lia.
Qed.

(** ** printint() and atoi() *)

Section Numbers.

(** The value of a string of decimal digits. *)
Definition value (l : list Z) : Z := foldl (fun n c => n * 10 + (c - 48)) 0 l.

Lemma digit_decimal d : 0 <= d < 10 -> 48 <= Console.digit d <= 57 /\ Console.digit d - 48 = d.
Proof. intros H. unfold Console.digit. destruct (d <? 10) eqn:E; lia. Qed.

Lemma value_snoc l c : value (l ++ [c]) = value l * 10 + (c - 48).
Proof. unfold value. by rewrite foldl_snoc. Qed.

Lemma digits_value k x :
  0 <= x < 10 ^ Z.of_nat k ->
  value (rev (digits_rev k x 10)) = x /\ Forall (fun c => 48 <= c <= 57) (digits_rev k x 10) /\
  (length (digits_rev k x 10) <= k)%nat.
Proof.
  revert x. induction k as [|k IH]; intros x Hx.
  { cbn in *. split; [lia|]. by split; [constructor|]. }
  assert (0 <= x `mod` 10 < 10) as Hm by (apply Z.mod_pos_bound; lia).
  destruct (digit_decimal _ Hm) as [Hd Hv]. pose proof (Z.div_mod x 10) as Edm. cbn [digits_rev].
  destruct (x / 10 =? 0) eqn:E.
  - apply Z.eqb_eq in E. cbn. rewrite Hv. split; [lia|]. split; [by constructor; [|constructor]|lia].
  - destruct (IH (x / 10)) as (H1 & H2 & H3).
    { split; [apply Z.div_pos; lia|]. apply Z.div_lt_upper_bound; [lia|]. rewrite <- Z.pow_succ_r by lia.
      replace (Z.succ (Z.of_nat k)) with (Z.of_nat (S k)) by lia. apply Hx. }
    cbn [rev length]. rewrite value_snoc, H1, Hv. split; [lia|]. split; [by constructor|lia].
Qed.

Lemma atoi_value l n : Forall (fun c => 48 <= c <= 57) l -> 0 <= n ->
  foldl (fun n c => n * 10 + (c - 48)) n l < 2 ^ 31 ->
  Ulib.atoi_loop l n = foldl (fun n c => n * 10 + (c - 48)) n l.
Proof.
  revert n. induction l as [|c l IH]; intros n Hl Hn Hr; [done|]. apply Forall_cons in Hl as [Hc Hl]. cbn in *.
  rewrite (proj2 (Z.leb_le 48 c)), (proj2 (Z.leb_le c 57)) by lia. cbn [andb].
  assert (forall l n, 0 <= n -> Forall (fun c => 48 <= c <= 57) l ->
    n <= foldl (fun n c => n * 10 + (c - 48)) n l) as Hmono.
  { clear. induction l as [|c l IH]; intros n Hn Hl; [done|]. apply Forall_cons in Hl as [Hc Hl]. cbn.
    specialize (IH (n * 10 + (c - 48)) ltac:(lia) Hl). lia. }
  pose proof (Hmono l (n * 10 + (c - 48)) ltac:(lia) Hl).
  rewrite s32_small by lia. rewrite IH; [f_equal; lia|done|lia|by replace (n * 10 + c - 48) with (n * 10 + (c - 48)) by lia].
Qed.


End Numbers.

(** ** user/grep.c *)

Module Grep.

Definition star : Z := 42.
Definition dot : Z := 46.
Definition dollar : Z := 36.
Definition caret : Z := 94.
Definition newline : Z := 10.

(** matchstar(c, re, text), given matchhere(re, _). *)
Fixpoint matchstar (here : list Z -> bool) (c : Z) (text : list Z) : bool :=
  if here text then true else
  match text with
  | d :: text => if negb (d =? 0) && ((d =? c) || (c =? dot)) then matchstar here c text else false
  | [] => false
  end.

Fixpoint matchhere (re text : list Z) {struct re} : bool :=
  match re with
  | [] => true
  | c :: re1 =>
      if c =? 0 then true else
      match re1 with
      | c1 :: re2 =>
          if c1 =? star then matchstar (matchhere re2) c text else
          if (c =? dollar) && (c1 =? 0) then hd 0 text =? 0 else
          if negb (hd 0 text =? 0) && ((c =? dot) || (c =? hd 0 text)) then matchhere re1 (tl text) else false
      | [] =>
          if c =? dollar then hd 0 text =? 0 else
          if negb (hd 0 text =? 0) && ((c =? dot) || (c =? hd 0 text)) then matchhere re1 (tl text) else false
      end
  end.

(** The loop of match() over the suffixes of the text. *)
Fixpoint match_from (re text : list Z) : bool :=
  if matchhere re text then true else
  match text with
  | d :: text => if negb (d =? 0) then match_from re text else false
  | [] => false
  end.

Definition match_ (re text : list Z) : bool :=
  if hd 0 re =? caret then matchhere (tl re) text else match_from re text.

(** *** Regular expressions *)

Inductive regex :=
| Eps
| Chr (c : Z)
| Seq (r1 r2 : regex)
| Star (r : regex).

(** The strings a regular expression denotes; '.' is any character. *)
Inductive denotes : regex -> list Z -> Prop :=
| d_eps : denotes Eps []
| d_chr c d : c = dot \/ c = d -> denotes (Chr c) [d]
| d_seq r1 r2 u v : denotes r1 u -> denotes r2 v -> denotes (Seq r1 r2) (u ++ v)
| d_star0 r : denotes (Star r) []
| d_star r u v : denotes r u -> denotes (Star r) v -> denotes (Star r) (u ++ v).

(** The expression of a pattern without its anchors, and whether it ends in '$'. *)
Fixpoint parse (re : list Z) : regex * bool :=
  match re with
  | [] => (Eps, false)
  | c :: re1 =>
      match re1 with
      | c1 :: re2 =>
          if c1 =? star then let '(r, e) := parse re2 in (Seq (Star (Chr c)) r, e)
          else let '(r, e) := parse re1 in (Seq (Chr c) r, e)
      | [] => if c =? dollar then (Eps, true) else (Seq (Chr c) Eps, false)
      end
  end.

(** The pattern matches a prefix of the text, all of it with '$'. *)
Definition matches_prefix (re text : list Z) : Prop :=
  exists u v, text = u ++ v /\ denotes (parse re).1 u /\ ((parse re).2 = true -> v = []).

Definition no_nul (l : list Z) : Prop := Forall (fun c => c <> 0) l.

Lemma denotes_eps u : denotes Eps u <-> u = [].
Proof. split; [inversion 1; done|intros ->; constructor]. Qed.

Lemma denotes_seq r1 r2 w : denotes (Seq r1 r2) w <-> exists u v, w = u ++ v /\ denotes r1 u /\ denotes r2 v.
Proof. split; [inversion 1; subst; eauto|intros (u & v & -> & Hu & Hv); by constructor]. Qed.

Lemma denotes_chr c u : denotes (Chr c) u <-> exists d, u = [d] /\ (c = dot \/ c = d).
Proof. split; [inversion 1; subst; eauto|intros (d & -> & H); by constructor]. Qed.

Lemma denotes_star c u : denotes (Star (Chr c)) u <-> Forall (fun d => c = dot \/ c = d) u.
Proof.
  split.
  - intros H. remember (Star (Chr c)) as r eqn:E. induction H as [| | | |r u v Hu _ Hv IH]; try done.
    injection E as ->. apply denotes_chr in Hu as (d & -> & Hd). constructor; [done|by apply IH].
  - induction u as [|d u IH]; intros H; [constructor|]. apply Forall_cons in H as [Hd H].
    apply (d_star (Chr c) [d] u); [by constructor|by apply IH].
Qed.

(** *** The matcher decides the denotation *)

Lemma matchstar_spec here c text : no_nul text ->
  matchstar here c text = true <->
  exists u v, text = u ++ v /\ Forall (fun d => c = dot \/ c = d) u /\ here v = true.
Proof.
  induction text as [|d text IH]; intros Hn; cbn [matchstar].
  - destruct (here []) eqn:E; split; try done.
    + intros _. by exists [], [].
    + intros (u & v & Ht & _ & Hv). destruct u, v; done || congruence.
  - apply Forall_cons in Hn as [Hd Hn]. destruct (here (d :: text)) eqn:E.
    { split; [intros _; by exists [], (d :: text)|done]. }
    rewrite (proj2 (Z.eqb_neq d 0) Hd). cbn [negb andb].
    destruct ((d =? c) || (c =? dot)) eqn:Ec.
    + rewrite IH by done. split.
      * intros (u & v & -> & Hu & Hv). exists (d :: u), v. split; [done|]. split; [|done].
        constructor; [|done]. apply orb_prop in Ec as [Ec%Z.eqb_eq|Ec%Z.eqb_eq]; [by right|by left].
      * intros (u & v & Ht & Hu & Hv). destruct u as [|d' u]; [cbn in Ht; subst v; congruence|].
        injection Ht as <- ->. apply Forall_cons in Hu as [_ Hu]. by exists u, v.
    + split; [done|]. intros (u & v & Ht & Hu & Hv). destruct u as [|d' u]; [cbn in Ht; subst v; congruence|].
      injection Ht as <- ->. apply Forall_cons in Hu as [Hu _]. apply orb_false_elim in Ec as [E1 E2].
      destruct Hu; lia.
Qed.

Lemma no_nul_app u v : no_nul (u ++ v) <-> no_nul u /\ no_nul v.
Proof. apply Forall_app. Qed.

Lemma prefix_char c re text : (parse (c :: re)) = (Seq (Chr c) (parse re).1, (parse re).2) ->
  matches_prefix (c :: re) text <->
  exists d t, text = d :: t /\ (c = dot \/ c = d) /\ matches_prefix re t.
Proof.
  intros E. unfold matches_prefix. rewrite E. cbn [fst snd]. split.
  - intros (u & v & -> & Hu & He). apply denotes_seq in Hu as (u1 & u2 & -> & H1 & H2).
    apply denotes_chr in H1 as (d & -> & Hd). exists d, (u2 ++ v). split; [done|]. split; [done|]. by exists u2, v.
  - intros (d & t & -> & Hd & u & v & -> & Hu & He). exists (d :: u), v. split; [done|]. split; [|done].
    apply denotes_seq. exists [d], u. split; [done|]. split; [by apply denotes_chr; exists d|done].
Qed.

Lemma prefix_star c re text :
  matches_prefix (c :: star :: re) text <->
  exists u v, text = u ++ v /\ Forall (fun d => c = dot \/ c = d) u /\ matches_prefix re v.
Proof.
  unfold matches_prefix. cbn [parse]. change (star =? star) with true. cbv iota.
  destruct (parse re) as [r e]. cbn [fst snd]. split.
  - intros (u & v & -> & Hu & He). apply denotes_seq in Hu as (u1 & u2 & -> & H1 & H2).
    apply denotes_star in H1. exists u1, (u2 ++ v). split; [by rewrite app_assoc|]. split; [done|]. by exists u2, v.
  - intros (u & w & -> & Hu & u2 & v & -> & H2 & He). exists (u ++ u2), v. split; [by rewrite app_assoc|].
    split; [|done]. apply denotes_seq. exists u, u2. split; [done|]. split; [by apply denotes_star|done].
Qed.

(** One character of the pattern against the head of the text. *)
Lemma char_step c (here : list Z -> bool) (P : list Z -> Prop) text :
  no_nul text -> (forall t, no_nul t -> here t = true <-> P t) ->
  (if negb (hd 0 text =? 0) && ((c =? dot) || (c =? hd 0 text)) then here (tl text) else false) = true <->
  exists d t, text = d :: t /\ (c = dot \/ c = d) /\ P t.
Proof.
  intros Hn Hp. destruct text as [|d t]; cbn [hd tl].
  { split; [done|]. intros (d & t & ? & _). done. }
  apply Forall_cons in Hn as [Hd Hn]. rewrite (proj2 (Z.eqb_neq d 0) Hd). cbn [negb andb].
  destruct ((c =? dot) || (c =? d)) eqn:Ec.
  - rewrite Hp by done. apply orb_prop in Ec. rewrite !Z.eqb_eq in Ec. split.
    + intros H. by exists d, t.
    + intros (d' & t' & [= <- <-] & _ & H). done.
  - split; [done|]. intros (d' & t' & [= <- <-] & Hc & _). apply orb_false_elim in Ec. lia.
Qed.

Lemma matchhere_spec re text : no_nul re -> no_nul text -> matchhere re text = true <-> matches_prefix re text.
Proof.
  enough (forall n re text, (length re <= n)%nat -> no_nul re -> no_nul text ->
    matchhere re text = true <-> matches_prefix re text) as H by (by apply (H (length re))).
  clear. induction n as [|n IH]; intros re text Hl Hr Ht.
  { destruct re; [|cbn in Hl; lia]. split; [|done]. intros _. exists [], text. by split; [|split; [constructor|]]. }
  destruct re as [|c re1].
  { split; [|done]. intros _. exists [], text. by split; [|split; [constructor|]]. }
  cbn in Hl. apply Forall_cons in Hr as [Hc Hr]. cbn [matchhere]. rewrite (proj2 (Z.eqb_neq c 0) Hc).
  assert (forall t, no_nul t -> matchhere re1 t = true <-> matches_prefix re1 t) as IH1 by (intros; apply IH; lia || done).
  destruct re1 as [|c1 re2].
  - destruct (c =? dollar) eqn:E.
    + apply Z.eqb_eq in E as ->. unfold matches_prefix. cbn. split.
      * intros H. destruct text as [|d t]; [by exists [], []; split; [|split; [constructor|]]|].
        apply Forall_cons in Ht as [Hd _]. cbn in H. lia.
      * intros (u & v & -> & Hu%denotes_eps & Hv). subst u. by rewrite Hv.
    + rewrite (char_step c (matchhere []) (matches_prefix []) text Ht IH1). symmetry. apply prefix_char.
      cbn. by rewrite E.
  - apply Forall_cons in Hr as [Hc1 Hr]. destruct (c1 =? star) eqn:Es.
    + apply Z.eqb_eq in Es as ->. rewrite matchstar_spec, prefix_star by done.
      split; intros (u & v & -> & Hu & Hv); exists u, v; apply no_nul_app in Ht as [_ Ht];
        (split; [done|]; split; [done|]); (apply (IH re2 v); [cbn in Hl; lia|done|done|done]).
    + rewrite (proj2 (Z.eqb_neq c1 0) Hc1), andb_false_r.
      rewrite (char_step c (matchhere (c1 :: re2)) (matches_prefix (c1 :: re2)) text Ht IH1).
      symmetry. apply prefix_char.
      change (parse (c :: c1 :: re2)) with (if c1 =? star then let '(r, e) := parse re2 in (Seq (Star (Chr c)) r, e)
        else let '(r, e) := parse (c1 :: re2) in (Seq (Chr c) r, e)).
      rewrite Es. by destruct (parse (c1 :: re2)).
Qed.

Lemma match_from_spec re text : no_nul re -> no_nul text ->
  match_from re text = true <-> exists pre suf, text = pre ++ suf /\ matches_prefix re suf.
Proof.
  intros Hr. induction text as [|d t IH]; intros Ht; cbn [match_from].
  - destruct (matchhere re []) eqn:E.
    + split; [intros _|done]. exists [], []. split; [done|]. by apply matchhere_spec.
    + split; [done|]. intros (pre & suf & H & Hp). destruct pre, suf; try done.
      apply matchhere_spec in Hp; [congruence|done|done].
  - pose proof Ht as Ht'. apply Forall_cons in Ht as [Hd Ht]. destruct (matchhere re (d :: t)) eqn:E.
    + split; [intros _|done]. exists [], (d :: t). split; [done|]. by apply matchhere_spec.
    + rewrite (proj2 (Z.eqb_neq d 0) Hd). cbn [negb]. rewrite IH by done. split.
      * intros (pre & suf & -> & Hp). by exists (d :: pre), suf.
      * intros (pre & suf & H & Hp). destruct pre as [|d' pre].
        -- cbn in H. subst suf. apply matchhere_spec in Hp; [congruence|done|done].
        -- injection H as <- ->. by exists pre, suf.
Qed.

(** C29: grep's matcher is correct: match(re, text) is true exactly when some
    part of the text is in the language of the pattern's regular expression, a part at the
    start of the text if the pattern begins with '^', and at its end if it ends
    with '$'. *)
Theorem match_correct re text :
  no_nul re -> no_nul text ->
  match_ re text = true <->
  exists pre mid post, text = pre ++ mid ++ post /\
    (let body := if hd 0 re =? caret then tl re else re in
     denotes (parse body).1 mid /\ ((parse body).2 = true -> post = [])) /\
    (hd 0 re = caret -> pre = []).
Proof.
  intros Hr Ht. unfold match_. destruct (hd 0 re =? caret) eqn:E.
  - apply Z.eqb_eq in E. rewrite matchhere_spec; [|by destruct re; [|apply Forall_cons in Hr as [_ Hr]]|done].
    split.
    + intros (u & v & -> & Hu & Hv). by exists [], u, v.
    + intros (pre & mid & post & -> & [Hm Hp] & Hpre). rewrite (Hpre E). by exists mid, post.
  - rewrite match_from_spec by done. split.
    + intros (pre & suf & -> & u & v & -> & Hu & Hv). exists pre, u, v. split; [done|]. split; [done|].
      intros E'. lia.
    + intros (pre & mid & post & -> & [Hm Hp] & _). exists pre, (mid ++ post). split; [done|]. by exists mid, post.
Qed.

(** The pattern "^ab*$" on "abb" and on "abc". *)
Lemma match_correct_witness :
  (match_ [94; 97; 98; 42; 36] [97; 98; 98] = true /\ match_ [94; 97; 98; 42; 36] [97; 98; 99] = false) /\
  exists pre mid post, [97; 98; 98] = pre ++ mid ++ post /\ pre = [] /\ post = [].
Proof.
  assert (no_nul [94; 97; 98; 42; 36] /\ no_nul [97; 98; 98]) as [H1 H2]
    by (split; repeat (apply Forall_cons; split; [lia|]); apply Forall_nil; done).
  split; [by vm_compute|].
  destruct (proj1 (match_correct _ _ H1 H2) ltac:(by vm_compute)) as (pre & mid & post & E & [_ He] & Hp).
  exists pre, mid, post. split; [exact E|]. split; [by apply Hp|]. apply He. by vm_compute.
Defined.

(** *** The line filter *)

(** The inner loop of grep() on the string [p]: all that is written, and what is left
    after the last newline. The loops as programs are in UPrograms. *)
Fixpoint filter_lines (k : nat) (pattern p : list Z) : list Z * list Z :=
  match k with
  | O => ([], p)
  | S k =>
      match Ulib.strchr p newline with
      | None => ([], p)
      | Some q =>
          let line := take (length p - length q) p in
          let '(out, rest) := filter_lines k pattern (tl q) in
          ((if match_ pattern line then line ++ [newline] else []) ++ out, rest)
      end
  end.

Definition bufsize : nat := Z.to_nat 1024.

(** What grep() writes for a file whose remaining contents are [input]; [left] is what buf
    holds, and the elements of [reads] are the numbers of bytes available at the
    successive calls of read(). *)
Fixpoint grep (reads : list nat) (pattern left input : list Z) : list Z :=
  match reads with
  | [] => []
  | n :: reads =>
      let k := Nat.min n (bufsize - length left - 1) in
      match take k input with
      | [] => []
      | chunk =>
          let p := left ++ chunk in
          let '(out, rest) := filter_lines (length p) pattern p in
          out ++ grep reads pattern rest (drop k input)
      end
  end.

(** The terminated lines of a text, [cur] being the beginning of the first, and
    what follows the last of them. *)
Fixpoint lines (text cur : list Z) : list (list Z) :=
  match text with
  | [] => []
  | c :: text => if c =? newline then cur :: lines text [] else lines text (cur ++ [c])
  end.
Fixpoint last_line (text cur : list Z) : list Z :=
  match text with
  | [] => cur
  | c :: text => if c =? newline then last_line text [] else last_line text (cur ++ [c])
  end.

Definition print_matching (pattern : list Z) (ls : list (list Z)) : list Z :=
  concat (map (fun l => if match_ pattern l then l ++ [newline] else []) ls).

Definition one_line (l : list Z) : Prop := Forall (fun c => c <> newline) l.

Lemma lines_app u v cur : lines (u ++ v) cur = lines u cur ++ lines v (last_line u cur).
Proof.
  revert cur. induction u as [|c u IH]; intros cur; [done|]. cbn. destruct (c =? newline); cbn; by rewrite IH.
Qed.

Lemma last_line_app u v cur : last_line (u ++ v) cur = last_line v (last_line u cur).
Proof. revert cur. induction u as [|c u IH]; intros cur; [done|]. cbn. by destruct (c =? newline). Qed.

Lemma lines_one_line l cur : one_line l -> lines l cur = [] /\ last_line l cur = cur ++ l.
Proof.
  revert cur. induction l as [|c l IH]; intros cur H; cbn; [by rewrite app_nil_r|].
  apply Forall_cons in H as [Hc H]. rewrite (proj2 (Z.eqb_neq c newline) Hc).
  destruct (IH (cur ++ [c]) H) as [-> ->]. by rewrite <- app_assoc.
Qed.

Lemma last_line_one text cur : one_line cur -> one_line (last_line text cur).
Proof.
  revert cur. induction text as [|c text IH]; intros cur H; [done|]. cbn.
  destruct (c =? newline) eqn:E; [apply IH; constructor|]. apply IH. apply Forall_app. split; [done|].
  constructor; [lia|constructor].
Qed.

Lemma strchr_newline p : no_nul p ->
  match Ulib.strchr p newline with
  | Some q => exists l r, p = l ++ newline :: r /\ q = newline :: r /\ one_line l
  | None => one_line p
  end.
Proof.
  induction p as [|c p IH]; intros Hn; cbn; [constructor|]. apply Forall_cons in Hn as [Hc Hn].
  rewrite (proj2 (Z.eqb_neq c 0) Hc). destruct (c =? newline) eqn:E.
  - apply Z.eqb_eq in E as ->. exists [], p. split; [done|]. split; [done|constructor].
  - specialize (IH Hn). destruct (Ulib.strchr p newline) as [q|].
    + destruct IH as (l & r & -> & -> & Hl). exists (c :: l), r. split; [done|]. split; [done|]. constructor; [lia|done].
    + constructor; [lia|done].
Qed.

Lemma filter_lines_spec k pattern p : no_nul p -> (length p <= k)%nat ->
  filter_lines k pattern p = (print_matching pattern (lines p []), last_line p []).
Proof.
  revert p. induction k as [|k IH]; intros p Hn Hk; [destruct p; [done|cbn in Hk; lia]|]. cbn [filter_lines].
  pose proof (strchr_newline p Hn) as Hs. destruct (Ulib.strchr p newline) as [q|].
  - destruct Hs as (l & r & -> & -> & Hl). cbn [tl]. apply no_nul_app in Hn as [_ [_ Hn]%Forall_cons].
    rewrite length_app in Hk. cbn in Hk. rewrite IH by (done || lia).
    replace (take _ _) with l.
    + rewrite lines_app, last_line_app. destruct (lines_one_line l [] Hl) as [-> ->]. done.
    + rewrite length_app, Nat.add_sub. by rewrite take_app_length.
  - destruct (lines_one_line p [] Hs) as [-> ->]. done.
Qed.

Lemma lines_left left v : one_line left -> lines (left ++ v) [] = lines v left /\ last_line (left ++ v) [] = last_line v left.
Proof. intros H. rewrite lines_app, last_line_app. by destruct (lines_one_line left [] H) as [-> ->]. Qed.

Lemma grep_spec reads pattern left input :
  Forall (fun n => 0 < n)%nat reads -> (length input <= length reads)%nat -> no_nul left -> no_nul input ->
  one_line left -> (forall u v, input = u ++ v -> (length (last_line u left) < bufsize - 1)%nat) ->
  grep reads pattern left input = print_matching pattern (lines input left).
Proof.
  revert left input. induction reads as [|n reads IH]; intros left input Hr Hlen Hnl Hni Hone Hshort.
  { destruct input; [done|cbn in Hlen; lia]. }
  apply Forall_cons in Hr as [Hn Hr]. cbn [grep]. pose proof (Hshort [] input eq_refl) as Hl0. cbn in Hl0.
  set (k := Nat.min n (bufsize - length left - 1)). assert (0 < k)%nat as Hk by (unfold k; lia).
  destruct input as [|c input]; [by rewrite take_nil|].
  destruct k as [|k']; [lia|]. set (chunk := take (S k') (c :: input)).
  assert (c :: input = chunk ++ drop (S k') (c :: input)) as Ei by (symmetry; apply take_drop).
  assert (grep_step : match chunk with [] => [] | _ => let p := left ++ chunk in
      let '(out, rest) := filter_lines (length p) pattern p in out ++ grep reads pattern rest (drop (S k') (c :: input)) end =
    print_matching pattern (lines (c :: input) left)); [|exact grep_step].
  change (match chunk with [] => [] | _ => ?x end) with x. cbv zeta.
  pose proof Hni as Hni'. rewrite Ei in Hni'. apply no_nul_app in Hni' as [Hc Hd].
  rewrite filter_lines_spec; [|by apply no_nul_app|done].
  destruct (lines_left left chunk Hone) as [-> ->]. rewrite IH.
  - rewrite Ei at 2. rewrite lines_app. unfold print_matching. by rewrite map_app, concat_app.
  - done.
  - rewrite length_drop. cbn in *. lia.
  - assert (forall t cur, no_nul t -> no_nul cur -> no_nul (last_line t cur)) as H; [|by apply H].
    clear. induction t as [|c t IH]; intros cur Ht Hcur; [done|]. apply Forall_cons in Ht as [H0 Ht]. cbn.
    destruct (c =? newline); apply IH; try done; [constructor|]. apply no_nul_app. split; [done|].
    by constructor; [|constructor].
  - done.
  - by apply last_line_one.
  - intros u v E. rewrite <- last_line_app. apply (Hshort (chunk ++ u) v). rewrite Ei at 1. by rewrite E, app_assoc.
Qed.

Lemma last_line_length t cur : (length (last_line t cur) <= length cur + length t)%nat.
Proof.
  revert cur. induction t as [|c t IH]; intros cur; cbn; [lia|]. destruct (c =? newline).
  - specialize (IH []). cbn in IH. lia.
  - specialize (IH (cur ++ [c])). rewrite length_app in IH. cbn in IH. lia.
Qed.
End Grep.
