(* ===== verification/UMalloc.v ===== *)
(** user/umalloc.c: the allocator of user programs, a circular list of free blocks
    in address order, each with a header in front.

    [free_list h bs] says that the list consists of the blocks [bs], (address, size
    in units of 16 bytes), starting with the static header [base]. free() and
    malloc() are then described by the bytes the blocks cover, and they write to
    no byte of a block that is in use. *)
From S2P Require Import Prelude Riscv Machine.

(** The address of the static header base, and whether the kernel has the memory to
    move the break [brk] up by [n] bytes. *)
Class UserHeap := { base : Z; grants : Z -> Z -> bool }.

Record heap := mkheap { h_mem : memory; h_freep : Z; h_brk : Z }.

Section Ops.
Context `{U : UserHeap}.

(** union header: s.ptr and s.size. *)
Definition s_ptr (m : memory) (p : Z) : Z := ld64 m p.
Definition s_size (m : memory) (p : Z) : Z := ld32 m (p + 8).
Definition set_ptr (p v : Z) (m : memory) : memory := st64 m p v.
Definition set_size (p v : Z) (m : memory) : memory := st32 m (p + 8) v.

(** The loop of free() that looks for the place of [bp]. *)
Fixpoint free_find (fuel : nat) (m : memory) (bp p : Z) : option Z :=
  match fuel with
  | O => None
  | S fuel =>
      let n := s_ptr m p in
      if (bp >? p) && (bp <? n) then Some p else
      if (p >=? n) && ((bp >? p) || (bp <? n)) then Some p else free_find fuel m bp n
  end.

(** [Some] for a return, [None] when the fuel runs out. *)
Definition free (fuel : nat) (ap : Z) (h : heap) : option heap :=
  let bp := ap - 16 in
  match free_find fuel (h_mem h) bp (h_freep h) with
  | None => None
  | Some p =>
      let m := h_mem h in
      let n := s_ptr m p in
      let m := if bp + 16 * s_size m bp =? n
               then set_ptr bp (s_ptr m n) (set_size bp (u32 (s_size m bp + s_size m n)) m)
               else set_ptr bp n m in
      let m := if p + 16 * s_size m p =? bp
               then set_ptr p (s_ptr m bp) (set_size p (u32 (s_size m p + s_size m bp)) m)
               else set_ptr p bp m in
      Some (mkheap m p (h_brk h))
  end.

(** sbrk(n), as sys_sbrk() and growproc() answer it: the argument and the old break
    pass through an int. *)
Definition sbrk (n : Z) (h : heap) : Z * heap :=
  let brk := h_brk h in
  let addr := u64 (s32 brk) in
  let n := s32 n in
  if n >? 0 then
    if grants brk n then (addr, mkheap (h_mem h) (h_freep h) (brk + n)) else (u64 (-1), h)
  else
    let sz := if u64 (brk + n) >=? brk then brk else u64 (brk + n) in
    (addr, mkheap (h_mem h) (h_freep h) sz).

Definition morecore (fuel : nat) (nu : Z) (h : heap) : option (Z * heap) :=
  let nu := if nu <? 4096 then 4096 else nu in
  let '(p, h) := sbrk (nu * 16) h in
  if p =? u64 (-1) then Some (0, h) else
  let h := mkheap (set_size p nu (h_mem h)) (h_freep h) (h_brk h) in
  match free fuel (p + 16) h with
  | Some h => Some (h_freep h, h)
  | None => None
  end.

Fixpoint malloc_loop (fuel : nat) (nunits prevp p : Z) (h : heap) : option (Z * heap) :=
  match fuel with
  | O => None
  | S fuel' =>
      let m := h_mem h in
      if s_size m p >=? nunits then
        if s_size m p =? nunits
        then Some (p + 16, mkheap (set_ptr prevp (s_ptr m p) m) prevp (h_brk h))
        else
          let m := set_size p (u32 (s_size m p - nunits)) m in
          let p := p + 16 * s_size m p in
          Some (p + 16, mkheap (set_size p nunits m) prevp (h_brk h))
      else if p =? h_freep h then
        match morecore fuel nunits h with
        | None => None
        | Some (p, h) => if p =? 0 then Some (0, h) else malloc_loop fuel' nunits p (s_ptr (h_mem h) p) h
        end
      else malloc_loop fuel' nunits p (s_ptr m p) h
  end.

Definition units (nbytes : Z) : Z := u32 ((nbytes + 16 - 1) / 16 + 1).

Definition malloc (fuel : nat) (nbytes : Z) (h : heap) : option (Z * heap) :=
  let h := if h_freep h =? 0
           then mkheap (set_size base 0 (set_ptr base base (h_mem h))) base (h_brk h) else h in
  malloc_loop fuel (units nbytes) (h_freep h) (s_ptr (h_mem h) (h_freep h)) h.
End Ops.

(** ** Lists of blocks *)

Definition blocks := list (Z * Z).

(** The bytes of a block; the static header has size 0. *)
Definition covers (bs : blocks) (x : Z) : Prop := exists a s, (a, s) ∈ bs /\ a <= x < a + 16 * s.

Definition first (bs : blocks) (e : Z) : Z := match bs with [] => e | (a, _) :: _ => a end.

(** Headers linked in this order, the last one to [e]. *)
Fixpoint seg (m : memory) (bs : blocks) (e : Z) : Prop :=
  match bs with
  | [] => True
  | (a, s) :: bs => s_ptr m a = first bs e /\ s_size m a = s /\ seg m bs e
  end.

(** In increasing order of address, without overlap, between [lo] and [hi]. *)
Fixpoint ordered (lo : Z) (bs : blocks) (hi : Z) : Prop :=
  match bs with
  | [] => lo <= hi
  | (a, s) :: bs => lo <= a /\ 0 <= s /\ ordered (a + 16 * Z.max s 1) bs hi
  end.

Lemma first_app l1 l2 e : first (l1 ++ l2) e = first l1 (first l2 e).
Proof. by destruct l1 as [|[a s] l1]. Qed.

Lemma seg_app m l1 l2 e : seg m (l1 ++ l2) e <-> seg m l1 (first l2 e) /\ seg m l2 e.
Proof.
  induction l1 as [|[a s] l1 IH]; cbn [app seg]; [tauto|]. rewrite IH, first_app. tauto.
Qed.

Lemma ordered_app lo l1 l2 hi : ordered lo (l1 ++ l2) hi <-> exists mid, ordered lo l1 mid /\ ordered mid l2 hi.
Proof.
  revert lo. induction l1 as [|[a s] l1 IH]; intros lo; cbn [app ordered].
  - split; [intros H; exists lo; split; [lia|done]|]. intros (mid & Hm & H). revert H.
    destruct l2 as [|[a s] l2]; cbn; [lia|]. intros (? & ? & ?). split; [lia|done].
  - rewrite IH. split.
    + intros (H1 & H2 & mid & H3 & H4). by exists mid.
    + intros (mid & (H1 & H2 & H3) & H4). split; [done|]. split; [done|]. by exists mid.
Qed.

Lemma ordered_bounds lo bs hi a s : ordered lo bs hi -> (a, s) ∈ bs -> lo <= a /\ 0 <= s /\ a + 16 * Z.max s 1 <= hi.
Proof.
  revert lo. induction bs as [|[b t] bs IH]; intros lo H Hin; [by apply not_elem_of_nil in Hin|].
  destruct H as (H1 & H2 & H3). apply elem_of_cons in Hin as [[= -> ->]|Hin].
  - split; [done|]. split; [done|]. clear -H3. revert H3. generalize (b + 16 * Z.max t 1) as lo.
    induction bs as [|[a s] bs IH]; intros lo H; [done|]. cbn in H. destruct H as (? & ? & H).
    specialize (IH _ H). lia.
  - destruct (IH _ H3 Hin) as (? & ? & ?). split; [lia|]. by split.
Qed.

Lemma ordered_le lo bs hi : ordered lo bs hi -> lo <= hi.
Proof.
  revert lo. induction bs as [|[a s] bs IH]; intros lo H; [done|]. destruct H as (? & ? & H). specialize (IH _ H). lia.
Qed.

Lemma ordered_up lo bs hi hi' : hi <= hi' -> ordered lo bs hi -> ordered lo bs hi'.
Proof. intros Hh. revert lo. induction bs as [|[a s] bs IH]; intros lo; cbn; [lia|]. naive_solver. Qed.

Lemma ordered_weaken lo lo' bs hi : lo' <= lo -> ordered lo bs hi -> ordered lo' bs hi.
Proof. destruct bs as [|[a s] bs]; cbn; [lia|]. intros H (? & ? & ?). split; [lia|done]. Qed.

(** Stores away from the headers keep the links. *)
Lemma seg_ext m m' bs e :
  (forall a s x, (a, s) ∈ bs -> a <= x < a + 16 -> ld8 m' x = ld8 m x) -> seg m bs e -> seg m' bs e.
Proof.
  induction bs as [|[a s] bs IH]; intros H Hs; [done|]. destruct Hs as (H1 & H2 & H3).
  assert (forall x, a <= x < a + 16 -> ld8 m' x = ld8 m x) as Ha by (intros x; apply (H a s); by left).
  split; [|split].
  - rewrite <- H1. apply ld_ext. intros x Hx. apply Ha. lia.
  - rewrite <- H2. apply ld_ext. intros x Hx. apply Ha. lia.
  - apply IH; [|done]. intros a' s' x Hin. apply (H a' s'). by right.
Qed.

Lemma covers_app l1 l2 x : covers (l1 ++ l2) x <-> covers l1 x \/ covers l2 x.
Proof. unfold covers. setoid_rewrite elem_of_app. naive_solver. Qed.

Lemma covers_cons a s l x : covers ((a, s) :: l) x <-> a <= x < a + 16 * s \/ covers l x.
Proof. unfold covers. setoid_rewrite elem_of_cons. naive_solver. Qed.

Lemma covers_nil x : ~ covers [] x.
Proof. intros (a & s & H & _). by apply not_elem_of_nil in H. Qed.

(** Block ([b], [s]) put in front of [l], merged with the first block of [l] when
    they are adjacent. *)
Definition join (b s : Z) (l : blocks) : blocks :=
  match l with
  | (n, u) :: l' => if b + 16 * s =? n then (b, s + u) :: l' else (b, s) :: l
  | [] => [(b, s)]
  end.

Lemma first_join b s l e : first (join b s l) e = b.
Proof. destruct l as [|[n u] l]; [done|]. cbn. by case_match. Qed.

Lemma join_head b s l : exists u l', join b s l = (b, u) :: l'.
Proof. destruct l as [|[n u] l]; cbn; [by eexists _, _|]. case_match; by eexists _, _. Qed.

Lemma join_grows b s l u l' : Forall (fun c => 1 <= c.2) l -> join b s l = (b, u) :: l' -> s <= u.
Proof.
  intros Hl. destruct l as [|[n v] l]; cbn; [intros [= -> _]; lia|]. apply Forall_cons in Hl as [Hv _]. cbn in Hv.
  case_match; intros [= <- _]; lia.
Qed.

Lemma join_fit a s b u l : 0 <= s -> exists c v, (c, v) ∈ join a s ((b, u) :: l) /\ u <= v.
Proof.
  intros Hs. cbn. case_match.
  - exists a, (s + u). split; [left|lia].
  - exists b, u. split; [right; left|lia].
Qed.

Lemma join_far b s l : b + 16 * s <> first l (b + 16 * s + 1) -> join b s l = (b, s) :: l.
Proof. destruct l as [|[n u] l]; [done|]. intros H. cbn in *. by rewrite (proj2 (Z.eqb_neq _ _)). Qed.

Lemma ordered_join lo b s l hi : 1 <= s \/ s = 0 /\ b <> first l (b + 1) -> ordered lo ((b, s) :: l) hi -> ordered lo (join b s l) hi.
Proof.
  intros Hs H. destruct l as [|[n u] l]; [done|]. cbn in *. case_match eqn:E; [|done].
  apply Z.eqb_eq in E. destruct H as (H1 & H2 & H3 & H4 & H5). split; [done|]. split; [lia|].
  eapply ordered_weaken; [|done]. lia.
Qed.

Lemma covers_join b s l x : 0 <= s -> Forall (fun c => 1 <= c.2) l ->
  covers (join b s l) x <-> b <= x < b + 16 * s \/ covers l x.
Proof.
  intros Hs Hl. destruct l as [|[n u] l]; cbn; [by rewrite covers_cons|].
  case_match eqn:E; [|by rewrite covers_cons]. apply Z.eqb_eq in E. rewrite !covers_cons.
  apply Forall_cons in Hl as [Hu _]. cbn in Hu.
  assert (b <= x < b + 16 * (s + u) <-> b <= x < b + 16 * s \/ n <= x < n + 16 * u) by lia. tauto.
Qed.

Lemma pos_join b s l : 1 <= s -> Forall (fun c => 1 <= c.2) l -> Forall (fun c : Z * Z => 1 <= c.2) (join b s l).
Proof.
  intros Hs Hl. destruct l as [|[n u] l]; cbn; [by repeat constructor|].
  apply Forall_cons in Hl as [Hu Hl]. cbn in Hu. case_match; repeat constructor; cbn; [lia|done|lia|lia|done].
Qed.

Lemma length_join b s l : (length (join b s l) <= S (length l))%nat.
Proof. destruct l as [|[n u] l]; cbn; [lia|]. case_match; cbn; lia. Qed.

(** ** free() *)

Section Spec.
Context `{U : UserHeap}.

Definition header (p x : Z) : Prop := p <= x < p + 16.

Lemma set_ptr_same p v m : 0 <= v < 2 ^ 64 -> s_ptr (set_ptr p v m) p = v.
Proof. apply ld64_st64_same. Qed.

Lemma set_size_same p v m : s_size (set_size p v m) p = u32 v.
Proof. unfold s_size, set_size. by rewrite ld_st_same. Qed.

Lemma size_set_ptr p v m : s_size (set_ptr p v m) p = s_size m p.
Proof. unfold s_size, set_ptr. apply ld_st_disj. lia. Qed.

Lemma ptr_set_size p v m : s_ptr (set_size p v m) p = s_ptr m p.
Proof. unfold s_ptr, set_size. apply ld_st_disj. lia. Qed.

Lemma set_ptr_out p v m x : ~ header p x -> ld8 (set_ptr p v m) x = ld8 m x.
Proof. unfold header. intros H. apply ld8_st_out. lia. Qed.

Lemma set_size_out p v m x : ~ header p x -> ld8 (set_size p v m) x = ld8 m x.
Proof. unfold header. intros H. apply ld8_st_out. lia. Qed.

Lemma ptr_ext m m' p : (forall x, header p x -> ld8 m' x = ld8 m x) -> s_ptr m' p = s_ptr m p.
Proof. intros H. apply ld_ext. intros x Hx. apply H. unfold header. lia. Qed.

Lemma size_ext m m' p : (forall x, header p x -> ld8 m' x = ld8 m x) -> s_size m' p = s_size m p.
Proof. intros H. apply ld_ext. intros x Hx. apply H. unfold header. lia. Qed.

Lemma ptr_range m p : 0 <= s_ptr m p < 2 ^ 64.
Proof. apply ld_range. Qed.

(** Both halves of free() after the search: the block at [b] is linked to what is at
    [n], or swallows it. *)
Definition link (b n : Z) (m : memory) : memory :=
  if b + 16 * s_size m b =? n
  then set_ptr b (s_ptr m n) (set_size b (u32 (s_size m b + s_size m n)) m)
  else set_ptr b n m.

Lemma link_out b n m x : ~ header b x -> ld8 (link b n m) x = ld8 m x.
Proof. intros H. unfold link. case_match; [rewrite set_ptr_out, set_size_out by done|rewrite set_ptr_out by done]; done. Qed.

Lemma link_seg b s l e lo hi m :
  s_size m b = s -> seg m l e -> ordered lo ((b, s) :: l) hi -> hi <= 2 ^ 31 -> 0 <= lo ->
  0 <= first l e < 2 ^ 64 -> (l = [] -> b + 16 * s <> e) ->
  seg (link b (first l e) m) (join b s l) e.
Proof.
  intros Hs Hl Ho Hhi Hlo Hf He.
  assert (seg (link b (first l e) m) l e) as Hl'.
  { revert Hl. apply seg_ext. intros a t x Hin Hx. apply link_out. destruct Ho as (? & ? & Ho).
    pose proof (ordered_bounds _ _ _ _ _ Ho Hin). unfold header. lia. }
  unfold link in *. rewrite Hs in *. destruct l as [|[n u] l]; cbn [first join].
  - specialize (He eq_refl). cbn [first] in *. rewrite (proj2 (Z.eqb_neq _ _)) by done. cbn.
    rewrite set_ptr_same, size_set_ptr by done. done.
  - cbn [first] in *. destruct (Z.eqb_spec (b + 16 * s) n) as [E|E].
    + destruct Hl as (H1 & H2 & H3). destruct Hl' as (_ & _ & Hl'). cbn [seg]. split; [|split; [|done]].
      * rewrite set_ptr_same by apply ptr_range. done.
      * rewrite size_set_ptr, set_size_same, H2. destruct Ho as (? & ? & ? & ? & Ho). apply ordered_le in Ho.
        unfold u32. rewrite Zmod_mod. apply Z.mod_small. lia.
    + split; [|split; [|done]]; [by rewrite set_ptr_same|by rewrite size_set_ptr].
Qed.

(** The place of [b] in [l] is before the blocks [l2]. *)
Definition place (b : Z) (l l1 : blocks) (a s : Z) (l2 : blocks) : Prop :=
  l = l1 ++ (a, s) :: l2 /\ a < b < first l2 (b + 1).

Lemma find_here m b l e fuel lo hi :
  seg m l e -> ordered lo l hi -> e < b -> e <= lo -> first l b < b ->
  (forall s, (b, s) ∉ l) -> (length l <= fuel)%nat ->
  exists l1 a s l2, place b l l1 a s l2 /\ free_find fuel m b (first l e) = Some a.
Proof.
  revert fuel lo. induction l as [|[a s] l IH]; intros fuel lo Hs Ho Hb He Hf Hn Hfuel; [cbn in Hf; lia|].
  destruct fuel as [|fuel]; [cbn in Hfuel; lia|]. destruct Hs as (H1 & H2 & H3), Ho as (H4 & H5 & H6).
  cbn [first] in *. cbn [free_find]. rewrite H1. destruct (decide (first l (b + 1) < b)) as [Hlt|Hge].
  - destruct l as [|[c u] l]; [cbn in Hlt; lia|]. cbn [first] in *. destruct H6 as (H7 & H8 & H9).
    replace ((b >? a) && (b <? c)) with false by lia. replace (a >=? c) with false by lia. cbn [andb].
    destruct (IH fuel (a + 16 * Z.max s 1)) as (l1 & p & t & l2 & Hp & Hr); try done; try lia.
    + intros s' Hin. by apply (Hn s'), elem_of_cons; right.
    + cbn in Hfuel |- *. lia.
    + exists ((a, s) :: l1), p, t, l2. split; [|done]. destruct Hp as [-> Hp]. by split.
  - exists [], a, s, l. split.
    + split; [done|]. split; [done|]. destruct l as [|[c u] l]; cbn in *; [lia|].
      assert (c <> b); [|lia]. intros ->. apply (Hn u). right. left.
    + destruct l as [|[c u] l]; cbn [first] in *.
      * replace (b <? e) with false by lia. rewrite andb_false_r.
        replace (a >=? e) with true by lia. replace (b >? a) with true by lia. done.
      * assert (c <> b) by (intros ->; apply (Hn u); right; left).
        replace (b >? a) with true by lia. replace (b <? c) with true by lia. done.
Qed.

Lemma find_wrap m b l e fuel lo hi :
  seg m l e -> ordered lo l hi -> e < b -> b < lo ->
  free_find (length l + fuel) m b (first l e) = free_find fuel m b e.
Proof.
  revert lo. induction l as [|[a s] l IH]; intros lo Hs Ho He Hb; [done|].
  destruct Hs as (H1 & H2 & H3), Ho as (H4 & H5 & H6). cbn [length Nat.add first free_find]. rewrite H1.
  replace (b >? a) with false by lia. cbn [andb orb].
  assert ((a >=? first l e) && (b <? first l e) = false) as ->.
  { destruct l as [|[c u] l]; cbn [first] in *; [lia|]. cbn in H6. lia. }
  apply (IH (a + 16 * Z.max s 1)); [done|done|done|lia].
Qed.

Lemma free_find_mono m b p fuel fuel' r :
  (fuel <= fuel')%nat -> free_find fuel m b p = Some r -> free_find fuel' m b p = Some r.
Proof.
  revert p fuel'. induction fuel as [|fuel IH]; intros p fuel' Hle H; [done|].
  destruct fuel' as [|fuel']; [lia|]. cbn [free_find] in *. repeat (case_match; [done|]). apply IH; [lia|done].
Qed.

(** The list of free blocks: the static header, then blocks of at least one unit. *)
Record free_list (h : heap) (bs : blocks) : Prop := {
  fl_head : exists rest, bs = (base, 0) :: rest /\ Forall (fun c => 1 <= c.2) rest;
  fl_seg : seg (h_mem h) bs base;
  fl_ord : ordered base bs (h_brk h);
  fl_freep : exists s, (h_freep h, s) ∈ bs;
  fl_base : 0 < base;
  fl_brk : h_brk h < 2 ^ 31 }.

Lemma freep_pos h bs : free_list h bs -> 0 < h_freep h.
Proof.
  intros Hl. destruct (fl_freep _ _ Hl) as [s Hs]. pose proof (ordered_bounds _ _ _ _ _ (fl_ord _ _ Hl) Hs).
  pose proof (fl_base _ _ Hl). lia.
Qed.

(** A block of [n] units in use. *)
Record block (h : heap) (bs : blocks) (b n : Z) : Prop := {
  bk_size : s_size (h_mem h) b = n;
  bk_pos : 1 <= n;
  bk_lo : base + 16 <= b;
  bk_hi : b + 16 * n <= h_brk h;
  bk_free : forall x, b <= x < b + 16 * n -> ~ covers bs x }.

Lemma block_apart h bs b n a s : free_list h bs -> block h bs b n -> (a, s) ∈ bs ->
  a + 16 * Z.max s 1 <= b \/ b + 16 * n <= a.
Proof.
  intros [(rest & -> & Hp) _ _ _ _ _] [_ Hn Hlo _ Hf] Hin.
  apply elem_of_cons in Hin as [[= -> ->]|Hin]; [lia|].
  rewrite Forall_forall in Hp. pose proof (Hp _ Hin) as Hs. cbn in Hs.
  assert (forall x, b <= x < b + 16 * n -> ~ (a <= x < a + 16 * s)) as H.
  { intros x Hx Hc. apply (Hf x Hx). exists a, s. split; [by right|done]. }
  pose proof (H a). pose proof (H b). lia.
Qed.

Lemma find_place h bs b n fuel : free_list h bs -> block h bs b n -> (2 * length bs <= fuel)%nat ->
  exists l1 a s l2, place b bs l1 a s l2 /\ free_find fuel (h_mem h) b (h_freep h) = Some a.
Proof.
  intros Hl Hb Hfuel. pose proof (fun a s => block_apart h bs b n a s Hl Hb) as Hap.
  pose proof (bk_pos _ _ _ _ Hb) as Hpos. pose proof (bk_lo _ _ _ _ Hb) as Hlo.
  assert (forall s, (b, s) ∉ bs) as Hnb by (intros s Hin; specialize (Hap _ _ Hin); lia).
  destruct Hl as [(rest & Hr & _) Hs Ho [s Hf] _ _].
  apply list_elem_of_split in Hf as (pre & suf & Hbs).
  assert (length bs = length pre + S (length suf))%nat as Hlen by (rewrite Hbs, length_app; done).
  pose proof Hs as Hs'. pose proof Ho as Ho'. rewrite Hbs in Hs', Ho'.
  apply seg_app in Hs' as [_ Hs']. apply ordered_app in Ho' as (mid & Hm & Ho'). apply ordered_le in Hm.
  set (l := (h_freep h, s) :: suf) in *. replace (h_freep h) with (first l base) by done.
  destruct (decide (h_freep h < b)) as [Hlt|Hge].
  - destruct (find_here (h_mem h) b l base fuel mid (h_brk h)) as (l1 & a & t & l2 & [El Hp] & Hfind);
      try done; [lia| |cbn; lia|].
    + intros t Hin. apply (Hnb t). rewrite Hbs. apply elem_of_app. by right.
    + exists (pre ++ l1), a, t, l2. split; [|done]. split; [|done]. by rewrite Hbs, El, app_assoc.
  - destruct (find_here (h_mem h) b bs base (length bs) base (h_brk h)) as (l1 & a & t & l2 & Hp & Hfind);
      try done; [lia|rewrite Hr; cbn; lia|].
    exists l1, a, t, l2. split; [done|]. rewrite Hr in Hfind. cbn [first] in Hfind. rewrite <- Hr in Hfind.
    apply (free_find_mono _ _ _ (length l + length bs)); [cbn; lia|].
    assert (h_freep h <> b) as Hne.
    { intros E. apply (Hnb s). rewrite Hbs, <- E. apply elem_of_app. right. left. }
    rewrite (find_wrap _ _ _ _ _ (h_freep h) (h_brk h)); [done|done| |lia|lia].
    destruct Ho' as (? & ? & ?). split; [lia|done].
Qed.

Lemma free_link fuel b h p : free_find fuel (h_mem h) b (h_freep h) = Some p ->
  free fuel (b + 16) h = Some (mkheap (link p b (link b (s_ptr (h_mem h) p) (h_mem h))) p (h_brk h)).
Proof. intros H. unfold free. replace (b + 16 - 16) with b by lia. by rewrite H. Qed.

Lemma insert_ordered h bs b n l1 a s l2 :
  free_list h bs -> block h bs b n -> place b bs l1 a s l2 ->
  exists lo, base <= lo <= a /\ ordered base l1 lo /\ ordered (a + 16 * Z.max s 1) ((b, n) :: l2) (h_brk h).
Proof.
  intros Hl Hb [Hbs Hp]. pose proof (fun a s => block_apart h bs b n a s Hl Hb) as Hap.
  pose proof (fl_ord _ _ Hl) as Ho. rewrite Hbs in Ho, Hap.
  apply ordered_app in Ho as (lo & Ho1 & Ho2 & Hs & Ho). destruct Hb as [_ Hn Hlo Hhi _].
  exists lo. pose proof (ordered_le _ _ _ Ho1). split; [lia|]. split; [done|].
  specialize (Hap a s) as Ha. rewrite elem_of_app, elem_of_cons in Ha. specialize (Ha (or_intror (or_introl eq_refl))).
  split; [lia|]. split; [lia|]. destruct l2 as [|[c u] l2]; [cbn; lia|].
  specialize (Hap c u). rewrite elem_of_app, !elem_of_cons in Hap.
  specialize (Hap (or_intror (or_intror (or_introl eq_refl)))). cbn [first] in Hp.
  destruct Ho as (? & ? & ?). split; [lia|done].
Qed.

Lemma insert_seg h bs b n l1 a s l2 :
  free_list h bs -> block h bs b n -> place b bs l1 a s l2 ->
  seg (link a b (link b (s_ptr (h_mem h) a) (h_mem h))) (l1 ++ join a s (join b n l2)) base.
Proof.
  intros Hl Hb Hp. destruct (insert_ordered _ _ _ _ _ _ _ _ Hl Hb Hp) as (lo & Hlo & Ho1 & Ho2).
  destruct Hp as [Hbs Hp]. pose proof (fl_seg _ _ Hl) as Hs. pose proof (fl_base _ _ Hl). pose proof (fl_brk _ _ Hl).
  rewrite Hbs in Hs. apply seg_app in Hs as (Hs1 & Hsa & Hsz & Hs2). cbn [first] in Hs1. rewrite Hsa.
  set (m := h_mem h) in *. set (m1 := link b (first l2 base) m).
  destruct Hb as [Hsb Hn Hb1 Hb2 _]. pose proof Ho2 as (Hab & _ & Ho3).
  assert (seg m1 (join b n l2) base) as H1.
  { apply (link_seg _ _ _ _ (a + 16 * Z.max s 1) (h_brk h)); try done; [lia|lia| |lia].
    destruct l2 as [|[c u] l2]; cbn in Ho3 |- *; [lia|]. destruct Ho3 as (? & ? & Ho3). apply ordered_le in Ho3. lia. }
  assert (s_size m1 a = s) as Hsa'.
  { rewrite <- Hsz. apply size_ext. intros x Hx. apply link_out. unfold header in *. lia. }
  assert (ordered lo ((a, s) :: join b n l2) (h_brk h)) as Ho4.
  { pose proof (fl_ord _ _ Hl) as Ho. rewrite Hbs in Ho. apply ordered_app in Ho as (_ & _ & _ & Hs0 & _).
    split; [lia|]. split; [done|]. apply ordered_join; [by left|done]. }
  apply seg_app. rewrite first_join. split.
  - apply (seg_ext m); [|done]. intros c u x Hin Hx. pose proof (ordered_bounds _ _ _ _ _ Ho1 Hin).
    unfold m1. rewrite !link_out by (unfold header; lia). done.
  - replace b with (first (join b n l2) base) at 1 by apply first_join.
    apply (link_seg _ _ _ _ lo (h_brk h)); try done; [lia|lia|rewrite first_join; lia|].
    destruct (join_head b n l2) as (u & l & ->). done.
Qed.

Lemma insert_head bs b n l1 a s l2 :
  (exists rest, bs = (base, 0) :: rest /\ Forall (fun c => 1 <= c.2) rest) -> 1 <= n -> base < b ->
  bs = l1 ++ (a, s) :: l2 ->
  (a = base \/ 1 <= s) /\ 0 <= s /\ Forall (fun c => 1 <= c.2) l2 /\
  exists rest, l1 ++ join a s (join b n l2) = (base, 0) :: rest /\ Forall (fun c => 1 <= c.2) rest.
Proof.
  intros (rest & Hr & Hp) Hn Hb Hbs. rewrite Hbs in Hr. destruct l1 as [|c l1]; cbn [app] in Hr.
  - injection Hr as Ea Es El. subst a s l2. split; [by left|]. split; [done|]. split; [done|].
    exists (join b n rest). split; [|by apply pos_join]. cbn [app].
    apply join_far. rewrite first_join. lia.
  - injection Hr as -> Hr. rewrite <- Hr, Forall_app, Forall_cons in Hp. destruct Hp as (Hp1 & Hs & Hp2). cbn in Hs.
    split; [by right|]. split; [lia|]. split; [done|]. eexists. split; [done|].
    apply Forall_app. split; [done|]. by apply pos_join, pos_join.
Qed.

(** free() of a block in use returns, adds exactly its bytes to the free ones and
    writes to no byte outside the free blocks, the block and the static header. *)
Lemma free_spec h bs b n fuel :
  free_list h bs -> block h bs b n -> (2 * length bs <= fuel)%nat ->
  exists h' bs', free fuel (b + 16) h = Some h' /\ free_list h' bs' /\ h_brk h' = h_brk h /\
    (length bs' <= S (length bs))%nat /\
    (forall x, covers bs' x <-> covers bs x \/ b <= x < b + 16 * n) /\
    (exists a s, (a, s) ∈ bs' /\ n <= s) /\
    (forall x, ~ covers bs' x -> ~ header base x -> ld8 (h_mem h') x = ld8 (h_mem h) x).
Proof.
  intros Hl Hb Hfuel. destruct (find_place _ _ _ _ _ Hl Hb Hfuel) as (l1 & a & s & l2 & [Hbs Hp] & Hf).
  pose proof (bk_pos _ _ _ _ Hb) as Hn. pose proof (bk_lo _ _ _ _ Hb) as Hlo.
  destruct (insert_head bs b n l1 a s l2 (fl_head _ _ Hl) Hn ltac:(lia) Hbs) as (Ha & Hs & Hp2 & Hhead).
  destruct (insert_ordered _ _ _ _ _ _ _ _ Hl Hb (conj Hbs Hp)) as (lo & Hlo' & Ho1 & Ho2).
  assert (forall x, covers (l1 ++ join a s (join b n l2)) x <-> covers bs x \/ b <= x < b + 16 * n) as Hc.
  { intros x. rewrite covers_app, covers_join, covers_join by (done || lia || by apply pos_join).
    rewrite Hbs, covers_app, covers_cons. tauto. }
  eexists _, (l1 ++ join a s (join b n l2)). split; [by apply free_link|]. cbn [h_brk h_mem].
  split; [|split; [done|split; [|split; [done|split]]]].
  - split; cbn [h_brk h_mem h_freep]; [done|by apply (insert_seg h bs)| | |apply (fl_base _ _ Hl)|apply (fl_brk _ _ Hl)].
    + apply ordered_app. exists lo. split; [done|]. apply ordered_join.
      * rewrite first_join. destruct Ha; lia.
      * split; [lia|]. split; [lia|]. apply ordered_join; [by left|done].
    + destruct (join_head a s (join b n l2)) as (u & l & ->). exists u. apply elem_of_app. right. left.
  - rewrite length_app. pose proof (length_join a s (join b n l2)). pose proof (length_join b n l2).
    rewrite Hbs, length_app. cbn. lia.
  - destruct (join_head b n l2) as (u & l & E). destruct (join_fit a s b u l Hs) as (c & v & Hin & Hv).
    exists c, v. rewrite E, elem_of_app. split; [by right|].
    enough (n <= u) by lia. apply (join_grows b n l2 u l); done.
  - intros x Hx Hh. rewrite Hc in Hx.
    assert (~ header b x) by (unfold header; lia).
    assert (~ header a x).
    { destruct Ha as [->|Ha]; [done|]. intros Hax. apply Hx. left. exists a, s. split; [|unfold header in Hax; lia].
      rewrite Hbs. apply elem_of_app. right. left. }
    by rewrite !link_out.
Qed.

(** ** malloc() *)

(** The units of the block at [p], found after [prevp]. *)
Definition take (n prevp p : Z) (h : heap) : Z * heap :=
  let m := h_mem h in
  if s_size m p =? n
  then (p + 16, mkheap (set_ptr prevp (s_ptr m p) m) prevp (h_brk h))
  else
    let m := set_size p (u32 (s_size m p - n)) m in
    let p := p + 16 * s_size m p in
    (p + 16, mkheap (set_size p n m) prevp (h_brk h)).

Lemma malloc_loop_S fuel n prevp p h :
  malloc_loop (S fuel) n prevp p h =
  if s_size (h_mem h) p >=? n then Some (take n prevp p h) else
  if p =? h_freep h then
    match morecore (S fuel) n h with
    | None => None
    | Some (p, h) => if p =? 0 then Some (0, h) else malloc_loop fuel n p (s_ptr (h_mem h) p) h
    end
  else malloc_loop fuel n p (s_ptr (h_mem h) p) h.
Proof. cbn [malloc_loop]. unfold take. by repeat case_match. Qed.

Lemma covers_bounds lo l hi x : ordered lo l hi -> covers l x -> lo <= x < hi.
Proof. intros Ho (a & s & Hin & Hx). pose proof (ordered_bounds _ _ _ _ _ Ho Hin). lia. Qed.

(** What malloc() of [n] units has taken from the free blocks [bs]. *)
Record taken (h : heap) (bs : blocks) (n r : Z) (h' : heap) (bs' : blocks) : Prop := {
  tk_list : free_list h' bs';
  tk_block : block h' bs' (r - 16) n;
  tk_brk : h_brk h' = h_brk h;
  tk_covers : forall x, covers bs x <-> covers bs' x \/ r - 16 <= x < r - 16 + 16 * n;
  tk_mem : forall x, ~ covers bs x -> ~ header base x -> ld8 (h_mem h') x = ld8 (h_mem h) x }.

Section Take.
Context (h : heap) (bs l1 l2 : blocks) (q t a s n : Z).
Context (Hl : free_list h bs) (Hbs : bs = l1 ++ (q, t) :: (a, s) :: l2) (Hn : 1 <= n).

Lemma take_parts : exists lo, base <= lo <= q /\ 0 <= t /\ q + 16 * Z.max t 1 <= a /\ a + 16 * Z.max s 1 <= h_brk h /\
  ordered base l1 lo /\ ordered (a + 16 * Z.max s 1) l2 (h_brk h).
Proof.
  pose proof (fl_ord _ _ Hl) as Ho. rewrite Hbs in Ho.
  apply ordered_app in Ho as (lo & Ho1 & Hq & Ht & Ha & Hs & Ho2).
  exists lo. pose proof (ordered_le _ _ _ Ho1). pose proof (ordered_le _ _ _ Ho2). split_and!; done || lia.
Qed.

Lemma take_head l : Forall (fun c => 1 <= c.2) l ->
  (q = base /\ t = 0 \/ 1 <= t) /\ Forall (fun c : Z * Z => 1 <= c.2) l2 /\ 1 <= s /\
  exists rest, l1 ++ (q, t) :: l = (base, 0) :: rest /\ Forall (fun c => 1 <= c.2) rest.
Proof.
  intros Hp. destruct (fl_head _ _ Hl) as (rest & Hr & Hp'). rewrite Hbs in Hr. destruct l1 as [|c l1']; cbn [app] in Hr.
  - injection Hr as <- <- <-. apply Forall_cons in Hp' as [Hs Hp']. cbn in Hs. split; [by left|]. split; [done|]. split; [done|].
    by exists l.
  - injection Hr as -> <-. rewrite Forall_app, !Forall_cons in Hp'. destruct Hp' as (H1 & H2 & H3 & H4). cbn in H2, H3.
    split; [by right|]. split; [done|]. split; [done|]. exists (l1' ++ (q, t) :: l). split; [done|].
    rewrite Forall_app, Forall_cons. done.
Qed.

Lemma take_exact : s = n -> taken h bs n (a + 16) (mkheap (set_ptr q (s_ptr (h_mem h) a) (h_mem h)) q (h_brk h)) (l1 ++ (q, t) :: l2).
Proof.
  intros E. destruct take_parts as (lo & Hlo & Ht & Hqa & Ha & Ho1 & Ho2).
  pose proof (fl_seg _ _ Hl) as Hs. rewrite Hbs in Hs. apply seg_app in Hs as (Hs1 & Hq1 & Hq2 & Ha1 & Ha2 & Hs2).
  assert (Forall (fun c : Z * Z => 1 <= c.2) l2) as Hp2 by (by apply (take_head []); constructor).
  destruct (take_head l2 Hp2) as (Hqt & _ & Hs0 & Hhead).
  assert (forall x, covers bs x <-> covers (l1 ++ (q, t) :: l2) x \/ a <= x < a + 16 * n) as Hc.
  { intros x. rewrite Hbs, !covers_app, !covers_cons, E. tauto. }
  split; cbn [h_mem h_brk]; rewrite ?Z.add_simpl_r.
  - split; cbn [h_mem h_brk h_freep]; [done| | | |apply (fl_base _ _ Hl)|apply (fl_brk _ _ Hl)].
    + apply seg_app. split; [|split; [|split]].
      * apply (seg_ext (h_mem h)); [|done]. intros c u x Hin Hx. apply set_ptr_out. unfold header.
        pose proof (ordered_bounds _ _ _ _ _ Ho1 Hin). lia.
      * rewrite set_ptr_same by apply ptr_range. done.
      * by rewrite size_set_ptr.
      * apply (seg_ext (h_mem h)); [|done]. intros c u x Hin Hx. apply set_ptr_out. unfold header.
        pose proof (ordered_bounds _ _ _ _ _ Ho2 Hin). lia.
    + apply ordered_app. exists lo. split; [done|]. split; [lia|]. split; [done|]. eapply ordered_weaken; [|done]. lia.
    + exists t. apply elem_of_app. right. left.
  - split; cbn [h_mem h_brk]; [|done| |lia|].
    + rewrite <- E, <- Ha2. apply size_ext. intros x Hx. apply set_ptr_out. unfold header in *. lia.
    + destruct Hlo. lia.
    + intros x Hx. rewrite covers_app, covers_cons. intros [Hx'|[Hx'|Hx']]; [|lia|].
      * apply (covers_bounds _ _ _ _ Ho1) in Hx'. lia.
      * apply (covers_bounds _ _ _ _ Ho2) in Hx'. lia.
  - done.
  - done.
  - intros x Hx Hh. apply set_ptr_out. intros Hq. destruct Hqt as [[-> _]|Hqt]; [done|].
    apply Hx. exists q, t. split; [|unfold header in Hq; lia]. rewrite Hbs. apply elem_of_app. right. left.
Qed.

Lemma take_split : n < s ->
  taken h bs n (a + 16 * (s - n) + 16)
    (mkheap (set_size (a + 16 * (s - n)) n (set_size a (s - n) (h_mem h))) q (h_brk h))
    (l1 ++ (q, t) :: (a, s - n) :: l2).
Proof.
  intros E. destruct take_parts as (lo & Hlo & Ht & Hqa & Ha & Ho1 & Ho2).
  pose proof (fl_seg _ _ Hl) as Hs. rewrite Hbs in Hs. apply seg_app in Hs as (Hs1 & Hq1 & Hq2 & Ha1 & Ha2 & Hs2).
  assert (Forall (fun c : Z * Z => 1 <= c.2) l2) as Hp2 by (by apply (take_head []); constructor).
  destruct (take_head ((a, s - n) :: l2)) as (Hqt & _ & Hs0 & Hhead); [constructor; cbn; [lia|done]|].
  pose proof (fl_brk _ _ Hl) as Hbrk. pose proof (fl_base _ _ Hl) as Hbase.
  set (b := a + 16 * (s - n)). set (m := set_size b n (set_size a (s - n) (h_mem h))).
  assert (forall x, ~ a + 8 <= x < a + 16 * s -> ld8 m x = ld8 (h_mem h) x) as Hm.
  { intros x Hx. unfold m, set_size. rewrite !ld8_st_out; [done|lia|lia]. }
  assert (forall x, covers bs x <-> covers (l1 ++ (q, t) :: (a, s - n) :: l2) x \/ b <= x < b + 16 * n) as Hc.
  { intros x. rewrite Hbs, !covers_app, !covers_cons.
    assert (a <= x < a + 16 * s <-> a <= x < a + 16 * (s - n) \/ b <= x < b + 16 * n) by lia. tauto. }
  split; cbn [h_mem h_brk]; rewrite ?Z.add_simpl_r.
  - split; cbn [h_mem h_brk h_freep]; [done| | | |done|done].
    + apply seg_app. split; [|split; [|split; [|split; [|split]]]].
      * apply (seg_ext (h_mem h)); [|done]. intros c u x Hin Hx. apply Hm.
        pose proof (ordered_bounds _ _ _ _ _ Ho1 Hin). lia.
      * transitivity (s_ptr (h_mem h) q); [|exact Hq1]. apply ptr_ext. intros x Hx. apply Hm. unfold header in Hx. lia.
      * rewrite <- Hq2. apply size_ext. intros x Hx. apply Hm. unfold header in Hx. lia.
      * rewrite <- Ha1. apply ld_ext. intros x Hx. apply Hm. lia.
      * rewrite (size_ext (set_size a (s - n) (h_mem h))).
        -- rewrite set_size_same. apply Z.mod_small. lia.
        -- intros x Hx. apply set_size_out. unfold header in *. lia.
      * apply (seg_ext (h_mem h)); [|done]. intros c u x Hin Hx. apply Hm.
        pose proof (ordered_bounds _ _ _ _ _ Ho2 Hin). lia.
    + apply ordered_app. exists lo. split; [done|]. split; [lia|]. split; [done|].
      split; [done|]. split; [lia|]. eapply ordered_weaken; [|done]. lia.
    + exists t. apply elem_of_app. right. left.
  - split; cbn [h_mem h_brk]; [|done|lia|lia|].
    + unfold m. rewrite set_size_same. apply Z.mod_small. lia.
    + intros x Hx. rewrite covers_app, !covers_cons. intros [Hx'|[Hx'|[Hx'|Hx']]]; [|lia|lia|].
      * apply (covers_bounds _ _ _ _ Ho1) in Hx'. lia.
      * apply (covers_bounds _ _ _ _ Ho2) in Hx'. lia.
  - done.
  - done.
  - intros x Hx Hh. apply Hm. intros Hx'. apply Hx. exists a, s. split; [|lia].
    rewrite Hbs. apply elem_of_app. right. right. left.
Qed.

Lemma take_spec : n <= s -> exists h' bs' r, take n q a h = (r, h') /\ 0 < r /\ taken h bs n r h' bs'.
Proof.
  intros Hle. destruct take_parts as (lo & Hlo & Ht & Hqa & Ha & Ho1 & Ho2).
  pose proof (fl_base _ _ Hl) as Hbase. pose proof (fl_brk _ _ Hl) as Hbrk.
  pose proof (fl_seg _ _ Hl) as Hs. rewrite Hbs in Hs. apply seg_app in Hs as (_ & _ & _ & _ & Ha2 & _).
  unfold take. rewrite Ha2. destruct (Z.eqb_spec s n) as [E|E].
  - eexists _, _, _. split; [done|]. split; [lia|]. by apply take_exact.
  - assert (u32 (s - n) = s - n) as Hu by (apply Z.mod_small; lia).
    rewrite set_size_same. rewrite Hu, Hu.
    eexists _, _, _. split; [done|]. split; [lia|]. apply take_split. lia.
Qed.
End Take.

(** The link of a block leads to the next one. *)
Lemma next_spec m bs e lo hi p s : seg m bs e -> ordered lo bs hi -> (p, s) ∈ bs ->
  s_ptr m p = e \/ p < s_ptr m p /\ forall c u, (c, u) ∈ bs -> c <= p \/ s_ptr m p <= c.
Proof.
  revert lo. induction bs as [|[a t] bs IH]; intros lo Hs Ho Hin; [by apply not_elem_of_nil in Hin|].
  destruct Hs as (Ha & _ & Hs), Ho as (H1 & H2 & Ho). apply elem_of_cons in Hin as [[= -> ->]|Hin].
  - rewrite Ha. destruct bs as [|[b v] bs]; [by left|right]. cbn [first]. pose proof Ho as (H3 & H4 & Ho').
    split; [lia|]. intros c u [[= -> ->]|[[= -> ->]|Hc]%elem_of_cons]%elem_of_cons; [lia|lia|].
    pose proof (ordered_bounds _ _ _ _ _ Ho' Hc). lia.
  - destruct (IH _ Hs Ho Hin) as [?|[H3 H4]]; [by left|right]. split; [done|].
    intros c u [[= -> ->]|Hc]%elem_of_cons; [|by apply (H4 c u)]. pose proof (ordered_bounds _ _ _ _ _ Ho Hin). lia.
Qed.

Lemma prev_unique h bs l1 q t a u l2 p s : free_list h bs -> bs = l1 ++ (q, t) :: (a, u) :: l2 ->
  (p, s) ∈ bs -> s_ptr (h_mem h) p = a -> p = q.
Proof.
  intros Hl Hbs Hp Hpa. destruct (take_parts _ _ _ _ _ _ _ _ Hl Hbs) as (lo & Hlo & Ht & Hqa & _).
  assert ((q, t) ∈ bs) as Hq by (rewrite Hbs; apply elem_of_app; right; left).
  pose proof (fl_seg _ _ Hl) as Hs. pose proof (fl_ord _ _ Hl) as Ho.
  assert (s_ptr (h_mem h) q = a) as Hqn. { rewrite Hbs in Hs. by apply seg_app in Hs as (_ & ? & _). }
  destruct (next_spec _ _ _ _ _ _ _ Hs Ho Hp) as [?|[H1 H2]]; [lia|].
  destruct (next_spec _ _ _ _ _ _ _ Hs Ho Hq) as [?|[H3 H4]]; [lia|].
  specialize (H2 _ _ Hq). specialize (H4 _ _ Hp). lia.
Qed.

(** The blocks in the order the loop of malloc() visits them: from the one after
    freep around to freep. *)
Record circle (h : heap) (bs w : blocks) (sf : Z) : Prop := {
  ci_seg : seg (h_mem h) (w ++ [(h_freep h, sf)]) (s_ptr (h_mem h) (h_freep h));
  ci_sub : forall c, c ∈ w ++ [(h_freep h, sf)] -> c ∈ bs;
  ci_ne : forall c u, (c, u) ∈ w -> c <> h_freep h }.

Lemma circle_ok h bs : free_list h bs -> exists w sf, circle h bs w sf /\
  first (w ++ [(h_freep h, sf)]) 0 = s_ptr (h_mem h) (h_freep h) /\
  S (length w) = length bs /\ forall c, c ∈ bs -> c ∈ w ++ [(h_freep h, sf)].
Proof.
  intros Hl. destruct (fl_freep _ _ Hl) as [sf Hf]. apply list_elem_of_split in Hf as (pre & suf & Hbs).
  exists (suf ++ pre), sf. destruct (fl_head _ _ Hl) as (rest & Hr & _).
  pose proof (fl_seg _ _ Hl) as Hs. pose proof (fl_ord _ _ Hl) as Ho. rewrite Hbs in Hs, Ho.
  apply seg_app in Hs as (Hs1 & Hf1 & Hf2 & Hs2). apply ordered_app in Ho as (mid & Ho1 & Ho2 & Hsf & Ho3).
  assert (forall e, first (pre ++ [(h_freep h, sf)]) e = base) as Hb.
  { intros e. rewrite Hbs in Hr. destruct pre as [|c pre]; cbn [app] in Hr |- *; by injection Hr as -> _. }
  split; [split|split; [|split]].
  - rewrite <- app_assoc. apply seg_app. rewrite Hb. split; [done|]. apply seg_app. split; [done|]. by split.
  - intros c. rewrite Hbs, !elem_of_app, !elem_of_cons, elem_of_nil. tauto.
  - intros c u [Hc|Hc]%elem_of_app.
    + pose proof (ordered_bounds _ _ _ _ _ Ho3 Hc). lia.
    + pose proof (ordered_bounds _ _ _ _ _ Ho1 Hc). lia.
  - by rewrite <- app_assoc, first_app, Hb, Hf1.
  - rewrite Hbs, !length_app. cbn. lia.
  - intros c. rewrite Hbs, !elem_of_app, !elem_of_cons, elem_of_nil. tauto.
Qed.

Lemma fit_spec h bs n prev t a s : free_list h bs -> 1 <= n <= s -> (a, s) ∈ bs -> (prev, t) ∈ bs ->
  s_ptr (h_mem h) prev = a ->
  exists h' bs' r, take n prev a h = (r, h') /\ 0 < r /\ taken h bs n r h' bs'.
Proof.
  intros Hl Hn Ha Hp Hpa. apply list_elem_of_split in Ha as (l & l2 & Hbs).
  destruct (fl_head _ _ Hl) as (rest & Hr & _).
  destruct l as [|[q v] l1 _] using rev_ind.
  { rewrite Hbs in Hr. injection Hr as _ Hs _. lia. }
  rewrite <- app_assoc in Hbs. cbn [app] in Hbs. rewrite (prev_unique _ _ _ _ _ _ _ _ _ _ Hl Hbs Hp Hpa).
  eapply take_spec; [done|done|lia|lia].
Qed.

Lemma visit h bs w sf n : free_list h bs -> circle h bs w sf -> 1 <= n ->
  forall prev t k, (prev, t) ∈ bs -> s_ptr (h_mem h) prev = first (w ++ [(h_freep h, sf)]) 0 ->
  let p := first (w ++ [(h_freep h, sf)]) 0 in
  (forall a s, (a, s) ∈ w ++ [(h_freep h, sf)] -> s < n) /\
    malloc_loop (S (length w) + k) n prev p h =
      match morecore (S k) n h with
      | None => None
      | Some (p, h) => if p =? 0 then Some (0, h) else malloc_loop k n p (s_ptr (h_mem h) p) h
      end \/
  (exists a s, (a, s) ∈ bs /\ n <= s) /\
    exists h' bs' r, malloc_loop (S (length w) + k) n prev p h = Some (r, h') /\ 0 < r /\ taken h bs n r h' bs'.
Proof.
  intros Hl Hc Hn. induction w as [|[a s] w IH]; intros prev t k Hp Hpa p; subst p.
  - cbn [app first] in *. destruct Hc as [(H1 & H2 & _) H3 _]. cbn [length Nat.add]. rewrite malloc_loop_S, H2.
    assert ((h_freep h, sf) ∈ bs) as Hin by (apply H3, list_elem_of_singleton; done).
    destruct (Z.geb_spec sf n) as [Hle|Hlt].
    + right. split; [by exists (h_freep h), sf|].
      destruct (fit_spec h bs n prev t (h_freep h) sf) as (h' & bs' & r & -> & Hr); try done. by exists h', bs', r.
    + left. split; [intros a s Has; apply list_elem_of_singleton in Has as [= -> ->]; lia|]. by rewrite Z.eqb_refl.
  - cbn [app first] in *. destruct Hc as [(H1 & H2 & H4) H3 H5]. cbn [length Nat.add]. rewrite malloc_loop_S, H2.
    assert ((a, s) ∈ bs) as Hin by (apply H3, elem_of_cons; by left).
    destruct (Z.geb_spec s n) as [Hle|Hlt].
    + right. split; [by exists a, s|].
      destruct (fit_spec h bs n prev t a s) as (h' & bs' & r & -> & Hr); try done. by exists h', bs', r.
    + assert (a <> h_freep h) as Hne by (apply (H5 a s); left). rewrite (proj2 (Z.eqb_neq _ _)) by done.
      assert (circle h bs w sf) as Hc.
      { split; [done|intros c Hin'; apply H3; by right|intros c u Hin'; apply (H5 c u); by right]. }
      assert (first (w ++ [(h_freep h, sf)]) (s_ptr (h_mem h) (h_freep h)) = first (w ++ [(h_freep h, sf)]) 0) as Hf
        by (by rewrite !first_app).
      rewrite H1, Hf. destruct (IH Hc a s k Hin (eq_trans H1 Hf)) as [[Hno E]|Hyes]; [left|by right].
      split; [|done]. intros c u [[= -> ->]|Hin']%elem_of_cons; [lia|by apply (Hno c u)].
Qed.

(** The kernel's memory bounds the break, so that sbrk()'s int holds it. *)
Context (grants_bounded : forall brk n, grants brk n = true -> brk + n < 2 ^ 31).

Lemma grown_list h bs nu : free_list h bs -> 1 <= nu < 2 ^ 27 -> grants (h_brk h) (16 * nu) = true ->
  let h1 := mkheap (set_size (h_brk h) nu (h_mem h)) (h_freep h) (h_brk h + 16 * nu) in
  free_list h1 bs /\ block h1 bs (h_brk h) nu.
Proof.
  intros Hl Hnu Hg h1. pose proof (grants_bounded _ _ Hg) as Hb.
  assert (forall x, header (h_brk h) x -> forall a s, (a, s) ∈ bs -> a + 16 * Z.max s 1 <= x) as Hout.
  { intros x Hx a s Hin. pose proof (ordered_bounds _ _ _ _ _ (fl_ord _ _ Hl) Hin). unfold header in Hx. lia. }
  destruct (fl_head _ _ Hl) as (rest & Hr & Hp).
  assert (base + 16 <= h_brk h) as Hbase.
  { pose proof (ordered_bounds _ _ _ base 0 (fl_ord _ _ Hl)) as H. rewrite Hr in H.
    specialize (H ltac:(left)). lia. }
  split.
  - split; cbn [h_mem h_brk h_freep h1]; [by exists rest| | |apply (fl_freep _ _ Hl)|apply (fl_base _ _ Hl)|lia].
    + apply (seg_ext (h_mem h)); [|apply (fl_seg _ _ Hl)]. intros a s x Hin Hx. apply set_size_out.
      intros Hh. specialize (Hout x Hh a s Hin). lia.
    + apply (ordered_up _ _ (h_brk h)); [lia|apply (fl_ord _ _ Hl)].
  - split; cbn [h_mem h_brk h_freep h1]; [|lia|done|lia|].
    + rewrite set_size_same. apply Z.mod_small. lia.
    + intros x Hx Hc. apply (covers_bounds _ _ _ _ (fl_ord _ _ Hl)) in Hc. lia.
Qed.

Lemma morecore_spec h bs n fuel : free_list h bs -> 1 <= n < 2 ^ 27 -> (2 * length bs <= fuel)%nat ->
  let nu := Z.max n 4096 in
  grants (h_brk h) (16 * nu) = false /\ morecore fuel n h = Some (0, h) \/
  exists h' bs', morecore fuel n h = Some (h_freep h', h') /\ free_list h' bs' /\
    h_brk h' = h_brk h + 16 * nu /\ (length bs' <= S (length bs))%nat /\
    (forall x, covers bs' x -> covers bs x \/ h_brk h <= x) /\ (exists a s, (a, s) ∈ bs' /\ n <= s) /\
    (forall x, x < h_brk h -> ~ covers bs x -> ~ header base x -> ld8 (h_mem h') x = ld8 (h_mem h) x).
Proof.
  intros Hl Hn Hfuel nu. unfold morecore.
  replace (if n <? 4096 then 4096 else n) with nu by (unfold nu; case_match; lia).
  assert (0 < h_brk h < 2 ^ 31) as Hbrk.
  { pose proof (fl_brk _ _ Hl). pose proof (fl_base _ _ Hl). pose proof (ordered_le _ _ _ (fl_ord _ _ Hl)). lia. }
  unfold sbrk. rewrite (s32_small (nu * 16)), (s32_small (h_brk h)) by lia.
  assert (u64 (h_brk h) = h_brk h) as Hu by (apply Z.mod_small; lia). rewrite !Hu. replace (nu * 16 >? 0) with true by lia. rewrite (Z.mul_comm nu).
  destruct (grants (h_brk h) (16 * nu)) eqn:Hg; [|left; split; done]. right.
  replace (h_brk h =? u64 (-1)) with false by (change (u64 (-1)) with (2 ^ 64 - 1); lia). cbn [h_mem h_freep h_brk].
  destruct (grown_list h bs nu Hl ltac:(lia) Hg) as [Hl1 Hb1].
  destruct (free_spec _ _ _ _ fuel Hl1 Hb1 Hfuel) as (h' & bs' & -> & Hl' & Hbrk' & Hlen & Hc & (a & s & Has & Hfit) & Hm).
  exists h', bs'. split; [done|]. split; [done|]. split; [done|]. split; [done|]. split; [|split].
  - intros x Hx. apply Hc in Hx as [?|?]; [by left|right; lia].
  - exists a, s. split; [done|]. lia.
  - intros x Hx Hcx Hh. rewrite Hm; [|rewrite Hc; intros [?|?]; [done|lia]|done].
    cbn [h_mem]. apply set_size_out. unfold header. lia.
Qed.

(** A call of malloc() for [n] units: the blocks of before stay as they are, and the
    new one comes from the free ones or from memory above the old break. *)
Record allocated (h : heap) (bs : blocks) (n r : Z) (h' : heap) (bs' : blocks) : Prop := {
  al_list : free_list h' bs';
  al_brk : h_brk h <= h_brk h';
  al_covers : forall x, covers bs' x -> covers bs x \/ h_brk h <= x;
  al_mem : forall x, x < h_brk h -> ~ covers bs x -> ~ header base x -> ld8 (h_mem h') x = ld8 (h_mem h) x;
  al_result :
    r = 0 /\ grants (h_brk h) (16 * Z.max n 4096) = false /\ (forall a s, (a, s) ∈ bs -> s < n) \/
    0 < r /\ block h' bs' (r - 16) n /\
      forall x, r - 16 <= x < r - 16 + 16 * n -> covers bs x \/ h_brk h <= x }.

Lemma taken_allocated h0 bs0 h bs n r h' bs' :
  h_brk h0 <= h_brk h -> (forall x, covers bs x -> covers bs0 x \/ h_brk h0 <= x) ->
  (forall x, x < h_brk h0 -> ~ covers bs0 x -> ~ header base x -> ld8 (h_mem h) x = ld8 (h_mem h0) x) ->
  0 < r -> taken h bs n r h' bs' -> allocated h0 bs0 n r h' bs'.
Proof.
  intros Hb Hc Hm Hr [Hl Hbk Hbrk Hcov Hmem]. split; [done|lia| | |].
  - intros x Hx. apply Hc, Hcov. by left.
  - intros x Hx Hx0 Hh. rewrite Hmem; [by apply Hm| |done]. intros Hx'. apply Hc in Hx' as [?|?]; [done|lia].
  - right. split; [done|]. split; [done|]. intros x Hx. apply Hc, Hcov. by right.
Qed.

Lemma loop_spec h bs n fuel : free_list h bs -> 1 <= n < 2 ^ 27 -> (3 * length bs + 2 <= fuel)%nat ->
  exists r h' bs', malloc_loop fuel n (h_freep h) (s_ptr (h_mem h) (h_freep h)) h = Some (r, h') /\
    allocated h bs n r h' bs'.
Proof.
  intros Hl Hn Hfuel. destruct (circle_ok h bs Hl) as (w & sf & Hc & Hf & Hlen & Hall).
  destruct (fl_freep _ _ Hl) as [s0 Hs0].
  destruct (visit h bs w sf n Hl Hc ltac:(lia) (h_freep h) s0 (fuel - length bs) Hs0 (eq_sym Hf)) as [[Hno E]|[_ Hyes]];
    rewrite Hf, Hlen in *; replace (length bs + (fuel - length bs))%nat with fuel in * by lia.
  - rewrite E. destruct (morecore_spec h bs n (S (fuel - length bs)) Hl Hn ltac:(lia)) as [[Hg ->]|(h' & bs' & -> & Hl' & Hbrk & Hlen' & Hcov & Hfit & Hm)].
    + exists 0, h, bs. split; [done|]. split; [done|lia|by left|done|]. left. split; [done|]. split; [done|].
      intros a s Hin. by apply (Hno a s), Hall.
    + destruct (fl_freep _ _ Hl') as [s1 Hs1].
      pose proof (freep_pos _ _ Hl') as Hpos.
      rewrite (proj2 (Z.eqb_neq _ _)) by lia.
      destruct (circle_ok h' bs' Hl') as (w' & sf' & Hc' & Hf' & Hlw & Hall').
      destruct (visit h' bs' w' sf' n Hl' Hc' ltac:(lia) (h_freep h') s1 (fuel - length bs - length bs') Hs1 (eq_sym Hf'))
        as [[Hno' _]|[_ (h2 & bs2 & r & E2 & Hr & Ht)]].
      { destruct Hfit as (a & s & Hin & Hs). specialize (Hno' a s (Hall' _ Hin)). lia. }
      rewrite Hf', Hlw in E2. replace (length bs' + (fuel - length bs - length bs'))%nat with (fuel - length bs)%nat in E2 by lia.
      exists r, h2, bs2. split; [done|]. apply (taken_allocated h bs h' bs'); try done. lia.
  - destruct Hyes as (h' & bs' & r & E & Hr & Ht). exists r, h', bs'. split; [done|].
    apply (taken_allocated h bs h bs); try done. intros x Hx. by left.
Qed.

(** The state of the allocator between calls; freep is null before the first. *)
Definition heap_ok (h : heap) (bs : blocks) : Prop :=
  free_list h bs \/ h_freep h = 0 /\ bs = [(base, 0)] /\ 0 < base /\ base + 16 <= h_brk h < 2 ^ 31.

Lemma malloc_spec h bs nbytes fuel : heap_ok h bs -> 0 <= nbytes < 2 ^ 30 -> (3 * length bs + 2 <= fuel)%nat ->
  exists r h' bs', malloc fuel nbytes h = Some (r, h') /\ allocated h bs (units nbytes) r h' bs'.
Proof.
  intros Hok Hnb Hfuel. assert (1 <= units nbytes < 2 ^ 27) as Hu.
  { unfold units, u32. pose proof (Z.div_pos (nbytes + 16 - 1) 16 ltac:(lia) ltac:(lia)).
    pose proof (Z.div_lt_upper_bound (nbytes + 16 - 1) 16 (2 ^ 27 - 1) ltac:(lia) ltac:(lia)).
    rewrite Z.mod_small by lia. lia. }
  unfold malloc. destruct Hok as [Hl|(H0 & Hbs & Hb & Hbrk)].
  - pose proof (freep_pos _ _ Hl). rewrite (proj2 (Z.eqb_neq _ _)) by lia. by apply loop_spec.
  - rewrite H0. cbn [Z.eqb]. set (h0 := mkheap _ base (h_brk h)).
    assert (free_list h0 bs) as Hl.
    { rewrite Hbs. split; cbn [h_mem h_brk h_freep h0]; [by exists []| |cbn; lia|exists 0; left|done|lia].
      split; [|split; [|done]].
      - rewrite ptr_set_size. cbn [first]. apply set_ptr_same. lia.
      - by rewrite set_size_same. }
    destruct (loop_spec h0 bs (units nbytes) fuel Hl Hu Hfuel) as (r & h' & bs' & E & [A1 A2 A3 A4 A5]).
    exists r, h', bs'. split; [exact E|]. split; [done|done|done| |done].
    intros x Hx Hc Hh. rewrite A4 by done. cbn [h_mem h0]. by rewrite set_size_out, set_ptr_out.
Qed.

Lemma block_allocated h bs n r h' bs' c k : allocated h bs n r h' bs' -> block h bs c k ->
  block h' bs' c k /\ (forall x, c <= x < c + 16 * k -> ld8 (h_mem h') x = ld8 (h_mem h) x) /\
  (0 < r -> r - 16 + 16 * n <= c \/ c + 16 * k <= r - 16).
Proof.
  intros [A1 A2 A3 A4 A5] [B1 B2 B3 B4 B5].
  assert (forall x, c <= x < c + 16 * k -> ld8 (h_mem h') x = ld8 (h_mem h) x) as Hm.
  { intros x Hx. apply A4; [lia|by apply B5|unfold header; lia]. }
  split; [|split; [done|]].
  - split; [|done|done|lia|].
    + rewrite <- B1. apply size_ext. intros x Hx. apply Hm. unfold header in Hx. lia.
    + intros x Hx Hc. apply A3 in Hc as [Hc|Hc]; [by apply (B5 x)|lia].
  - intros Hr. destruct A5 as [(-> & _)|(_ & A5 & A6)]; [lia|]. pose proof (bk_pos _ _ _ _ A5).
    assert (forall x, c <= x < c + 16 * k -> ~ (r - 16 <= x < r - 16 + 16 * n)) as H1.
    { intros x Hx Hx'. destruct (A6 x Hx') as [Hc|Hc]; [by apply (B5 x)|lia]. }
    pose proof (H1 c). pose proof (H1 (r - 16)). lia.
Qed.

(** Fuel only decides whether a call is followed to its end. *)
Lemma free_mono fuel fuel' p h h' : (fuel <= fuel')%nat -> free fuel p h = Some h' -> free fuel' p h = Some h'.
Proof.
  intros Hle. unfold free. destruct (free_find fuel _ _ _) as [q|] eqn:E; [|done].
  by rewrite (free_find_mono _ _ _ _ _ _ Hle E).
Qed.

Lemma morecore_mono fuel fuel' n h r : (fuel <= fuel')%nat -> morecore fuel n h = Some r -> morecore fuel' n h = Some r.
Proof.
  intros Hle. unfold morecore. destruct (sbrk _ _) as [p h1]. case_match; [done|].
  destruct (free fuel _ _) as [h2|] eqn:E; [|done]. by rewrite (free_mono _ _ _ _ _ Hle E).
Qed.

Lemma malloc_loop_mono fuel fuel' n q p h r :
  (fuel <= fuel')%nat -> malloc_loop fuel n q p h = Some r -> malloc_loop fuel' n q p h = Some r.
Proof.
  revert fuel' q p h. induction fuel as [|fuel IH]; intros fuel' q p h Hle H; [done|].
  destruct fuel' as [|fuel']; [lia|]. rewrite malloc_loop_S in *. case_match; [done|]. case_match; [|apply IH; [lia|done]].
  destruct (morecore (S fuel) n h) as [[p' h']|] eqn:E; [|done]. rewrite (morecore_mono _ _ _ _ _ Hle E).
  case_match; [done|]. apply IH; [lia|done].
Qed.

Lemma malloc_mono fuel fuel' n h r : (fuel <= fuel')%nat -> malloc fuel n h = Some r -> malloc fuel' n h = Some r.
Proof. intros Hle. unfold malloc. by apply malloc_loop_mono. Qed.

(** ** Programs that allocate

    [live] is the list of the blocks a program holds, (header address, units): it
    starts without any, calls malloc() and free(), and writes inside its blocks. *)
Inductive program : heap -> list (Z * Z) -> Prop :=
| p_start m brk : base + 16 <= brk < 2 ^ 31 -> program (mkheap m 0 brk) []
| p_malloc h live fuel nbytes r h' :
    program h live -> 0 <= nbytes < 2 ^ 30 -> malloc fuel nbytes h = Some (r, h') ->
    program h' (if r =? 0 then live else (r - 16, units nbytes) :: live)
| p_free h l1 b n l2 fuel h' :
    program h (l1 ++ (b, n) :: l2) -> free fuel (b + 16) h = Some h' -> program h' (l1 ++ l2)
| p_write h live b n x v :
    program h live -> (b, n) ∈ live -> b + 16 <= x < b + 16 * n ->
    program (mkheap (st8 (h_mem h) x v) (h_freep h) (h_brk h)) live.

Fixpoint disjoint_blocks (l : list (Z * Z)) : Prop :=
  match l with
  | [] => True
  | (b, n) :: l => Forall (fun c => b + 16 * n <= c.1 \/ c.1 + 16 * c.2 <= b) l /\ disjoint_blocks l
  end.

Definition program_ok (h : heap) (live : list (Z * Z)) : Prop :=
  exists bs, heap_ok h bs /\ (h_freep h = 0 -> live = []) /\
    Forall (fun c => block h bs c.1 c.2) live /\ disjoint_blocks live.

Lemma disjoint_remove l1 c l2 : disjoint_blocks (l1 ++ c :: l2) ->
  disjoint_blocks (l1 ++ l2) /\ Forall (fun d => c.1 + 16 * c.2 <= d.1 \/ d.1 + 16 * d.2 <= c.1) (l1 ++ l2).
Proof.
  induction l1 as [|[b n] l1 IH]; cbn [app disjoint_blocks].
  - destruct c as [b n]. intros [H1 H2]. done.
  - rewrite !Forall_app, Forall_cons. intros [(H1 & H2 & H3) H4]. destruct (IH H4) as [H5 H6]. apply Forall_app in H6 as [H6 H7].
    split; [done|]. constructor; [cbn; lia|]. by apply Forall_app.
Qed.

(** malloc() keeps [program_ok] and the contents of the blocks held. *)
Lemma malloc_program h live nbytes : program_ok h live -> 0 <= nbytes < 2 ^ 30 ->
  exists fuel r h', malloc fuel nbytes h = Some (r, h') /\
    (forall b n x, (b, n) ∈ live -> b <= x < b + 16 * n -> ld8 (h_mem h') x = ld8 (h_mem h) x) /\
    program_ok h' (if r =? 0 then live else (r - 16, units nbytes) :: live) /\
    (r = 0 /\ grants (h_brk h) (16 * Z.max (units nbytes) 4096) = false \/
     0 < r /\ r - 16 + 16 * units nbytes <= h_brk h').
Proof.
  intros (bs & Hok & _ & Hlive & Hd) Hnb. rewrite Forall_forall in Hlive.
  destruct (malloc_spec h bs nbytes (3 * length bs + 2) Hok Hnb ltac:(lia)) as (r & h' & bs' & E & Hal).
  exists (3 * length bs + 2)%nat, r, h'. split; [done|]. split; [|split].
  - intros b n x Hin Hx. by apply (block_allocated _ _ _ _ _ _ b n Hal (Hlive _ Hin)).
  - pose proof (al_list _ _ _ _ _ _ Hal) as Hl'. exists bs'. split; [by left|].
    split; [pose proof (freep_pos _ _ Hl'); lia|].
    assert (Forall (fun c => block h' bs' c.1 c.2) live) as Hlive'.
    { apply Forall_forall. intros c Hin. by apply (block_allocated _ _ _ _ _ _ _ _ Hal (Hlive _ Hin)). }
    destruct (al_result _ _ _ _ _ _ Hal) as [(-> & _)|(Hr & Hb & _)]; [done|].
    rewrite (proj2 (Z.eqb_neq _ _)) by lia. split; [by constructor|]. split; [|done].
    apply Forall_forall. intros c Hin. by apply (block_allocated _ _ _ _ _ _ _ _ Hal (Hlive _ Hin)).
  - destruct (al_result _ _ _ _ _ _ Hal) as [(-> & Hg & _)|(Hr & Hb & _)]; [by left|right].
    split; [done|]. apply (bk_hi _ _ _ _ Hb).
Qed.

Lemma free_program h l1 b n l2 : program_ok h (l1 ++ (b, n) :: l2) ->
  exists fuel h', free fuel (b + 16) h = Some h' /\
    (forall c k x, (c, k) ∈ l1 ++ l2 -> c <= x < c + 16 * k -> ld8 (h_mem h') x = ld8 (h_mem h) x) /\
    program_ok h' (l1 ++ l2).
Proof.
  intros (bs & Hok & Hz & Hlive & Hd). destruct Hok as [Hl|(H0 & _)]; [|specialize (Hz H0); by destruct l1].
  apply Forall_app in Hlive as [H1 H2]. apply Forall_cons in H2 as [Hb H2]. cbn in Hb.
  assert (Forall (fun c => block h bs c.1 c.2) (l1 ++ l2)) as Hlive by (by apply Forall_app).
  destruct (disjoint_remove _ _ _ Hd) as [Hd1 Hd2]. rewrite Forall_forall in Hlive, Hd2.
  destruct (free_spec h bs b n (2 * length bs) Hl Hb ltac:(lia)) as (h' & bs' & E & Hl' & Hbrk & _ & Hc & _ & Hm).
  assert (forall c k x, (c, k) ∈ l1 ++ l2 -> c <= x < c + 16 * k -> ~ covers bs' x) as Hcov.
  { intros c k x Hin Hx Hx'. apply Hc in Hx' as [Hx'|Hx'].
    - by apply (bk_free _ _ _ _ (Hlive _ Hin) x).
    - specialize (Hd2 _ Hin). cbn in Hd2. lia. }
  assert (forall c k x, (c, k) ∈ l1 ++ l2 -> c <= x < c + 16 * k -> ld8 (h_mem h') x = ld8 (h_mem h) x) as Hmem.
  { intros c k x Hin Hx. apply Hm; [by apply (Hcov c k)|]. pose proof (bk_lo _ _ _ _ (Hlive _ Hin)). cbn in *. unfold header. lia. }
  exists (2 * length bs)%nat, h'. split; [done|]. split; [done|].
  exists bs'. split; [by left|]. split; [pose proof (freep_pos _ _ Hl'); lia|]. split; [|done].
  apply Forall_forall. intros [c k] Hin. destruct (Hlive _ Hin) as [B1 B2 B3 B4 B5]. cbn in *.
  split; [|done|done|lia|intros x Hx; by apply (Hcov c k)].
  rewrite <- B1. apply size_ext. intros x Hx. apply (Hmem c k); [done|]. unfold header in Hx. lia.
Qed.

Lemma disjoint_in l b n c k : disjoint_blocks l -> (b, n) ∈ l -> (c, k) ∈ l ->
  (b, n) = (c, k) \/ b + 16 * n <= c \/ c + 16 * k <= b.
Proof.
  induction l as [|[a s] l IH]; intros Hd H1 H2; [by apply not_elem_of_nil in H1|].
  destruct Hd as [Hf Hd]. rewrite Forall_forall in Hf.
  apply elem_of_cons in H1, H2. destruct H1 as [H1|H1], H2 as [H2|H2]; simplify_eq; [by left| | |by apply IH].
  - right. apply (Hf _ H2).
  - right. specialize (Hf _ H1). cbn in Hf. lia.
Qed.

Lemma write_program h live b n x v : program_ok h live -> (b, n) ∈ live -> b + 16 <= x < b + 16 * n ->
  program_ok (mkheap (st8 (h_mem h) x v) (h_freep h) (h_brk h)) live.
Proof.
  intros (bs & Hok & Hz & Hlive & Hd) Hin Hx. pose proof Hlive as Hl'. rewrite Forall_forall in Hl'.
  assert (forall a, ~ header a x -> forall y, header a y -> ld8 (st8 (h_mem h) x v) y = ld8 (h_mem h) y) as Hout.
  { intros a Ha y Hy. rewrite ld8_st8. case_decide; [by subst|done]. }
  destruct Hok as [Hl|(H0 & _)]; [|rewrite (Hz H0) in Hin; by apply not_elem_of_nil in Hin].
  exists bs. split; [left|split; [done|split; [|done]]].
  - destruct Hl as [F1 F2 F3 F4 F5 F6] eqn:E. split; cbn [h_mem h_brk h_freep]; [done| |done|done|done|done].
    apply (seg_ext (h_mem h)); [|done]. intros a s y Ha Hy. apply (Hout a); [|done].
    pose proof (block_apart _ _ _ _ _ _ Hl (Hl' _ Hin) Ha). cbn in *. unfold header. lia.
  - apply Forall_forall. intros [c k] Hc. destruct (Hl' _ Hc) as [B1 B2 B3 B4 B5].
    split; cbn [h_mem h_brk fst snd] in *; [|done|done|done|done].
    rewrite <- B1. apply size_ext. intros y Hy. apply (Hout c); [|done].
    unfold header. destruct (disjoint_in _ _ _ _ _ Hd Hin Hc) as [[= -> ->]|?]; lia.
Qed.

Lemma program_invariant h live : 0 < base -> program h live -> program_ok h live.
Proof.
  intros Hbase. induction 1 as [m brk Hbrk|h live fuel nbytes r h' _ IH Hnb E|h l1 b n l2 fuel h' _ IH E|h live b n x v _ IH Hin Hx].
  - exists [(base, 0)]. split; [by right|]. by split.
  - destruct (malloc_program h live nbytes IH Hnb) as (fuel' & r' & h'' & E' & _ & Hok & _).
    apply (malloc_mono _ (fuel + fuel')) in E, E'; [|lia|lia]. rewrite E' in E. by injection E as -> ->.
  - destruct (free_program _ _ _ _ _ IH) as (fuel' & h'' & E' & _ & Hok).
    apply (free_mono _ (fuel + fuel')) in E, E'; [|lia|lia]. rewrite E' in E. by injection E as ->.
  - by apply (write_program h live b n).
Qed.

End Spec.

(** ** A program with two blocks *)

#[local] Instance demo_heap : UserHeap := {| base := 4096; grants brk n := brk + n <? 2 ^ 27 |}.

Definition demo_start : heap := mkheap ∅ 0 16384.
Definition demo_run (h : heap) (l : list Z) : heap :=
  foldl (fun h n => match malloc 20 n h with Some (_, h) => h | None => h end) h l.

Lemma demo_first : malloc 20 10 demo_start = Some (16384 + 65504 + 16, demo_run demo_start [10]).
Proof. vm_compute. reflexivity. Qed.

Lemma demo_second : malloc 20 5000 (demo_run demo_start [10]) = Some (16384 + 60480 + 16, demo_run demo_start [10; 5000]).
Proof. vm_compute. reflexivity. Qed.

Lemma demo_program : program (demo_run demo_start [10; 5000]) [(76864, 314); (81888, 2)].
Proof.
  apply (p_malloc (demo_run demo_start [10]) [(81888, 2)] 20 5000 (76864 + 16)); [|lia|apply demo_second].
  apply (p_malloc demo_start [] 20 10 (81888 + 16)); [|lia|apply demo_first].
  apply p_start. cbn. lia.
Qed.

