(* ===== verification/UProg.v ===== *)
(** User programs as interactions with the kernel: a program either ends or makes a
    system call and goes on with its answer. user/printf.c and gets() of user/ulib.c
    are written over it; the programs of user/ are in UPrograms, UPwd, UShmem and Sh.

    A call's strings and buffers are the bytes they hold. An answer is the returned
    number with the bytes or numbers the kernel stored for it. *)
From S2P Require Import Prelude Riscv Machine Console.

(** The calls of the shared pages. *)
Inductive shcall : Type :=
| Sh_state (page : Z)
| Sh_count (page : Z)
| Sh_set_writable (page : Z)
| Sh_set_unwritable (page : Z)
| Sh_set_init_int (page index value : Z)
| Sh_write_int (page index value : Z)
| Sh_read_int (page index : Z)
| Sh_acquire_access (page : Z)
| Sh_release_access (page : Z).

Inductive call : Type :=
| Cfork | Cwait | Cpipe | Copendfd | Cis_top_parent_process
| Cread (fd n : Z)
| Cwrite (fd : Z) (bs : list Z)
| Cclose (fd : Z)
| Cdup (fd : Z)
| Ckill (pid : Z)
| Csleep (n : Z)
| Cfstat (fd : Z)
| Cexec (path : list Z) (argv : list (list Z))
| Copen (path : list Z) (omode : Z)
| Cmknod (path : list Z) (major minor : Z)
| Cunlink (path : list Z)
| Clink (old new : list Z)
| Cmkdir (path : list Z)
| Cchdir (path : list Z)
| Cshmem (c : shcall).

Definition answer : Type := Z * list Z.

(** [UExit] is exit(); [UStuck] stands for the end of the model's fuel and for an access
    outside of an array. *)
Inductive uprog (A : Type) : Type :=
| URet (a : A)
| UExit (status : Z)
| UStuck
| USys (c : call) (k : answer -> uprog A).
Arguments URet {A} a.
Arguments UExit {A} status.
Arguments UStuck {A}.
Arguments USys {A} c k.

Fixpoint ubind {A B} (p : uprog A) (f : A -> uprog B) : uprog B :=
  match p with
  | URet a => f a
  | UExit st => UExit st
  | UStuck => UStuck
  | USys c k => USys c (fun r => ubind (k r) f)
  end.

Declare Scope uprog_scope.
Delimit Scope uprog_scope with uprog.
Notation "x <- p ;; q" := (ubind p (fun x => q))
  (at level 100, p at next level, q at level 200, right associativity) : uprog_scope.
Notation "p ;; q" := (ubind p (fun _ => q))
  (at level 100, q at level 200, right associativity) : uprog_scope.
Open Scope uprog_scope.

(** A call and its answer; the returned number alone. *)
Definition sys (c : call) : uprog answer := USys c URet.
Definition sysn (c : call) : uprog Z := USys c (fun r => URet (fst r)).

(** ** user/printf.c *)

Module Uprintf.

Definition putc (fd c : Z) : uprog unit := sys (Cwrite fd [u8 c]) ;; URet tt.

Fixpoint puts (fd : Z) (l : list Z) : uprog unit :=
  match l with
  | [] => URet tt
  | c :: l => putc fd c ;; puts fd l
  end.

(** digits[d], in capitals. *)
Definition udigit (d : Z) : Z := if d <? 10 then 48 + d else 65 + (d - 10).

(** The do-while loop that fills buf[16]. *)
Fixpoint udigits (k : nat) (x b : Z) : list Z :=
  match k with
  | O => []
  | S k => udigit (x `mod` b) :: if x / b =? 0 then [] else udigits k (x / b) b
  end.

Definition uprintint (fd xx b : Z) (sgn : bool) : uprog unit :=
  let neg := sgn && (xx <? 0) in
  let x := u32 (if neg then - xx else xx) in
  let buf := udigits 16 x b ++ (if neg then [45] else []) in
  puts fd (rev buf).

Fixpoint uptr_digits (k : nat) (x : Z) : list Z :=
  match k with
  | O => []
  | S k => udigit (Z.shiftr x 60) :: uptr_digits k (u64 (Z.shiftl x 4))
  end.

Definition uprintptr (fd x : Z) : uprog unit := puts fd (48 :: 120 :: uptr_digits 16 x).

(** An argument: a number, or a string or a null pointer. *)
Inductive uarg := U_num (n : Z) | U_str (s : list Z) | U_null.

Definition num_arg (ap : list uarg) : Z := match ap with U_num n :: _ => n | _ => 0 end.

(** The character after a %, with the remaining arguments. *)
Definition conversion (fd c : Z) (ap : list uarg) : uprog (list uarg) :=
  if c =? 100 then uprintint fd (s32 (num_arg ap)) 10 true ;; URet (tl ap) else
  if c =? 108 then uprintint fd (s32 (num_arg ap)) 10 false ;; URet (tl ap) else
  if c =? 120 then uprintint fd (s32 (num_arg ap)) 16 false ;; URet (tl ap) else
  if c =? 112 then uprintptr fd (num_arg ap) ;; URet (tl ap) else
  if c =? 115 then
    puts fd (match ap with U_str s :: _ => s | _ => bytes "(null)" end) ;; URet (tl ap) else
  if c =? 99 then putc fd (num_arg ap) ;; URet (tl ap) else
  if c =? 37 then putc fd c ;; URet ap else
  putc fd 37 ;; putc fd c ;; URet ap.

Fixpoint vprintf_loop (fd : Z) (percent : bool) (fmt : list Z) (ap : list uarg) : uprog unit :=
  match fmt with
  | [] => URet tt
  | c :: fmt =>
      if percent then ap <- conversion fd c ap ;; vprintf_loop fd false fmt ap
      else if c =? 37 then vprintf_loop fd true fmt ap
      else putc fd c ;; vprintf_loop fd false fmt ap
  end.

Definition vprintf (fd : Z) (fmt : list Z) (ap : list uarg) : uprog unit := vprintf_loop fd false fmt ap.

(** A format string that ends in a newline. *)
Definition line (s : string) : list Z := bytes s ++ [10].

Definition fprintf (fd : Z) (fmt : list Z) (ap : list uarg) : uprog unit := vprintf fd fmt ap.
Definition printf (fmt : list Z) (ap : list uarg) : uprog unit := vprintf 1 fmt ap.
End Uprintf.

(** ** Programs that only print *)

(** Writes to [fd], then returns with [Q]. *)
Inductive prints {A} (fd : Z) (Q : uprog A -> Prop) : uprog A -> Prop :=
| pr_end p : Q p -> prints fd Q p
| pr_write bs k : (forall r, prints fd Q (k r)) -> prints fd Q (USys (Cwrite fd bs) k).

Definition returns {A} (p : uprog A) : Prop := exists a, p = URet a.

Lemma prints_bind {A B} fd (p : uprog A) (f : A -> uprog B) Q :
  prints fd returns p -> (forall a, prints fd Q (f a)) -> prints fd Q (ubind p f).
Proof.
  intros Hp Hf. induction Hp as [p [a ->]|bs k _ IH]; [apply Hf|]. cbn. constructor 2. intros r. apply IH.
Qed.

Lemma prints_ret {A} fd (a : A) : prints fd returns (URet a).
Proof. constructor 1. by exists a. Qed.
#[global] Hint Resolve prints_ret : core.

Lemma putc_prints fd c : prints fd returns (Uprintf.putc fd c).
Proof. constructor 2. intros r. cbn. auto. Qed.

Lemma puts_prints fd l : prints fd returns (Uprintf.puts fd l).
Proof. induction l as [|c l IH]; cbn [Uprintf.puts]; [auto|]. apply (prints_bind fd (Uprintf.putc fd c)); [apply putc_prints|done]. Qed.
#[global] Hint Resolve putc_prints puts_prints : core.

Lemma conversion_prints fd c ap : prints fd returns (Uprintf.conversion fd c ap).
Proof.
  unfold Uprintf.conversion. repeat case_match; unfold Uprintf.uprintint, Uprintf.uprintptr;
    repeat (apply prints_bind; [auto|intros _]); auto.
Qed.

Lemma fprintf_prints fd fmt ap : prints fd returns (Uprintf.fprintf fd fmt ap).
Proof.
  unfold Uprintf.fprintf, Uprintf.vprintf. generalize false. revert ap.
  induction fmt as [|c fmt IH]; intros ap b; cbn [Uprintf.vprintf_loop]; [auto|]. repeat case_match; [|auto|].
  - apply prints_bind; [apply conversion_prints|auto].
  - apply (prints_bind fd (Uprintf.putc fd c)); [auto|auto].
Qed.

(** ** user/ulib.c: gets() *)

(** At most [n] more bytes at [buf] + [i]; the result is the memory and i. *)
Fixpoint gets_loop (n : nat) (buf i : Z) (m : memory) : uprog (memory * Z) :=
  match n with
  | O => URet (m, i)
  | S n =>
      r <- sys (Cread 0 1) ;;
      let '(cc, bs) := r in
      if cc <? 1 then URet (m, i) else
      let c := u8 (hd 0 bs) in
      let m := st8 m (buf + i) c in
      if (c =? 10) || (c =? 13) then URet (m, i + 1) else gets_loop n buf (i + 1) m
  end.

Definition ugets (buf max : Z) (m : memory) : uprog memory :=
  r <- gets_loop (Z.to_nat (max - 1)) buf 0 m ;;
  let '(m, i) := r in
  URet (st8 m (buf + i) 0).
