(* ===== verification/UPrograms.v ===== *)
(** The small programs of user/: cat, echo, echoecho, kill, ln, mkdir, rm, wc,
    zombie, init, is_top, call_opendfd, ls and grep, each as a user program of its
    argv.

    [interp] runs a program against a handler that answers its system calls. On a
    handler that delivers a file in chunks, cat copies the file, wc counts it and
    grep prints the matching lines, however it is cut. *)
From S2P Require Import Prelude Riscv Machine Console UserLib UProg.
Import Ulib Grep Uprintf.
Local Open Scope uprog_scope.

(** for(i = 1; i < argc; i++): the body on each argument. *)
Fixpoint each {A} (l : list A) (body : A -> uprog unit) : uprog unit :=
  match l with
  | [] => URet tt
  | a :: l => body a ;; each l body
  end.

(** ** user/cat.c, user/echoecho.c *)

(** The bytes a read() stored in a buffer of [n]. *)
Definition got (r : answer) : list Z := take (Z.to_nat (fst r)) (snd r).

Fixpoint cat (fuel : nat) (fd : Z) : uprog unit :=
  match fuel with
  | O => UStuck
  | S fuel =>
      r <- sys (Cread fd 512) ;;
      let n := fst r in
      if n >? 0 then
        w <- sysn (Cwrite 1 (got r)) ;;
        if negb (w =? n) then fprintf 2 (line "cat: write error") [] ;; UExit 1 else cat fuel fd
      else if n <? 0 then fprintf 2 (line "cat: read error") [] ;; UExit 1
      else URet tt
  end.

Definition cat_main (fuel : nat) (argv : list (list Z)) : uprog unit :=
  if (length argv <=? 1)%nat then cat fuel 0 ;; UExit 0 else
  each (tl argv) (fun a =>
    fd <- sysn (Copen a 0) ;;
    if fd <? 0 then fprintf 2 (line "cat: cannot open %s") [U_str a] ;; UExit 1 else
    cat fuel fd ;;
    sys (Cclose fd) ;; URet tt) ;;
  UExit 0.

Fixpoint echoecho_main (fuel : nat) : uprog unit :=
  match fuel with
  | O => UStuck
  | S fuel =>
      r <- sys (Cread 0 512) ;;
      if fst r >? 0 then sys (Cwrite 1 (got r)) ;; echoecho_main fuel else UExit 0
  end.

(** ** user/echo.c, kill.c, ln.c, mkdir.c, rm.c, zombie.c *)

Fixpoint echo_loop (args : list (list Z)) : uprog unit :=
  match args with
  | [] => URet tt
  | a :: args =>
      sys (Cwrite 1 a) ;;
      sys (Cwrite 1 (match args with [] => [10] | _ => [32] end)) ;;
      echo_loop args
  end.

Definition echo_main (argv : list (list Z)) : uprog unit := echo_loop (tl argv) ;; UExit 0.

Definition kill_main (argv : list (list Z)) : uprog unit :=
  if (length argv <? 2)%nat then fprintf 2 (line "usage: kill pid...") [] ;; UExit 1 else
  each (tl argv) (fun a => sys (Ckill (atoi a)) ;; URet tt) ;;
  UExit 0.

Definition ln_main (argv : list (list Z)) : uprog unit :=
  match argv with
  | [_; old; new] =>
      r <- sysn (Clink old new) ;;
      (if r <? 0 then fprintf 2 (line "link %s %s: failed") [U_str old; U_str new] else URet tt) ;;
      UExit 0
  | _ => fprintf 2 (line "Usage: ln old new") [] ;; UExit 1
  end.

Fixpoint mkdir_loop (args : list (list Z)) : uprog unit :=
  match args with
  | [] => URet tt
  | a :: args =>
      r <- sysn (Cmkdir a) ;;
      if r <? 0 then fprintf 2 (line "mkdir: %s failed to create") [U_str a] else mkdir_loop args
  end.

Definition mkdir_main (argv : list (list Z)) : uprog unit :=
  if (length argv <? 2)%nat then fprintf 2 (line "Usage: mkdir files...") [] ;; UExit 1 else
  mkdir_loop (tl argv) ;;
  UExit 0.

Fixpoint rm_loop (args : list (list Z)) : uprog unit :=
  match args with
  | [] => URet tt
  | a :: args =>
      r <- sysn (Cunlink a) ;;
      if r <? 0 then fprintf 2 (line "rm: %s failed to delete") [U_str a] else rm_loop args
  end.

Definition rm_main (argv : list (list Z)) : uprog unit :=
  if (length argv <? 2)%nat then fprintf 2 (line "Usage: rm files...") [] ;; UExit 1 else
  rm_loop (tl argv) ;;
  UExit 0.

Definition zombie_main : uprog unit :=
  pid <- sysn Cfork ;;
  (if pid >? 0 then sys (Csleep 5) ;; URet tt else URet tt) ;;
  UExit 0.

(** ** user/wc.c *)

(** Lines, words, characters, and whether inside a word; all ints. *)
Record counts := mkcounts { wc_l : Z; wc_w : Z; wc_c : Z; wc_in : bool }.

Abbreviation wc_space := ([32; 13; 9; 10; 11]) (only parsing).

Definition wc_byte (x : counts) (b : Z) : counts :=
  let c := s32 (wc_c x + 1) in
  let l := if b =? 10 then s32 (wc_l x + 1) else wc_l x in
  match strchr wc_space b with
  | Some _ => mkcounts l (wc_w x) c false
  | None => if wc_in x then mkcounts l (wc_w x) c true else mkcounts l (s32 (wc_w x + 1)) c true
  end.

Fixpoint wc_loop (fuel : nat) (fd : Z) (name : list Z) (x : counts) : uprog unit :=
  match fuel with
  | O => UStuck
  | S fuel =>
      r <- sys (Cread fd 512) ;;
      let n := fst r in
      if n >? 0 then wc_loop fuel fd name (foldl wc_byte x (got r))
      else if n <? 0 then printf (line "wc: read error") [] ;; UExit 1
      else printf (line "%d %d %d %s") [U_num (wc_l x); U_num (wc_w x); U_num (wc_c x); U_str name]
  end.

Definition wc (fuel : nat) (fd : Z) (name : list Z) : uprog unit := wc_loop fuel fd name (mkcounts 0 0 0 false).

Definition wc_main (fuel : nat) (argv : list (list Z)) : uprog unit :=
  if (length argv <=? 1)%nat then wc fuel 0 [] ;; UExit 0 else
  each (tl argv) (fun a =>
    fd <- sysn (Copen a 0) ;;
    if fd <? 0 then printf (line "wc: cannot open %s") [U_str a] ;; UExit 1 else
    wc fuel fd a ;;
    sys (Cclose fd) ;; URet tt) ;;
  UExit 0.

(** ** user/init.c *)

Fixpoint init_wait (fuel : nat) (pid : Z) : uprog unit :=
  match fuel with
  | O => UStuck
  | S fuel =>
      wpid <- sysn Cwait ;;
      if wpid =? pid then URet tt else
      if wpid <? 0 then printf (line "init: wait returned an error") [] ;; UExit 1 else
      init_wait fuel pid
  end.

Fixpoint init_loop (fuel : nat) : uprog unit :=
  match fuel with
  | O => UStuck
  | S fuel =>
      printf (line "init: starting sh") [] ;;
      pid <- sysn Cfork ;;
      if pid <? 0 then printf (line "init: fork failed") [] ;; UExit 1 else
      if pid =? 0 then
        sys (Cexec (bytes "sh") [bytes "sh"]) ;;
        printf (line "init: exec sh failed") [] ;;
        UExit 1
      else
      init_wait fuel pid ;;
      init_loop fuel
  end.

Definition init_main (fuel : nat) : uprog unit :=
  fd <- sysn (Copen (bytes "console") O_RDWR) ;;
  (if fd <? 0 then sys (Cmknod (bytes "console") CONSOLE 0) ;; sys (Copen (bytes "console") O_RDWR) ;; URet tt
   else URet tt) ;;
  sys (Cdup 0) ;;
  sys (Cdup 0) ;;
  init_loop fuel.

(** ** user/is_top.c, user/call_opendfd.c *)

Definition print_top : uprog unit :=
  b <- sysn Cis_top_parent_process ;;
  if b =? 0 then printf (line "this process is not top parent process") []
  else printf (line "this process is top parent process") [].

(** The children: [n] is 6 - i. *)
Fixpoint is_top_loop (n : nat) : uprog unit :=
  match n with
  | O => URet tt
  | S n' =>
      pid <- sysn Cfork ;;
      if negb (pid =? 0) then URet tt else
      printf (line "Child process%d") [U_num (6 - Z.of_nat n)] ;;
      print_top ;;
      is_top_loop n'
  end.

Definition is_top_main : uprog unit :=
  sys Cis_top_parent_process ;;
  pid <- sysn Cfork ;;
  if pid =? 0 then is_top_loop 6 ;; UExit 0 else
  sys (Csleep 10) ;;
  printf (line "Parent process") [] ;;
  print_top ;;
  UExit 0.

(** for each bit of the uint16, from the highest on *)
Fixpoint printb_loop (n : nat) (v mask : Z) : uprog unit :=
  match n with
  | O => URet tt
  | S n =>
      printf (bytes "%c") [U_num (if Z.land mask v =? 0 then 48 else 49)] ;;
      printb_loop n v (Z.shiftr mask 1)
  end.

Definition printb (v : Z) : uprog unit := printb_loop 16 (u16 v) (Z.shiftl 1 15) ;; printf [10] [].

Definition call_opendfd_main : uprog unit :=
  v <- sysn Copendfd ;;
  printb v ;;
  sys Cpipe ;;
  v <- sysn Copendfd ;;
  printb v ;;
  UExit 0.

(** ** user/ls.c *)

(** The string at the start of a buffer. *)
Fixpoint upto_nul (l : list Z) : list Z :=
  match l with
  | [] => []
  | c :: l => if c =? 0 then [] else c :: upto_nul l
  end.

(** A little-endian field of a struct. *)
Fixpoint le_val (l : list Z) : Z :=
  match l with
  | [] => 0
  | b :: l => b + 256 * le_val l
  end.

Definition field (off n : nat) (l : list Z) : Z := le_val (take n (drop off l)).

(** What follows the last slash. *)
Fixpoint after_slash (p : list Z) : list Z :=
  match p with
  | [] => []
  | c :: p' => if existsb (fun c => c =? 47) p' then after_slash p' else if c =? 47 then p' else p
  end.

Definition fmtname (path : list Z) : list Z :=
  let p := after_slash path in
  if (DIRSIZ <=? length p)%nat then p else p ++ replicate (DIRSIZ - length p) 32.

(** struct stat: dev, ino, type, nlink, size *)
Abbreviation st_ino st := (field 4 4 st) (only parsing).
Abbreviation st_type st := (s16 (field 8 2 st)) (only parsing).
Abbreviation st_size st := (field 16 8 st) (only parsing).

(** stat() of user/ulib.c *)
Definition ustat (n : list Z) : uprog answer :=
  fd <- sysn (Copen n O_RDONLY) ;;
  if fd <? 0 then URet (-1, []) else
  r <- sys (Cfstat fd) ;;
  sys (Cclose fd) ;;
  URet r.

Fixpoint ls_entries (fuel : nat) (fd : Z) (path : list Z) : uprog unit :=
  match fuel with
  | O => UStuck
  | S fuel =>
      r <- sys (Cread fd 16) ;;
      if negb (fst r =? 16) then URet tt else
      let de := got r in
      if field 0 2 de =? 0 then ls_entries fuel fd path else
      let buf := upto_nul (path ++ 47 :: drop 2 de) in
      s <- ustat buf ;;
      (if fst s <? 0 then printf (line "ls: cannot stat %s") [U_str buf] else
       printf (line "%s %d %d %d")
         [U_str (fmtname buf); U_num (st_type (snd s)); U_num (st_ino (snd s)); U_num (st_size (snd s))]) ;;
      ls_entries fuel fd path
  end.

Definition ls (fuel : nat) (path : list Z) : uprog unit :=
  fd <- sysn (Copen path 0) ;;
  if fd <? 0 then fprintf 2 (line "ls: cannot open %s") [U_str path] else
  s <- sys (Cfstat fd) ;;
  if fst s <? 0 then
    fprintf 2 (line "ls: cannot stat %s") [U_str path] ;; sys (Cclose fd) ;; URet tt
  else
  let t := st_type (snd s) in
  (if (t =? T_DEVICE) || (t =? T_FILE) then
     printf (line "%s %d %d %l")
       [U_str (fmtname path); U_num t; U_num (st_ino (snd s)); U_num (st_size (snd s))]
   else if t =? T_DIR then
     if Z.of_nat (length path + 1 + DIRSIZ + 1) >? 512 then printf (line "ls: path too long") []
     else ls_entries fuel fd path
   else URet tt) ;;
  sys (Cclose fd) ;; URet tt.

Definition ls_main (fuel : nat) (argv : list (list Z)) : uprog unit :=
  if (length argv <? 2)%nat then ls fuel (bytes ".") ;; UExit 0 else
  each (tl argv) (ls fuel) ;;
  UExit 0.

(** ** user/grep.c *)

(** The inner loop of grep() on the string [p]; the result is what follows the last
    newline. *)
Fixpoint grep_lines (k : nat) (pattern p : list Z) : uprog (list Z) :=
  match k with
  | O => URet p
  | S k =>
      match strchr p newline with
      | None => URet p
      | Some q =>
          let line := take (length p - length q) p in
          (if match_ pattern line then sys (Cwrite 1 (line ++ [newline])) ;; URet tt else URet tt) ;;
          grep_lines k pattern (tl q)
      end
  end.

(** [left] are the m bytes at the start of buf. *)
Fixpoint ugrep (fuel : nat) (pattern : list Z) (fd : Z) (left : list Z) : uprog unit :=
  match fuel with
  | O => UStuck
  | S fuel =>
      r <- sys (Cread fd (1024 - Z.of_nat (length left) - 1)) ;;
      if fst r >? 0 then
        let p := left ++ got r in
        left <- grep_lines (length p) pattern p ;;
        ugrep fuel pattern fd left
      else URet tt
  end.

Definition grep_main (fuel : nat) (argv : list (list Z)) : uprog unit :=
  match argv with
  | _ :: pattern :: files =>
      match files with
      | [] => ugrep fuel pattern 0 [] ;; UExit 0
      | _ =>
          each files (fun a =>
            fd <- sysn (Copen a 0) ;;
            if fd <? 0 then printf (line "grep: cannot open %s") [U_str a] ;; UExit 1 else
            ugrep fuel pattern fd [] ;;
            sys (Cclose fd) ;; URet tt) ;;
          UExit 0
      end
  | _ => fprintf 2 (line "usage: grep pattern [file ...]") [] ;; UExit 1
  end.

(** ** Programs and their input *)

(** Runs a program against a handler of its calls: the result, if it returns or
    exits, and the handler's last state. *)
Fixpoint interp {S A} (h : call -> S -> answer * S) (p : uprog A) (s : S) : option (A + Z) * S :=
  match p with
  | URet a => (Some (inl a), s)
  | UExit st => (Some (inr st), s)
  | UStuck => (None, s)
  | USys c k => let '(r, s) := h c s in interp h (k r) s
  end.

(** A file that comes in chunks, and what has been written to standard output:
    read() takes a chunk, which is empty at the end of the file. *)
Definition io : Type := list (list Z) * list Z.

Definition io_handler (c : call) (s : io) : answer * io :=
  match c with
  | Cread _ _ =>
      match fst s with
      | [] => ((0, []), s)
      | b :: l => ((Z.of_nat (length b), b), (l, snd s))
      end
  | Cwrite fd bs => ((Z.of_nat (length bs), []), (fst s, if fd =? 1 then snd s ++ bs else snd s))
  | _ => ((-1, []), s)
  end.

Lemma interp_bind {S A B} h (p : uprog A) (f : A -> uprog B) (s : S) :
  interp h (ubind p f) s =
  match interp h p s with
  | (Some (inl a), s) => interp h (f a) s
  | (Some (inr st), s) => (Some (inr st), s)
  | (None, s) => (None, s)
  end.
Proof. revert s. induction p as [a|st| |c k IH]; intros s; [done|done|done|]. cbn. by destruct (h c s). Qed.

(** Chunks as read() gives them to a buffer of 512 bytes. *)
Definition chunks_ok (l : list (list Z)) : Prop := Forall (fun b => (0 < length b <= 512)%nat) l.

Lemma cat_copies fuel fd l out : chunks_ok l -> (length l < fuel)%nat ->
  interp io_handler (cat fuel fd) (l, out) = (Some (inl tt), ([], out ++ concat l)).
Proof.
  intros Hl. revert fuel out. induction Hl as [|b l Hb _ IH]; intros fuel out Hf; (destruct fuel as [|fuel]; [cbn in Hf; lia|]).
  - cbn. by rewrite app_nil_r.
  - cbn [cat sys ubind interp io_handler fst snd]. replace (Z.of_nat (length b) >? 0) with true by lia.
    cbn [sysn ubind interp io_handler fst snd Z.eqb Pos.eqb]. unfold got. cbn [fst snd].
    rewrite Nat2Z.id, take_ge by lia. rewrite Z.eqb_refl. cbn [negb]. rewrite IH by (cbn in Hf; lia).
    cbn [concat]. by rewrite app_assoc.
Qed.

(** The words of a text: the places where one starts. *)
Fixpoint starts (inword : bool) (l : list Z) : Z :=
  match l with
  | [] => 0
  | b :: l =>
      if bool_decide (b ∈ wc_space) then starts false l
      else (if inword then 0 else 1) + starts true l
  end.

Definition newlines (l : list Z) : Z := Z.of_nat (length (filter (fun b => b = 10) l)).

Lemma wc_space_spec b : (match strchr wc_space b with Some _ => true | None => false end) = bool_decide (b ∈ wc_space).
Proof.
  assert (forall l, Forall (fun d => d <> 0) l ->
    (match strchr l b with Some _ => true | None => false end) = bool_decide (b ∈ l)) as H.
  { induction 1 as [|d l Hd _ IH]; cbn [strchr]; [done|]. rewrite (proj2 (Z.eqb_neq d 0)) by done.
    destruct (Z.eqb_spec d b) as [->|Hne]; [rewrite bool_decide_true; [done|left]|]. rewrite IH. apply bool_decide_ext.
    rewrite elem_of_cons. naive_solver. }
  apply H. repeat constructor; lia.
Qed.

Lemma newlines_cons b l : newlines (b :: l) = (if b =? 10 then 1 else 0) + newlines l.
Proof.
  unfold newlines. rewrite filter_cons. case_decide as E.
  - rewrite (proj2 (Z.eqb_eq _ _) E). cbn [length]. lia.
  - by rewrite (proj2 (Z.eqb_neq _ _) E).
Qed.

Lemma starts_range i l : 0 <= starts i l <= Z.of_nat (length l).
Proof. revert i. induction l as [|b l IH]; intros i; cbn; [done|]. specialize (IH false) as H1. specialize (IH true) as H2. repeat case_match; lia. Qed.

Lemma wc_bytes text x :
  0 <= wc_l x <= wc_c x -> 0 <= wc_w x <= wc_c x -> wc_c x + Z.of_nat (length text) < 2 ^ 31 ->
  exists i, foldl wc_byte x text =
    mkcounts (wc_l x + newlines text) (wc_w x + starts (wc_in x) text) (wc_c x + Z.of_nat (length text)) i.
Proof.
  revert x. induction text as [|b text IH]; intros x Hl Hw Hc.
  - exists (wc_in x). destruct x. cbn. f_equal; unfold newlines; cbn; lia.
  - cbn [foldl]. cbn [length] in Hc. rewrite newlines_cons. cbn [starts]. rewrite <- wc_space_spec.
    set (x' := wc_byte x b). assert (wc_c x' = wc_c x + 1 /\ wc_l x' = wc_l x + (if b =? 10 then 1 else 0) /\
      match strchr wc_space b with
      | Some _ => wc_w x' = wc_w x /\ wc_in x' = false
      | None => wc_w x' = wc_w x + (if wc_in x then 0 else 1) /\ wc_in x' = true
      end) as (E1 & E2 & E3).
    { unfold x', wc_byte. repeat case_match; cbn; rewrite ?s32_small by lia; split_and!; lia || done. }
    destruct (IH x') as [i ->].
    { rewrite E1, E2. destruct (b =? 10); lia. }
    { rewrite E1. destruct (strchr wc_space b); [lia|]. destruct (wc_in x); lia. }
    { rewrite E1. lia. }
    exists i. rewrite E1, E2. destruct (strchr wc_space b); destruct E3 as [-> ->], (b =? 10), (wc_in x); f_equal; cbn [length]; lia.
Qed.

Lemma udigits_decimal k x : 0 <= x -> udigits k x 10 = digits_rev k x 10.
Proof.
  revert x. induction k as [|k IH]; intros x Hx; [done|]. cbn [udigits digits_rev].
  pose proof (Z.mod_pos_bound x 10). pose proof (Z.div_pos x 10). f_equal.
  - unfold udigit, Console.digit. by rewrite (proj2 (Z.ltb_lt _ _)) by lia.
  - rewrite IH by lia. done.
Qed.

(** The digits printf() writes for %d. *)
Definition decimal (x : Z) : list Z := rev (udigits 16 x 10).

Lemma decimal_value x : 0 <= x < 2 ^ 31 -> value (decimal x) = x /\ Forall (fun c => 48 <= c <= 57) (decimal x).
Proof.
  intros Hx. unfold decimal. rewrite udigits_decimal by lia.
  destruct (digits_value 16 x ltac:(lia)) as (H1 & H2 & _). split; [done|]. by apply Forall_rev.
Qed.

Lemma interp_puts l ins out : Forall (fun c => 0 <= c < 256) l ->
  interp io_handler (puts 1 l) (ins, out) = (Some (inl tt), (ins, out ++ l)).
Proof.
  intros Hl. revert out. induction Hl as [|c l Hc _ IH]; intros out; [cbn; by rewrite app_nil_r|].
  cbn [puts putc sys ubind interp io_handler fst snd Z.eqb Pos.eqb]. rewrite IH.
  unfold u8. rewrite Z.mod_small by done. by rewrite <- app_assoc.
Qed.

Lemma interp_decimal x ins out : 0 <= x < 2 ^ 31 ->
  interp io_handler (uprintint 1 (s32 x) 10 true) (ins, out) = (Some (inl tt), (ins, out ++ decimal x)).
Proof.
  intros Hx. unfold uprintint. rewrite s32_small by lia. rewrite (proj2 (Z.ltb_ge x 0)) by lia. cbn [andb].
  rewrite app_nil_r, u32_small by lia. apply interp_puts.
  destruct (decimal_value x Hx) as [_ H]. apply (Forall_impl _ _ _ H). intros c. cbn. lia.
Qed.

Lemma interp_putc c ins out : 0 <= c < 256 ->
  interp io_handler (putc 1 c) (ins, out) = (Some (inl tt), (ins, out ++ [c])).
Proof. intros Hc. cbn. unfold u8. by rewrite Z.mod_small by done. Qed.

Lemma interp_seq {A} (p : uprog unit) (q : uprog A) (s s' : io) :
  interp io_handler p s = (Some (inl tt), s') -> interp io_handler (p ;; q) s = interp io_handler q s'.
Proof. intros E. by rewrite interp_bind, E. Qed.

Lemma interp_seq2 {A B} (p : uprog unit) (q : uprog A) (f : A -> uprog B) (s s' : io) :
  interp io_handler p s = (Some (inl tt), s') ->
  interp io_handler (ubind (p ;; q) f) s = interp io_handler (ubind q f) s'.
Proof. intros E. by rewrite !interp_bind, E. Qed.

Lemma wc_report a b c name ins out :
  0 <= a < 2 ^ 31 -> 0 <= b < 2 ^ 31 -> 0 <= c < 2 ^ 31 -> Forall (fun c => 0 <= c < 256) name ->
  interp io_handler (printf (line "%d %d %d %s") [U_num a; U_num b; U_num c; U_str name]) (ins, out) =
  (Some (inl tt), (ins, out ++ decimal a ++ [32] ++ decimal b ++ [32] ++ decimal c ++ [32] ++ name ++ [10])).
Proof.
  intros Ha Hb Hc Hn. unfold printf, vprintf.
  change (line "%d %d %d %s") with [37; 100; 32; 37; 100; 32; 37; 100; 32; 37; 115; 10].
  cbn [vprintf_loop Z.eqb Pos.eqb conversion tl num_arg]. unfold conversion. cbn [Z.eqb Pos.eqb tl num_arg].
  rewrite (interp_seq2 _ _ _ _ _ (interp_decimal a _ _ Ha)). cbn [ubind tl].
  rewrite (interp_seq _ _ _ _ (interp_putc 32 _ _ ltac:(lia))).
  rewrite (interp_seq2 _ _ _ _ _ (interp_decimal b _ _ Hb)). cbn [ubind tl].
  rewrite (interp_seq _ _ _ _ (interp_putc 32 _ _ ltac:(lia))).
  rewrite (interp_seq2 _ _ _ _ _ (interp_decimal c _ _ Hc)). cbn [ubind tl].
  rewrite (interp_seq _ _ _ _ (interp_putc 32 _ _ ltac:(lia))).
  rewrite (interp_seq2 _ _ _ _ _ (interp_puts name _ _ Hn)). cbn [ubind].
  rewrite (interp_seq _ _ _ _ (interp_putc 10 _ _ ltac:(lia))). cbn [interp].
  by rewrite <- !app_assoc.
Qed.

Lemma wc_loop_counts l fuel fd name x out : chunks_ok l -> (length l < fuel)%nat ->
  interp io_handler (wc_loop fuel fd name x) (l, out) =
  let y := foldl wc_byte x (concat l) in
  interp io_handler (printf (line "%d %d %d %s") [U_num (wc_l y); U_num (wc_w y); U_num (wc_c y); U_str name]) ([], out).
Proof.
  intros Hl. revert fuel x. induction Hl as [|b l Hb _ IH]; intros fuel x Hf; (destruct fuel as [|fuel]; [cbn in Hf; lia|]); [done|].
  cbn [wc_loop sys ubind interp io_handler fst snd]. replace (Z.of_nat (length b) >? 0) with true by lia.
  unfold got. cbn [fst snd]. rewrite Nat2Z.id, take_ge by lia. rewrite IH by (cbn in Hf; lia).
  cbn [concat]. by rewrite foldl_app.
Qed.

(** C35: cat and wc on a file, however read() cuts it into chunks. cat writes the
    bytes of the file. wc writes the number of newlines, the number of words (places
    where a byte that is not white space follows white space or the start) and the
    number of bytes in decimal, and the name. *)
Theorem cat_wc_files fuel fd name l out
  (Hchunks : chunks_ok l) (Hname : Forall (fun c => 0 <= c < 256) name)
  (Hlen : Z.of_nat (length (concat l)) < 2 ^ 31) (Hfuel : (length l < fuel)%nat) :
  interp io_handler (cat fuel fd) (l, out) = (Some (inl tt), ([], out ++ concat l)) /\
  exists dl dw dc,
    interp io_handler (wc fuel fd name) (l, out) =
      (Some (inl tt), ([], out ++ dl ++ [32] ++ dw ++ [32] ++ dc ++ [32] ++ name ++ [10])) /\
    Forall (fun c => 48 <= c <= 57) (dl ++ dw ++ dc) /\
    value dl = newlines (concat l) /\ value dw = starts false (concat l) /\ value dc = Z.of_nat (length (concat l)).
Proof.
  split; [by apply cat_copies|]. unfold wc. rewrite wc_loop_counts by done.
  set (text := concat l) in *. destruct (wc_bytes text (mkcounts 0 0 0 false)) as [i ->]; [cbn; lia..|]. cbn [wc_l wc_w wc_c wc_in].
  pose proof (starts_range false text). assert (0 <= newlines text <= Z.of_nat (length text)).
  { unfold newlines. pose proof (length_filter (fun b => b = 10) text). lia. }
  exists (decimal (0 + newlines text)), (decimal (0 + starts false text)), (decimal (0 + Z.of_nat (length text))).
  rewrite wc_report by (done || lia). split; [done|].
  destruct (decimal_value (0 + newlines text) ltac:(lia)) as [E1 F1].
  destruct (decimal_value (0 + starts false text) ltac:(lia)) as [E2 F2].
  destruct (decimal_value (0 + Z.of_nat (length text)) ltac:(lia)) as [E3 F3].
  rewrite E1, E2, E3, !Forall_app. done.
Qed.

(** A file of three words on two lines, in two chunks that cut a word. *)
Lemma cat_wc_files_witness :
  exists dl dw dc,
    interp io_handler (wc 3 0 (bytes "f")) ([bytes "ab c"; bytes "d" ++ [10; 101; 10]], []) =
      (Some (inl tt), ([], dl ++ [32] ++ dw ++ [32] ++ dc ++ [32] ++ bytes "f" ++ [10])) /\
    value dl = 2 /\ value dw = 3 /\ value dc = 8.
Proof.
  destruct (cat_wc_files 3 0 (bytes "f") [bytes "ab c"; bytes "d" ++ [10; 101; 10]] []) as [_ (dl & dw & dc & H1 & _ & H2)].
  - repeat constructor; cbn; lia.
  - repeat constructor; cbn; lia.
  - cbn. lia.
  - cbn. lia.
  - exists dl, dw, dc. split; [exact H1|exact H2].
Defined.

(** ** grep *)

(** A file with [input] still to read, of which the successive calls of read() find
    the numbers of bytes in [reads] available, and the standard output. *)
Definition fileio : Type := list nat * list Z * list Z.

Definition file_handler (c : call) (s : fileio) : answer * fileio :=
  let '(reads, input, out) := s in
  match c with
  | Cread _ n =>
      match reads with
      | [] => ((0, []), s)
      | k :: reads =>
          let chunk := take (Nat.min k (Z.to_nat n)) input in
          ((Z.of_nat (length chunk), chunk), (reads, drop (Nat.min k (Z.to_nat n)) input, out))
      end
  | Cwrite fd bs => ((Z.of_nat (length bs), []), (reads, input, if fd =? 1 then out ++ bs else out))
  | _ => ((-1, []), s)
  end.

Lemma grep_lines_run k : forall pattern p reads input out,
  interp file_handler (grep_lines k pattern p) (reads, input, out) =
  let '(w, rest) := filter_lines k pattern p in (Some (inl rest), (reads, input, out ++ w)).
Proof.
  induction k as [|k IH]; intros pattern p reads input out; cbn [grep_lines filter_lines]; [cbn; by rewrite app_nil_r|].
  destruct (strchr p newline) as [q|]; [|cbn; by rewrite app_nil_r].
  destruct (match_ pattern _); cbn [sys ubind interp file_handler Z.eqb Pos.eqb]; rewrite IH;
    destruct (filter_lines k pattern (tl q)) as [w rest]; cbn; [|done]. by rewrite <- app_assoc.
Qed.

Lemma ugrep_run reads : forall pattern fd left input out,
  exists s, interp file_handler (ugrep (S (length reads)) pattern fd left) (reads, input, out) =
    (Some (inl tt), s) /\ snd s = out ++ grep reads pattern left input.
Proof.
  induction reads as [|n reads IH]; intros pattern fd left input out.
  { eexists. split; [reflexivity|]. cbn. by rewrite app_nil_r. }
  change (length (n :: reads)) with (S (length reads)). remember (S (length reads)) as fuel.
  cbn [ugrep sys ubind interp file_handler fst snd grep].
  replace (Z.to_nat (1024 - Z.of_nat (length left) - 1)) with (bufsize - length left - 1)%nat by (unfold bufsize; lia).
  set (k := Nat.min n _). destruct (take k input) as [|b chunk] eqn:Ec.
  { eexists. split; [reflexivity|]. cbn. by rewrite app_nil_r. }
  change (Z.of_nat (length (b :: chunk)) >? 0) with true. cbv iota.
  unfold got. cbn [fst snd]. rewrite Nat2Z.id, take_ge by lia.
  rewrite interp_bind, grep_lines_run. destruct (filter_lines _ pattern _) as [w rest].
  destruct (IH pattern fd rest (drop k input) (out ++ w)) as (s & E & Hs). exists s. split; [exact E|].
  rewrite Hs. by rewrite <- app_assoc.
Qed.


