(* ===== verification/UPwd.v ===== *)
(** user/pwd.c, which prints the path of the working directory by climbing to the
    root: in each parent it looks for the name of the directory it came from.

    The uninitialised bytes of file_path_buffer are a parameter. *)
From S2P Require Import Prelude Riscv Machine Console UserLib UProg UPrograms.
Import Ulib Uprintf.
Local Open Scope uprog_scope.

Definition current : list Z := 46 :: replicate 13 0.

Definition is_name_match (s1 s2 : list Z) : bool :=
  forallb (fun i => nth i s1 0 =? nth i s2 0) (seq 0 DIRSIZ).

Definition strcat_custom (destination source : list Z) : list Z := destination ++ source.

(** The loop before the climb: pre_inum and is_root. *)
Fixpoint pwd_self (fuel : nat) (fd pre_inum : Z) : uprog (Z * bool) :=
  match fuel with
  | O => UStuck
  | S fuel =>
      r <- sys (Cread fd 16) ;;
      if negb (fst r =? 16) then URet (pre_inum, false) else
      let de := got r in
      let inum := field 0 2 de in
      if inum =? 0 then pwd_self fuel fd pre_inum else
      if is_name_match (drop 2 de) current then
        if inum =? 1 then URet (pre_inum, true) else URet (inum, false)
      else pwd_self fuel fd pre_inum
  end.

(** file_path_buffer[now][i] = de.name[i] *)
Definition set_row (now : nat) (name : list Z) (buf : list Z) : list Z :=
  take (now * DIRSIZ) buf ++ take DIRSIZ name ++ drop ((now + 1) * DIRSIZ) buf.

(** The loop over the entries of a parent: pre_inum, is_root and the buffer. *)
Fixpoint pwd_scan (fuel : nat) (fd prepre_inum : Z) (now : nat) (pre_inum : Z) (is_root : bool) (buf : list Z) :
    uprog (Z * bool * list Z) :=
  match fuel with
  | O => UStuck
  | S fuel =>
      r <- sys (Cread fd 16) ;;
      if negb (fst r =? 16) then URet (pre_inum, is_root, buf) else
      let de := got r in
      let inum := field 0 2 de in
      if inum =? 0 then pwd_scan fuel fd prepre_inum now pre_inum is_root buf else
      if is_name_match (drop 2 de) current then
        if inum =? 1 then pwd_scan fuel fd prepre_inum now pre_inum true buf
        else pwd_scan fuel fd prepre_inum now inum is_root buf
      else if inum =? prepre_inum then
        if (64 <=? now)%nat then UStuck
        else pwd_scan fuel fd prepre_inum now pre_inum is_root (set_row now (drop 2 de) buf)
      else pwd_scan fuel fd prepre_inum now pre_inum is_root buf
  end.

(** "../" [n] times and ".", in an array of 512 bytes. *)
Fixpoint dotdots (n : nat) (file_path : list Z) : list Z :=
  match n with
  | O => strcat_custom file_path (bytes ".")
  | S n => dotdots n (strcat_custom file_path (bytes "../"))
  end.

(** while(1): the directory [now] + 1 levels up. *)
Fixpoint pwd_up (fuel : nat) (now : nat) (pre_inum : Z) (buf : list Z) : uprog (nat * list Z) :=
  match fuel with
  | O => UStuck
  | S fuel' =>
      let file_path := dotdots (now + 1) [] in
      if (512 <=? length file_path)%nat then UStuck else
      fd <- sysn (Copen file_path 0) ;;
      if fd <? 0 then printf (line "Cannot open: .") [] ;; UExit 1 else
      r <- pwd_scan fuel fd pre_inum now pre_inum false buf ;;
      let '(pre_inum, is_root, buf) := r in
      sys (Cclose fd) ;;
      if is_root : bool then URet ((now + 1)%nat, buf) else pwd_up fuel' (now + 1) pre_inum buf
  end.

(** The rows from [n] - 1 down to 0; a row without a zero runs into the next one. *)
Fixpoint pwd_rows (n : nat) (buf : list Z) : uprog unit :=
  match n with
  | O => URet tt
  | S n =>
      let s := drop (n * DIRSIZ) buf in
      if negb (existsb (fun c => c =? 0) s) then UStuck else
      printf (bytes "/%s") [U_str (upto_nul s)] ;;
      pwd_rows n buf
  end.

Definition pwd_main (fuel : nat) (garbage : list Z) : uprog unit :=
  fd <- sysn (Copen (bytes ".") 0) ;;
  if fd <? 0 then printf (line "Cannot open: .") [] ;; UExit 1 else
  r <- pwd_self fuel fd 0 ;;
  let '(pre_inum, is_root) := r in
  sys (Cclose fd) ;;
  r <- (if is_root : bool then URet (O, garbage) else pwd_up fuel 0 pre_inum garbage) ;;
  let '(now, buf) := r in
  (if (now =? 0)%nat then printf (line "/") [] else pwd_rows now buf ;; printf [10] []) ;;
  UExit 0.

(** ** A tree of directories *)

(** A directory entry: the inode number and the name, 14 bytes. *)
Definition dentry : Type := Z * list Z.

Definition enc (e : dentry) : list Z := [fst e `mod` 256; fst e / 256] ++ snd e.

Definition pad (nm : list Z) : list Z := nm ++ replicate (DIRSIZ - length nm) 0.

(** The working directory and its parents up to the root, opened by the paths ".",
    "../.", "../../.", ...; read() delivers an entry. *)
Fixpoint lookup_path (k : nat) (dirs : list (list dentry)) (path : list Z) : option (list dentry) :=
  match dirs with
  | [] => None
  | d :: dirs => if bool_decide (path = dotdots k []) then Some d else lookup_path (S k) dirs path
  end.

Definition pwd_handler (dirs : list (list dentry)) (c : call) (s : io) : answer * io :=
  match c with
  | Copen path _ =>
      match lookup_path 0 dirs path with
      | Some d => ((3, []), (map enc d, snd s))
      | None => ((-1, []), s)
      end
  | Cclose _ => ((0, []), s)
  | _ => io_handler c s
  end.

(** [ids] are the inode numbers of the directories, [names] their names in the
    parent: "." is the directory itself, and of the other entries only the name has
    the number of the directory below. *)
Record tree (dirs : list (list dentry)) (ids : list Z) (names : list (list Z)) : Prop := {
  tr_dirs : length dirs = S (length names);
  tr_ids : length ids = S (length names);
  tr_entry : forall k d e, dirs !! k = Some d -> e ∈ d -> 0 <= fst e < 2 ^ 16 /\ length (snd e) = DIRSIZ;
  tr_dot : forall k d i, dirs !! k = Some d -> ids !! k = Some i ->
    (i, current) ∈ d /\ forall i', (i', current) ∈ d -> i' <> 0 -> i' = i;
  tr_root : forall k i, ids !! k = Some i -> i <> 0 /\ (i = 1 <-> k = length names);
  tr_name : forall k i nm d, ids !! k = Some i -> names !! k = Some nm -> dirs !! S k = Some d ->
    (i, pad nm) ∈ d /\ forall n, (i, n) ∈ d -> n <> current -> n = pad nm;
  tr_names : forall nm, nm ∈ names -> (length nm < DIRSIZ)%nat /\ Forall (fun c => 0 < c < 256) nm /\ nm <> bytes "." }.

Lemma dotdots_length n p : length (dotdots n p) = (length p + 3 * n + 1)%nat.
Proof.
  revert p. induction n as [|n IH]; intros p; cbn [dotdots]; unfold strcat_custom; [rewrite length_app; cbn; lia|].
  rewrite IH, length_app. cbn. lia.
Qed.

Lemma lookup_path_up k0 dirs k : lookup_path k0 dirs (dotdots (k0 + k) []) = dirs !! k.
Proof.
  revert k0 k. induction dirs as [|d dirs IH]; intros k0 k; [done|]. cbn [lookup_path]. destruct k as [|k].
  - rewrite Nat.add_0_r. by rewrite bool_decide_true.
  - rewrite bool_decide_false; [|intros E%(f_equal length); rewrite !dotdots_length in E; cbn in E; lia].
    replace (k0 + S k)%nat with (S k0 + k)%nat by lia. apply IH.
Qed.

Lemma is_name_match_spec s1 s2 : length s1 = DIRSIZ -> length s2 = DIRSIZ -> is_name_match s1 s2 = bool_decide (s1 = s2).
Proof.
  intros H1 H2. symmetry. case_bool_decide as E; symmetry.
  - subst. unfold is_name_match. apply forallb_forall. intros i _. apply Z.eqb_refl.
  - apply not_true_is_false. intros H. apply E. unfold is_name_match in H. rewrite forallb_forall in H.
    apply (nth_ext _ _ 0 0); [lia|]. intros i Hi. apply Z.eqb_eq, H, in_seq. lia.
Qed.

(** What an entry does in the loop over a parent. *)
Definition scan_step (prepre : Z) (now : nat) (s : Z * bool * list Z) (e : dentry) : Z * bool * list Z :=
  let '(pre, root, buf) := s in
  if fst e =? 0 then s else
  if bool_decide (snd e = current) then if fst e =? 1 then (pre, true, buf) else (fst e, root, buf)
  else if fst e =? prepre then (pre, root, set_row now (snd e) buf) else s.

Lemma got_enc e : length (snd e) = DIRSIZ -> got (Z.of_nat (length (enc e)), enc e) = enc e /\ Z.of_nat (length (enc e)) = 16.
Proof. intros H. split; [|unfold enc; rewrite length_app, H; done]. unfold got. cbn [fst snd]. rewrite Nat2Z.id. by apply take_ge. Qed.

Lemma enc_inum e : 0 <= fst e < 2 ^ 16 -> field 0 2 (enc e) = fst e.
Proof.
  intros H. unfold field, enc. cbn [app drop take le_val]. pose proof (Z.div_mod (fst e) 256 ltac:(lia)).
  change (take 0 (snd e)) with (@nil Z). cbn [le_val]. lia.
Qed.

Definition entries_ok (d : list dentry) : Prop := Forall (fun e => 0 <= fst e < 2 ^ 16 /\ length (snd e) = DIRSIZ) d.

Lemma scan_run dirs d : forall fuel fd prepre now pre root buf out, entries_ok d -> (length d < fuel)%nat -> (now < 64)%nat ->
  interp (pwd_handler dirs) (pwd_scan fuel fd prepre now pre root buf) (map enc d, out) =
  (Some (inl (foldl (scan_step prepre now) (pre, root, buf) d)), ([], out)).
Proof.
  induction d as [|e d IH]; intros fuel fd prepre now pre root buf out Hd Hf Hnow; (destruct fuel as [|fuel]; [cbn in Hf; lia|]); [done|].
  apply Forall_cons in Hd as [[He1 He2] Hd]. destruct (got_enc e He2) as [Hg1 Hg2].
  cbn [pwd_scan sys ubind interp pwd_handler io_handler fst snd map foldl]. rewrite Hg1, enc_inum by done. rewrite Hg2.
  cbn [Z.eqb Pos.eqb negb]. unfold scan_step at 2. change (drop 2 (enc e)) with (snd e).
  rewrite is_name_match_spec by done. cbn in Hf.
  destruct (fst e =? 0); [apply IH; done || lia|]. destruct (bool_decide (snd e = current)); [destruct (fst e =? 1); apply IH; done || lia|].
  destruct (fst e =? prepre); [|apply IH; done || lia]. rewrite (proj2 (Nat.leb_gt 64 now)) by lia. apply IH; done || lia.
Qed.

Lemma set_row_twice now n n' buf : (now < 64)%nat -> length buf = 896%nat -> length n = DIRSIZ -> length n' = DIRSIZ ->
  set_row now n (set_row now n' buf) = set_row now n buf.
Proof.
  intros Hnow Hb Hn Hn'. unfold set_row. f_equal; [|f_equal].
  - rewrite take_app_le by (rewrite length_take; unfold DIRSIZ; lia). by rewrite take_take, Nat.min_id.
  - rewrite drop_app_ge by (rewrite length_take; unfold DIRSIZ; lia).
    rewrite drop_app_ge by (rewrite !length_take; unfold DIRSIZ in *; lia). rewrite drop_drop. f_equal.
    rewrite !length_take. unfold DIRSIZ in *. lia.
Qed.

Lemma set_row_length now n buf : (now < 64)%nat -> length buf = 896%nat -> length n = DIRSIZ -> length (set_row now n buf) = 896%nat.
Proof. intros. unfold set_row. rewrite !length_app, !length_take, length_drop. unfold DIRSIZ in *. lia. Qed.

(** The whole parent: its number, whether it is the root, and the name. *)
Lemma scan_result prepre now pre buf d i nm : (now < 64)%nat -> length buf = 896%nat -> entries_ok d -> i <> 0 -> prepre <> 0 ->
  (forall i', (i', current) ∈ d -> i' <> 0 -> i' = i) ->
  length nm = DIRSIZ -> (forall n, (prepre, n) ∈ d -> n <> current -> n = nm) ->
  exists pre' root' buf', foldl (scan_step prepre now) (pre, false, buf) d = (pre', root', buf') /\
    ((i, current) ∈ d -> root' = (i =? 1) /\ (i <> 1 -> pre' = i)) /\
    ((prepre, nm) ∈ d -> nm <> current -> buf' = set_row now nm buf) /\ (buf' = buf \/ buf' = set_row now nm buf) /\
    (root' = true -> i = 1).
Proof.
  intros Hnow Hb Hd Hi Hp Hdot Hnm Hname.
  induction d as [|e d IH] using rev_ind.
  { exists pre, false, buf. split; [done|]. split; [by intros ?%elem_of_nil|]. split; [by intros ?%elem_of_nil|]. split; [by left|done]. }
  apply Forall_app in Hd as [Hd He]. apply Forall_cons in He as [[He1 He2] _].
  destruct IH as (pre1 & root1 & buf1 & E & H1 & H2 & H3 & H4); [done| | |].
  { intros i' H. apply Hdot. apply elem_of_app. by left. }
  { intros n H. apply Hname. apply elem_of_app. by left. }
  rewrite foldl_app, E. cbn [foldl scan_step]. destruct e as [ei en]. cbn [fst snd] in *.
  assert (forall x, x ∈ d ++ [(ei, en)] <-> x ∈ d \/ x = (ei, en)) as Hel by (intros x; by rewrite elem_of_app, list_elem_of_singleton).
  setoid_rewrite Hel. setoid_rewrite Hel in Hdot. setoid_rewrite Hel in Hname.
  destruct (Z.eqb_spec ei 0) as [->|Hei].
  { exists pre1, root1, buf1. split; [done|]. split; [intros [?|[= -> _]]; [by apply H1|done]|].
    split; [intros [?|[= -> _]]; [by apply H2|done]|done]. }
  case_bool_decide as Een.
  { subst en. pose proof (Hdot ei (or_intror eq_refl) Hei) as ->. eexists _, _, buf1. split.
    { instantiate (1 := if i =? 1 then true else root1). instantiate (1 := if i =? 1 then pre1 else i). by destruct (i =? 1). }
    split; [|split; [intros [?|[= ? ?]]; [by apply H2|congruence]|split; [done|]]].
    - intros _. destruct (Z.eqb_spec i 1) as [->|Hne]; [done|]. split; [|done]. destruct root1; [|done]. destruct Hne. auto.
    - destruct (Z.eqb_spec i 1); auto. }
  destruct (Z.eqb_spec ei prepre) as [->|Hne].
  - pose proof (Hname en (or_intror eq_refl) Een) as ->. exists pre1, root1, (set_row now nm buf). split.
    { destruct H3 as [->| ->]; [done|]. by rewrite set_row_twice. }
    split; [intros [?|[= ? ?]]; [by apply H1|congruence]|]. split; [done|]. split; [by right|done].
  - exists pre1, root1, buf1. split; [done|]. split; [intros [?|[= ? ?]]; [by apply H1|congruence]|].
    split; [intros [?|[= ? ?]]; [by apply H2|congruence]|done].
Qed.

Lemma self_run dirs d : forall fuel fd pre i out, entries_ok d -> (length d < fuel)%nat -> i <> 0 -> (i, current) ∈ d ->
  (forall i', (i', current) ∈ d -> i' <> 0 -> i' = i) ->
  exists rest, interp (pwd_handler dirs) (pwd_self fuel fd pre) (map enc d, out) =
    (Some (inl (if i =? 1 then (pre, true) else (i, false))), (rest, out)).
Proof.
  induction d as [|e d IH]; intros fuel fd pre i out Hd Hf Hi Hin Hdot; (destruct fuel as [|fuel]; [cbn in Hf; lia|]); [by apply elem_of_nil in Hin|].
  apply Forall_cons in Hd as [[He1 He2] Hd]. destruct (got_enc e He2) as [Hg1 Hg2].
  cbn [pwd_self sys ubind interp pwd_handler io_handler fst snd map]. rewrite Hg1, enc_inum by done. rewrite Hg2.
  cbn [Z.eqb Pos.eqb negb]. change (drop 2 (enc e)) with (snd e). rewrite is_name_match_spec by done. cbn in Hf.
  destruct e as [ei en]. cbn [fst snd] in *.
  assert ((i, current) <> (ei, en) -> exists rest, interp (pwd_handler dirs) (pwd_self fuel fd pre) (map enc d, out) =
    (Some (inl (if i =? 1 then (pre, true) else (i, false))), (rest, out))) as Hrest.
  { intros Hne. apply IH; [done|lia|done| |].
    - apply elem_of_cons in Hin as [?|?]; [done|done].
    - intros i' H. apply Hdot. by right. }
  destruct (Z.eqb_spec ei 0) as [->|Hei]; [apply Hrest; congruence|]. case_bool_decide as Een; [|apply Hrest; congruence].
  subst en. pose proof (Hdot ei ltac:(left) Hei) as ->. eexists. by destruct (i =? 1).
Qed.

Lemma interp_prints dirs {A} (p : uprog A) : prints 1 returns p -> forall s,
  interp (pwd_handler dirs) p s = interp io_handler p s.
Proof. induction 1 as [p [a ->]|bs k _ IH]; intros s; [done|]. cbn [interp pwd_handler]. destruct (io_handler _ s). apply IH. Qed.

Section Tree.
Context (dirs : list (list dentry)) (ids : list Z) (names : list (list Z)) (Htree : tree dirs ids names).
Context (Hdepth : (length names <= 64)%nat).

Definition rows_ok (k : nat) (buf : list Z) : Prop :=
  length buf = 896%nat /\ forall j nm, (j < k)%nat -> names !! j = Some nm -> take DIRSIZ (drop (j * DIRSIZ) buf) = pad nm.

Lemma length_pad nm : (length nm < DIRSIZ)%nat -> length (pad nm) = DIRSIZ.
Proof. intros H. unfold pad. rewrite length_app, length_replicate. lia. Qed.

Lemma set_row_row now j n buf : (now < 64)%nat -> (j <= now)%nat -> length buf = 896%nat -> length n = DIRSIZ ->
  take DIRSIZ (drop (j * DIRSIZ) (set_row now n buf)) = if decide (j = now) then n else take DIRSIZ (drop (j * DIRSIZ) buf).
Proof.
  intros Hnow Hj Hb Hn. unfold set_row. case_decide as E.
  - subst j. rewrite drop_app_ge by (rewrite length_take; lia). replace (now * DIRSIZ - length (take (now * DIRSIZ) buf))%nat with 0%nat.
    2: { rewrite length_take. unfold DIRSIZ in *. lia. }
    rewrite drop_0, take_app_le by (rewrite length_take; lia). by rewrite take_take, Nat.min_id, take_ge by lia.
  - rewrite drop_app_le by (rewrite length_take; unfold DIRSIZ in *; lia).
    rewrite take_app_le by (rewrite length_drop, length_take; unfold DIRSIZ in *; lia).
    rewrite skipn_firstn_comm, take_take. f_equal. unfold DIRSIZ in *. lia.
Qed.

Lemma rows_set now nm buf : names !! now = Some nm -> rows_ok now buf -> rows_ok (S now) (set_row now (pad nm) buf).
Proof.
  intros Hnm [Hb Hrows]. assert (now < 64)%nat by (apply lookup_lt_Some in Hnm; lia).
  assert (length (pad nm) = DIRSIZ) by (apply length_pad, (tr_names _ _ _ Htree), list_elem_of_lookup; by exists now).
  split; [by apply set_row_length|]. intros j nm' Hj Hj'. rewrite set_row_row by (done || lia).
  case_decide as E; [subst; by simplify_eq|]. apply Hrows; [lia|done].
Qed.

Lemma tree_entries k d : dirs !! k = Some d -> entries_ok d.
Proof. intros H. apply Forall_forall. intros e He. by apply (tr_entry _ _ _ Htree k d). Qed.

Lemma pad_not_current nm : nm ∈ names -> pad nm <> current.
Proof.
  intros H. destruct (tr_names _ _ _ Htree nm H) as (Hl & Hc & Hne). intros E. apply Hne. unfold pad, current in E.
  destruct nm as [|c [|c' nm]]; [done| |].
  - cbn in E. by injection E as ->.
  - apply Forall_cons in Hc as [_ [Hc _]%Forall_cons]. cbn in E. injection E as _ E _. lia.
Qed.

(** One level up. *)
Lemma up_step fuel now pre nm buf s :
  names !! now = Some nm -> ids !! now = Some pre -> rows_ok now buf -> (forall d, d ∈ dirs -> (length d < S fuel)%nat) ->
  exists i, ids !! S now = Some i /\
    interp (pwd_handler dirs) (pwd_up (S fuel) now pre buf) s =
    interp (pwd_handler dirs)
      (if i =? 1 then URet (S now, set_row now (pad nm) buf) else pwd_up fuel (S now) i (set_row now (pad nm) buf)) ([], snd s).
Proof.
  intros Hnm Hpre Hrows Hfuel. pose proof (lookup_lt_Some _ _ _ Hnm) as Hlt.
  destruct (lookup_lt_is_Some_2 dirs (S now)) as [d Hd]; [rewrite (tr_dirs _ _ _ Htree); lia|].
  destruct (lookup_lt_is_Some_2 ids (S now)) as [i Hi]; [rewrite (tr_ids _ _ _ Htree); lia|]. exists i. split; [done|].
  assert (length d < S fuel)%nat as Hfd by (apply Hfuel, list_elem_of_lookup; by exists (S now)).
  assert (nm ∈ names) as Hnm' by (apply list_elem_of_lookup; by exists now).
  pose proof (length_pad nm (proj1 (tr_names _ _ _ Htree nm Hnm'))) as Hpl.
  destruct (tr_root _ _ _ Htree _ _ Hi) as [Hi0 Hi1]. destruct (tr_root _ _ _ Htree _ _ Hpre) as [Hp0 _].
  destruct (tr_dot _ _ _ Htree _ _ _ Hd Hi) as [Hdot1 Hdot2]. destruct (tr_name _ _ _ Htree _ _ _ _ Hpre Hnm Hd) as [Hn1 Hn2].
  destruct (scan_result pre now pre buf d i (pad nm) ltac:(lia) (proj1 Hrows) (tree_entries _ _ Hd) Hi0 Hp0 Hdot2 Hpl Hn2)
    as (pre' & root' & buf' & E & H1 & H2 & _). destruct (H1 Hdot1) as [-> Hpre'].
  rewrite (H2 Hn1 (pad_not_current nm Hnm')) in E. clear H1 H2.
  cbn [pwd_up]. rewrite (proj2 (Nat.leb_gt _ _)) by (rewrite dotdots_length; cbn [length]; lia).
  cbn [sysn ubind interp pwd_handler]. replace (now + 1)%nat with (0 + S now)%nat by lia. rewrite lookup_path_up, Hd.
  cbn [fst]. change (3 <? 0) with false. cbv iota. rewrite interp_bind, scan_run, E by (done || lia || by eapply tree_entries).
  cbn [sys ubind interp pwd_handler snd]. change (0 + S now)%nat with (S now).
  destruct (Z.eqb_spec i 1) as [->|Hne]; [done|]. by rewrite (Hpre' Hne).
Qed.

Lemma up_run n : forall fuel now pre buf s,
  (length names - now = S n)%nat -> ids !! now = Some pre -> rows_ok now buf ->
  (forall d, d ∈ dirs -> (length d + S n < fuel)%nat) ->
  exists buf', interp (pwd_handler dirs) (pwd_up fuel now pre buf) s = (Some (inl (length names, buf')), ([], snd s)) /\
    rows_ok (length names) buf'.
Proof.
  induction n as [|n IH]; intros fuel now pre buf s Hn Hpre Hrows Hfuel.
  all: destruct (lookup_lt_is_Some_2 names now ltac:(lia)) as [nm Hnm]; pose proof (rows_set now nm buf Hnm Hrows) as Hrows'.
  all: destruct fuel as [|fuel];
    [destruct (lookup_lt_is_Some_2 dirs 0) as [d Hd]; [rewrite (tr_dirs _ _ _ Htree); lia|]; specialize (Hfuel d ltac:(by eapply list_elem_of_lookup_2)); lia|].
  all: destruct (up_step fuel now pre nm buf s Hnm Hpre Hrows) as (i & Hi & E);
    [intros d Hd; specialize (Hfuel d Hd); lia|]; destruct (tr_root _ _ _ Htree _ _ Hi) as [_ Hi1]; rewrite E.
  - rewrite (proj2 (Z.eqb_eq i 1)) by (apply Hi1; lia). eexists. replace (length names) with (S now) by lia. by split.
  - rewrite (proj2 (Z.eqb_neq i 1)) by (intros Ei; apply Hi1 in Ei; lia).
    apply (IH fuel (S now) i _ ([], snd s)); [lia|done|done|]. intros d' Hd'. specialize (Hfuel d' Hd'). lia.
Qed.

Lemma upto_nul_pad nm l : Forall (fun c => 0 < c < 256) nm -> upto_nul (nm ++ 0 :: l) = nm.
Proof.
  induction 1 as [|c nm Hc _ IH]; [done|]. cbn. rewrite (proj2 (Z.eqb_neq c 0)) by lia. by rewrite IH.
Qed.

Lemma interp_row nm (s : io) : Forall (fun c => 0 < c < 256) nm ->
  interp (pwd_handler dirs) (printf (bytes "/%s") [U_str nm]) s = (Some (inl tt), (fst s, snd s ++ 47 :: nm)).
Proof.
  intros Hn. rewrite interp_prints by apply (fprintf_prints 1). destruct s as [ins out]. cbn [fst snd].
  unfold printf, vprintf. change (bytes "/%s") with [47; 37; 115]. cbn [vprintf_loop Z.eqb Pos.eqb].
  rewrite (interp_seq _ _ _ _ (interp_putc 47 _ _ ltac:(lia))). unfold conversion. cbn [Z.eqb Pos.eqb tl].
  rewrite (interp_seq2 _ _ _ _ _ (interp_puts nm _ _ ltac:(eapply Forall_impl; [exact Hn|cbn; lia]))). cbn. by rewrite <- app_assoc.
Qed.

Lemma interp_text l (s : io) : Forall (fun c => 0 <= c < 256 /\ c <> 37) l ->
  interp (pwd_handler dirs) (printf l []) s = (Some (inl tt), (fst s, snd s ++ l)).
Proof.
  intros Hl. rewrite interp_prints by apply (fprintf_prints 1). unfold printf, vprintf. revert s.
  induction Hl as [|c l [Hc1 Hc2] _ IH]; intros [ins out]; cbn [vprintf_loop fst snd]; [cbn; by rewrite app_nil_r|].
  rewrite (proj2 (Z.eqb_neq c 37)) by done. rewrite (interp_seq _ _ _ _ (interp_putc c _ _ Hc1)), IH.
  cbn [fst snd]. by rewrite <- app_assoc.
Qed.

(** The names of the directories, from the root down. *)
Definition path_of (l : list (list Z)) : list Z := concat (map (cons 47) (rev l)).

Lemma rows_run buf n (s : io) : (n <= length names)%nat -> rows_ok (length names) buf ->
  interp (pwd_handler dirs) (pwd_rows n buf) s = (Some (inl tt), (fst s, snd s ++ path_of (take n names))).
Proof.
  intros Hn [Hb Hrows]. revert s. induction n as [|n IH]; intros s; [cbn; rewrite app_nil_r; by destruct s|].
  destruct (lookup_lt_is_Some_2 names n ltac:(lia)) as [nm Hnm]. specialize (Hrows n nm ltac:(lia) Hnm).
  destruct (tr_names _ _ _ Htree nm) as (Hl & Hc & _); [apply list_elem_of_lookup; by exists n|].
  assert (exists l, drop (n * DIRSIZ) buf = nm ++ 0 :: l) as [l El].
  { rewrite <- (take_drop DIRSIZ (drop (n * DIRSIZ) buf)), Hrows. unfold pad.
    destruct (DIRSIZ - length nm)%nat as [|z] eqn:Ez; [lia|]. cbn [replicate]. rewrite <- app_assoc. by eexists. }
  cbn [pwd_rows]. rewrite El. rewrite existsb_app. cbn [existsb Z.eqb]. rewrite orb_true_r. cbn [negb].
  rewrite interp_bind, (upto_nul_pad _ _ Hc), interp_row by done. rewrite IH by lia. cbn [fst snd].
  rewrite (take_S_r _ _ _ Hnm). unfold path_of. rewrite rev_app_distr. cbn. by rewrite <- app_assoc.
Qed.
End Tree.


(** The working directory /a/b, inode 7 in inode 5. *)
Definition dot (i : Z) : dentry := (i, current).
Definition dotdot (i : Z) : dentry := (i, pad (bytes "..")).

Definition demo_dirs : list (list dentry) :=
  [[dot 7; dotdot 5; (0, pad (bytes "old")); (9, pad (bytes "f"))];
   [dot 5; dotdot 1; (7, pad (bytes "b"))];
   [dot 1; dotdot 1; (2, pad (bytes "cat")); (5, pad (bytes "a")); (0, pad [])]].

Lemma demo_tree : tree demo_dirs [7; 5; 1] [bytes "b"; bytes "a"].
Proof.
  split; [done|done| | | | |].
  - intros k d e Hd. do 3 (destruct k as [|k]; [injection Hd as <-; revert e; apply Forall_forall; repeat (apply Forall_cons; split; [by vm_compute|]); by apply Forall_nil|]). done.
  - intros k d i Hd Hi. do 3 (destruct k as [|k]; [injection Hd as <-; injection Hi as <-; split; [left|intros i' H%list_elem_of_In Hne; vm_compute in H, Hne |- *; intuition congruence]|]). done.
  - intros k i Hi. do 3 (destruct k as [|k]; [injection Hi as <-; split; [done|cbn; lia]|]). done.
  - intros k i nm d Hi Hn Hd. do 2 (destruct k as [|k]; [injection Hd as <-; injection Hi as <-; injection Hn as <-; split;
      [apply list_elem_of_In; vm_compute; tauto|intros n H%list_elem_of_In Hne; vm_compute in H, Hne |- *; intuition congruence]|]). done.
  - intros nm H. set_unfold. destruct H as [->|[->|[]]]; split_and!; try done; repeat constructor; cbn; lia.
Qed.

