(* ===== verification/UShmem.v ===== *)
(** The programs of user/ that show the shared pages: shmem_test.c, shmem_test1.c,
    shmem_test2.c, shmem_test3.c, shmem_set_and_loop.c and shmem_acquire_and_loop.c;
    and processes that run such programs side by side over the pages of ShmemRefine,
    with what shmem_test prints under every interleaving. *)
From stdpp Require Import functions.
From S2P Require Import Prelude Riscv Machine Console UserLib UProg UPrograms ShmemRefine.
Import Uprintf.

(** ** The programs *)

Abbreviation shmem c := (sysn (Cshmem c)).

Abbreviation tab := ([9]) (only parsing).

Definition check_shmem_state (page_number : Z) : uprog unit :=
  state <- shmem (Sh_state page_number) ;;
  if negb (state =? NOT_SET) then
    if state =? WRITABLE then
      cnt <- shmem (Sh_count page_number) ;;
      printf (bytes "%d" ++ tab ++ bytes "WRITABLE" ++ tab ++ line "%d") [U_num page_number; U_num cnt]
    else if state =? UNWRITABLE then
      cnt <- shmem (Sh_count page_number) ;;
      printf (bytes "%d" ++ tab ++ bytes "UNWRITABLE" ++ tab ++ line "%d") [U_num page_number; U_num cnt]
    else
      cnt <- shmem (Sh_count page_number) ;;
      printf (bytes "%d" ++ tab ++ bytes "INVAILED" ++ tab ++ line "%d") [U_num page_number; U_num cnt]
  else if state =? NOT_SET then
    cnt <- shmem (Sh_count page_number) ;;
    printf (bytes "%d" ++ tab ++ bytes "NOT_SET  " ++ tab ++ line "%d") [U_num page_number; U_num cnt]
  else
    cnt <- shmem (Sh_count page_number) ;;
    printf (bytes "%d" ++ tab ++ bytes "INVAILED" ++ tab ++ line "%d") [U_num page_number; U_num cnt].

(** while(!shmem_acquire_access(page_number)); *)
Fixpoint spin_acquire (fuel : nat) (page_number : Z) : uprog unit :=
  match fuel with
  | O => UStuck
  | S fuel =>
      r <- shmem (Sh_acquire_access page_number) ;;
      if r =? 0 then spin_acquire fuel page_number else URet tt
  end.

Definition shmem_test_main (fuel : nat) : uprog unit :=
  let page_number := 0 in
  check_shmem_state page_number ;;
  pid <- sysn Cfork ;;
  (if pid =? 0 then
     printf (line "Child process") [] ;;
     check_shmem_state page_number ;;
     printf (line "shmem_set_writable") [] ;;
     shmem (Sh_set_writable page_number) ;;
     check_shmem_state page_number ;;
     shmem (Sh_write_int page_number 0 42) ;;
     shmem (Sh_write_int page_number 1 43) ;;
     URet tt
   else
     spin_acquire fuel page_number ;;
     sys Cwait ;;
     printf (line "Parent process") [] ;;
     check_shmem_state page_number ;;
     v <- shmem (Sh_read_int page_number 0) ;;
     printf (line "Value: %d") [U_num v] ;;
     v <- shmem (Sh_read_int page_number 1) ;;
     printf (line "Value: %d") [U_num v]) ;;
  UExit 0.

Definition check_shmem_all_state : uprog unit :=
  printf ([10] ++ bytes "page" ++ tab ++ line "state") [] ;;
  each (seqZ 0 (Z.of_nat SHMEM)) check_shmem_state ;;
  printf [10] [].

Definition shmem_test1_main : uprog unit :=
  check_shmem_all_state ;;
  shmem (Sh_set_unwritable 0) ;;
  shmem (Sh_set_writable 1) ;;
  each (seqZ 0 5) (fun i => shmem (Sh_set_init_int 2 i i) ;; URet tt) ;;
  shmem (Sh_set_unwritable 2) ;;
  check_shmem_all_state ;;
  each (seqZ 0 5) (fun i =>
    v <- shmem (Sh_read_int 2 i) ;;
    printf (line "shmem_read_int(2, %d): %d") [U_num i; U_num v]) ;;
  pid <- sysn Cfork ;;
  (if pid =? 0 then check_shmem_all_state
   else
     sys Cwait ;;
     check_shmem_all_state ;;
     shmem (Sh_release_access 2) ;;
     check_shmem_all_state ;;
     shmem (Sh_set_unwritable 2) ;;
     check_shmem_all_state ;;
     each (seqZ 0 5) (fun i =>
       v <- shmem (Sh_read_int 2 i) ;;
       printf (line "shmem_read_int(2, %d): %d") [U_num i; U_num v])) ;;
  UExit 0.

(** while(shmem_count(0) == 0); *)
Fixpoint spin_count (fuel : nat) (page_number : Z) : uprog unit :=
  match fuel with
  | O => UStuck
  | S fuel =>
      r <- shmem (Sh_count page_number) ;;
      if r =? 0 then spin_count fuel page_number else URet tt
  end.

(** A child in which exec() fails goes on as the parent does. *)
Definition shmem_test2_main (fuel : nat) : uprog unit :=
  check_shmem_all_state ;;
  pid <- sysn Cfork ;;
  (if pid =? 0 then
     r <- sysn (Cexec (bytes "shmem_set_and_loop") [bytes "shmem_set_and_loop"; bytes "0"]) ;;
     printf (line "exec result: %d") [U_num r]
   else URet tt) ;;
  spin_count fuel 0 ;;
  check_shmem_all_state ;;
  shmem (Sh_acquire_access 0) ;;
  check_shmem_all_state ;;
  UExit 0.

Definition shmem_test3_main : uprog unit :=
  let page_number := 0 in
  check_shmem_all_state ;;
  shmem (Sh_set_init_int page_number 0 42) ;;
  shmem (Sh_set_init_int page_number 1 43) ;;
  shmem (Sh_set_unwritable page_number) ;;
  check_shmem_all_state ;;
  pid <- sysn Cfork ;;
  (if pid =? 0 then
     r <- sysn (Cexec (bytes "shmem_acquire_and_loop") [bytes "shmem_acquire_and_loop"; bytes "1"]) ;;
     printf (line "exec result: %d") [U_num r]
   else URet tt) ;;
  sys (Csleep 1) ;;
  r <- sysn (Cexec (bytes "shmem_acquire_and_loop") [bytes "shmem_acquire_and_loop"; bytes "0"]) ;;
  printf (line "exec result: %d") [U_num r] ;;
  UExit 0.

(** for(;;); is a program without a result. *)
Definition shmem_set_and_loop_main (argv : list (list Z)) : uprog unit :=
  if (length argv =? 2)%nat then
    shmem (Sh_set_writable (Ulib.atoi (nth 1 argv []))) ;;
    UStuck
  else
    printf (line "Usage: shmem_acquire [page_number]") [] ;;
    UExit 1.

Definition shmem_acquire_and_loop_main (argv : list (list Z)) : uprog unit :=
  (if (length argv =? 2)%nat then
     printf (line "shmem_acquire_access %d") [U_num (Ulib.atoi (nth 1 argv []))] ;;
     r <- shmem (Sh_acquire_access (Ulib.atoi (nth 1 argv []))) ;;
     if negb (r =? 0) then printf (line "shmem_acquire_access success") []
     else printf (line "shmem_acquire_access failed") []
   else
     printf (line "Usage: shmem_acquire [page_number]") [] ;;
     UExit 1) ;;
  UExit 0.

(** ** Processes *)

(** A system call of slot [p], group [g], on the pages: the value returned and the
    pages after it, if the kernel does not panic. *)
Definition mode_num (m : amode) : Z :=
  match m with Free => NOT_SET | ReadOnly => UNWRITABLE | ReadWrite => WRITABLE end.

Definition on_page (p : nat) (g page : Z) (op : shop) (pages : list apage) : option (Z * list apage) :=
  if (page <? 0) || (page >? Z.of_nat SHMEM - 1) then Some (-1, pages) else
  a ← pages !! Z.to_nat page; '(r, a) ← aop p g op a; Some (r, <[Z.to_nat page := a]> pages).

(** A number the call reads off the page. *)
Definition of_page (page : Z) (get : apage -> Z) (pages : list apage) : option (Z * list apage) :=
  if (page <? 0) || (page >? Z.of_nat SHMEM - 1) then Some (-1, pages) else
  a ← pages !! Z.to_nat page; Some (get a, pages).

Definition shmem_call (p : nat) (g : Z) (c : shcall) (pages : list apage) : option (Z * list apage) :=
  match c with
  | Sh_state page => of_page page (fun a => mode_num (a_mode a)) pages
  | Sh_count page => of_page page (fun a => Z.of_nat (base.size (a_users a))) pages
  | Sh_set_writable page => on_page p g page Set_writable pages
  | Sh_set_unwritable page => on_page p g page Set_unwritable pages
  | Sh_set_init_int page i v => on_page p g page (Init_int (Z.to_nat i) v) pages
  | Sh_write_int page i v => on_page p g page (Write_int (Z.to_nat i) v) pages
  | Sh_read_int page i => on_page p g page (Read_int (Z.to_nat i)) pages
  | Sh_acquire_access page => on_page p g page Acquire pages
  | Sh_release_access page => on_page p g page Release pages
  end.

(** A page after slot [p] forked slot [c], and after slot [p] of group [g] ended. *)
Definition forked (p c : nat) (a : apage) : apage :=
  if bool_decide (p ∈ a_users a) then mkapage (a_mode a) (a_group a) ({[c]} ∪ a_users a) (a_words a) else a.

Definition left_by (p : nat) (g : Z) (a : apage) : apage :=
  if bool_decide (a_users a ∖ {[p]} = ∅) && (a_group a =? g) then mkapage Free (-1) ∅ zero_words
  else mkapage (a_mode a) (a_group a) (a_users a ∖ {[p]}) (a_words a).

(** A process: its parent, what is left of its program (nothing if it is a zombie)
    and what it has written. *)
Record uproc := mkuproc {
  up_parent : option nat;
  up_prog : option (uprog unit);
  up_out : list Z }.

Record usys := mkusys {
  us_pages : list apage;
  us_procs : gmap nat uproc }.

(** A call of slot [p] that concerns no other process: the pages and the program after
    it, and the bytes written. *)
Inductive acts (g : Z) (p : nat) : list apage -> uprog unit -> list apage -> uprog unit -> list Z -> Prop :=
| ac_write pages fd bs k :
    acts g p pages (USys (Cwrite fd bs) k) pages (k (Z.of_nat (length bs), [])) bs
| ac_shmem pages pages' c r k : shmem_call p g c pages = Some (r, pages') ->
    acts g p pages (USys (Cshmem c) k) pages' (k (r, [])) [].

(** One process makes a call. The processes are one group: none of them calls exec(). *)
Inductive ustep (g : Z) : usys -> usys -> Prop :=
| us_local pages pages' procs p par prog prog' o bs :
    procs !! p = Some (mkuproc par (Some prog) o) -> acts g p pages prog pages' prog' bs ->
    ustep g (mkusys pages procs) (mkusys pages' (<[p := mkuproc par (Some prog') (o ++ bs)]> procs))
| us_fork pages procs p par c pid k o :
    procs !! p = Some (mkuproc par (Some (USys Cfork k)) o) -> procs !! c = None -> 0 < pid ->
    ustep g (mkusys pages procs)
      (mkusys (forked p c <$> pages)
        (<[c := mkuproc (Some p) (Some (k (0, []))) []]> (<[p := mkuproc par (Some (k (pid, []))) o]> procs)))
| us_fork_fails pages procs p par k o :
    procs !! p = Some (mkuproc par (Some (USys Cfork k)) o) ->
    ustep g (mkusys pages procs) (mkusys pages (<[p := mkuproc par (Some (k (-1, []))) o]> procs))
| us_wait pages procs p par c pid k o o' :
    procs !! p = Some (mkuproc par (Some (USys Cwait k)) o) -> procs !! c = Some (mkuproc (Some p) None o') -> 0 < pid ->
    ustep g (mkusys pages procs) (mkusys pages (delete c (<[p := mkuproc par (Some (k (pid, []))) o]> procs)))
| us_wait_none pages procs p par k o :
    procs !! p = Some (mkuproc par (Some (USys Cwait k)) o) -> (forall c q o, procs !! c <> Some (mkuproc (Some p) q o)) ->
    ustep g (mkusys pages procs) (mkusys pages (<[p := mkuproc par (Some (k (-1, []))) o]> procs))
| us_exit pages procs p par st o :
    procs !! p = Some (mkuproc par (Some (UExit st)) o) ->
    ustep g (mkusys pages procs)
      (mkusys (left_by p g <$> pages)
        ((fun x => mkuproc (if bool_decide (up_parent x = Some p) then None else up_parent x) (up_prog x) (up_out x)) <$>
         <[p := mkuproc par None o]> procs)).

(** A call that panics. *)
Definition upanics (g : Z) (s : usys) : Prop :=
  exists p par c k o, us_procs s !! p = Some (mkuproc par (Some (USys (Cshmem c) k)) o) /\ shmem_call p g c (us_pages s) = None.

Definition free_page : apage := mkapage Free (-1) ∅ zero_words.

(** Slot 0 runs [prog]; the pages are as at boot. *)
Definition ustart (prog : uprog unit) : usys :=
  mkusys (replicate SHMEM free_page) {[0%nat := mkuproc None (Some prog) []]}.

(** Slot [p] has ended, having written [o]. *)
Definition ended (p : nat) (o : list Z) (s : usys) : Prop :=
  exists par, us_procs s !! p = Some (mkuproc par None o).

(** ** Stretches of a program *)

(** Alone on the pages, slot [p] writes [bs] and is at [Q]; none of its calls
    changes the pages. *)
Inductive says {A} (g : Z) (p : nat) (pages : list apage) (Q : uprog A -> Prop) : list Z -> uprog A -> Prop :=
| sy_end q : Q q -> says g p pages Q [] q
| sy_write b bs k : says g p pages Q bs (k (1, [])) -> says g p pages Q (b :: bs) (USys (Cwrite 1 [b]) k)
| sy_call c k r bs : shmem_call p g c pages = Some (r, pages) -> says g p pages Q bs (k (r, [])) ->
    says g p pages Q bs (USys (Cshmem c) k).

(** Whatever other processes do, the process writes, asks for states and counts, and
    is at [Q]. *)
Definition asks (c : call) : bool :=
  match c with
  | Cwrite _ _ | Cshmem (Sh_state 0) | Cshmem (Sh_count 0) => true
  | _ => false
  end.

Inductive drifts {A} (Q : uprog A -> Prop) : uprog A -> Prop :=
| dr_end q : Q q -> drifts Q q
| dr_call c k : asks c = true -> (forall r, drifts Q (k r)) -> drifts Q (USys c k).

Lemma drifts_bind {A B} (Q : uprog B -> Prop) (q : uprog A) (f : A -> uprog B) :
  drifts returns q -> (forall a, drifts Q (f a)) -> drifts Q (ubind q f).
Proof. intros Hq Hf. induction Hq as [q [a ->]|c k Hc _ IH]; cbn; [apply Hf|]. constructor 2; [done|]. intros r. apply IH. Qed.

Lemma drifts_bind_l {A B C} (Q : uprog C -> Prop) (q : uprog A) (f : A -> uprog B) (h : B -> uprog C) :
  drifts returns q -> (forall a, drifts Q (ubind (f a) h)) -> drifts Q (ubind (ubind q f) h).
Proof. intros Hq Hf. induction Hq as [q [a ->]|c k Hc _ IH]; cbn; [apply Hf|]. constructor 2; [done|]. intros r. apply IH. Qed.

Lemma prints_drifts {A} fd (Q : uprog A -> Prop) q : prints fd Q q -> drifts Q q.
Proof. induction 1 as [q Hq|bs k _ IH]; [by constructor 1|]. by constructor 2. Qed.

Lemma drifts_printf fmt ap : drifts returns (printf fmt ap).
Proof. apply (prints_drifts 1), fprintf_prints. Qed.

Lemma drifts_check : drifts returns (check_shmem_state 0).
Proof.
  unfold check_shmem_state. apply (drifts_bind returns (shmem (Sh_state 0))).
  { constructor 2; [done|]. intros r. constructor 1. by eexists. }
  intros st. repeat case_match; (apply (drifts_bind returns (shmem (Sh_count 0))); [|intros n; apply drifts_printf]);
    (constructor 2; [done|]; intros r; constructor 1; by eexists).
Qed.

(** One call of such a stretch. *)
Lemma says_acts g p pages Q bs q pages' q' o : says g p pages Q bs q -> acts g p pages q pages' q' o ->
  (Q q /\ bs = []) \/ (pages' = pages /\ exists bs', bs = o ++ bs' /\ says g p pages Q bs' q').
Proof.
  intros H Ha. destruct H as [q Hq|b bs k H|c k r bs Hc H]; [by left|right|right]; inversion Ha; subst.
  - split; [done|]. by exists bs.
  - simplify_eq. split; [done|]. by exists bs.
Qed.

Lemma says_stop {A} g p pages (Q : uprog A -> Prop) bs q : says g p pages Q bs q ->
  match q with USys (Cwrite _ _) _ | USys (Cshmem _) _ => False | _ => True end -> Q q /\ bs = [].
Proof. by intros []. Qed.

Lemma of_page_same page get pages r pages' : of_page page get pages = Some (r, pages') -> pages' = pages.
Proof. unfold of_page. case_match; [by intros [= _ <-]|]. destruct (pages !! _); [by intros [= _ <-]|done]. Qed.

Lemma drifts_acts g p pages (Q : uprog unit -> Prop) q pages' q' o : drifts Q q -> acts g p pages q pages' q' o ->
  Q q \/ (pages' = pages /\ drifts Q q').
Proof.
  intros H Ha. destruct H as [q Hq|c k Hc H]; [by left|right]. inversion Ha as [|? ? c' r k' E]; subst; [by split|].
  split; [|done]. destruct c'; try done; by apply of_page_same in E.
Qed.

(** A stretch can be run. *)
Lemma says_runs g p pages Q bs : forall q procs par o, says g p pages Q bs q -> procs !! p = Some (mkuproc par (Some q) o) ->
  exists q', Q q' /\ rtc (ustep g) (mkusys pages procs) (mkusys pages (<[p := mkuproc par (Some q') (o ++ bs)]> procs)).
Proof.
  intros q procs par o H. revert procs o. induction H as [q Hq|b bs k H IH|c k r bs Hc H IH]; intros procs o Hp.
  - exists q. split; [done|]. rewrite app_nil_r, insert_id by done. apply rtc_refl.
  - edestruct (IH (<[p := mkuproc par (Some (k (1, []))) (o ++ [b])]> procs)) as (q' & Hq' & Hr); [by apply lookup_insert_eq|].
    exists q'. split; [done|]. rewrite insert_insert_eq, <- app_assoc in Hr. eapply rtc_l; [|exact Hr].
    eapply us_local; [exact Hp|]. exact (ac_write g p pages 1 [b] k).
  - edestruct (IH (<[p := mkuproc par (Some (k (r, []))) (o ++ [])]> procs)) as (q' & Hq' & Hr); [by apply lookup_insert_eq|].
    exists q'. split; [done|]. rewrite insert_insert_eq, <- app_assoc in Hr. eapply rtc_l; [|exact Hr].
    eapply us_local; [exact Hp|]. by constructor.
Qed.

(** ** shmem_test *)

(** What the process that was started writes. *)
Definition before_fork : list Z := bytes "0" ++ tab ++ bytes "NOT_SET  " ++ tab ++ line "0".
Definition after_wait : list Z :=
  line "Parent process" ++ bytes "0" ++ tab ++ bytes "WRITABLE" ++ tab ++ line "1" ++ line "Value: 42" ++ line "Value: 43".
Definition shmem_test_output : list Z := before_fork ++ after_wait.

Section Test.
Context (g : Z) (Hg : 0 < g).

(** The pages while page 0 is [a]. *)
Definition pg (a : apage) : list apage := a :: replicate 3 free_page.

Abbreviation page U W := (mkapage ReadWrite g U W).
Abbreviation W0 := zero_words.
Definition W1 : list Z := <[0%nat := 42]> W0.
Definition W2 : list Z := <[1%nat := 43]> W1.

Definition is_exit (q : uprog unit) : Prop := exists st, q = UExit st.

(** The places of the child's program. *)
Definition at_write1 (q : uprog unit) : Prop :=
  exists k, q = USys (Cshmem (Sh_write_int 0 1 43)) k /\ forall r, drifts is_exit (k r).
Definition at_write0 (q : uprog unit) : Prop :=
  exists k, q = USys (Cshmem (Sh_write_int 0 0 42)) k /\ forall r, drifts at_write1 (k r).
Definition at_set (q : uprog unit) : Prop :=
  exists k, q = USys (Cshmem (Sh_set_writable 0)) k /\ forall r, drifts at_write0 (k r).

(** The page's words and the child's program once the page is set. *)
Inductive phase : list Z -> uprog unit -> Prop :=
| ph_0 q : drifts at_write0 q -> phase W0 q
| ph_1 q : drifts at_write1 q -> phase W1 q
| ph_2 q : drifts is_exit q -> phase W2 q.

(** The parent after fork(), and in wait(). *)
Definition parent_code (n : nat) : uprog unit :=
  (spin_acquire n 0 ;;
   sys Cwait ;;
   printf (line "Parent process") [] ;;
   check_shmem_state 0 ;;
   v <- shmem (Sh_read_int 0 0) ;;
   printf (line "Value: %d") [U_num v] ;;
   v <- shmem (Sh_read_int 0 1) ;;
   printf (line "Value: %d") [U_num v]) ;;
  UExit 0.

Definition child_code : uprog unit :=
  (printf (line "Child process") [] ;;
   check_shmem_state 0 ;;
   printf (line "shmem_set_writable") [] ;;
   shmem (Sh_set_writable 0) ;;
   check_shmem_state 0 ;;
   shmem (Sh_write_int 0 0 42) ;;
   shmem (Sh_write_int 0 1 43) ;;
   URet tt) ;;
  UExit 0.

Definition waits (k : answer -> uprog unit) : Prop := forall r, says g 0 (pg (page {[0%nat]} W2)) is_exit after_wait (k r).

(** At fork(), with the fuel [n] of the parent's loop. *)
Definition forks (n : nat) (q : uprog unit) : Prop :=
  exists k, q = USys Cfork k /\ k (0, []) = child_code /\ forall pid, pid <> 0 -> k (pid, []) = parent_code n.

Lemma child_drifts : drifts at_set child_code.
Proof.
  apply drifts_bind_l; [apply drifts_printf|intros _]. apply drifts_bind_l; [apply drifts_check|intros _].
  apply drifts_bind_l; [apply drifts_printf|intros _]. apply dr_end. eexists. split; [reflexivity|]. intros r.
  change (drifts at_write0 ((check_shmem_state 0 ;; shmem (Sh_write_int 0 0 42) ;; shmem (Sh_write_int 0 1 43) ;; URet tt) ;; UExit 0)).
  apply drifts_bind_l; [apply drifts_check|intros _]. apply dr_end. eexists. split; [reflexivity|]. intros r'.
  apply dr_end. eexists. split; [reflexivity|]. intros r''. apply dr_end. by eexists.
Qed.

Lemma start_says n : says g 0 (pg free_page) (forks n) before_fork (shmem_test_main n).
Proof.
  unfold shmem_test_main, before_fork.
  repeat first [apply sy_write | eapply sy_call; [reflexivity|]].
  apply sy_end. eexists. split; [reflexivity|]. split; [reflexivity|]. intros pid Hp. cbn. rewrite (proj2 (Z.eqb_neq _ _) Hp). reflexivity.
Qed.

Lemma wait_says n : exists k, parent_code (S n) = USys (Cshmem (Sh_acquire_access 0)) k /\ k (0, []) = parent_code n /\
  exists k', k (1, []) = USys Cwait k' /\ waits k'.
Proof.
  eexists. split; [reflexivity|]. split; [reflexivity|]. eexists. split; [reflexivity|]. intros r.
  repeat first [apply sy_write | eapply sy_call; [reflexivity|]].
  apply sy_end. by eexists.
Qed.

(** The calls on page 0. *)
Lemma on_page_0 p op a : on_page p g 0 op (pg a) = match aop p g op a with Some (r, a) => Some (r, pg a) | None => None end.
Proof. unfold on_page. change ((0 <? 0) || (0 >? Z.of_nat SHMEM - 1)) with false. cbv iota.
  change (pg a !! Z.to_nat 0) with (Some a). cbn [mbind option_bind]. by destruct (aop p g op a) as [[r a']|]. Qed.

Lemma call_write p U W i v : p ∈ U ->
  shmem_call p g (Sh_write_int 0 i v) (pg (page U W)) = Some (0, pg (page U (<[Z.to_nat i := s32 v]> W))).
Proof. intros Hp. cbn [shmem_call]. rewrite on_page_0. cbn [aop a_mode a_users]. by rewrite (bool_decide_true (p ∈ U)). Qed.

Lemma call_set p : shmem_call p g (Sh_set_writable 0) (pg free_page) = Some (0, pg (page ({[p]} ∪ ∅) W0)).
Proof. reflexivity. Qed.

Lemma call_acquire_free p : shmem_call p g (Sh_acquire_access 0) (pg free_page) = Some (0, pg free_page).
Proof. reflexivity. Qed.

Lemma call_acquire p U W : p ∉ U ->
  shmem_call p g (Sh_acquire_access 0) (pg (page U W)) = Some (1, pg (page ({[p]} ∪ U) W)).
Proof. intros Hp. cbn [shmem_call]. rewrite on_page_0. cbn [aop a_mode a_users a_group]. by rewrite (bool_decide_true (p ∉ U)), Z.eqb_refl. Qed.

(** One call of the child. *)
Lemma phase_acts c U W q pages' q' o : phase W q -> c ∈ U -> acts g c (pg (page U W)) q pages' q' o ->
  exists W', pages' = pg (page U W') /\ phase W' q'.
Proof.
  intros Hp Hc Ha. destruct Hp as [q Hq|q Hq|q Hq];
    (destruct (drifts_acts _ _ _ _ _ _ _ _ Hq Ha) as [HQ|[-> Hd]]; [|by eexists; split; [|constructor]]).
  - destruct HQ as (k & -> & Hk). inversion Ha as [|? ? ? r ? E]; subst. rewrite call_write in E by done. simplify_eq.
    exists W1. split; [reflexivity|]. constructor. apply Hk.
  - destruct HQ as (k & -> & Hk). inversion Ha as [|? ? ? r ? E]; subst. rewrite call_write in E by done. simplify_eq.
    exists W2. split; [reflexivity|]. constructor. apply Hk.
  - destruct HQ as [st ->]. inversion Ha.
Qed.

Lemma drifts_exit (Q : uprog unit -> Prop) q st : drifts Q q -> q = UExit st -> Q q.
Proof. intros H E. destruct H; [done|discriminate E]. Qed.

Lemma phase_exit W st : phase W (UExit st) -> W = W2.
Proof.
  intros H. inversion H as [q Hq E|q Hq E|q Hq E]; subst; [| |done]; destruct (drifts_exit _ _ _ Hq eq_refl) as (k & ? & _); done.
Qed.

(** The pages' other calls. *)
Lemma drifts_panic (Q : uprog unit -> Prop) c a k p : drifts Q (USys (Cshmem c) k) -> shmem_call p g c (pg a) = None -> Q (USys (Cshmem c) k).
Proof. intros H E. inversion H as [|? ? Hc _]; subst; [done|]. destruct c; try done; by destruct page; try done. Qed.

Lemma phase_no_panic p c U W k : phase W (USys (Cshmem c) k) -> p ∈ U -> shmem_call p g c (pg (page U W)) <> None.
Proof.
  intros H Hp E. inversion H as [q Hq Eq|q Hq Eq|q Hq Eq]; subst.
  3: by destruct (drifts_panic _ _ _ _ _ Hq E) as [st Ek].
  all: destruct (drifts_panic _ _ _ _ _ Hq E) as (k' & Ek & _); simplify_eq; by rewrite call_write in E.
Qed.

Lemma says_no_panic (Q : uprog unit -> Prop) a p c k bs : says g p (pg a) Q bs (USys (Cshmem c) k) -> ~ Q (USys (Cshmem c) k) ->
  shmem_call p g c (pg a) <> None.
Proof. intros H HQ E. inversion H; subst; [done|congruence]. Qed.

(** ** The interleavings *)

(** Page 0, the child [c] and the parent. *)
Inductive pair (c : nat) : apage -> option (uprog unit) -> uprog unit -> Prop :=
| pr_before q n : drifts at_set q -> pair c free_page (Some q) (parent_code n)
| pr_set W q n : phase W q -> pair c (page ({[c]} ∪ ∅) W) (Some q) (parent_code n)
| pr_both W q k : phase W q -> waits k -> pair c (page ({[0%nat]} ∪ ({[c]} ∪ ∅)) W) (Some q) (USys Cwait k)
| pr_lost n : pair c free_page None (parent_code n)
| pr_left k : waits k -> pair c (page {[0%nat]} W2) None (USys Cwait k).

Inductive tinv : usys -> Prop :=
| t_start n bs o q : says g 0 (pg free_page) (forks n) bs q -> o ++ bs = before_fork ->
    tinv (mkusys (pg free_page) {[0%nat := mkuproc None (Some q) o]})
| t_alone n : tinv (mkusys (pg free_page) {[0%nat := mkuproc None (Some (parent_code n)) before_fork]})
| t_pair c a cq pq o : c <> 0%nat -> pair c a cq pq ->
    tinv (mkusys (pg a) (<[c := mkuproc (Some 0%nat) cq o]> {[0%nat := mkuproc None (Some pq) before_fork]}))
| t_last bs o q : says g 0 (pg (page {[0%nat]} W2)) is_exit bs q -> o ++ bs = shmem_test_output ->
    tinv (mkusys (pg (page {[0%nat]} W2)) {[0%nat := mkuproc None (Some q) o]})
| t_end pages : tinv (mkusys pages {[0%nat := mkuproc None None shmem_test_output]}).

Lemma one_lookup {A} (x y : A) p : ({[0%nat := x]} : gmap nat A) !! p = Some y -> p = 0%nat /\ y = x.
Proof. by intros [<- <-]%lookup_singleton_Some. Qed.

Lemma two_lookup {A} (x y z : A) c p : c <> 0%nat -> (<[c := x]> {[0%nat := y]} : gmap nat A) !! p = Some z ->
  (p = c /\ z = x) \/ (p = 0%nat /\ z = y).
Proof. intros Hc [[<- <-]|[_ [-> ->]%one_lookup]]%lookup_insert_Some; auto. Qed.

Lemma two_first {A} (x y y' : A) c : c <> 0%nat -> (<[0%nat := y']> (<[c := x]> {[0%nat := y]}) : gmap nat A) = <[c := x]> {[0%nat := y']}.
Proof. intros Hc. by rewrite insert_insert_ne, insert_singleton_eq. Qed.

(** The calls of the parent after fork(). *)
Lemma parent_shape n : parent_code n = UStuck \/ exists k, parent_code n = USys (Cshmem (Sh_acquire_access 0)) k.
Proof. destruct n as [|n]; [by left|right]. by eexists. Qed.

Lemma parent_free n pages' q' o : acts g 0 (pg free_page) (parent_code n) pages' q' o ->
  pages' = pg free_page /\ o = [] /\ exists m, q' = parent_code m.
Proof.
  intros Ha. destruct n as [|n]; [inversion Ha|]. destruct (wait_says n) as (k & E & Ek & _). rewrite E in Ha.
  inversion Ha as [|? ? ? r ? Ec]; subst. rewrite call_acquire_free in Ec. simplify_eq. rewrite Ek. eauto.
Qed.

Lemma parent_gets c W n pages' q' o : c <> 0%nat -> acts g 0 (pg (page ({[c]} ∪ ∅) W)) (parent_code n) pages' q' o ->
  pages' = pg (page ({[0%nat]} ∪ ({[c]} ∪ ∅)) W) /\ o = [] /\ exists k, q' = USys Cwait k /\ waits k.
Proof.
  intros Hc Ha. destruct n as [|n]; [inversion Ha|]. destruct (wait_says n) as (k & E & _ & k' & Ek & Hk). rewrite E in Ha.
  inversion Ha as [|? ? ? r ? Ec]; subst. rewrite call_acquire in Ec by set_solver. simplify_eq. rewrite Ek. eauto 6.
Qed.

Lemma drifts_at (Q : uprog unit -> Prop) q c k : drifts Q q -> q = USys c k -> asks c = false -> Q q.
Proof. intros H E Hc. destruct H as [|c' k' Hc' _]; [done|]. congruence. Qed.

(** The ends of a process. *)
Lemma left_free p : left_by p g free_page = free_page.
Proof.
  unfold left_by, free_page. cbn [a_group a_users a_mode a_words]. rewrite (proj2 (Z.eqb_neq (-1) g)), andb_false_r by lia. f_equal. set_solver.
Qed.

Lemma left_pages p a : left_by p g <$> pg a = pg (left_by p g a).
Proof. unfold pg. cbn. by rewrite !left_free. Qed.

Lemma forked_pages c : forked 0 c <$> pg free_page = pg free_page.
Proof. reflexivity. Qed.

Lemma left_alone c W : left_by c g (page ({[c]} ∪ ∅) W) = free_page.
Proof. unfold left_by. cbn [a_group a_users]. rewrite bool_decide_true by set_solver. by rewrite Z.eqb_refl. Qed.

Lemma left_one c W : c <> 0%nat -> left_by c g (page ({[0%nat]} ∪ ({[c]} ∪ ∅)) W) = page {[0%nat]} W.
Proof.
  intros Hc. unfold left_by. cbn [a_group a_users a_mode a_words]. assert (({[0%nat]} ∪ ({[c]} ∪ ∅)) ∖ {[c]} =@{gset nat} {[0%nat]}) as E by set_solver.
  rewrite E, bool_decide_false by set_solver. done.
Qed.

Ltac ustep_cases H :=
  inversion H as [? ? ? p par prog prog' o' bs' Hp Ha|? ? p par c' pid k o' Hp Hc Hpid|? ? p par k o' Hp|
    ? ? p par c' pid k o' o'' Hp Hc Hpid|? ? p par k o' Hp Hc|? ? p par st o' Hp]; subst.

Lemma step_start n bs o q s' : says g 0 (pg free_page) (forks n) bs q -> o ++ bs = before_fork ->
  ustep g (mkusys (pg free_page) {[0%nat := mkuproc None (Some q) o]}) s' -> tinv s'.
Proof.
  intros Hs Ho Hst. ustep_cases Hst; apply one_lookup in Hp as [-> Hp]; simplify_eq Hp; intros; simplify_eq.
  - destruct (says_acts _ _ _ _ _ _ _ _ _ Hs Ha) as [[(k & -> & _) _]|[-> (bs'' & -> & Hs')]]; [inversion Ha|].
    rewrite insert_singleton_eq. eapply t_start; [exact Hs'|]. by rewrite <- app_assoc.
  - destruct (says_stop _ _ _ _ _ _ Hs I) as [(k' & Ek & Hch & Hpar) ->]. injection Ek as <-. rewrite forked_pages, Hch, Hpar, insert_singleton_eq by lia. rewrite lookup_singleton_None in Hc. rewrite app_nil_r in Ho. subst o.
    apply t_pair; [congruence|]. constructor. apply child_drifts.
  - destruct (says_stop _ _ _ _ _ _ Hs I) as [(k' & Ek & Hch & Hpar) ->]. injection Ek as <-. rewrite Hpar, insert_singleton_eq by lia. rewrite app_nil_r in Ho. subst o. constructor.
  - by apply one_lookup in Hc as [_ [=]].
  - by destruct (says_stop _ _ _ _ _ _ Hs I) as [(k' & [=] & _) _].
  - by destruct (says_stop _ _ _ _ _ _ Hs I) as [(k' & [=] & _) _].
Qed.

Lemma step_alone n s' : ustep g (mkusys (pg free_page) {[0%nat := mkuproc None (Some (parent_code n)) before_fork]}) s' -> tinv s'.
Proof.
  intros Hst. ustep_cases Hst; apply one_lookup in Hp as [-> Hp].
  1: { simplify_eq. destruct (parent_free _ _ _ _ Ha) as (-> & -> & m & ->). rewrite insert_singleton_eq, app_nil_r. constructor. }
  all: injection Hp as Ep Eq Eo; destruct (parent_shape n) as [E|[k' E]]; rewrite E in Eq; discriminate Eq.
Qed.

Lemma step_last bs o q s' : says g 0 (pg (page {[0%nat]} W2)) is_exit bs q -> o ++ bs = shmem_test_output ->
  ustep g (mkusys (pg (page {[0%nat]} W2)) {[0%nat := mkuproc None (Some q) o]}) s' -> tinv s'.
Proof.
  intros Hs Ho Hst. ustep_cases Hst; apply one_lookup in Hp as [-> Hp]; simplify_eq Hp; intros; simplify_eq.
  1: { destruct (says_acts _ _ _ _ _ _ _ _ _ Hs Ha) as [[[st ->] _]|[-> (bs'' & -> & Hs')]]; [inversion Ha|].
       rewrite insert_singleton_eq. eapply t_last; [exact Hs'|]. by rewrite <- app_assoc. }
  all: destruct (says_stop _ _ _ _ _ _ Hs I) as [[st' E] ->]; try discriminate E.
  rewrite insert_singleton_eq, map_fmap_singleton, app_nil_r in *. subst o. apply t_end.
Qed.

Lemma step_end pages o s' : ustep g (mkusys pages {[0%nat := mkuproc None None o]}) s' -> False.
Proof. intros Hst. ustep_cases Hst; by apply one_lookup in Hp as [-> Hp]. Qed.

(** The two processes. *)
Lemma pair_child c a q pq pages' q' bs : pair c a (Some q) pq -> acts g c (pg a) q pages' q' bs ->
  exists a', pages' = pg a' /\ pair c a' (Some q') pq.
Proof.
  intros Hp Ha. inversion Hp as [? n Hq|W ? n Hq|W ? k Hq Hk| |]; subst.
  - destruct (drifts_acts _ _ _ _ _ _ _ _ Hq Ha) as [(k & -> & Hk)|[-> Hd]]; [|by eexists; split; [|constructor]].
    inversion Ha as [|? ? ? r ? E]; subst. rewrite call_set in E. simplify_eq. eexists. split; [done|]. constructor. constructor. apply Hk.
  - edestruct (phase_acts c) as (W' & -> & HW); [exact Hq| |exact Ha|]; [set_solver|]. eexists. split; [done|]. by constructor.
  - edestruct (phase_acts c) as (W' & -> & HW); [exact Hq| |exact Ha|]; [set_solver|]. eexists. split; [done|]. by constructor.
Qed.

Lemma pair_parent c a cq pq pages' pq' bs : c <> 0%nat -> pair c a cq pq -> acts g 0 (pg a) pq pages' pq' bs ->
  bs = [] /\ exists a', pages' = pg a' /\ pair c a' cq pq'.
Proof.
  intros Hc Hp Ha. destruct Hp as [q n Hq|W q n Hq|W q k Hq Hk|n|k Hk]; [| |inversion Ha| |inversion Ha].
  - destruct (parent_free _ _ _ _ Ha) as (-> & -> & m & ->). split; [done|]. eexists. split; [done|]. by constructor.
  - destruct (parent_gets _ _ _ _ _ _ Hc Ha) as (-> & -> & k & -> & Hk). split; [done|]. eexists. split; [done|]. by constructor.
  - destruct (parent_free _ _ _ _ Ha) as (-> & -> & m & ->). split; [done|]. eexists. split; [done|]. by constructor.
Qed.

Lemma pair_exit c a st pq : c <> 0%nat -> pair c a (Some (UExit st)) pq -> pair c (left_by c g a) None pq.
Proof.
  intros Hc Hp. inversion Hp as [? n Hq|W ? n Hq|W ? k Hq Hk| |]; subst.
  - by destruct (drifts_exit _ _ _ Hq eq_refl) as (k & ? & _).
  - rewrite left_alone. constructor.
  - rewrite left_one, (phase_exit _ _ Hq) by done. by constructor.
Qed.

Lemma pair_wait c a k : pair c a None (USys Cwait k) -> a = page {[0%nat]} W2 /\ waits k.
Proof. intros Hp. inversion Hp as [| | |n E1 E2 E3|]; subst; [|done]. destruct (parent_shape n) as [E|[k' E]]; congruence. Qed.

Lemma pair_at c a q pq : pair c a (Some q) pq -> match q with USys Cfork _ | USys Cwait _ => False | _ => True end.
Proof.
  intros Hp. destruct q as [| | |cl k]; try done. assert (forall Q : uprog unit -> Prop, drifts Q (USys cl k) -> asks cl = false -> Q (USys cl k)) as Hd.
  { intros Q H Hc. by apply (drifts_at Q _ cl k). }
  inversion Hp as [? n Hq|W ? n Hq|W ? k' Hq Hk| |]; subst; [|inversion Hq as [? Hq'|? Hq'|? Hq']; subst..];
    destruct cl; try done; by destruct (Hd _ ltac:(eassumption) eq_refl) as [? E]; (destruct E; discriminate) || discriminate.
Qed.

Lemma pair_parent_at c a cq pq : pair c a cq pq -> match pq with USys Cfork _ | UExit _ => False | _ => True end.
Proof. intros [q n Hq|W q n Hq|W q k Hq Hk|n|k Hk]; try done; by destruct (parent_shape n) as [->|[k' ->]]. Qed.

Lemma step_pair c a cq pq o s' : c <> 0%nat -> pair c a cq pq ->
  ustep g (mkusys (pg a) (<[c := mkuproc (Some 0%nat) cq o]> {[0%nat := mkuproc None (Some pq) before_fork]})) s' -> tinv s'.
Proof.
  intros Hne Hpr Hst. ustep_cases Hst; destruct (two_lookup _ _ _ _ _ Hne Hp) as [[-> E]|[-> E]]; simplify_eq E; intros; simplify_eq.
  - destruct (pair_child _ _ _ _ _ _ _ Hpr Ha) as (a' & -> & Hp'). rewrite insert_insert_eq. by apply t_pair.
  - destruct (pair_parent _ _ _ _ _ _ _ Hne Hpr Ha) as (-> & a' & -> & Hp'). rewrite two_first, app_nil_r by done. by apply t_pair.
  - by apply pair_at in Hpr.
  - by apply pair_parent_at in Hpr.
  - by apply pair_at in Hpr.
  - by apply pair_parent_at in Hpr.
  - by apply pair_at in Hpr.
  - destruct (two_lookup _ _ _ _ _ Hne Hc) as [[-> E']|[-> E']]; [|done]. simplify_eq. destruct (pair_wait _ _ _ Hpr) as [-> Hk].
    rewrite two_first, delete_insert_id by (done || by rewrite lookup_singleton_ne). eapply t_last; [apply Hk|done].
  - by apply pair_at in Hpr.
  - destruct (Hc c cq o). by rewrite lookup_insert_eq.
  - rewrite left_pages, insert_insert_eq, fmap_insert, map_fmap_singleton. cbn [up_parent up_prog up_out].
    rewrite !bool_decide_false by congruence. apply t_pair; [done|]. by apply (pair_exit _ _ st).
  - by apply pair_parent_at in Hpr.
Qed.

Lemma tinv_step s s' : tinv s -> ustep g s s' -> tinv s'.
Proof.
  intros Hi Hst. destruct Hi; [by eapply step_start|by eapply step_alone|by eapply step_pair|by eapply step_last|by destruct (step_end _ _ _ Hst)].
Qed.

Lemma tinv_reach n s : rtc (ustep g) (ustart (shmem_test_main n)) s -> tinv s.
Proof.
  intros H. assert (tinv (ustart (shmem_test_main n))) as Hi by (eapply t_start; [apply start_says|done]).
  revert Hi. induction H as [s|s s1 s2 Hs _ IH]; intros Hi; [done|]. by eapply IH, tinv_step.
Qed.

Lemma tinv_ended s o : tinv s -> ended 0 o s -> o = shmem_test_output.
Proof.
  intros Hi [par E]. destruct Hi as [n bs o' q Hs Ho|n|c a cq pq o' Hc Hp|bs o' q Hs Ho|pages]; cbn [us_procs] in E.
  3: by destruct (two_lookup _ _ _ _ _ Hc E) as [[? ?]|[_ ?]].
  all: apply one_lookup in E as [_ E]; by simplify_eq.
Qed.

Lemma parent_no_panic n c k a : parent_code n = USys (Cshmem c) k -> a = free_page \/ (exists U W, a = page U W /\ 0%nat ∉ U) ->
  shmem_call 0 g c (pg a) <> None.
Proof.
  intros E Ha. destruct (parent_shape n) as [E'|[k' E']]; rewrite E' in E; [done|]. injection E as <- <-.
  destruct Ha as [->|(U & W & -> & H0)]; [by rewrite call_acquire_free|by rewrite call_acquire].
Qed.

Lemma pair_no_panic c a cq pq p sc k : c <> 0%nat -> pair c a cq pq ->
  (p = c /\ cq = Some (USys (Cshmem sc) k)) \/ (p = 0%nat /\ pq = USys (Cshmem sc) k) ->
  shmem_call p g sc (pg a) <> None.
Proof.
  intros Hc Hp Hw E. destruct Hw as [[-> ->]|[-> ->]].
  - inversion Hp as [? n Hq|W ? n Hq|W ? k' Hq Hk| |]; subst.
    + destruct (drifts_panic _ _ _ _ _ Hq E) as (k' & Ek & _). by simplify_eq.
    + revert E. eapply phase_no_panic; [exact Hq|set_solver].
    + revert E. eapply phase_no_panic; [exact Hq|set_solver].
  - revert E. inversion Hp as [? n Hq E1 E2 E3|W ? n Hq E1 E2 E3| |n E1 E2 E3|]; subst; apply (parent_no_panic _ _ _ _ E3); [by left| |by left].
    right. eexists _, _. split; [done|]. set_solver.
Qed.

Lemma tinv_no_panic s : tinv s -> ~ upanics g s.
Proof.
  intros Hi (p & par & c & k & o & E & Ec).
  destruct Hi as [n bs o' q Hs Ho|n|c' a cq pq o' Hc Hp|bs o' q Hs Ho|pages]; cbn [us_procs us_pages] in *.
  3: { revert Ec. apply (pair_no_panic _ _ _ _ _ _ k Hc Hp). destruct (two_lookup _ _ _ _ _ Hc E) as [[-> Eq]|[-> Eq]]; injection Eq; auto. }
  all: apply one_lookup in E as [-> E]; try done; injection E as _ Eq _; revert Ec.
  - subst q. eapply says_no_panic; [exact Hs|]. by intros (? & ? & _).
  - eapply parent_no_panic; [symmetry; exact Eq|by left].
  - subst q. eapply says_no_panic; [exact Hs|]. by intros (? & ?).
Qed.

(** ** Executions *)

(** The child between its calls that change the page, whose users are [U] once set. *)
Definition writes_next (q : uprog unit) : Prop :=
  exists k k' st, q = USys (Cshmem (Sh_write_int 0 0 42)) k /\ k (0, []) = USys (Cshmem (Sh_write_int 0 1 43)) k' /\ k' (0, []) = UExit st.

Definition sets_next (U : gset nat) (q : uprog unit) : Prop :=
  exists k bs, q = USys (Cshmem (Sh_set_writable 0)) k /\ says g 1 (pg (page U W0)) writes_next bs (k (0, [])).

Lemma child_says U : U = {[1%nat]} ∪ ∅ \/ U = {[0%nat]} ∪ ({[1%nat]} ∪ ∅) ->
  exists bs, says g 1 (pg free_page) (sets_next U) bs child_code.
Proof.
  intros [-> | ->]; eexists; unfold child_code;
    (repeat first [apply sy_write | eapply sy_call; [reflexivity|]]); apply sy_end; (eexists _, _; split; [reflexivity|]);
    (repeat first [apply sy_write | eapply sy_call; [reflexivity|]]); apply sy_end; (eexists _, _, _; split; [reflexivity|by split]).
Qed.

(** The parent and its child, slot 1. *)
Definition both (x : option (uprog unit)) (o : list Z) (y : uprog unit) : gmap nat uproc :=
  <[1%nat := mkuproc (Some 0%nat) x o]> {[0%nat := mkuproc None (Some y) before_fork]}.

Lemma child_call pages pages' c r k y o : shmem_call 1 g c pages = Some (r, pages') ->
  ustep g (mkusys pages (both (Some (USys (Cshmem c) k)) o y)) (mkusys pages' (both (Some (k (r, []))) o y)).
Proof.
  intros Hc. pose proof (us_local g pages pages' (both (Some (USys (Cshmem c) k)) o y) 1 (Some 0%nat) _ _ o [] (lookup_insert_eq _ _ _) (ac_shmem _ _ _ _ _ _ _ Hc)) as H.
  by rewrite app_nil_r in H; unfold both in *; rewrite insert_insert_eq in H.
Qed.

Lemma child_runs pages Q bs q y o : says g 1 pages Q bs q ->
  exists q' o', Q q' /\ rtc (ustep g) (mkusys pages (both (Some q) o y)) (mkusys pages (both (Some q') o' y)).
Proof.
  intros Hs. destruct (says_runs g 1 pages Q bs q (both (Some q) o y) (Some 0%nat) o Hs (lookup_insert_eq _ _ _)) as (q' & HQ & Hr).
  exists q', (o ++ bs). split; [done|]. unfold both in *. by rewrite insert_insert_eq in Hr.
Qed.

Lemma child_exit a st y o :
  ustep g (mkusys (pg a) (both (Some (UExit st)) o y)) (mkusys (pg (left_by 1 g a)) (both None o y)).
Proof.
  pose proof (us_exit g (pg a) (both (Some (UExit st)) o y) 1 (Some 0%nat) st o (lookup_insert_eq _ _ _)) as H.
  rewrite left_pages in H. unfold both in *. rewrite insert_insert_eq, fmap_insert, map_fmap_singleton in H. done.
Qed.

(** The child writes both values and ends. *)
Lemma child_ends U q y o bs : 1%nat ∈ U -> says g 1 (pg (page U W0)) writes_next bs q ->
  exists o', rtc (ustep g) (mkusys (pg (page U W0)) (both (Some q) o y)) (mkusys (pg (left_by 1 g (page U W2))) (both None o' y)).
Proof.
  intros HU Hs. destruct (child_runs _ _ _ _ y o Hs) as (q' & o' & (k & k' & st & -> & E1 & E2) & Hr). exists o'.
  etrans; [exact Hr|]. eapply rtc_l; [apply child_call; by apply call_write|]. rewrite E1.
  eapply rtc_l; [apply child_call; by apply call_write|]. rewrite E2. apply rtc_once, child_exit.
Qed.

(** Up to the child's first change of the page. *)
Lemma run_fork n U : U = {[1%nat]} ∪ ∅ \/ U = {[0%nat]} ∪ ({[1%nat]} ∪ ∅) ->
  exists q o bs, says g 1 (pg (page U W0)) writes_next bs q /\
    rtc (ustep g) (ustart (shmem_test_main n)) (mkusys (pg (page ({[1%nat]} ∪ ∅) W0)) (both (Some q) o (parent_code n))).
Proof.
  intros HU. destruct (says_runs g 0 _ _ _ _ {[0%nat := mkuproc None (Some (shmem_test_main n)) []]} None [] (start_says n) (lookup_singleton_eq _ _))
    as (q0 & (k & -> & Hch & Hpar) & Hr0).
  rewrite insert_singleton_eq in Hr0. cbn [app] in Hr0. destruct (child_says U HU) as [bs Hs].
  destruct (child_runs _ _ _ _ (parent_code n) [] Hs) as (q1 & o1 & (k1 & bs1 & -> & Hs1) & Hr1).
  exists (k1 (0, [])), o1, bs1. split; [done|]. etrans; [exact Hr0|]. eapply rtc_l; [|etrans; [exact Hr1|apply rtc_once, child_call, call_set]].
  pose proof (us_fork g (pg free_page) {[0%nat := mkuproc None (Some (USys Cfork k)) before_fork]} 0 None 1 2 k before_fork
    (lookup_singleton_eq _ _) (lookup_singleton_ne _ _ _ ltac:(done)) ltac:(lia)) as H.
  rewrite forked_pages, insert_singleton_eq, Hch, Hpar in H by lia. exact H.
Qed.

(** The parent takes part before the child ends, and both end. *)
Lemma run_ends n : exists s, rtc (ustep g) (ustart (shmem_test_main (S n))) s /\ ended 0 shmem_test_output s.
Proof.
  destruct (run_fork (S n) ({[0%nat]} ∪ ({[1%nat]} ∪ ∅)) (or_intror eq_refl)) as (q & o & bs & Hs & Hr).
  destruct (wait_says n) as (k & Ek & _ & k' & Ek' & Hk). set (U := {[0%nat]} ∪ ({[1%nat]} ∪ ∅)) in *.
  destruct (child_ends U q (USys Cwait k') o bs ltac:(set_solver) Hs) as [o' Hr2]. rewrite left_one in Hr2 by done.
  set (P := mkusys (pg (page {[0%nat]} W2)) {[0%nat := mkuproc None (Some (k' (2, []))) before_fork]}).
  destruct (says_runs g 0 _ _ _ _ (us_procs P) None before_fork (Hk (2, [])) (lookup_singleton_eq _ _)) as (q3 & [st ->] & Hr3).
  change (before_fork ++ after_wait) with shmem_test_output in Hr3. cbn [us_procs P] in Hr3. rewrite insert_singleton_eq in Hr3.
  eexists. split; [etrans; [exact Hr|]; eapply rtc_l; [|etrans; [exact Hr2|]; eapply rtc_l; [|etrans; [exact Hr3|]; apply rtc_once]]|].
  - pose proof (us_local g _ _ (both (Some q) o (parent_code (S n))) 0 None _ _ before_fork [] ltac:(done)
      (eq_ind_r (fun c => acts g 0 _ c _ _ _) (ac_shmem _ _ _ _ _ _ k (call_acquire 0 ({[1%nat]} ∪ ∅) W0 ltac:(set_solver))) Ek)) as H.
    unfold both in *. rewrite two_first, app_nil_r, Ek' in H by done. exact H.
  - pose proof (us_wait g (pg (page {[0%nat]} W2)) (both None o' (USys Cwait k')) 0 None 1 2 k' before_fork o' ltac:(done) (lookup_insert_eq _ _ _) ltac:(lia)) as H.
    unfold both in *. rewrite two_first, delete_insert_id in H by done. exact H.
  - apply (us_exit _ _ _ 0 None st shmem_test_output). apply lookup_singleton_eq.
  - exists None. rewrite insert_singleton_eq, map_fmap_singleton. apply lookup_singleton_eq.
Qed.

(** The child has ended before the parent got access. *)
Inductive hung : usys -> Prop :=
| hg n o : hung (mkusys (pg free_page) (both None o (parent_code n))).

Lemma hung_step s s' : hung s -> ustep g s s' -> hung s'.
Proof.
  intros [n o] Hst. unfold both in Hst. assert (1%nat <> 0%nat) as Hne by done.
  ustep_cases Hst; destruct (two_lookup _ _ _ _ _ Hne Hp) as [[-> E]|[-> E]]; try done; injection E as Ep Eq Eo; subst.
  1: { destruct (parent_free _ _ _ _ Ha) as (-> & -> & m & ->). rewrite two_first, app_nil_r by done. constructor. }
  all: destruct (parent_shape n) as [E|[k' E]]; rewrite E in Eq; discriminate Eq.
Qed.

Lemma hung_forever s s' : hung s -> rtc (ustep g) s s' -> forall o, ~ ended 0 o s'.
Proof.
  intros Hh Hr. assert (hung s') as [n o] by (induction Hr as [|s s1 s2 H1 _ IH]; [done|by eapply IH, hung_step]).
  intros o' [par E]. by destruct (two_lookup _ _ _ _ _ (ltac:(done) : 1%nat <> 0%nat) E) as [[? ?]|[_ ?]].
Qed.

Lemma run_hangs n : exists s, rtc (ustep g) (ustart (shmem_test_main n)) s /\ hung s.
Proof.
  destruct (run_fork n ({[1%nat]} ∪ ∅) (or_introl eq_refl)) as (q & o & bs & Hs & Hr).
  destruct (child_ends ({[1%nat]} ∪ ∅) q (parent_code n) o bs ltac:(set_solver) Hs) as [o' Hr2]. rewrite left_alone in Hr2.
  eexists. split; [etrans; [exact Hr|exact Hr2]|]. constructor.
Qed.
End Test.


