(* ===== verification/Sh.v ===== *)
(** user/sh.c: the parser, from the text of a line to a command whose words are
    pointers into the text; runcmd(), which executes the command; and the shell's
    main loop.

    The parse functions share the pointer *ps: they are commands over a state that
    is this pointer, with the memory [m] they read and the end [es] of the text as
    parameters. runcmd() and main() are user programs ([uprog]). The structures
    malloc() returns are values of [cmd]; a list of pairs stands for argv and eargv
    up to the null pointer. *)
From S2P Require Import Prelude Riscv Machine KString Vm Console UserLib UProg.
Import Ulib Uprintf.

Abbreviation MAXARGS := (10) (only parsing).

Inductive cmd : Type :=
| EXEC (argv : list (Z * Z))
| REDIR (c : cmd) (file efile mode fd : Z)
| PIPE (left right : cmd)
| LIST (left right : cmd)
| BACK (c : cmd).

Definition execcmd : cmd := EXEC [].
Definition redircmd (subcmd : cmd) (file efile mode fd : Z) : cmd := REDIR subcmd file efile mode fd.
Definition pipecmd (left right : cmd) : cmd := PIPE left right.
Definition listcmd (left right : cmd) : cmd := LIST left right.
Definition backcmd (subcmd : cmd) : cmd := BACK subcmd.

(** Space, tab, carriage return, newline, vertical tab; <|>&;() *)
Abbreviation whitespace := ([32; 9; 13; 10; 11]) (only parsing).
Abbreviation symbols := ([60; 124; 62; 38; 59; 40; 41]) (only parsing).

(** strchr(s, c) as a condition. *)
Definition among (s : list Z) (c : Z) : bool := match strchr s c with Some _ => true | None => false end.

Section Parser.
Local Open Scope kernel_scope.
Context (m : memory) (es : Z).

(** The loops that advance s while s < es and a condition on *s holds. *)
Fixpoint advance_loop (n : nat) (p : Z -> bool) (s : Z) : Z :=
  match n with
  | O => s
  | S n => if p (ld8 m s) then advance_loop n p (s + 1) else s
  end.

Definition advance (p : Z -> bool) (s : Z) : Z := advance_loop (Z.to_nat (es - s)) p s.

(** The token, *q and *eq. *)
Definition gettoken : K Z (Z * Z * Z) := fun ps =>
  let s := advance (among whitespace) ps in
  let q := s in
  let c := ld8 m s in
  let '(r, s) :=
    if c =? 0 then (c, s) else
    if among [124; 40; 41; 59; 38; 60] c then (c, s + 1) else
    if c =? 62 then (if ld8 m (s + 1) =? 62 then (43, s + 2) else (c, s + 1)) else
    (97, advance (fun c => negb (among whitespace c) && negb (among symbols c)) s) in
  let eq := s in
  Ret (r, q, eq) (advance (among whitespace) s).

Definition peek (toks : list Z) : K Z bool := fun ps =>
  let s := advance (among whitespace) ps in
  Ret (negb (ld8 m s =? 0) && among toks (ld8 m s)) s.

Fixpoint parseredirs (fuel : nat) (c : cmd) : K Z cmd :=
  match fuel with
  | O => out_of_fuel
  | S fuel =>
      b <- peek [60; 62] ;;
      if negb b then ret c else
      t <- gettoken ;;
      u <- gettoken ;;
      let '(tok, _, _) := t in
      let '(tok2, q, eq) := u in
      if negb (tok2 =? 97) then panic "missing file for redirection" else
      parseredirs fuel
        (if tok =? 60 then redircmd c q eq O_RDONLY 0
         else if tok =? 62 then redircmd c q eq (Z.lor (Z.lor O_WRONLY O_CREATE) O_TRUNC) 1
         else if tok =? 43 then redircmd c q eq (Z.lor O_WRONLY O_CREATE) 1
         else c)
  end.

(** The execcmd that parseexec() fills stays at the bottom of the redirections
    wrapped around it: an assignment to its argv[argc], eargv[argc]. *)
Fixpoint set_arg (argc : nat) (a : Z * Z) (c : cmd) : cmd :=
  match c with
  | EXEC argv => EXEC (take argc argv ++ [a])
  | REDIR c file efile mode fd => REDIR (set_arg argc a c) file efile mode fd
  | c => c
  end.

(** The loop of parseexec(). *)
Fixpoint parseargs (fuel : nat) (argc : nat) (c : cmd) : K Z cmd :=
  match fuel with
  | O => out_of_fuel
  | S fuel =>
      b <- peek [124; 41; 38; 59] ;;
      if b then ret c else
      t <- gettoken ;;
      let '(tok, q, eq) := t in
      if tok =? 0 then ret c else
      if negb (tok =? 97) then panic "syntax" else
      let c := set_arg argc (q, eq) c in
      let argc := S argc in
      if Z.of_nat argc >=? MAXARGS then panic "too many args" else
      c <- parseredirs fuel c ;;
      parseargs fuel argc c
  end.

(** The loop of parseline(). *)
Fixpoint parsebacks (fuel : nat) (c : cmd) : K Z cmd :=
  match fuel with
  | O => out_of_fuel
  | S fuel =>
      b <- peek [38] ;;
      if negb b then ret c else
      gettoken ;;
      parsebacks fuel (backcmd c)
  end.

Fixpoint parseline (fuel : nat) : K Z cmd :=
  match fuel with
  | O => out_of_fuel
  | S fuel =>
      c <- parsepipe fuel ;;
      c <- parsebacks fuel c ;;
      b <- peek [59] ;;
      if negb b then ret c else
      gettoken ;;
      d <- parseline fuel ;;
      ret (listcmd c d)
  end
with parsepipe (fuel : nat) : K Z cmd :=
  match fuel with
  | O => out_of_fuel
  | S fuel =>
      c <- parseexec fuel ;;
      b <- peek [124] ;;
      if negb b then ret c else
      gettoken ;;
      d <- parsepipe fuel ;;
      ret (pipecmd c d)
  end
with parseexec (fuel : nat) : K Z cmd :=
  match fuel with
  | O => out_of_fuel
  | S fuel =>
      b <- peek [40] ;;
      if b then parseblock fuel else
      c <- parseredirs fuel execcmd ;;
      parseargs fuel 0 c
  end
with parseblock (fuel : nat) : K Z cmd :=
  match fuel with
  | O => out_of_fuel
  | S fuel =>
      b <- peek [40] ;;
      if negb b then panic "parseblock" else
      gettoken ;;
      c <- parseline fuel ;;
      b <- peek [41] ;;
      if negb b then panic "syntax - missing )" else
      gettoken ;;
      parseredirs fuel c
  end.
End Parser.

Fixpoint nulterminate (c : cmd) (m : memory) : memory :=
  match c with
  | EXEC argv => foldl (fun m a => st8 m (snd a) 0) m argv
  | REDIR c _ efile _ _ => st8 (nulterminate c m) efile 0
  | PIPE l r => nulterminate r (nulterminate l m)
  | LIST l r => nulterminate r (nulterminate l m)
  | BACK c => nulterminate c m
  end.

(** ** Running a command *)

(** The C string at a pointer into the line, which is in a buffer of 100 bytes. *)
Fixpoint cstr (n : nat) (m : memory) (p : Z) : list Z :=
  match n with
  | O => []
  | S n => if ld8 m p =? 0 then [] else ld8 m p :: cstr n m (p + 1)
  end.

Definition str (m : memory) (p : Z) : list Z := cstr 100 m p.

Definition sh_panic {A} (s : list Z) : uprog A := fprintf 2 (line "%s") [U_str s] ;; UExit 1.

(** The command and the memory after it; [fuel] also bounds the search for the NUL. *)
Definition parsecmd (fuel : nat) (m : memory) (s : Z) : uprog (cmd * memory) :=
  let es := s + strlen (read_bytes m s fuel) in
  match parseline m es fuel s with
  | Ret c s =>
      match peek m es [] s with
      | Ret _ s =>
          if negb (s =? es) then
            fprintf 2 (line "leftovers: %s") [U_str (str m s)] ;;
            sh_panic (bytes "syntax")
          else URet (c, nulterminate c m)
      | _ => UStuck
      end
  | Panic msg _ => sh_panic (bytes msg)
  | _ => UStuck
  end.

Definition fork1 : uprog Z :=
  pid <- sysn Cfork ;;
  if pid =? -1 then sh_panic (bytes "fork") else URet pid.

Fixpoint runcmd (m : memory) (c : cmd) : uprog unit :=
  match c with
  | EXEC [] => UExit 1
  | EXEC (((p, _) :: _) as argv) =>
      sys (Cexec (str m p) (map (fun a => str m (fst a)) argv)) ;;
      fprintf 2 (line "exec %s failed") [U_str (str m p)] ;;
      UExit 0
  | REDIR c file _ mode fd =>
      sys (Cclose fd) ;;
      r <- sysn (Copen (str m file) mode) ;;
      if r <? 0 then
        fprintf 2 (line "open %s failed") [U_str (str m file)] ;;
        UExit 1
      else runcmd m c
  | LIST lcmd rcmd =>
      pid <- fork1 ;;
      if pid =? 0 then runcmd m lcmd else
      sys Cwait ;;
      runcmd m rcmd
  | PIPE lcmd rcmd =>
      r <- sys Cpipe ;;
      let '(r, p) := r in
      if r <? 0 then sh_panic (bytes "pipe") else
      let p0 := nth 0 p 0 in
      let p1 := nth 1 p 0 in
      pid <- fork1 ;;
      if pid =? 0 then
        sys (Cclose 1) ;; sys (Cdup p1) ;; sys (Cclose p0) ;; sys (Cclose p1) ;;
        runcmd m lcmd
      else
      pid <- fork1 ;;
      if pid =? 0 then
        sys (Cclose 0) ;; sys (Cdup p0) ;; sys (Cclose p0) ;; sys (Cclose p1) ;;
        runcmd m rcmd
      else
      sys (Cclose p0) ;; sys (Cclose p1) ;; sys Cwait ;; sys Cwait ;;
      UExit 0
  | BACK c =>
      pid <- fork1 ;;
      if pid =? 0 then runcmd m c else UExit 0
  end.

(** ** The main loop *)

Definition getcmd (buf nbuf : Z) (m : memory) : uprog (Z * memory) :=
  sys (Cwrite 2 (bytes "$ ")) ;;
  m <- ugets buf nbuf (umemset m buf 0 nbuf) ;;
  if ld8 m buf =? 0 then URet (-1, m) else URet (0, m).

Fixpoint open_console (fuel : nat) : uprog unit :=
  match fuel with
  | O => UStuck
  | S fuel =>
      fd <- sysn (Copen (bytes "console") O_RDWR) ;;
      if fd <? 0 then URet tt else
      if fd >=? 3 then sys (Cclose fd) ;; URet tt else open_console fuel
  end.

Fixpoint sh_loop (fuel : nat) (buf : Z) (m : memory) : uprog unit :=
  match fuel with
  | O => UStuck
  | S fuel =>
      r <- getcmd buf 100 m ;;
      let '(r, m) := r in
      if r <? 0 then UExit 0 else
      if (ld8 m buf =? 99) && (ld8 m (buf + 1) =? 100) && (ld8 m (buf + 2) =? 32) then
        let m := st8 m (buf + Z.of_nat (length (str m buf)) - 1) 0 in
        r <- sysn (Cchdir (str m (buf + 3))) ;;
        (if r <? 0 then fprintf 2 (line "cannot cd %s") [U_str (str m (buf + 3))] else URet tt) ;;
        sh_loop fuel buf m
      else
      pid <- fork1 ;;
      if pid =? 0 then
        c <- parsecmd 500 m buf ;;
        let '(c, m) := c in
        runcmd m c
      else
      sys Cwait ;;
      sh_loop fuel buf m
  end.

Definition sh_main (fuel : nat) (buf : Z) (m : memory) : uprog unit :=
  open_console fuel ;; sh_loop fuel buf m.
