(* ===== verification/ShSpec.v ===== *)
(** What the shell's parser computes: tokens, the grammar of command lines, and
    the proof that parsecmd() accepts exactly the lines of the grammar.

    The proof has two halves. A parser of token lists, with the functions of sh.c,
    is related to the grammar; and the functions of sh.c on text follow the ones on
    tokens step by step ([sim]). *)
From S2P Require Import Prelude Riscv Machine Vm UserLib Sh.
Import Ulib.

(** ** Tokens *)

Inductive token : Type :=
| TWord (w : list Z)
| TSym (c : Z)
| TAppend.

Definition text (t : token) : list Z :=
  match t with TWord w => w | TSym c => [c] | TAppend => [62; 62] end.

Definition wordchar (c : Z) : Prop := c <> 0 /\ (c ∉ whitespace) /\ (c ∉ symbols).

Definition token_ok (t : token) : Prop :=
  match t with
  | TWord w => w <> [] /\ Forall wordchar w
  | TSym c => c ∈ symbols
  | TAppend => True
  end.

(** What may come right after a token: a word ends where no word character follows,
    and two > in a row are one token. *)
Definition follows (t : token) (c : Z) : Prop :=
  match t with
  | TWord _ => ~ wordchar c
  | TSym d => d = 62 -> c <> 62
  | TAppend => True
  end.

(** [spells ts r]: the text [r] is the tokens [ts], with white space anywhere
    between them. *)
Inductive spells : list token -> list Z -> Prop :=
| sp_end ws : Forall (fun c => c ∈ whitespace) ws -> spells [] ws
| sp_tok ws t ts r :
    Forall (fun c => c ∈ whitespace) ws -> token_ok t -> follows t (hd 0 r) -> spells ts r ->
    spells (t :: ts) (ws ++ text t ++ r).

(** ** The grammar *)

Inductive redir_op : Type := RIn | ROut | RAppend.

(** Command lines as trees. *)
Inductive ucmd : Type :=
| UExec (args : list (list Z))
| URedir (c : ucmd) (op : redir_op) (file : list Z)
| UPipe (left right : ucmd)
| UList (left right : ucmd)
| UBack (c : ucmd).

Definition op_token (op : redir_op) : token :=
  match op with RIn => TSym 60 | ROut => TSym 62 | RAppend => TAppend end.

(** A simple command is a sequence of words and redirections in any order. *)
Inductive item : Type :=
| IWord (w : list Z)
| IRedir (op : redir_op) (file : list Z).

Definition item_tokens (i : item) : list token :=
  match i with IWord w => [TWord w] | IRedir op f => [op_token op; TWord f] end.

Definition item_word (i : item) : list (list Z) := match i with IWord w => [w] | _ => [] end.
Definition item_redir (i : item) : list (redir_op * list Z) := match i with IRedir op f => [(op, f)] | _ => [] end.

Definition tokens (l : list item) : list token := l ≫= item_tokens.
Definition words (l : list item) : list (list Z) := l ≫= item_word.
Definition redirs (l : list item) : list (redir_op * list Z) := l ≫= item_redir.
Definition redir_items (rs : list (redir_op * list Z)) : list item := (fun r => IRedir r.1 r.2) <$> rs.

(** Redirections wrapped around a command, the last one outermost. *)
Definition wrap (rs : list (redir_op * list Z)) (u : ucmd) : ucmd := foldl (fun u r => URedir u r.1 r.2) u rs.
Definition backs (n : nat) (u : ucmd) : ucmd := Nat.iter n UBack u.

Inductive g_line : list token -> ucmd -> Prop :=
| g_one ts n u : g_pipe ts u -> g_line (ts ++ replicate n (TSym 38)) (backs n u)
| g_list ts n u ts' v : g_pipe ts u -> g_line ts' v ->
    g_line (ts ++ replicate n (TSym 38) ++ TSym 59 :: ts') (UList (backs n u) v)
with g_pipe : list token -> ucmd -> Prop :=
| g_exec_ ts u : g_exec ts u -> g_pipe ts u
| g_pipe_ ts u ts' v : g_exec ts u -> g_pipe ts' v -> g_pipe (ts ++ TSym 124 :: ts') (UPipe u v)
with g_exec : list token -> ucmd -> Prop :=
| g_simple l : (length (words l) < Z.to_nat MAXARGS)%nat ->
    g_exec (tokens l) (wrap (redirs l) (UExec (words l)))
| g_block ts u rs : g_line ts u ->
    g_exec (TSym 40 :: ts ++ TSym 41 :: tokens (redir_items rs)) (wrap rs u).

Scheme g_line_mut := Induction for g_line Sort Prop
  with g_pipe_mut := Induction for g_pipe Sort Prop
  with g_exec_mut := Induction for g_exec Sort Prop.
Combined Scheme grammar_ind from g_line_mut, g_pipe_mut, g_exec_mut.

(** ** The parser on tokens *)

Abbreviation TK := (K (list token)).

Definition tnext : TK (option token) := fun ts =>
  match ts with [] => Ret None [] | t :: ts => Ret (Some t) ts end.

Definition tpeek (toks : list Z) : TK bool := fun ts =>
  Ret (match ts with TSym c :: _ => among toks c | TAppend :: _ => among toks 62 | _ => false end) ts.

Definition token_op (t : option token) : redir_op :=
  match t with Some (TSym c) => if c =? 60 then RIn else ROut | _ => RAppend end.

Fixpoint tredirs (fuel : nat) (c : ucmd) : TK ucmd :=
  match fuel with
  | O => out_of_fuel
  | S fuel =>
      b <- tpeek [60; 62] ;;
      if negb b then ret c else
      t <- tnext ;;
      u <- tnext ;;
      match u with
      | Some (TWord f) => tredirs fuel (URedir c (token_op t) f)
      | _ => panic "missing file for redirection"
      end
  end.

Fixpoint set_uarg (argc : nat) (a : list Z) (c : ucmd) : ucmd :=
  match c with
  | UExec args => UExec (take argc args ++ [a])
  | URedir c op f => URedir (set_uarg argc a c) op f
  | c => c
  end.

Fixpoint targs (fuel : nat) (argc : nat) (c : ucmd) : TK ucmd :=
  match fuel with
  | O => out_of_fuel
  | S fuel =>
      b <- tpeek [124; 41; 38; 59] ;;
      if b then ret c else
      t <- tnext ;;
      match t with
      | None => ret c
      | Some (TWord w) =>
          let c := set_uarg argc w c in
          let argc := S argc in
          if Z.of_nat argc >=? MAXARGS then panic "too many args" else
          c <- tredirs fuel c ;;
          targs fuel argc c
      | Some _ => panic "syntax"
      end
  end.

Fixpoint tbacks (fuel : nat) (c : ucmd) : TK ucmd :=
  match fuel with
  | O => out_of_fuel
  | S fuel =>
      b <- tpeek [38] ;;
      if negb b then ret c else
      tnext ;;
      tbacks fuel (UBack c)
  end.

Fixpoint tline (fuel : nat) : TK ucmd :=
  match fuel with
  | O => out_of_fuel
  | S fuel =>
      c <- tpipe fuel ;;
      c <- tbacks fuel c ;;
      b <- tpeek [59] ;;
      if negb b then ret c else
      tnext ;;
      d <- tline fuel ;;
      ret (UList c d)
  end
with tpipe (fuel : nat) : TK ucmd :=
  match fuel with
  | O => out_of_fuel
  | S fuel =>
      c <- texec fuel ;;
      b <- tpeek [124] ;;
      if negb b then ret c else
      tnext ;;
      d <- tpipe fuel ;;
      ret (UPipe c d)
  end
with texec (fuel : nat) : TK ucmd :=
  match fuel with
  | O => out_of_fuel
  | S fuel =>
      b <- tpeek [40] ;;
      if b then tblock fuel else
      c <- tredirs fuel (UExec []) ;;
      targs fuel 0 c
  end
with tblock (fuel : nat) : TK ucmd :=
  match fuel with
  | O => out_of_fuel
  | S fuel =>
      b <- tpeek [40] ;;
      if negb b then panic "parseblock" else
      tnext ;;
      c <- tline fuel ;;
      b <- tpeek [41] ;;
      if negb b then panic "syntax - missing )" else
      tnext ;;
      tredirs fuel c
  end.

(** ** The token parser is sound, and always gives an answer *)

(** A command returns with [Q] or panics. *)
Definition good {St A} (Q : A -> St -> Prop) (o : outcome St A) : Prop :=
  match o with Ret a s => Q a s | Panic _ _ => True | _ => False end.

Lemma good_bind {St A B} (c : K St A) (f : A -> K St B) s (Q : A -> St -> Prop) P :
  good Q (c s) -> (forall a s', Q a s' -> good P (f a s')) -> good P (kbind c f s).
Proof. unfold kbind. destruct (c s); cbn; try done. intros H Hf. by apply Hf. Qed.

Lemma good_weaken {St A} (Q P : A -> St -> Prop) o : good Q o -> (forall a s, Q a s -> P a s) -> good P o.
Proof. destruct o; cbn; auto. Qed.

Lemma wrap_app rs rs' u : wrap (rs ++ rs') u = wrap rs' (wrap rs u).
Proof. apply foldl_app. Qed.

Lemma tokens_app l l' : tokens (l ++ l') = tokens l ++ tokens l'.
Proof. apply bind_app. Qed.

Lemma words_app l l' : words (l ++ l') = words l ++ words l'.
Proof. apply bind_app. Qed.

Lemma redirs_app l l' : redirs (l ++ l') = redirs l ++ redirs l'.
Proof. apply bind_app. Qed.

Lemma words_redir_items rs : words (redir_items rs) = [].
Proof. induction rs as [|r rs IH]; [done|]. exact IH. Qed.

Lemma redirs_redir_items rs : redirs (redir_items rs) = rs.
Proof. induction rs as [|[op f] rs IH]; [done|]. cbn in *. by f_equal. Qed.

Lemma set_uarg_wrap rs n a u : set_uarg n a (wrap rs u) = wrap rs (set_uarg n a u).
Proof. revert u. induction rs as [|r rs IH]; intros u; [done|]. exact (IH (URedir u r.1 r.2)). Qed.

(** The redirection a token starts. *)
Definition starts_redir (ts : list token) : bool :=
  match ts with TSym c :: _ => among [60; 62] c | TAppend :: _ => true | _ => false end.

Lemma among_spec s c : Forall (fun d => d <> 0) s -> among s c = bool_decide (c ∈ s).
Proof.
  unfold among. induction 1 as [|d s Hd _ IH]; cbn [strchr]; [done|]. rewrite (proj2 (Z.eqb_neq d 0)) by done.
  destruct (Z.eqb_spec d c) as [->|Hne]; [by rewrite bool_decide_true by left|]. rewrite IH. apply bool_decide_ext.
  rewrite elem_of_cons. naive_solver.
Qed.

Lemma among_one d c : d <> 0 -> among [d] c = (d =? c).
Proof. intros Hd. unfold among. cbn [strchr]. rewrite (proj2 (Z.eqb_neq d 0)) by done. by destruct (d =? c). Qed.

Lemma starts_redir_op ts : starts_redir ts = true -> exists op ts', ts = op_token op :: ts' /\ token_op (Some (op_token op)) = op.
Proof.
  destruct ts as [|[w|c|] ts]; [done|done| |by exists RAppend, ts]. cbn [starts_redir].
  rewrite among_spec by (by repeat constructor). intros H%bool_decide_eq_true.
  apply elem_of_cons in H as [->|H]; [by exists RIn, ts|]. apply list_elem_of_singleton in H as ->. by exists ROut, ts.
Qed.

Lemma tpeek_redir ts : tpeek [60; 62] ts = Ret (starts_redir ts) ts.
Proof. by destruct ts as [|[]]. Qed.

Lemma tredirs_good fuel u ts : (length ts < fuel)%nat ->
  good (fun u' ts' => exists rs, ts = tokens (redir_items rs) ++ ts' /\ u' = wrap rs u) (tredirs fuel u ts).
Proof.
  revert u ts. induction fuel as [|fuel IH]; intros u ts Hf; [lia|]. cbn [tredirs].
  rewrite (kbind_Ret _ _ _ _ _ (tpeek_redir ts)). destruct (starts_redir ts) eqn:E; cbn [negb].
  - apply starts_redir_op in E as (op & ts' & -> & Hop). unfold kbind at 1. cbn [tnext obind]. rewrite Hop.
    destruct ts' as [|[f|c|] ts']; [done| |done|done].
    unfold kbind at 1. cbn [tnext obind]. specialize (IH (URedir u op f) ts' ltac:(cbn in Hf; lia)).
    eapply good_weaken; [exact IH|]. intros u' ts'' (rs & -> & ->). by exists ((op, f) :: rs).
  - by exists [].
Qed.

Lemma targs_good fuel l ts : (length ts < fuel)%nat -> (length (words l) < Z.to_nat MAXARGS)%nat ->
  good (fun u' ts' => exists l', ts = tokens l' ++ ts' /\ (length (words (l ++ l')) < Z.to_nat MAXARGS)%nat /\
      u' = wrap (redirs (l ++ l')) (UExec (words (l ++ l'))))
    (targs fuel (length (words l)) (wrap (redirs l) (UExec (words l))) ts).
Proof.
  revert l ts. induction fuel as [|fuel IH]; intros l ts Hf Hl; [lia|]. cbn [targs].
  assert (good (fun u' ts' => exists l', ts = tokens l' ++ ts' /\ (length (words (l ++ l')) < Z.to_nat MAXARGS)%nat /\
      u' = wrap (redirs (l ++ l')) (UExec (words (l ++ l')))) (Ret (wrap (redirs l) (UExec (words l))) ts)) as Hret.
  { exists []. rewrite app_nil_r. done. }
  unfold kbind at 1. cbn [tpeek obind]. case_match; [done|]. destruct ts as [|[w|c|] ts]; [done| |done|done].
  unfold kbind at 1. cbn [tnext obind]. rewrite set_uarg_wrap. cbn [set_uarg].
  rewrite take_ge by lia. case_match eqn:E; [done|].
  eapply good_bind; [apply tredirs_good; cbn in Hf; lia|]. intros u' ts' (rs & -> & ->).
  set (l' := l ++ IWord w :: redir_items rs).
  assert (words l' = words l ++ [w]) as Hw by (unfold l'; rewrite words_app; cbn; by rewrite words_redir_items).
  assert (redirs l' = redirs l ++ rs) as Hr by (unfold l'; rewrite redirs_app; cbn; by rewrite redirs_redir_items).
  rewrite <- Hw, <- wrap_app, <- Hr. replace (S (length (words l))) with (length (words l')) by (rewrite Hw, length_app; cbn; lia).
  eapply good_weaken; [apply (IH l' ts')|].
  { cbn in Hf. rewrite length_app in Hf. lia. }
  { rewrite Hw, length_app. cbn [length]. rewrite Z.geb_leb in E. apply Z.leb_gt in E. lia. }
  intros u'' ts'' (l'' & -> & Hlen & ->).
  exists (IWord w :: redir_items rs ++ l''). unfold l' in *. rewrite <- app_assoc in Hlen |- *. split; [|done].
  cbn. rewrite tokens_app, app_assoc. done.
Qed.

Lemma tbacks_good fuel u ts : (length ts < fuel)%nat ->
  good (fun u' ts' => exists n, ts = replicate n (TSym 38) ++ ts' /\ u' = backs n u) (tbacks fuel u ts).
Proof.
  revert u ts. induction fuel as [|fuel IH]; intros u ts Hf; [lia|]. cbn [tbacks].
  unfold kbind at 1. cbn [tpeek obind]. destruct ts as [|[w|c|] ts]; try by exists 0%nat.
  rewrite among_one by done. destruct (Z.eqb_spec 38 c) as [<-|]; [|by exists 0%nat]. cbn [negb].
  unfold kbind at 1. cbn [tnext obind]. specialize (IH (UBack u) ts ltac:(cbn in Hf; lia)).
  eapply good_weaken; [exact IH|]. intros u' ts' (n & -> & ->). exists (S n). split; [done|].
  unfold backs. by rewrite Nat.iter_succ_r.
Qed.

(** What is consumed is a phrase of the grammar. *)
Definition consumes (g : list token -> ucmd -> Prop) (ts : list token) (u : ucmd) (ts' : list token) : Prop :=
  exists ts1, ts = ts1 ++ ts' /\ g ts1 u.

Lemma tpeek_one d ts : d <> 0 -> d <> 62 ->
  exists b, tpeek [d] ts = Ret b ts /\ (b = true -> exists ts', ts = TSym d :: ts').
Proof.
  intros Hd Hd'. destruct ts as [|[w|c|] ts]; try by exists false.
  - exists (d =? c). unfold tpeek. rewrite among_one by done. split; [done|]. intros ->%Z.eqb_eq. by exists ts.
  - exists false. unfold tpeek. rewrite among_one by done. by rewrite (proj2 (Z.eqb_neq _ _)).
Qed.

Lemma length_tokens_app {A} (l1 l2 l : list A) : l = l1 ++ l2 -> (length l2 <= length l)%nat.
Proof. intros ->. rewrite length_app. lia. Qed.

Lemma parser_sound fuel :
  (forall ts, (4 * length ts + 4 <= fuel)%nat -> good (consumes g_line ts) (tline fuel ts)) /\
  (forall ts, (4 * length ts + 3 <= fuel)%nat -> good (consumes g_pipe ts) (tpipe fuel ts)) /\
  (forall ts, (4 * length ts + 2 <= fuel)%nat -> good (consumes g_exec ts) (texec fuel ts)) /\
  (forall ts, (4 * length ts + 1 <= fuel)%nat -> good (consumes g_exec ts) (tblock fuel ts)).
Proof.
  induction fuel as [|fuel (IHl & IHp & IHe & IHb)]; [split_and!; intros; lia|]. split_and!; intros ts Hf.
  - cbn [tline]. eapply good_bind; [apply IHp; lia|]. intros u ts1 (t1 & -> & H1). rewrite length_app in Hf.
    eapply good_bind; [apply tbacks_good; lia|]. intros u' ts2 (n & -> & ->). rewrite !length_app in Hf.
    destruct (tpeek_one 59 ts2) as (b & Hb & Hb'); [done|done|]. rewrite (kbind_Ret _ _ _ _ _ Hb).
    destruct b; cbn [negb].
    + destruct (Hb' eq_refl) as [ts3 ->]. unfold kbind at 1. cbn [tnext obind].
      eapply good_bind; [apply IHl; cbn in Hf; lia|]. intros v ts4 (t3 & -> & H3).
      exists (t1 ++ replicate n (TSym 38) ++ TSym 59 :: t3). split; [by rewrite <- !app_assoc|]. by constructor.
    + exists (t1 ++ replicate n (TSym 38)). split; [by rewrite <- app_assoc|]. by constructor.
  - cbn [tpipe]. eapply good_bind; [apply IHe; lia|]. intros u ts1 (t1 & -> & H1). rewrite length_app in Hf.
    destruct (tpeek_one 124 ts1) as (b & Hb & Hb'); [done|done|]. rewrite (kbind_Ret _ _ _ _ _ Hb).
    destruct b; cbn [negb].
    + destruct (Hb' eq_refl) as [ts3 ->]. unfold kbind at 1. cbn [tnext obind].
      eapply good_bind; [apply IHp; cbn in Hf; lia|]. intros v ts4 (t3 & -> & H3).
      exists (t1 ++ TSym 124 :: t3). split; [by rewrite <- !app_assoc|]. by constructor.
    + exists t1. split; [done|]. by constructor.
  - cbn [texec]. destruct (tpeek_one 40 ts) as (b & Hb & _); [done|done|]. rewrite (kbind_Ret _ _ _ _ _ Hb).
    destruct b; [apply IHb; lia|].
    eapply good_bind; [apply tredirs_good; lia|]. intros u ts1 (rs & -> & ->). rewrite length_app in Hf.
    pose proof (targs_good fuel (redir_items rs) ts1) as H. rewrite redirs_redir_items, words_redir_items in H.
    eapply good_weaken; [apply H; [lia|cbn; lia]|].
    intros u' ts2 (l & -> & Hl & ->). exists (tokens (redir_items rs ++ l)). rewrite tokens_app, app_assoc. split; [done|].
    rewrite <- tokens_app. by constructor.
  - cbn [tblock]. destruct (tpeek_one 40 ts) as (b & Hb & Hb'); [done|done|]. rewrite (kbind_Ret _ _ _ _ _ Hb).
    destruct b; cbn [negb]; [|done]. destruct (Hb' eq_refl) as [ts1 ->]. unfold kbind at 1. cbn [tnext obind].
    eapply good_bind; [apply IHl; cbn in Hf; lia|]. intros u ts2 (t1 & -> & H1). cbn [length] in Hf. rewrite length_app in Hf.
    destruct (tpeek_one 41 ts2) as (b & Hc & Hc'); [done|done|]. rewrite (kbind_Ret _ _ _ _ _ Hc).
    destruct b; cbn [negb]; [|done]. destruct (Hc' eq_refl) as [ts3 ->]. unfold kbind at 1. cbn [tnext obind].
    eapply good_weaken; [apply tredirs_good; cbn in Hf; lia|]. intros u' ts4 (rs & -> & ->).
    exists (TSym 40 :: t1 ++ TSym 41 :: tokens (redir_items rs)). split; [cbn; by rewrite <- app_assoc|]. by constructor.
Qed.

(** ** The token parser is complete *)

(** The end of the input, or one of the symbols [l]. *)
Definition heads (l : list Z) (ts : list token) : bool :=
  match ts with [] => true | TSym c :: _ => bool_decide (c ∈ l) | _ => false end.

Lemma tpeek_not toks l ts : heads l ts = true -> Forall (fun c => among toks c = false) l -> tpeek toks ts = Ret false ts.
Proof.
  destruct ts as [|[w|c|] ts]; try done. cbn [heads]. intros H%bool_decide_eq_true Hl. unfold tpeek.
  rewrite Forall_forall in Hl. by rewrite (Hl c H).
Qed.

Lemma heads_weaken l l' ts : heads l ts = true -> Forall (fun c => c ∈ l') l -> heads l' ts = true.
Proof.
  destruct ts as [|[w|c|] ts]; try done. cbn [heads]. rewrite !bool_decide_eq_true, Forall_forall. auto.
Qed.

Lemma tpeek_yes d ts : d <> 0 -> tpeek [d] (TSym d :: ts) = Ret true (TSym d :: ts).
Proof. intros H. unfold tpeek. by rewrite among_one, Z.eqb_refl. Qed.

Lemma tredirs_complete rs fuel u ts : starts_redir ts = false -> (length rs < fuel)%nat ->
  tredirs fuel u (tokens (redir_items rs) ++ ts) = Ret (wrap rs u) ts.
Proof.
  intros Hts. revert fuel u. induction rs as [|[op f] rs IH]; intros fuel u Hf; (destruct fuel as [|fuel]; [cbn in Hf; lia|]); cbn [tredirs].
  - rewrite (kbind_Ret _ _ _ _ _ (tpeek_redir _)). change (tokens (redir_items []) ++ ts) with ts. by rewrite Hts.
  - rewrite (kbind_Ret _ _ _ _ _ (tpeek_redir _)). change (tokens (redir_items ((op, f) :: rs)) ++ ts)
      with (op_token op :: TWord f :: tokens (redir_items rs) ++ ts).
    assert (starts_redir (op_token op :: TWord f :: tokens (redir_items rs) ++ ts) = true) as -> by (by destruct op).
    assert (token_op (Some (op_token op)) = op) as Hop by (by destruct op).
    unfold kbind. cbn [negb tnext obind]. rewrite Hop. apply IH. cbn in Hf. lia.
Qed.

Lemma split_items l : exists rs l', l = redir_items rs ++ l' /\ (l' = [] \/ exists w l'', l' = IWord w :: l'').
Proof.
  induction l as [|[w|op f] l IH].
  - exists [], []. split; [done|]. by left.
  - exists [], (IWord w :: l). split; [done|]. right. by exists w, l.
  - destruct IH as (rs & l' & -> & H). by exists ((op, f) :: rs), l'.
Qed.

Lemma starts_items l ts : heads [124; 41; 38; 59] ts = true -> (l = [] \/ exists w l', l = IWord w :: l') ->
  starts_redir (tokens l ++ ts) = false.
Proof.
  intros H [->|(w & l' & ->)]; [|done]. cbn. destruct ts as [|[w|c|] ts]; try done. cbn in H |- *.
  apply bool_decide_eq_true in H. rewrite among_spec by (by repeat constructor). apply bool_decide_eq_false. set_solver.
Qed.

Lemma length_tokens l : (length l <= length (tokens l))%nat.
Proof.
  induction l as [|i l IH]; [done|]. change (tokens (i :: l)) with (item_tokens i ++ tokens l).
  rewrite length_app. destruct i; cbn [item_tokens length]; lia.
Qed.

Lemma targs_stop fuel argc c ts : heads [124; 41; 38; 59] ts = true -> targs (S fuel) argc c ts = Ret c ts.
Proof.
  intros H. cbn [targs]. unfold kbind at 1, tpeek. destruct ts as [|[w|d|] ts]; try done.
  cbn [obind heads] in *. rewrite among_spec by (repeat constructor; lia). by rewrite H.
Qed.

Lemma targs_complete k fuel l l' ts : (length l' <= k)%nat -> heads [124; 41; 38; 59] ts = true ->
  (l' = [] \/ exists w l'', l' = IWord w :: l'') -> (length (words (l ++ l')) < Z.to_nat MAXARGS)%nat -> (length l' < fuel)%nat ->
  targs fuel (length (words l)) (wrap (redirs l) (UExec (words l))) (tokens l' ++ ts) =
  Ret (wrap (redirs (l ++ l')) (UExec (words (l ++ l')))) ts.
Proof.
  revert fuel l l'. induction k as [|k IH]; intros fuel l l' Hk Hts Hl' Hw Hf; (destruct fuel as [|fuel]; [lia|]);
    destruct Hl' as [->|(w & l'' & ->)]; try (rewrite app_nil_r; by apply targs_stop); [cbn in Hk; lia|]. cbn [targs].
  change (tokens (IWord w :: l'') ++ ts) with (TWord w :: tokens l'' ++ ts).
  unfold kbind at 1, tpeek. cbn [obind]. unfold kbind at 1. cbn [tnext obind]. rewrite set_uarg_wrap. cbn [set_uarg].
  rewrite take_ge by lia. destruct (split_items l'') as (rs & l3 & -> & Hl3).
  rewrite (cons_middle (IWord w) l), !app_assoc in Hw |- *.
  set (l2 := (l ++ [IWord w]) ++ redir_items rs) in *.
  assert (words l2 = words l ++ [w]) as Ew by (unfold l2; rewrite !words_app, words_redir_items, app_nil_r; done).
  assert (redirs l2 = redirs l ++ rs) as Er by (unfold l2; rewrite !redirs_app, redirs_redir_items; cbn; by rewrite app_nil_r).
  assert (length (words l2) = S (length (words l))) as El by (rewrite Ew, length_app; cbn; lia).
  assert ((Z.of_nat (S (length (words l))) >=? MAXARGS) = false) as ->.
  { rewrite Z.geb_leb. apply Z.leb_gt. rewrite words_app, length_app, El in Hw. lia. }
  cbn [length] in Hf, Hk. rewrite length_app in Hf, Hk.
  assert (length (redir_items rs) = length rs) as Hrs by apply length_fmap.
  rewrite tokens_app, <- app_assoc.
  rewrite (kbind_Ret _ _ _ _ _ (tredirs_complete rs fuel _ _ ltac:(by apply starts_items) ltac:(lia))).
  rewrite <- wrap_app, <- Er, <- Ew, <- El. apply IH; [lia|done|done|done|lia].
Qed.

Lemma tbacks_complete n fuel u ts : heads [41; 59] ts = true -> (n < fuel)%nat ->
  tbacks fuel u (replicate n (TSym 38) ++ ts) = Ret (backs n u) ts.
Proof.
  intros Hts. revert fuel u. induction n as [|n IH]; intros fuel u Hf; (destruct fuel as [|fuel]; [lia|]); cbn [tbacks replicate app].
  - rewrite (kbind_Ret _ _ _ _ _ (tpeek_not [38] _ _ Hts ltac:(by repeat constructor))). done.
  - rewrite (kbind_Ret _ _ _ _ _ (tpeek_yes 38 _ ltac:(lia))). cbn [negb]. unfold kbind. cbn [tnext obind].
    rewrite IH by lia. unfold backs. by rewrite Nat.iter_succ_r.
Qed.

Lemma heads_backs n ts : heads [41; 59] ts = true -> heads [41; 38; 59] (replicate n (TSym 38) ++ ts) = true.
Proof. intros H. destruct n; [|done]. apply (heads_weaken [41; 59]); [done|]. repeat constructor; set_solver. Qed.

Lemma heads_exec ts : heads [124; 41; 38; 59] ts = true -> starts_redir ts = false.
Proof. intros H. apply (starts_items []); [done|]. by left. Qed.

Lemma parser_complete :
  (forall ts u, g_line ts u -> forall rest fuel, heads [41] rest = true -> (4 * length (ts ++ rest) + 4 <= fuel)%nat ->
    tline fuel (ts ++ rest) = Ret u rest) /\
  (forall ts u, g_pipe ts u -> forall rest fuel, heads [41; 38; 59] rest = true -> (4 * length (ts ++ rest) + 3 <= fuel)%nat ->
    tpipe fuel (ts ++ rest) = Ret u rest) /\
  (forall ts u, g_exec ts u -> forall rest fuel, heads [124; 41; 38; 59] rest = true -> (4 * length (ts ++ rest) + 2 <= fuel)%nat ->
    texec fuel (ts ++ rest) = Ret u rest).
Proof.
  apply grammar_ind.
  - intros ts n u _ IH rest fuel Hr Hf. destruct fuel as [|fuel]; [lia|]. rewrite <- app_assoc in *. cbn [tline].
    assert (heads [41; 59] rest = true) as Hr' by (apply (heads_weaken [41]); [done|repeat constructor; set_solver]).
    rewrite (kbind_Ret _ _ _ _ _ (IH _ fuel (heads_backs n rest Hr') ltac:(lia))).
    rewrite !length_app, length_replicate in Hf.
    rewrite (kbind_Ret _ _ _ _ _ (tbacks_complete n fuel u rest Hr' ltac:(lia))).
    by rewrite (kbind_Ret _ _ _ _ _ (tpeek_not [59] _ _ Hr ltac:(by repeat constructor))).
  - intros ts n u ts' v _ IH _ IH' rest fuel Hr Hf. destruct fuel as [|fuel]; [lia|].
    rewrite <- !app_assoc in *. cbn [tline]. change ((TSym 59 :: ts') ++ rest) with (TSym 59 :: ts' ++ rest) in *.
    assert (heads [41; 59] (TSym 59 :: ts' ++ rest) = true) as Hr' by done.
    rewrite (kbind_Ret _ _ _ _ _ (IH _ fuel (heads_backs n _ Hr') ltac:(lia))).
    rewrite !length_app, length_replicate in Hf. cbn [length] in Hf.
    rewrite (kbind_Ret _ _ _ _ _ (tbacks_complete n fuel u _ Hr' ltac:(lia))).
    rewrite (kbind_Ret _ _ _ _ _ (tpeek_yes 59 _ ltac:(lia))). cbn [negb]. unfold kbind at 1. cbn [tnext obind].
    by rewrite (kbind_Ret _ _ _ _ _ (IH' rest fuel Hr ltac:(lia))).
  - intros ts u _ IH rest fuel Hr Hf. destruct fuel as [|fuel]; [lia|]. cbn [tpipe].
    assert (heads [124; 41; 38; 59] rest = true) as Hr'
      by (apply (heads_weaken [41; 38; 59]); [done|repeat constructor; set_solver]).
    rewrite (kbind_Ret _ _ _ _ _ (IH rest fuel Hr' ltac:(lia))).
    by rewrite (kbind_Ret _ _ _ _ _ (tpeek_not [124] _ _ Hr ltac:(by repeat constructor))).
  - intros ts u ts' v _ IH _ IH' rest fuel Hr Hf. destruct fuel as [|fuel]; [lia|].
    rewrite <- !app_assoc in *. cbn [tpipe]. change ((TSym 124 :: ts') ++ rest) with (TSym 124 :: ts' ++ rest) in *.
    rewrite (kbind_Ret _ _ _ _ _ (IH (TSym 124 :: ts' ++ rest) fuel eq_refl ltac:(lia))).
    rewrite (kbind_Ret _ _ _ _ _ (tpeek_yes 124 _ ltac:(lia))). cbn [negb]. unfold kbind at 1. cbn [tnext obind].
    rewrite length_app in Hf. cbn [length] in Hf. by rewrite (kbind_Ret _ _ _ _ _ (IH' rest fuel Hr ltac:(lia))).
  - intros l Hl rest fuel Hr Hf. destruct fuel as [|fuel]; [lia|]. cbn [texec].
    destruct (split_items l) as (rs & l' & -> & Hl'). rewrite tokens_app, <- app_assoc in *.
    assert (tpeek [40] (tokens (redir_items rs) ++ tokens l' ++ rest) = Ret false (tokens (redir_items rs) ++ tokens l' ++ rest)) as Hp.
    { destruct rs as [|[[] f] rs]; try done. destruct Hl' as [->|(w & l'' & ->)]; [|done].
      by apply (tpeek_not [40] _ _ Hr); repeat constructor. }
    rewrite (kbind_Ret _ _ _ _ _ Hp). rewrite !length_app in Hf.
    pose proof (length_tokens l'). pose proof (length_tokens (redir_items rs)) as Hrs. unfold redir_items in Hrs at 1. rewrite length_fmap in Hrs.
    rewrite (kbind_Ret _ _ _ _ _ (tredirs_complete rs fuel _ _ (starts_items _ _ Hr Hl') ltac:(lia))).
    pose proof (targs_complete (length l') fuel (redir_items rs) l' rest ltac:(lia) Hr Hl' Hl ltac:(lia)) as H'.
    rewrite words_redir_items, redirs_redir_items in H'. exact H'.
  - intros ts u rs _ IH rest fuel Hr Hf. destruct fuel as [|[|fuel]]; [lia|cbn in Hf; lia|].
    change ((TSym 40 :: ts ++ TSym 41 :: tokens (redir_items rs)) ++ rest)
      with (TSym 40 :: (ts ++ TSym 41 :: tokens (redir_items rs)) ++ rest) in *. rewrite <- app_assoc in *.
    change ((TSym 41 :: tokens (redir_items rs)) ++ rest) with (TSym 41 :: tokens (redir_items rs) ++ rest) in *.
    cbn [texec]. rewrite (kbind_Ret _ _ _ _ _ (tpeek_yes 40 _ ltac:(lia))). cbn [tblock].
    rewrite (kbind_Ret _ _ _ _ _ (tpeek_yes 40 _ ltac:(lia))). cbn [negb]. unfold kbind at 1. cbn [tnext obind].
    cbn [length] in Hf. rewrite (kbind_Ret _ _ _ _ _ (IH (TSym 41 :: tokens (redir_items rs) ++ rest) fuel eq_refl ltac:(lia))).
    rewrite (kbind_Ret _ _ _ _ _ (tpeek_yes 41 _ ltac:(lia))). cbn [negb]. unfold kbind at 1. cbn [tnext obind].
    rewrite !length_app in Hf. cbn [length] in Hf. rewrite length_app in Hf.
    pose proof (length_tokens (redir_items rs)) as Hrs. unfold redir_items in Hrs at 1. rewrite length_fmap in Hrs.
    apply tredirs_complete; [by apply heads_exec|lia].
Qed.
