(* ===== verification/ShText.v ===== *)
(** The shell's parser on text: its functions follow those on tokens (ShSpec), and
    the words of the command it returns are the words of the line, once
    nulterminate() has ended them in place. *)
From S2P Require Import Prelude Riscv Machine Vm UserLib UProg Sh ShSpec.
Import Ulib.
Local Open Scope kernel_scope.

(** The bytes [r] are in memory from [s] on. *)
Definition text_at (m : memory) (s : Z) (r : list Z) : Prop :=
  forall i b, r !! i = Some b -> ld8 m (s + Z.of_nat i) = b.

Lemma text_at_cons m s b r : text_at m s (b :: r) <-> ld8 m s = b /\ text_at m (s + 1) r.
Proof.
  unfold text_at. split.
  - intros H. split; [rewrite <- (Z.add_0_r s) at 1; by apply (H 0%nat)|].
    intros i c Hi. rewrite <- (H (S i) c Hi). f_equal. lia.
  - intros [H1 H2] [|i] c Hi; [injection Hi as <-; rewrite <- H1; f_equal; lia|].
    rewrite <- (H2 i c Hi). f_equal. lia.
Qed.

Lemma text_at_app m s r1 r2 :
  text_at m s (r1 ++ r2) <-> text_at m s r1 /\ text_at m (s + Z.of_nat (length r1)) r2.
Proof.
  revert s. induction r1 as [|b r1 IH]; intros s; cbn [app length].
  - rewrite Z.add_0_r. split; [|tauto]. intros H. split; [|done]. by intros i c Hi.
  - rewrite !text_at_cons, IH, Nat2Z.inj_succ, <- Z.add_1_l, Z.add_assoc. tauto.
Qed.

Definition code (t : token) : Z := match t with TWord _ => 97 | TSym c => c | TAppend => 43 end.

(** A word of the line, between its two pointers. *)
Definition span (m : memory) (a : Z * Z) (w : list Z) : Prop :=
  text_at m a.1 w /\ a.2 = a.1 + Z.of_nat (length w) /\ Forall wordchar w /\ ~ wordchar (ld8 m a.2).

Definition op_mode (op : redir_op) : Z * Z :=
  match op with
  | RIn => (O_RDONLY, 0)
  | ROut => (Z.lor (Z.lor O_WRONLY O_CREATE) O_TRUNC, 1)
  | RAppend => (Z.lor O_WRONLY O_CREATE, 1)
  end.

(** A command of pointers stands for a command of words, by a relation between a
    pair of pointers and its word. *)
Fixpoint stands (R : Z * Z -> list Z -> Prop) (c : cmd) (u : ucmd) : Prop :=
  match c, u with
  | EXEC argv, UExec args => Forall2 R argv args
  | REDIR c file efile mode fd, URedir u op f => stands R c u /\ R (file, efile) f /\ (mode, fd) = op_mode op
  | PIPE c d, UPipe u v => stands R c u /\ stands R d v
  | LIST c d, UList u v => stands R c u /\ stands R d v
  | BACK c, UBack u => stands R c u
  | _, _ => False
  end.

Lemma ws_among c : among whitespace c = bool_decide (c ∈ whitespace).
Proof. apply among_spec. repeat constructor; lia. Qed.

Lemma sym_among c : among symbols c = bool_decide (c ∈ symbols).
Proof. apply among_spec. repeat constructor; lia. Qed.

Lemma ws_not_symbol c : c ∈ whitespace -> c ∈ symbols -> False.
Proof. set_solver. Qed.

Lemma text_head t r : token_ok t -> exists c r', text t ++ r = c :: r' /\ (c ∉ whitespace) /\ c <> 0.
Proof.
  destruct t as [w|c|]; cbn [token_ok text].
  - intros [Hne Hw]. destruct w as [|c w]; [done|]. apply Forall_cons in Hw as [(H1 & H2 & H3) _].
    by exists c, (w ++ r).
  - intros Hc. exists c, r. split; [done|]. split; [intros H; by apply (ws_not_symbol c)|]. set_solver by lia.
  - intros _. exists 62, (62 :: r). split; [done|]. split; [set_solver|done].
Qed.

Lemma spells_nonzero ts r : spells ts r -> 0 ∉ r.
Proof.
  induction 1 as [ws Hws|ws t ts r Hws Hok _ _ IH].
  - rewrite Forall_forall in Hws. intros H. specialize (Hws _ H). set_solver by lia.
  - rewrite !elem_of_app. intros [H|[H|H]]; [| |done].
    + rewrite Forall_forall in Hws. specialize (Hws _ H). set_solver by lia.
    + destruct t as [w|c|]; cbn in *; [|set_solver by lia|set_solver by lia].
      destruct Hok as [_ Hw]. rewrite Forall_forall in Hw. by destruct (Hw _ H) as [? _].
Qed.

Lemma word_among c : wordchar c -> negb (among whitespace c) && negb (among symbols c) = true.
Proof.
  intros (_ & H1 & H2). rewrite ws_among, sym_among. by rewrite !bool_decide_false.
Qed.

Lemma not_word_among c : ~ wordchar c -> c <> 0 -> negb (among whitespace c) && negb (among symbols c) = false.
Proof.
  intros H Hc. rewrite ws_among, sym_among. destruct (decide (c ∈ whitespace)); [by rewrite bool_decide_true|].
  destruct (decide (c ∈ symbols)); [by rewrite (bool_decide_true (c ∈ symbols)), andb_false_r|]. destruct H. by split.
Qed.

Section Text.
Context (m : memory) (es : Z) (Hes : ld8 m es = 0).

Lemma advance_over p s r1 r2 : text_at m s (r1 ++ r2) -> s + Z.of_nat (length (r1 ++ r2)) = es ->
  Forall (fun c => p c = true) r1 -> (r2 = [] \/ p (hd 0 r2) = false) -> advance m es p s = s + Z.of_nat (length r1).
Proof.
  intros Ht Hl H1 H2. unfold advance. replace (Z.to_nat (es - s)) with (length (r1 ++ r2)) by lia. clear Hl Hes es.
  revert s Ht. induction H1 as [|c r1 Hc _ IH]; intros s Ht.
  - cbn [app length] in *. rewrite Z.add_0_r. destruct r2 as [|c r2]; [done|]. destruct H2 as [?|H2]; [done|].
    apply text_at_cons in Ht as [Hc _]. cbn [length advance_loop hd] in *. by rewrite Hc, H2.
  - cbn [app length advance_loop] in *. apply text_at_cons in Ht as [Hd Ht]. rewrite Hd, Hc, IH by done. lia.
Qed.

(** The text from *ps on is the tokens [ts]. *)
Definition reads (ps : Z) (ts : list token) : Prop :=
  exists r, text_at m ps r /\ ps + Z.of_nat (length r) = es /\ spells ts r.

(** *ps after white space. *)
Definition skipped (ps : Z) (ts : list token) (r : list Z) : Prop :=
  text_at m ps r /\ ps + Z.of_nat (length r) = es /\
  match ts with
  | [] => r = []
  | t :: ts => exists r', r = text t ++ r' /\ token_ok t /\ follows t (hd 0 r') /\ spells ts r'
  end.

Lemma skip_ws ps ts : reads ps ts ->
  exists r, skipped (advance m es (among whitespace) ps) ts r /\ reads (advance m es (among whitespace) ps) ts.
Proof.
  intros (r & Ht & Hl & Hs). destruct Hs as [ws Hws|ws t ts r Hws Hok Hf Hs].
  - rewrite <- (app_nil_r ws) in Ht, Hl.
    rewrite (advance_over _ _ ws [] Ht Hl); [| |by left].
    + exists []. apply text_at_app in Ht as [_ Ht]. rewrite length_app, Nat2Z.inj_add, Z.add_assoc in Hl.
      split; [done|]. exists []. split; [done|]. split; [done|]. by constructor.
    + apply (Forall_impl _ _ _ Hws). intros c Hc. rewrite ws_among. by apply bool_decide_eq_true.
  - destruct (text_head t r Hok) as (c & r' & E & Hc & _).
    rewrite (advance_over _ _ ws (text t ++ r) Ht Hl).
    + exists (text t ++ r). apply text_at_app in Ht as [_ Ht]. rewrite length_app, Nat2Z.inj_add, Z.add_assoc in Hl. split.
      * split; [done|]. split; [done|]. by exists r.
      * exists (text t ++ r). split; [done|]. split; [done|]. by apply (sp_tok []).
    + apply (Forall_impl _ _ _ Hws). intros d Hd. rewrite ws_among. by apply bool_decide_eq_true.
    + right. rewrite E, ws_among. by apply bool_decide_eq_false.
Qed.

Lemma skipped_head ps ts r : skipped ps ts r -> ld8 m ps = match ts with [] => 0 | t :: _ => hd 0 (text t) end.
Proof.
  intros (Ht & Hl & H). destruct ts as [|t ts].
  - subst r. cbn in Hl. rewrite <- Hes. f_equal. lia.
  - destruct H as (r' & -> & Hok & _). destruct (text_head t r' Hok) as (c & r'' & E & _ & _).
    rewrite E in Ht. apply text_at_cons in Ht as [-> _]. destruct t as [[|d w]|d|]; cbn in E |- *; [by destruct Hok| | |]; by injection E.
Qed.

Lemma peek_reads toks ps ts : reads ps ts -> Forall (fun c => c ∈ symbols) toks ->
  exists b ps', peek m es toks ps = Ret b ps' /\ tpeek toks ts = Ret b ts /\ reads ps' ts.
Proof.
  intros Hr Htoks. destruct (skip_ws ps ts Hr) as (r & Hs & Hr').
  assert (Forall (fun d => d <> 0) toks) as Hnz.
  { apply (Forall_impl _ _ _ Htoks). intros c Hc. set_solver by lia. }
  eexists _, _. split; [done|]. split; [|done]. rewrite (skipped_head _ _ _ Hs). unfold tpeek. f_equal.
  rewrite Forall_forall in Htoks. destruct ts as [|[w|c|] ts]; cbn [text hd].
  - done.
  - destruct Hs as (_ & _ & r' & _ & [Hne Hw] & _). destruct w as [|c w]; [done|]. cbn [hd].
    apply Forall_cons in Hw as [(H1 & H2 & H3) _]. rewrite (proj2 (Z.eqb_neq c 0)) by done.
    rewrite among_spec by done. symmetry. apply andb_false_intro2, bool_decide_eq_false. intros H. by apply H3, Htoks.
  - destruct Hs as (_ & _ & r' & _ & Hok & _). cbn in Hok.
    rewrite (proj2 (Z.eqb_neq c 0)); [done|]. set_solver by lia.
  - done.
Qed.

Lemma skip_after ps ts r : text_at m ps r -> ps + Z.of_nat (length r) = es -> spells ts r ->
  reads (advance m es (among whitespace) ps) ts.
Proof. intros H1 H2 H3. destruct (skip_ws ps ts) as (r' & _ & H); [by exists r|done]. Qed.

Lemma gettoken_end ps : reads ps [] -> exists q eq ps', gettoken m es ps = Ret (0, q, eq) ps' /\ reads ps' [].
Proof.
  intros Hr. destruct (skip_ws ps [] Hr) as (r & Hs & Hr'). unfold gettoken. rewrite (skipped_head _ _ _ Hs). cbn [Z.eqb].
  eexists _, _, _. split; [done|]. destruct Hr' as (r' & H1 & H2 & H3). by apply (skip_after _ _ r').
Qed.

Lemma gettoken_reads ps t ts : reads ps (t :: ts) ->
  exists q eq ps', gettoken m es ps = Ret (code t, q, eq) ps' /\ reads ps' ts /\
    match t with TWord w => span m (q, eq) w | _ => True end.
Proof.
  intros Hr. destruct (skip_ws ps _ Hr) as (r & Hs & _). unfold gettoken. rewrite (skipped_head _ _ _ Hs).
  destruct Hs as (Ht & Hl & r' & -> & Hok & Hf & Hsp). set (s := advance m es (among whitespace) ps) in *.
  pose proof Ht as Ht'. apply text_at_app in Ht' as [Hw Hr']. rewrite length_app, Nat2Z.inj_add, Z.add_assoc in Hl.
  assert (ld8 m (s + Z.of_nat (length (text t))) = hd 0 r') as Hnext.
  { destruct r' as [|d r']; [cbn in Hl |- *; rewrite <- Hes; f_equal; lia|]. by apply text_at_cons in Hr' as [-> _]. }
  pose proof (skip_after _ _ _ Hr' Hl Hsp) as Hrest. destruct t as [w|c|]; cbn [text code length] in *.
  - destruct Hok as [Hne Hwc]. destruct w as [|c w]; [done|]. cbn [hd]. pose proof Hwc as Hwc'. apply Forall_cons in Hwc' as [Hc _].
    pose proof Hc as (H0 & _ & Hns). rewrite (proj2 (Z.eqb_neq c 0)) by done.
    assert (among [124; 40; 41; 59; 38; 60] c = false) as ->.
    { rewrite among_spec by (repeat constructor; lia). apply bool_decide_eq_false. set_solver. }
    rewrite (proj2 (Z.eqb_neq c 62)) by (intros ->; apply Hns; set_solver).
    rewrite (advance_over _ _ (c :: w) r' Ht); [|by rewrite length_app, Nat2Z.inj_add, Z.add_assoc| |].
    + eexists _, _, _. split; [done|]. split; [done|]. split; [done|]. split; [done|]. split; [done|]. cbn [snd]. by rewrite Hnext.
    + apply (Forall_impl _ _ _ Hwc). intros d. apply word_among.
    + destruct r' as [|d r']; [by left|right]. apply not_word_among; [done|].
      cbn [hd] in *. intros ->. apply (spells_nonzero _ _ Hsp). left.
  - cbn [hd]. assert (c <> 0) as H0 by (set_solver by lia).
    rewrite (proj2 (Z.eqb_neq c 0)) by done. change (s + Z.of_nat 1) with (s + 1) in *.
    destruct (decide (c = 62)) as [->|Hc].
    + cbn. rewrite Hnext, (proj2 (Z.eqb_neq _ 62)) by (by apply Hf). by eexists _, _, _.
    + assert (among [124; 40; 41; 59; 38; 60] c = true) as ->.
      { rewrite among_spec by (repeat constructor; lia). apply bool_decide_eq_true. set_solver. }
      by eexists _, _, _.
  - cbn. apply text_at_cons in Hw as [_ Hw]. apply text_at_cons in Hw as [-> _]. cbn.
    change (s + Z.of_nat 2) with (s + 2) in *. by eexists _, _, _.
Qed.

(** ** The parser follows the one on tokens *)

Definition sim {A B} (R : A -> B -> Prop) (o : outcome Z A) (o' : outcome (list token) B) : Prop :=
  match o, o' with
  | Ret a ps, Ret b ts => R a b /\ reads ps ts
  | Panic msg _, Panic msg' _ => msg = msg'
  | OutOfFuel _, OutOfFuel _ => True
  | _, _ => False
  end.

Lemma sim_bind {A B C D} (R : A -> B -> Prop) (S : C -> D -> Prop) c c' f f' ps ts :
  sim R (c ps) (c' ts) -> (forall a b ps ts, R a b -> reads ps ts -> sim S (f a ps) (f' b ts)) ->
  sim S (kbind c f ps) (kbind c' f' ts).
Proof. unfold kbind. destruct (c ps), (c' ts); cbn; try done. intros [H1 H2] Hf. by apply Hf. Qed.

Lemma sim_peek toks ps ts : reads ps ts -> Forall (fun c => c ∈ symbols) toks ->
  sim eq (peek m es toks ps) (tpeek toks ts).
Proof. intros Hr Ht. destruct (peek_reads toks ps ts Hr Ht) as (b & ps' & -> & -> & H). by split. Qed.

Definition same_token (a : Z * Z * Z) (t : option token) : Prop :=
  match t with
  | None => a.1.1 = 0
  | Some t => a.1.1 = code t /\ match t with TWord w => span m (a.1.2, a.2) w | TSym c => c ∈ symbols | TAppend => True end
  end.

Lemma reads_ok ps t ts : reads ps (t :: ts) -> token_ok t.
Proof. intros (r & _ & _ & H). by inversion H. Qed.

Lemma sim_gettoken ps ts : reads ps ts -> sim same_token (gettoken m es ps) (tnext ts).
Proof.
  intros Hr. destruct ts as [|t ts].
  - destruct (gettoken_end ps Hr) as (q & eq & ps' & -> & H). by split.
  - pose proof (reads_ok _ _ _ Hr) as Hok. destruct (gettoken_reads ps t ts Hr) as (q & eq & ps' & -> & H & Hs).
    split; [|done]. split; [done|]. by destruct t.
Qed.

(** A token dropped. *)
Lemma sim_drop {A B} (S : A -> B -> Prop) f f' ps ts : reads ps ts ->
  (forall ps ts, reads ps ts -> sim S (f ps) (f' ts)) ->
  sim S ((gettoken m es ;; f) ps) ((tnext ;; f') ts).
Proof. intros Hr Hf. eapply sim_bind; [by apply sim_gettoken|]. intros a b ps' ts' _ Hr'. by apply Hf. Qed.

Abbreviation stood := (stands (span m)).

Lemma stands_set_arg R argc a w c u : R a w -> stands R c u -> stands R (set_arg argc a c) (set_uarg argc w u).
Proof.
  intros Ha. revert u. induction c as [argv|c IH file efile mode fd|c _ d _|c _ d _|c _]; intros u H; destruct u; try done; cbn in *.
  - apply Forall2_app; [by apply Forall2_take|]. by repeat constructor.
  - destruct H as (H1 & H2). split; [by apply IH|done].
Qed.

Lemma same_token_word a t : same_token a t -> (a.1.1 =? 97) = match t with Some (TWord _) => true | _ => false end.
Proof.
  destruct t as [[w|c|]|]; cbn; [by intros [-> _]| |by intros [-> _]|by intros ->].
  intros [-> Hc]. apply Z.eqb_neq. set_solver by lia.
Qed.

Lemma sim_redirs fuel c u ps ts : reads ps ts -> stood c u ->
  sim stood (parseredirs m es fuel c ps) (tredirs fuel u ts).
Proof.
  revert c u ps ts. induction fuel as [|fuel IH]; intros c u ps ts Hr Hc; [done|]. cbn [parseredirs tredirs].
  destruct (peek_reads [60; 62] ps ts Hr) as (b & ps1 & E & E' & Hr1); [repeat constructor; set_solver|].
  rewrite (kbind_Ret _ _ _ _ _ E), (kbind_Ret _ _ _ _ _ E'). rewrite tpeek_redir in E'. injection E' as Eb.
  destruct b; cbn [negb]; [|by split]. apply starts_redir_op in Eb as (op & ts' & -> & Hop).
  destruct (gettoken_reads ps1 _ _ Hr1) as (q0 & eq0 & ps2 & E2 & Hr2 & _). rewrite (kbind_Ret _ _ _ _ _ E2).
  rewrite (kbind_Ret tnext _ (op_token op :: ts') (Some (op_token op)) ts' eq_refl), Hop.
  eapply sim_bind; [by apply sim_gettoken|]. intros [[tok2 q] eq] t2 ps3 ts3 Ht2 Hr3.
  pose proof (same_token_word _ _ Ht2) as Hw. cbn in Hw. rewrite Hw.
  destruct t2 as [[f|d|]|]; cbn [negb]; try done. destruct Ht2 as [_ Hs]. cbn in Hs.
  apply IH; [done|]. destruct op; cbn [op_token code Z.eqb Pos.eqb]; by split.
Qed.

Lemma sim_args fuel argc c u ps ts : reads ps ts -> stood c u ->
  sim stood (parseargs m es fuel argc c ps) (targs fuel argc u ts).
Proof.
  revert argc c u ps ts. induction fuel as [|fuel IH]; intros argc c u ps ts Hr Hc; [done|]. cbn [parseargs targs].
  eapply sim_bind; [apply sim_peek; [done|repeat constructor; set_solver]|].
  intros b ? ps1 ts1 <- Hr1. destruct b; [by split|].
  eapply sim_bind; [by apply sim_gettoken|]. intros [[tok q] eq] t ps2 ts2 Ht Hr2.
  pose proof (same_token_word _ _ Ht) as Hw. cbn [fst] in Hw. rewrite Hw.
  destruct t as [t|]; cbn in Ht; [|rewrite Ht; by split]. destruct Ht as [-> Hs].
  assert (code t <> 0) as H0 by (destruct t; cbn; [done|set_solver by lia|done]).
  rewrite (proj2 (Z.eqb_neq _ _) H0). destruct t as [w|d|]; cbn [negb]; try done.
  case_match; [done|]. eapply sim_bind; [apply sim_redirs; [done|by apply stands_set_arg]|].
  intros c' u' ps3 ts3 Hc' Hr3. by apply IH.
Qed.

Lemma sim_backs fuel c u ps ts : reads ps ts -> stood c u -> sim stood (parsebacks m es fuel c ps) (tbacks fuel u ts).
Proof.
  revert c u ps ts. induction fuel as [|fuel IH]; intros c u ps ts Hr Hc; [done|]. cbn [parsebacks tbacks].
  eapply sim_bind; [apply sim_peek; [done|repeat constructor; set_solver]|].
  intros b ? ps1 ts1 <- Hr1. destruct b; cbn [negb]; [|by split].
  apply sim_drop; [done|]. intros ps2 ts2 Hr2. by apply IH.
Qed.

Ltac sim_peek_step :=
  eapply sim_bind; [apply sim_peek; [done|repeat constructor; set_solver]|];
  let b := fresh "b" in let Hr := fresh "Hp" in let p := fresh "p" in let t := fresh "t" in
  intros b ? p t <- Hr; destruct b; cbn [negb].

Lemma sim_parser fuel :
  (forall ps ts, reads ps ts -> sim stood (parseline m es fuel ps) (tline fuel ts)) /\
  (forall ps ts, reads ps ts -> sim stood (parsepipe m es fuel ps) (tpipe fuel ts)) /\
  (forall ps ts, reads ps ts -> sim stood (parseexec m es fuel ps) (texec fuel ts)) /\
  (forall ps ts, reads ps ts -> sim stood (parseblock m es fuel ps) (tblock fuel ts)).
Proof.
  induction fuel as [|fuel (IHl & IHp & IHe & IHb)]; [done|]. split_and!; intros ps ts Hr.
  - cbn [parseline tline]. eapply sim_bind; [by apply IHp|]. intros c u ps1 ts1 Hc Hr1.
    eapply sim_bind; [by apply sim_backs|]. intros c' u' ps2 ts2 Hc' Hr2. sim_peek_step; [|by split].
    apply sim_drop; [done|]. intros ps3 ts3 Hr3. eapply sim_bind; [by apply IHl|]. intros d v ps4 ts4 Hd Hr4. by split.
  - cbn [parsepipe tpipe]. eapply sim_bind; [by apply IHe|]. intros c u ps1 ts1 Hc Hr1. sim_peek_step; [|by split].
    apply sim_drop; [done|]. intros ps3 ts3 Hr3. eapply sim_bind; [by apply IHp|]. intros d v ps4 ts4 Hd Hr4. by split.
  - cbn [parseexec texec]. sim_peek_step; [by apply IHb|].
    eapply sim_bind; [apply sim_redirs; [done|by constructor]|]. intros c u ps1 ts1 Hc Hr1. by apply sim_args.
  - cbn [parseblock tblock]. sim_peek_step; [|done]. apply sim_drop; [done|]. intros ps1 ts1 Hr1.
    eapply sim_bind; [by apply IHl|]. intros c u ps2 ts2 Hc Hr2. sim_peek_step; [|done].
    apply sim_drop; [done|]. intros ps3 ts3 Hr3. by apply sim_redirs.
Qed.
End Text.

(** ** nulterminate() *)

(** A C string. *)
Definition cstring (m : memory) (p : Z) (w : list Z) : Prop := text_at m p (w ++ [0]) /\ 0 ∉ w.

(** The pointers of a command. *)
Fixpoint pairs (c : cmd) : list (Z * Z) :=
  match c with
  | EXEC argv => argv
  | REDIR c file efile _ _ => pairs c ++ [(file, efile)]
  | PIPE c d => pairs c ++ pairs d
  | LIST c d => pairs c ++ pairs d
  | BACK c => pairs c
  end.

(** The words of a command. *)
Fixpoint uwords (u : ucmd) : list (list Z) :=
  match u with
  | UExec args => args
  | URedir u _ f => uwords u ++ [f]
  | UPipe u v => uwords u ++ uwords v
  | UList u v => uwords u ++ uwords v
  | UBack u => uwords u
  end.

Lemma stands_impl (R R' : Z * Z -> list Z -> Prop) c u :
  (forall a w, a ∈ pairs c -> w ∈ uwords u -> R a w -> R' a w) -> stands R c u -> stands R' c u.
Proof.
  revert u. induction c as [argv|c IH file efile mode fd|c IH d IH'|c IH d IH'|c IH]; intros u HR H; destruct u; try done; cbn in *.
  - induction H as [|a w argv args Ha _ IH]; constructor; [apply HR; [left|left|done]|].
    apply IH. intros a' w' Hin Hin'. apply HR; by right.
  - setoid_rewrite elem_of_app in HR. destruct H as (H1 & H2 & H3). split; [apply IH; [|done]; naive_solver|].
    split; [|done]. apply HR; [right; left|right; left|done].
  - setoid_rewrite elem_of_app in HR. destruct H as (H1 & H2). split; [apply IH|apply IH']; naive_solver.
  - setoid_rewrite elem_of_app in HR. destruct H as (H1 & H2). split; [apply IH|apply IH']; naive_solver.
  - by apply IH.
Qed.

Lemma stands_pair (P : Z * Z -> Prop) R c u : (forall a w, R a w -> P a) -> stands R c u -> Forall P (pairs c).
Proof.
  intros HP. revert u. induction c as [argv|c IH file efile mode fd|c IH d IH'|c IH d IH'|c IH]; intros u H; destruct u; try done; cbn in *.
  - induction H; constructor; [by eapply HP|done].
  - destruct H as (H1 & H2 & _). apply Forall_app. split; [by eapply IH|]. constructor; [by eapply HP|constructor].
  - destruct H as (H1 & H2). apply Forall_app. split; [by eapply IH|by eapply IH'].
  - destruct H as (H1 & H2). apply Forall_app. split; [by eapply IH|by eapply IH'].
  - by eapply IH.
Qed.

(** A zero at the end of each word, nothing else. *)
Lemma nulterminate_pairs c m : nulterminate c m = foldl (fun m (a : Z * Z) => st8 m a.2 0) m (pairs c).
Proof.
  revert m. induction c as [argv|c IH file efile mode fd|c IH d IH'|c IH d IH'|c IH]; intros m; cbn [nulterminate pairs];
    rewrite ?foldl_app; cbn [foldl]; rewrite ?IH, ?IH'; done.
Qed.

Lemma ld8_ends l m x : ld8 (foldl (fun m (a : Z * Z) => st8 m a.2 0) m l) x = 0 /\ x ∈ l.*2 \/
  ld8 (foldl (fun m (a : Z * Z) => st8 m a.2 0) m l) x = ld8 m x /\ x ∉ l.*2.
Proof.
  revert m. induction l as [|a l IH]; intros m; cbn [foldl]; [right; split; [done|apply not_elem_of_nil]|].
  destruct (IH (st8 m a.2 0)) as [[E H]|[E H]]; [left; split; [done|by right]|]. rewrite E, ld8_st8. case_decide as Hx.
  - left. split; [done|]. rewrite Hx. left.
  - right. split; [done|]. cbn. rewrite not_elem_of_cons. done.
Qed.

Lemma nulterminate_strings m c u : stands (span m) c u ->
  stands (fun a => cstring (nulterminate c m) a.1) c u.
Proof.
  intros H. rewrite nulterminate_pairs.
  assert (Forall (fun a => ~ wordchar (ld8 m a.2)) (pairs c)) as Hn by (eapply stands_pair; [|done]; by intros a w (_ & _ & _ & ?)).
  rewrite Forall_forall in Hn. revert H. apply stands_impl. intros a w Ha _ (Hw & He & Hc & _).
  rewrite Forall_forall in Hc. split; [|intros H0; by destruct (Hc 0 H0)].
  apply text_at_app. split.
  - intros i b Hi. destruct (ld8_ends (pairs c) m (a.1 + Z.of_nat i)) as [[E H]|[-> _]]; [|by apply Hw].
    apply list_elem_of_fmap in H as (a' & E' & Ha'). destruct (Hn a' Ha'). rewrite <- E', (Hw i b Hi).
    apply Hc. by eapply list_elem_of_lookup_2.
  - apply text_at_cons. split; [|by intros i b Hi]. rewrite <- He.
    destruct (ld8_ends (pairs c) m a.2) as [[E H]|[_ H]]; [done|]. destruct H. apply list_elem_of_fmap. by exists a.
Qed.

(** ** parsecmd() *)

Lemma spells_length ts r : spells ts r -> (length ts <= length r)%nat.
Proof.
  induction 1 as [ws|ws t ts r _ Hok _ _ IH]; [cbn; lia|].
  assert (0 < length (text t))%nat as Ht. { destruct t as [[|]|c'|]; cbn; [by destruct Hok|lia|lia|lia]. }
  rewrite !length_app. cbn [length]. lia.
Qed.

Lemma strlen_text m s r fuel : text_at m s (r ++ [0]) -> 0 ∉ r -> Z.of_nat (length r) < 2 ^ 31 -> (length r < fuel)%nat ->
  strlen (read_bytes m s fuel) = Z.of_nat (length r).
Proof.
  revert s fuel. induction r as [|c r IH]; intros s fuel Ht Hn Hl Hf; (destruct fuel as [|fuel]; [cbn in Hf; lia|]);
    cbn [app read_bytes strlen length] in *; apply text_at_cons in Ht as [-> Ht]; [done|].
  rewrite (proj2 (Z.eqb_neq c 0)) by set_solver. rewrite IH; [|done|set_solver|lia|lia]. rewrite u32_small; lia.
Qed.

(** The white space and the words at the start of a text. *)
#[global] Instance wordchar_dec c : Decision (wordchar c).
Proof. apply _. Defined.

Lemma spells_ws c ts r : c ∈ whitespace -> spells ts r -> spells ts (c :: r).
Proof. intros Hc [ws Hws|ws t ts' r' Hws ? ? ?]; [constructor; by constructor|]. apply (sp_tok (c :: ws)); [by constructor|done..]. Qed.

Lemma word_prefix r : exists w r', r = w ++ r' /\ Forall wordchar w /\ ~ wordchar (hd 0 r').
Proof.
  induction r as [|c r (w & r' & -> & Hw & Hr)]; [exists [], []; split_and!; [done|done|by intros [? _]]|].
  destruct (decide (wordchar c)); [exists (c :: w), r'; split_and!; [done|by constructor|done]|by exists [], (c :: w ++ r')].
Qed.

Lemma spells_total r : 0 ∉ r -> exists ts, spells ts r.
Proof.
  remember (length r) as n eqn:Hn. assert (length r <= n)%nat as Hle by lia. clear Hn. revert r Hle.
  induction n as [|n IH]; intros r Hle H0; (destruct r as [|c r]; [by exists []; constructor|]); [cbn in Hle; lia|].
  assert (c <> 0) as Hc by set_solver. destruct (decide (c ∈ whitespace)) as [Hws|Hws].
  { destruct (IH r) as [ts Hts]; [cbn in Hle; lia|set_solver|]. exists ts. by apply spells_ws. }
  destruct (decide (c ∈ symbols)) as [Hsym|Hsym].
  - destruct (decide (c = 62 /\ hd 0 r = 62)) as [[-> Hr]|Hr].
    + destruct r as [|d r]; [done|]. cbn in Hr. subst d. destruct (IH r) as [ts Hts]; [cbn in Hle; lia|set_solver|].
      exists (TAppend :: ts). by apply (sp_tok [] TAppend).
    + destruct (IH r) as [ts Hts]; [cbn in Hle; lia|set_solver|]. exists (TSym c :: ts).
      apply (sp_tok [] (TSym c)); [done|done| |done]. cbn. tauto.
  - destruct (word_prefix r) as (w & r' & -> & Hw & Hr). cbn in Hle. rewrite length_app in Hle.
    destruct (IH r') as [ts Hts]; [lia|set_solver|]. exists (TWord (c :: w) :: ts).
    apply (sp_tok [] (TWord (c :: w))); [done| |done|done]. split; [done|]. by constructor.
Qed.

(** Writes a message to standard error and exits with status 1. *)
Definition dies {A} (p : uprog A) : Prop := prints 2 (fun q => q = UExit 1) p.

Lemma dies_panic {A} s : dies (sh_panic s : uprog A).
Proof. apply prints_bind; [apply fprintf_prints|]. intros _. by constructor 1. Qed.

(** The end of parsecmd(), on tokens: the parse consumed everything. *)
Lemma parsecmd_sim m s r ts fuel :
  text_at m s (r ++ [0]) -> spells ts r -> Z.of_nat (length r) < 2 ^ 31 -> (length r < fuel)%nat ->
  match tline fuel ts with
  | Ret u [] => exists c, parsecmd fuel m s = URet (c, nulterminate c m) /\ stands (span m) c u
  | Ret _ _ | Panic _ _ => dies (parsecmd fuel m s)
  | _ => True
  end.
Proof.
  intros Ht Hs Hl Hf. unfold parsecmd. rewrite (strlen_text m s r) by (done || by eapply spells_nonzero).
  set (es := s + Z.of_nat (length r)). apply text_at_app in Ht as [Ht He]. apply text_at_cons in He as [He _].
  destruct (sim_parser m es He fuel) as [Hsim _]. specialize (Hsim s ts ltac:(by exists r)).
  destruct (parseline m es fuel s) as [c ps|msg ps| | |], (tline fuel ts) as [u ts'|msg' ts'| | |]; try done; cbn in Hsim.
  - destruct Hsim as [Hc Hr]. destruct (skip_ws m es ps ts' Hr) as (r' & (Hr1 & Hr2 & Hr3) & _).
    unfold peek. destruct ts' as [|t ts'].
    + subst r'. cbn in Hr2. exists c. rewrite (proj2 (Z.eqb_eq _ _)) by lia. done.
    + destruct Hr3 as (r'' & -> & Hok & _). destruct (text_head t r'' Hok) as (d & r3 & E3 & _).
      rewrite E3 in Hr2. cbn [length] in Hr2.
      assert ((advance m es (among whitespace) ps =? es) = false) as -> by lia. cbn [negb].
      apply prints_bind; [apply fprintf_prints|]. intros _. apply dies_panic.
  - apply dies_panic.
Qed.

(** C11: parsecmd() accepts exactly the grammar of command lines. On any
    NUL-terminated line it returns or dies; a line that is a sentence of the grammar
    gives a command for it, whose words and files are C strings in the line; on any
    other line the shell prints a message and exits. *)
Theorem parse_grammar m s r fuel
  (Htext : text_at m s (r ++ [0])) (Hnul : 0 ∉ r) (Hlen : Z.of_nat (length r) < 2 ^ 31)
  (Hfuel : (4 * length r + 4 < fuel)%nat) :
  (exists ts, spells ts r) /\
  forall ts, spells ts r ->
    (exists c m' u, parsecmd fuel m s = URet (c, m') /\ g_line ts u /\ stands (fun a => cstring m' a.1) c u) \/
    dies (parsecmd fuel m s) /\ forall u, ~ g_line ts u.
Proof.
  split; [by apply spells_total|]. intros ts Hs. pose proof (spells_length _ _ Hs).
  pose proof (parsecmd_sim m s r ts fuel Htext Hs Hlen ltac:(lia)) as Hp.
  destruct (parser_sound fuel) as [Hsound _]. specialize (Hsound ts ltac:(lia)).
  assert (forall u, g_line ts u -> tline fuel ts = Ret u []) as Hcomplete.
  { intros u Hu. destruct parser_complete as [Hc _]. specialize (Hc ts u Hu [] fuel eq_refl). rewrite app_nil_r in Hc. apply Hc. lia. }
  destruct (tline fuel ts) as [u [|t ts']|msg ts'| | |]; try done.
  - left. destruct Hp as (c & -> & Hc). destruct Hsound as (ts1 & -> & Hg). rewrite app_nil_r.
    exists c, (nulterminate c m), u. split; [done|]. split; [done|]. by apply nulterminate_strings.
  - right. split; [done|]. intros v Hv. by specialize (Hcomplete v Hv).
  - right. split; [done|]. intros v Hv. by specialize (Hcomplete v Hv).
Qed.

(** ** Printing *)

(** A command as tokens, in parentheses where the grammar needs them. Levels: 0 a
    line, 1 the part of a line before a semicolon, 2 a pipeline, 3 one command. *)
Definition parens (b : bool) (ts : list token) : list token := if b then TSym 40 :: ts ++ [TSym 41] else ts.

Fixpoint print (level : nat) (u : ucmd) : list token :=
  match u with
  | UExec args => TWord <$> args
  | URedir c op f => print 3 c ++ [op_token op; TWord f]
  | UPipe u v => parens (3 <=? level)%nat (print 3 u ++ TSym 124 :: print 2 v)
  | UBack u => parens (2 <=? level)%nat (print 1 u ++ [TSym 38])
  | UList u v => parens (1 <=? level)%nat (print 1 u ++ TSym 59 :: print 0 v)
  end.

(** Fewer than MAXARGS words in each command. *)
Fixpoint few_args (u : ucmd) : Prop :=
  match u with
  | UExec args => (length args < Z.to_nat MAXARGS)%nat
  | URedir u _ _ => few_args u
  | UPipe u v => few_args u /\ few_args v
  | UBack u => few_args u
  | UList u v => few_args u /\ few_args v
  end.

Lemma g_exec_redir ts u op f : g_exec ts u -> g_exec (ts ++ [op_token op; TWord f]) (URedir u op f).
Proof.
  intros [l Hl|ts' u' rs Hg].
  - replace (tokens l ++ [op_token op; TWord f]) with (tokens (l ++ [IRedir op f])) by apply tokens_app.
    replace (URedir _ op f) with (wrap (redirs (l ++ [IRedir op f])) (UExec (words (l ++ [IRedir op f])))).
    + constructor. rewrite words_app. cbn. by rewrite app_nil_r.
    + rewrite words_app, redirs_app, wrap_app. cbn. by rewrite app_nil_r.
  - replace ((TSym 40 :: ts' ++ TSym 41 :: tokens (redir_items rs)) ++ [op_token op; TWord f])
      with (TSym 40 :: ts' ++ TSym 41 :: tokens (redir_items (rs ++ [(op, f)]))).
    + replace (URedir (wrap rs u') op f) with (wrap (rs ++ [(op, f)]) u') by apply wrap_app. by constructor.
    + unfold redir_items. rewrite fmap_app, tokens_app. cbn. by rewrite <- app_assoc.
Qed.

Lemma g_exec_parens ts u : g_line ts u -> g_exec (TSym 40 :: ts ++ [TSym 41]) u.
Proof. intros H. exact (g_block ts u [] H). Qed.

Lemma g_line_pipe ts u : g_pipe ts u -> g_line ts u.
Proof. intros H. rewrite <- (app_nil_r ts). exact (g_one ts 0 u H). Qed.

(** A part of a line before a semicolon. *)
Definition g_backs (ts : list token) (u : ucmd) : Prop :=
  exists ts' n v, ts = ts' ++ replicate n (TSym 38) /\ u = backs n v /\ g_pipe ts' v.

Lemma g_backs_pipe ts u : g_pipe ts u -> g_backs ts u.
Proof. intros H. exists ts, 0%nat, u. by rewrite app_nil_r. Qed.

Lemma g_backs_line ts u : g_backs ts u -> g_line ts u.
Proof. intros (ts' & n & v & -> & -> & H). by constructor. Qed.

Lemma g_of_exec ts u : g_exec ts u -> g_line ts u /\ g_backs ts u /\ g_pipe ts u /\ g_exec ts u.
Proof.
  intros H. assert (g_pipe ts u) by (by constructor). split_and!; [by apply g_line_pipe|by apply g_backs_pipe|done|done].
Qed.

Lemma print_grammar u : few_args u ->
  g_line (print 0 u) u /\ g_backs (print 1 u) u /\ g_pipe (print 2 u) u /\ g_exec (print 3 u) u.
Proof.
  induction u as [args|u IH op f|u IHu v IHv|u IHu v IHv|u IH]; cbn [few_args]; intros H.
  - cbn [print]. apply g_of_exec.
    assert (tokens (IWord <$> args) = TWord <$> args) as E1 by (clear; induction args as [|w l IH]; [done|cbn in *; by f_equal]).
    assert (words (IWord <$> args) = args) as E2 by (clear; induction args as [|w l IH]; [done|cbn in *; by f_equal]).
    assert (redirs (IWord <$> args) = []) as E3 by (clear; induction args as [|w l IH]; [done|exact IH]).
    pose proof (g_simple (IWord <$> args)) as Hg. rewrite E1, E2, E3 in Hg. by apply Hg.
  - cbn [print]. apply g_of_exec, g_exec_redir, IH, H.
  - destruct H as [Hu Hv], (IHu Hu) as (_ & _ & _ & He), (IHv Hv) as (_ & _ & Hp & _).
    assert (g_pipe (print 3 u ++ TSym 124 :: print 2 v) (UPipe u v)) as Hg by (by constructor). cbn [print parens Nat.leb].
    split_and!; [by apply g_line_pipe|by apply g_backs_pipe|done|by apply g_exec_parens, g_line_pipe].
  - destruct H as [Hu Hv], (IHu Hu) as (_ & (ts & n & w & E & -> & Hp) & _ & _), (IHv Hv) as (Hl & _ & _ & _).
    assert (g_line (print 1 (backs n w) ++ TSym 59 :: print 0 v) (UList (backs n w) v)) as Hg.
    { rewrite E, <- app_assoc. by constructor. }
    cbn [print parens Nat.leb]. split; [done|]. by apply g_of_exec, g_exec_parens.
  - destruct (IH H) as (_ & (ts & n & w & E & -> & Hp) & _ & _).
    assert (g_backs (print 1 (backs n w) ++ [TSym 38]) (UBack (backs n w))) as Hg.
    { exists ts, (S n), w. rewrite E, <- app_assoc, <- replicate_cons_app. done. }
    cbn [print parens Nat.leb]. split; [by apply g_backs_line|]. split; [done|].
    apply g_of_exec, g_exec_parens. by apply g_backs_line.
Qed.

(** C26: printing a command and parsing the text gives the command back. Any text
    that spells the printed tokens, whatever its white space, is parsed to the tree
    it was printed from, with the words as C strings. *)
Theorem parse_print m s r u fuel
  (Htext : text_at m s (r ++ [0])) (Hspells : spells (print 0 u) r) (Hargs : few_args u)
  (Hlen : Z.of_nat (length r) < 2 ^ 31) (Hfuel : (4 * length r + 4 < fuel)%nat) :
  exists c m', parsecmd fuel m s = URet (c, m') /\ stands (fun a => cstring m' a.1) c u.
Proof.
  pose proof (spells_length _ _ Hspells). destruct (print_grammar u Hargs) as [Hg _].
  pose proof (parsecmd_sim m s r _ fuel Htext Hspells Hlen ltac:(lia)) as Hp.
  destruct parser_complete as [Hc _]. specialize (Hc _ u Hg [] fuel eq_refl). rewrite app_nil_r in Hc.
  rewrite Hc in Hp by lia. destruct Hp as (c & -> & Hst). exists c, (nulterminate c m). split; [done|]. by apply nulterminate_strings.
Qed.

(** ** An example: [cat<x | wc>y;z&] *)

Lemma read_bytes_text m s r : read_bytes m s (length r) = r -> text_at m s r.
Proof.
  revert s. induction r as [|c r IH]; intros s H; [by intros i b Hi|]. cbn [length read_bytes] in H.
  injection H as H1 H2. apply text_at_cons. split; [done|]. by apply IH.
Qed.

Definition demo_line : list Z := Console.bytes "cat<x | wc>y;z&" ++ [10].

Definition demo_tokens : list token :=
  [TWord (Console.bytes "cat"); TSym 60; TWord (Console.bytes "x"); TSym 124; TWord (Console.bytes "wc"); TSym 62;
   TWord (Console.bytes "y"); TSym 59; TWord (Console.bytes "z"); TSym 38].

Definition demo_command : ucmd :=
  UList (UPipe (URedir (UExec [Console.bytes "cat"]) RIn (Console.bytes "x"))
               (URedir (UExec [Console.bytes "wc"]) ROut (Console.bytes "y")))
        (UBack (UExec [Console.bytes "z"])).

#[global] Instance token_ok_dec t : Decision (token_ok t).
Proof. destruct t; cbn; apply _. Defined.

#[global] Instance follows_dec t c : Decision (follows t c).
Proof. destruct t; cbn; apply _. Defined.

Ltac spell ws t r :=
  refine (sp_tok ws t _ r _ _ _ _); [apply (bool_decide_unpack _); vm_compute; exact I..|].

Lemma demo_spells : spells demo_tokens demo_line.
Proof.
  spell ([] : list Z) (TWord (Console.bytes "cat")) (Console.bytes "<x | wc>y;z&" ++ [10]).
  spell ([] : list Z) (TSym 60) (Console.bytes "x | wc>y;z&" ++ [10]).
  spell ([] : list Z) (TWord (Console.bytes "x")) (Console.bytes " | wc>y;z&" ++ [10]).
  spell [32] (TSym 124) (Console.bytes " wc>y;z&" ++ [10]).
  spell [32] (TWord (Console.bytes "wc")) (Console.bytes ">y;z&" ++ [10]).
  spell ([] : list Z) (TSym 62) (Console.bytes "y;z&" ++ [10]).
  spell ([] : list Z) (TWord (Console.bytes "y")) (Console.bytes ";z&" ++ [10]).
  spell ([] : list Z) (TSym 59) (Console.bytes "z&" ++ [10]).
  spell ([] : list Z) (TWord (Console.bytes "z")) (Console.bytes "&" ++ [10]).
  spell ([] : list Z) (TSym 38) [10].
  constructor. apply (bool_decide_unpack _). vm_compute. exact I.
Qed.

Definition demo_memory : memory := write_bytes ∅ 4096 (demo_line ++ [0]).

Lemma demo_text : text_at demo_memory 4096 (demo_line ++ [0]).
Proof. apply read_bytes_text. vm_compute. reflexivity. Qed.

Lemma demo_args : few_args demo_command.
Proof. cbn. lia. Qed.

Lemma parse_grammar_witness : exists c m' u, parsecmd 100 demo_memory 4096 = URet (c, m') /\ g_line demo_tokens u.
Proof.
  destruct (parse_grammar demo_memory 4096 demo_line 100 demo_text ltac:(apply (bool_decide_unpack _); vm_compute; exact I)
    ltac:(vm_compute; reflexivity) ltac:(vm_compute; lia)) as [_ H].
  destruct (H demo_tokens demo_spells) as [(c & m' & u & H1 & H2 & _)|[_ H1]];
    [exists c, m', u; exact (conj H1 H2)|].
  destruct (H1 demo_command). apply (print_grammar demo_command demo_args).
Defined.

Lemma parse_print_witness : exists c m', parsecmd 100 demo_memory 4096 = URet (c, m') /\
  stands (fun a => cstring m' a.1) c demo_command.
Proof.
  exact (parse_print demo_memory 4096 demo_line demo_command 100 demo_text demo_spells demo_args
    ltac:(vm_compute; reflexivity) ltac:(vm_compute; lia)).
Defined.
