(* ===== verification/Fs.v ===== *)
(** kernel/fs.c: blocks, inodes, directories and path names.

    An inode is its index in itable; a block is a buffer while it is held. *)
From S2P Require Import Prelude Riscv Machine Spinlock KString Kalloc Vm Sched Keeps FsIface File Proc.
From S2P Require Import FsState Quiet Sleeplock Bio Log Console.

(** ** On-disk layout *)

(** struct superblock in the bytes of a block. *)
Definition sb_of (d : block) : superblock :=
  mksuperblock (ld32 d 0) (ld32 d 4) (ld32 d 8) (ld32 d 12) (ld32 d 16) (ld32 d 20) (ld32 d 24) (ld32 d 28).

Definition IBLOCK (i : Z) (sb : superblock) : Z := u32 (i / IPB + sb_inodestart sb).
Abbreviation BBLOCK b sb := (u32 (b / BPB + sb_bmapstart sb)) (only parsing).

(** (struct dinode * )bp->data + inum % IPB *)
Definition dinode_off (inum : Z) : Z := 64 * (inum `mod` IPB).

Abbreviation di_type d o := (s16 (ld 2 d o)) (only parsing).
Abbreviation di_major d o := (s16 (ld 2 d (o + 2))) (only parsing).
Abbreviation di_minor d o := (s16 (ld 2 d (o + 4))) (only parsing).
Abbreviation di_nlink d o := (s16 (ld 2 d (o + 6))) (only parsing).
Abbreviation di_size d o := (ld32 d (o + 8)) (only parsing).
Definition di_addrs (d : block) (o : Z) : list Z :=
  map (fun i => ld32 d (o + 12 + 4 * Z.of_nat i)) (seq 0 13).

Fixpoint put_addrs (d : block) (o : Z) (l : list Z) : block :=
  match l with
  | [] => d
  | a :: l => put_addrs (st32 d o a) (o + 4) l
  end.

(** The stores of iupdate(). *)
Definition put_dinode (d : block) (o : Z) (ip : inode) : block :=
  let d := st 2 d o (i_type ip) in
  let d := st 2 d (o + 2) (i_major ip) in
  let d := st 2 d (o + 4) (i_minor ip) in
  let d := st 2 d (o + 6) (i_nlink ip) in
  let d := st32 d (o + 8) (i_size ip) in
  put_addrs d (o + 12) (i_addrs ip).

(** The loads of ilock(). *)
Definition get_dinode (d : block) (o : Z) (ip : inode) : inode :=
  set_i_addrs (di_addrs d o) (set_i_size (di_size d o) (set_i_nlink (di_nlink d o)
    (set_i_minor (di_minor d o) (set_i_major (di_major d o) (set_i_type (di_type d o) ip))))).

(** ** Bits of the free map *)

Definition bit_mask (bi : Z) : Z := Z.shiftl 1 (bi `mod` 8).
Definition bit_clear (d : block) (bi : Z) : bool := Z.land (ld8 d (bi / 8)) (bit_mask bi) =? 0.
Definition set_bit (d : block) (bi : Z) : block :=
  st8 d (bi / 8) (Z.lor (ld8 d (bi / 8)) (bit_mask bi)).
Definition clear_bit (d : block) (bi : Z) : block :=
  st8 d (bi / 8) (Z.land (ld8 d (bi / 8)) (Z.lnot (bit_mask bi))).

(** for(bi = 0; bi < BPB && b + bi < sb.size; bi++) if bit bi is clear ... *)
Fixpoint find_clear (k : nat) (d : block) (b size bi : Z) : option Z :=
  match k with
  | O => None
  | S k =>
      if b + bi <? size then
        if bit_clear d bi then Some bi else find_clear k d b size (bi + 1)
      else None
  end.

(** ** Path names: a path is the bytes that are left of it. *)

Definition slash : Z := 47.

Fixpoint skip_slashes (path : list Z) : list Z :=
  match path with
  | c :: rest => if c =? slash then skip_slashes rest else path
  | [] => []
  end.

Definition at_end (path : list Z) : bool :=
  match path with [] => true | c :: _ => c =? 0 end.

(** while( *path != '/' && *path != 0) path++: the element and what follows it. *)
Fixpoint path_elem (path : list Z) : list Z * list Z :=
  match path with
  | [] => ([], [])
  | c :: rest =>
      if (c =? slash) || (c =? 0) then ([], path)
      else let '(e, r) := path_elem rest in (c :: e, r)
  end.

(** skipelem(path, name): what is left of the path and the buffer of the name;
    [None] if there is no element. *)
Definition skipelem (path name : list Z) : option (list Z * list Z) :=
  let path := skip_slashes path in
  if at_end path then None else
  let '(s, rest) := path_elem path in
  let name := if (length s <? DIRSIZ)%nat then s ++ [0] ++ drop (S (length s)) name
              else take DIRSIZ s in
  Some (skip_slashes rest, name).

Definition namecmp (s t : cptr) : Z := strncmp s t DIRSIZ.

(** struct dirent *)
Definition sizeof_dirent : Z := 16.
Abbreviation de_inum de := (nth 0 de 0 + 2 ^ 8 * nth 1 de 0) (only parsing).
Abbreviation de_name de := (drop 2 de) (only parsing).
Definition dirent (inum : Z) (name : list Z) : list Z := le_bytes 2 inum ++ name.

(** The table entry of an inode, and the first free entry. *)
Definition in_table (dev inum : Z) (ip : inode) : bool :=
  (i_ref ip >? 0) && (i_dev ip =? dev) && (i_inum ip =? inum).

Fixpoint find_index {A} (f : A -> bool) (l : list A) (i : nat) : option nat :=
  match l with
  | [] => None
  | x :: l => if f x then Some i else find_index f l (S i)
  end.

(** The bytes [off, off + m) of a block. *)
Definition block_bytes (d : block) (off m : Z) : list Z := read_bytes d off (Z.to_nat m).

Section Ops.
Context `{L : Layout} `{Fuel0 : Fuel} `{Dev : BlockDev}.
Abbreviation KM := (K (kstate fsys)).

Definition buf_data (b : nat) : KM block := fs_gets (fun f => b_data (get_buf b f)).
Definition set_data (b : nat) (g : block -> block) : KM unit :=
  fs_modify (upd_buf b (fun x => set_b_data (g (b_data x)) x)).
Definition the_sb : KM superblock := fs_gets fs_sb.
Definition ifield {A} (g : inode -> A) (ip : nat) : KM A := fs_gets (fun f => g (get_inode ip f)).

Definition readsb (dev : Z) : KM unit :=
  bp <- bread (u32 dev) 1 ;;
  d <- buf_data bp ;;
  fs_modify (set_fs_sb (sb_of d)) ;;
  brelse bp.

Definition fsinit (dev : Z) : KM unit :=
  readsb dev ;;
  sb <- the_sb ;;
  if negb (sb_magic sb =? FSMAGIC) then panic "invalid file system" else
  initlog dev sb.

Definition bzero (dev bno : Z) : KM unit :=
  bp <- bread (u32 dev) (u32 bno) ;;
  set_data bp (fun d => memset d 0 0 BSIZE) ;;
  log_write bp ;;
  brelse bp.

Fixpoint balloc_loop (k : nat) (dev b : Z) : KM Z :=
  match k with
  | O => out_of_fuel
  | S k =>
      sb <- the_sb ;;
      if b <? sb_size sb then
        bp <- bread dev (BBLOCK b sb) ;;
        d <- buf_data bp ;;
        match find_clear (Z.to_nat BPB) d b (sb_size sb) 0 with
        | Some bi =>
            set_data bp (fun d => set_bit d bi) ;;
            log_write bp ;;
            brelse bp ;;
            bzero dev (b + bi) ;;
            ret (b + bi)
        | None => brelse bp ;; balloc_loop k dev (b + BPB)
        end
      else
        printf ("balloc: out of blocks" +:+ newline) [] ;;
        ret 0
  end.

Definition balloc (dev : Z) : KM Z :=
  n <- fs_gets (fun f => sb_size (fs_sb f) / BPB) ;;
  balloc_loop (S (S (Z.to_nat n))) dev 0.

Definition bfree (dev b : Z) : KM unit :=
  sb <- the_sb ;;
  bp <- bread (u32 dev) (BBLOCK b sb) ;;
  let bi := b `mod` BPB in
  d <- buf_data bp ;;
  if bit_clear d bi then panic "freeing free block" else
  set_data bp (fun d => clear_bit d bi) ;;
  log_write bp ;;
  brelse bp.

(** *** Inodes *)

Definition iinit : KM unit :=
  initlock L_itable "itable" ;;
  for_ 0 NINODE (fun i => initsleeplock (SL_inode i) "inode").

Definition iget (dev inum : Z) : KM nat :=
  acquire L_itable ;;
  l <- fs_gets fs_inodes ;;
  match find_index (in_table dev inum) l 0 with
  | Some ip =>
      fs_modify (upd_inode ip (fun x => set_i_ref (s32 (i_ref x + 1)) x)) ;;
      release L_itable ;;
      ret ip
  | None =>
      match find_index (fun ip => i_ref ip =? 0) l 0 with
      | None => panic "iget: no inodes"
      | Some ip =>
          fs_modify (upd_inode ip (set_i_dev dev)) ;;
          fs_modify (upd_inode ip (set_i_inum inum)) ;;
          fs_modify (upd_inode ip (set_i_ref 1)) ;;
          fs_modify (upd_inode ip (set_i_valid 0)) ;;
          release L_itable ;;
          ret ip
      end
  end.

(** for(inum = 1; inum < sb.ninodes; inum++) *)
Fixpoint ialloc_loop (k : nat) (dev type inum : Z) : KM (option nat) :=
  match k with
  | O => out_of_fuel
  | S k =>
      sb <- the_sb ;;
      if inum <? sb_ninodes sb then
        bp <- bread dev (IBLOCK inum sb) ;;
        d <- buf_data bp ;;
        let o := dinode_off inum in
        if di_type d o =? 0 then
          set_data bp (fun d => memset d o 0 64) ;;
          set_data bp (fun d => st 2 d o type) ;;
          log_write bp ;;
          brelse bp ;;
          ip <- iget dev inum ;;
          ret (Some ip)
        else
          brelse bp ;;
          ialloc_loop k dev type (inum + 1)
      else
        printf ("ialloc: no inodes" +:+ newline) [] ;;
        ret None
  end.

Definition ialloc (dev type : Z) : KM (option nat) :=
  n <- fs_gets (fun f => sb_ninodes (fs_sb f)) ;;
  ialloc_loop (S (Z.to_nat n)) dev type 1.

Definition iupdate (ip : nat) : KM unit :=
  x <- ifield id ip ;;
  sb <- the_sb ;;
  bp <- bread (i_dev x) (IBLOCK (i_inum x) sb) ;;
  x <- ifield id ip ;;
  set_data bp (fun d => put_dinode d (dinode_off (i_inum x)) x) ;;
  log_write bp ;;
  brelse bp.

Definition idup (ip : nat) : KM nat :=
  acquire L_itable ;;
  fs_modify (upd_inode ip (fun x => set_i_ref (s32 (i_ref x + 1)) x)) ;;
  release L_itable ;;
  ret ip.

Definition ilock (ip : nat) : KM unit :=
  ref <- ifield i_ref ip ;;
  if ref <? 1 then panic "ilock" else
  acquiresleep (SL_inode ip) ;;
  x <- ifield id ip ;;
  if i_valid x =? 0 then
    sb <- the_sb ;;
    bp <- bread (i_dev x) (IBLOCK (i_inum x) sb) ;;
    d <- buf_data bp ;;
    fs_modify (upd_inode ip (fun y => get_dinode d (dinode_off (i_inum x)) y)) ;;
    brelse bp ;;
    fs_modify (upd_inode ip (set_i_valid 1)) ;;
    type <- ifield i_type ip ;;
    if type =? 0 then panic "ilock: no type" else ret tt
  else ret tt.

Definition iunlock (ip : nat) : KM unit :=
  h <- holdingsleep (SL_inode ip) ;;
  if negb h then panic "iunlock" else
  ref <- ifield i_ref ip ;;
  if ref <? 1 then panic "iunlock" else
  releasesleep (SL_inode ip).

(** if(ip->addrs[i]) { bfree(ip->dev, ip->addrs[i]); ip->addrs[i] = 0; } *)
Definition addr (i : nat) (ip : inode) : Z := nth i (i_addrs ip) 0.
Definition set_addr (i : nat) (v : Z) (ip : inode) : inode := set_i_addrs (<[i := v]> (i_addrs ip)) ip.

Definition itrunc_direct (ip i : nat) : KM unit :=
  x <- ifield id ip ;;
  when negb (addr i x =? 0) do
    (bfree (i_dev x) (addr i x) ;;
     fs_modify (upd_inode ip (set_addr i 0))).

Definition itrunc (ip : nat) : KM unit :=
  for_ 0 (Z.to_nat NDIRECT) (itrunc_direct ip) ;;
  let ind := Z.to_nat NDIRECT in
  x <- ifield id ip ;;
  (when negb (addr ind x =? 0) do
     (bp <- bread (i_dev x) (addr ind x) ;;
      for_ 0 (Z.to_nat NINDIRECT) (fun j =>
        d <- buf_data bp ;;
        let a := ld32 d (4 * Z.of_nat j) in
        dev <- ifield i_dev ip ;;
        when negb (a =? 0) do bfree dev a) ;;
      brelse bp ;;
      x <- ifield id ip ;;
      bfree (i_dev x) (addr ind x) ;;
      fs_modify (upd_inode ip (set_addr ind 0)))) ;;
  fs_modify (upd_inode ip (set_i_size 0)) ;;
  iupdate ip.

Definition iput (ip : nat) : KM unit :=
  acquire L_itable ;;
  x <- ifield id ip ;;
  (when (i_ref x =? 1) && negb (i_valid x =? 0) && (i_nlink x =? 0) do
     (acquiresleep (SL_inode ip) ;;
      release L_itable ;;
      itrunc ip ;;
      fs_modify (upd_inode ip (set_i_type 0)) ;;
      iupdate ip ;;
      fs_modify (upd_inode ip (set_i_valid 0)) ;;
      releasesleep (SL_inode ip) ;;
      acquire L_itable)) ;;
  fs_modify (upd_inode ip (fun x => set_i_ref (s32 (i_ref x - 1)) x)) ;;
  release L_itable.

Definition iunlockput (ip : nat) : KM unit :=
  iunlock ip ;;
  iput ip.

(** *** Contents *)

(** if((addr = ip->addrs[i]) == 0) { addr = balloc(ip->dev); if(addr == 0) return 0; ip->addrs[i] = addr; } *)
Definition bmap_addr (ip i : nat) : KM Z :=
  x <- ifield id ip ;;
  if negb (addr i x =? 0) then ret (addr i x) else
  a <- balloc (i_dev x) ;;
  if a =? 0 then ret 0 else
  fs_modify (upd_inode ip (set_addr i a)) ;;
  ret a.

Definition bmap (ip : nat) (bn : Z) : KM Z :=
  if bn <? NDIRECT then bmap_addr ip (Z.to_nat bn) else
  let bn := bn - NDIRECT in
  if bn <? NINDIRECT then
    a <- bmap_addr ip (Z.to_nat NDIRECT) ;;
    if a =? 0 then ret 0 else
    dev <- ifield i_dev ip ;;
    bp <- bread dev a ;;
    d <- buf_data bp ;;
    r <- (if negb (ld32 d (4 * bn) =? 0) then ret (ld32 d (4 * bn)) else
          dev <- ifield i_dev ip ;;
          a <- balloc dev ;;
          (when negb (a =? 0) do
             (set_data bp (fun d => st32 d (4 * bn) a) ;;
              log_write bp)) ;;
          ret a) ;;
    brelse bp ;;
    ret r
  else panic "bmap: out of range".

(** stati(ip, st): the bytes of struct stat; [pad] is what the four bytes
    between nlink and size hold. *)
Definition stati (pad : list Z) (ip : nat) : KM (list Z) :=
  x <- ifield id ip ;;
  ret (le_bytes 4 (i_dev x) ++ le_bytes 4 (i_inum x) ++ le_bytes 2 (i_type x) ++
       le_bytes 2 (i_nlink x) ++ pad ++ le_bytes 8 (i_size x)).

(** The loop of readi(): [copy dst bs] is either_copyout(user_dst, dst, bs); the
    result is the count and the bytes copied. *)
Fixpoint readi_loop (k : nat) (copy : Z -> list Z -> KM Z) (ip : nat) (dst off n tot : Z)
    (acc : list Z) : KM (Z * list Z) :=
  match k with
  | O => out_of_fuel
  | S k =>
      if negb (tot <? n) then ret (tot, acc) else
      a <- bmap ip (off / BSIZE) ;;
      if a =? 0 then ret (tot, acc) else
      dev <- ifield i_dev ip ;;
      bp <- bread dev a ;;
      let m := Z.min (n - tot) (BSIZE - off `mod` BSIZE) in
      d <- buf_data bp ;;
      let bs := block_bytes d (off `mod` BSIZE) m in
      r <- copy dst bs ;;
      if r =? -1 then brelse bp ;; ret (-1, acc) else
      brelse bp ;;
      readi_loop k copy ip (u64 (dst + m)) (u32 (off + m)) n (tot + m) (acc ++ bs)
  end.

Definition io_fuel (n : Z) : nat := (Z.to_nat (n / BSIZE) + 3)%nat.

Definition readi_with (copy : Z -> list Z -> KM Z) (ip : nat) (dst off n : Z) : KM (Z * list Z) :=
  size <- ifield i_size ip ;;
  if (off >? size) || (u32 (off + n) <? off) then ret (0, []) else
  let n := if u32 (off + n) >? size then u32 (size - off) else n in
  readi_loop (io_fuel n) copy ip dst off n 0 [].

Definition readi (ip : nat) (user_dst : bool) (dst off n : Z) : KM Z :=
  r <- readi_with (either_copyout user_dst) ip dst off n ;; ret r.1.

(** readi(ip, 0, &local, off, n): the bytes stored to the local variable. *)
Definition readi_local (ip : nat) (off n : Z) : KM (Z * list Z) :=
  readi_with (fun _ _ => ret 0) ip 0 off n.

(** Storing [bs] at [off] of a block. *)
Definition put_bytes (off : Z) (bs : list Z) (d : block) : block := write_bytes d off bs.

(** The loop of writei(): [fetch src m] is either_copyin(dst, user_src, src, m),
    with the bytes it stores. The result is the count and the last offset. *)
Fixpoint writei_loop (k : nat) (fetch : Z -> Z -> KM (Z * list Z)) (ip : nat) (src off n tot : Z) : KM (Z * Z) :=
  match k with
  | O => out_of_fuel
  | S k =>
      if negb (tot <? n) then ret (tot, off) else
      a <- bmap ip (off / BSIZE) ;;
      if a =? 0 then ret (tot, off) else
      dev <- ifield i_dev ip ;;
      bp <- bread dev a ;;
      let m := Z.min (n - tot) (BSIZE - off `mod` BSIZE) in
      r <- fetch src m ;;
      set_data bp (put_bytes (off `mod` BSIZE) r.2) ;;
      if r.1 =? -1 then brelse bp ;; ret (tot, off) else
      log_write bp ;;
      brelse bp ;;
      writei_loop k fetch ip (u64 (src + m)) (u32 (off + m)) n (tot + m)
  end.

Definition writei_with (fetch : Z -> Z -> KM (Z * list Z)) (ip : nat) (src off n : Z) : KM Z :=
  size <- ifield i_size ip ;;
  if (off >? size) || (u32 (off + n) <? off) then ret (-1) else
  if u32 (off + n) >? MAXFILE * BSIZE then ret (-1) else
  r <- writei_loop (io_fuel n) fetch ip src off n 0 ;;
  let '(tot, off) := r in
  size <- ifield i_size ip ;;
  (when off >? size do fs_modify (upd_inode ip (set_i_size off))) ;;
  iupdate ip ;;
  ret tot.

Definition writei (ip : nat) (user_src : bool) (src off n : Z) : KM Z :=
  writei_with (either_copyin user_src) ip src off n.

(** writei(ip, 0, &local, off, n) with the bytes of the local variable. *)
Definition writei_local (ip : nat) (bs : list Z) (off : Z) : KM Z :=
  writei_with (fun src m => ret (0, take (Z.to_nat m) (drop (Z.to_nat src) bs)))
    ip 0 off (Z.of_nat (length bs)).

(** *** Directories *)

(** for(off = 0; off < dp->size; off += sizeof(de)): the entry that matches, with
    its offset. *)
Fixpoint dirlookup_loop (k : nat) (dp : nat) (name : cptr) (off : Z) : KM (option (nat * Z)) :=
  match k with
  | O => out_of_fuel
  | S k =>
      size <- ifield i_size dp ;;
      if negb (off <? size) then ret None else
      r <- readi_local dp off sizeof_dirent ;;
      if negb (r.1 =? sizeof_dirent) then panic "dirlookup read" else
      let de := r.2 in
      if de_inum de =? 0 then dirlookup_loop k dp name (u32 (off + sizeof_dirent)) else
      if namecmp name (in_buf (de_name de)) =? 0 then
        dev <- ifield i_dev dp ;;
        ip <- iget dev (de_inum de) ;;
        ret (Some (ip, off))
      else dirlookup_loop k dp name (u32 (off + sizeof_dirent))
  end.

Definition dir_fuel (size : Z) : nat := S (S (Z.to_nat (size / sizeof_dirent))).

Definition dirlookup (dp : nat) (name : cptr) : KM (option (nat * Z)) :=
  x <- ifield id dp ;;
  if negb (i_type x =? T_DIR) then panic "dirlookup not DIR" else
  dirlookup_loop (dir_fuel (i_size x)) dp name 0.

(** The offset of the first empty entry, or the size. *)
Fixpoint dirlink_loop (k : nat) (dp : nat) (off : Z) : KM Z :=
  match k with
  | O => out_of_fuel
  | S k =>
      size <- ifield i_size dp ;;
      if negb (off <? size) then ret off else
      r <- readi_local dp off sizeof_dirent ;;
      if negb (r.1 =? sizeof_dirent) then panic "dirlink read" else
      if de_inum r.2 =? 0 then ret off
      else dirlink_loop k dp (off + sizeof_dirent)
  end.

Definition dirlink (dp : nat) (name : cptr) (inum : Z) : KM Z :=
  r <- dirlookup dp name ;;
  match r with
  | Some (ip, _) => iput ip ;; ret (-1)
  | None =>
      size <- ifield i_size dp ;;
      off <- dirlink_loop (dir_fuel size) dp 0 ;;
      let de := dirent (u16 inum) (strncpy (replicate DIRSIZ 0) name DIRSIZ) in
      n <- writei_local dp de (u32 off) ;;
      ret (if n =? sizeof_dirent then 0 else -1)
  end.

(** *** Path names *)

Fixpoint namex_loop (k : nat) (ip : nat) (path : list Z) (parent : bool) (name : list Z) :
    KM (option nat * list Z) :=
  match k with
  | O => out_of_fuel
  | S k =>
      match skipelem path name with
      | None => if parent then iput ip ;; ret (None, name) else ret (Some ip, name)
      | Some (path, name) =>
          ilock ip ;;
          type <- ifield i_type ip ;;
          if negb (type =? T_DIR) then iunlockput ip ;; ret (None, name) else
          if parent && at_end path then iunlock ip ;; ret (Some ip, name) else
          next <- dirlookup ip (in_buf name) ;;
          match next with
          | None => iunlockput ip ;; ret (None, name)
          | Some (next, _) => iunlockput ip ;; namex_loop k next path parent name
          end
      end
  end.

(** namex(path, nameiparent, name): the inode and the buffer of the name. *)
Definition namex (path : list Z) (parent : bool) (name : list Z) : KM (option nat * list Z) :=
  ip <- (if nth 0 path 0 =? slash then iget ROOTDEV ROOTINO
         else p <- curproc ;;
              cwd <- gets (fun s => p_cwd (get_proc p s)) ;;
              match cwd with
              | Some cwd => idup cwd
              | None => panic "kerneltrap"
              end) ;;
  namex_loop (S (length path)) ip path parent name.

(** The buffer of the name is a local variable, filled before it is read. *)
Definition namei (path : list Z) : KM (option nat) :=
  r <- namex path false (replicate DIRSIZ 0) ;; ret r.1.

Definition nameiparent (path : list Z) (name : list Z) : KM (option nat * list Z) :=
  namex path true name.
End Ops.
