(* ===== verification/FsFormat.v ===== *)
(** The formats kernel/fs.c keeps on disk and in path names: on-disk inodes, the
    bitmap of free blocks, and the elements of a path. *)
From S2P Require Import Prelude Riscv Machine Spinlock KString Kalloc Vm Sched Keeps FsIface File Proc.
From S2P Require Import FsState Sleeplock Bio Log Fs.

(** ** On-disk inodes *)

(** What a struct inode and its on-disk image have in common. *)
Definition same_contents (ip x : inode) : Prop :=
  i_type x = i_type ip /\ i_major x = i_major ip /\ i_minor x = i_minor ip /\ i_nlink x = i_nlink ip /\
  i_size x = i_size ip /\ i_addrs x = i_addrs ip.

(** The fields are in the ranges of their C types. *)
Definition inode_in (ip : inode) : Prop :=
  (forall v, v ∈ [i_type ip; i_major ip; i_minor ip; i_nlink ip] -> - 2 ^ 15 <= v < 2 ^ 15) /\
  0 <= i_size ip < 2 ^ 32 /\ length (i_addrs ip) = 13%nat /\ Forall (fun a => 0 <= a < 2 ^ 32) (i_addrs ip).

Lemma put_addrs_out d o l x : ~ (o <= x < o + 4 * Z.of_nat (length l)) -> ld8 (put_addrs d o l) x = ld8 d x.
Proof.
  revert d o. induction l as [|a l IH]; intros d o Hx; [done|]. cbn [put_addrs length] in *.
  rewrite IH by lia. apply ld8_st_out. lia.
Qed.

Lemma put_addrs_in d o l i a :
  l !! i = Some a -> 0 <= a < 2 ^ 32 -> ld32 (put_addrs d o l) (o + 4 * Z.of_nat i) = a.
Proof.
  revert d o i. induction l as [|b l IH]; intros d o i Hi Ha; [done|]. cbn [put_addrs]. destruct i as [|i].
  - injection Hi as ->. rewrite Z.add_0_r.
    rewrite (ld_ext 4 _ (st32 d o a)) by (intros x Hx; apply put_addrs_out; lia).
    rewrite ld_st_same. by apply Z.mod_small.
  - replace (o + 4 * Z.of_nat (S i)) with (o + 4 + 4 * Z.of_nat i) by lia. by apply IH.
Qed.

Lemma put_dinode_out d o ip x :
  length (i_addrs ip) = 13%nat -> ~ (o <= x < o + 64) -> ld8 (put_dinode d o ip) x = ld8 d x.
Proof.
  intros Hl Hx. unfold put_dinode. rewrite put_addrs_out by (rewrite Hl; lia). by rewrite !ld8_st_out by lia.
Qed.

Lemma di_addrs_put d o ip : inode_in ip -> di_addrs (put_dinode d o ip) o = i_addrs ip.
Proof.
  intros (_ & _ & Hl & Hr). apply list_eq. intros i. unfold di_addrs. rewrite list_lookup_fmap.
  destruct (i_addrs ip !! i) as [a|] eqn:E.
  - pose proof (lookup_lt_Some _ _ _ E) as Hi. rewrite Hl in Hi. rewrite lookup_seq_lt by done. cbn. f_equal.
    unfold put_dinode. apply put_addrs_in; [done|]. rewrite Forall_lookup in Hr. by eapply Hr.
  - apply lookup_ge_None in E. by rewrite lookup_seq_ge by lia.
Qed.

Lemma s16_ld2 m a v : - 2 ^ 15 <= v < 2 ^ 15 -> s16 (ld 2 (st 2 m a v) a) = v.
Proof.
  intros Hv. rewrite ld_st_same. change (2 ^ (8 * Z.of_nat 2)) with (2 ^ 16). unfold s16.
  rewrite Zplus_mod_idemp_l, Z.mod_small; lia.
Qed.

(** A field below the addresses is what the corresponding store put there. *)
Lemma ld_put_dinode k d o ip a : o <= a -> a + Z.of_nat k <= o + 12 ->
  ld k (put_dinode d o ip) a = ld k (st32 (st 2 (st 2 (st 2 (st 2 d o (i_type ip)) (o + 2) (i_major ip))
    (o + 4) (i_minor ip)) (o + 6) (i_nlink ip)) (o + 8) (i_size ip)) a.
Proof. intros H0 H1. apply ld_ext. intros x Hx. apply put_addrs_out. lia. Qed.

Lemma get_put_dinode d o ip x : inode_in ip -> same_contents ip (get_dinode (put_dinode d o ip) o x).
Proof.
  intros Hin. pose proof Hin as (Hs & Hz & Hl & Hr).
  assert (forall v, v ∈ [i_type ip; i_major ip; i_minor ip; i_nlink ip] -> - 2 ^ 15 <= v < 2 ^ 15) as Hv by done.
  unfold same_contents, get_dinode. cbn [i_type i_major i_minor i_nlink i_size i_addrs set_i_addrs set_i_size
    set_i_nlink set_i_minor set_i_major set_i_type].
  rewrite !ld_put_dinode by lia.
  split; [rewrite !ld_st_disj by lia; apply s16_ld2, Hv; set_solver|].
  split; [rewrite !(ld_st_disj 2 _ _ (o + 2)) by lia; apply s16_ld2, Hv; set_solver|].
  split; [rewrite !(ld_st_disj 2 _ _ (o + 4)) by lia; apply s16_ld2, Hv; set_solver|].
  split; [rewrite !(ld_st_disj 2 _ _ (o + 6)) by lia; apply s16_ld2, Hv; set_solver|].
  split; [rewrite ld_st_same; by apply Z.mod_small|]. by apply di_addrs_put.
Qed.

Lemma get_dinode_ext d d' o x :
  (forall a, o <= a < o + 64 -> ld8 d' a = ld8 d a) -> get_dinode d' o x = get_dinode d o x.
Proof.
  intros H. unfold get_dinode, di_addrs.
  rewrite !(ld_ext _ d' d) by (intros; apply H; lia). f_equal.
  apply map_ext_in. intros i Hi%in_seq. apply ld_ext. intros a Ha. apply H. lia.
Qed.

(** C33: on-disk inodes. What iupdate() stores in the slot of inode [n] is what
    ilock() loads from it, all fields and all 13 block addresses; the other
    inodes of the block are not affected. *)
Theorem dinode_roundtrip d n n' ip x :
  inode_in ip -> 0 <= n -> 0 <= n' ->
  let d' := put_dinode d (dinode_off n) ip in
  same_contents ip (get_dinode d' (dinode_off n) x) /\
  (n `mod` IPB <> n' `mod` IPB -> get_dinode d' (dinode_off n') x = get_dinode d (dinode_off n') x).
Proof.
  intros Hin Hn Hn' d'. split; [by apply get_put_dinode|]. intros Hne. apply get_dinode_ext. intros a Ha.
  apply put_dinode_out; [apply Hin|]. unfold dinode_off in *. lia.
Qed.

Lemma dinode_roundtrip_witness :
  i_size (get_dinode (put_dinode ∅ (dinode_off 5) (mkinode 1 5 1 zero_sleeplock 1 T_FILE 0 0 1 77 (seqZ 100 13)))
    (dinode_off 5) zero_inode) = 77.
Proof.
  destruct (dinode_roundtrip ∅ 5 6 (mkinode 1 5 1 zero_sleeplock 1 T_FILE 0 0 1 77 (seqZ 100 13)) zero_inode)
    as [(_ & _ & _ & _ & E & _) _]; [|lia|lia|exact E].
  split; [|split; [|split]].
  - cbn. intros v Hv. apply list_elem_of_In in Hv. cbn in Hv. lia.
  - cbn. lia.
  - reflexivity.
  - apply Forall_forall. cbn [i_addrs]. intros a Ha%elem_of_seqZ. lia.
Defined.

(** ** The bitmap of free blocks *)

Lemma bit_index bi : 0 <= bi -> 0 <= bi `mod` 8 < 8.
Proof. intros _. apply Z.mod_pos_bound. lia. Qed.

Lemma bit_clear_testbit d bi : 0 <= bi -> bit_clear d bi = negb (Z.testbit (ld8 d (bi / 8)) (bi `mod` 8)).
Proof.
  intros Hb. pose proof (bit_index bi Hb) as Hi. unfold bit_clear, bit_mask.
  assert (Z.land (ld8 d (bi / 8)) (Z.shiftl 1 (bi `mod` 8)) =
    if Z.testbit (ld8 d (bi / 8)) (bi `mod` 8) then Z.shiftl 1 (bi `mod` 8) else 0) as ->.
  { apply Z.bits_inj'. intros n Hn. rewrite Z.land_spec, Z.shiftl_1_l.
    destruct (decide (n = bi `mod` 8)) as [->|Hne].
    - rewrite Z.pow2_bits_true by lia. destruct (Z.testbit _ _) eqn:E; [by rewrite Z.pow2_bits_true by lia|].
      by rewrite Z.bits_0.
    - rewrite Z.pow2_bits_false, andb_false_r by lia. destruct (Z.testbit (ld8 d _) _); [|by rewrite Z.bits_0].
      by rewrite Z.pow2_bits_false by lia. }
  destruct (Z.testbit _ _); [|done]. rewrite Z.shiftl_1_l. apply Z.eqb_neq.
  assert (0 < 2 ^ (bi `mod` 8)) by (apply Z.pow_pos_nonneg; lia). lia.
Qed.

Lemma u8_testbit z n : 0 <= n < 8 -> Z.testbit (u8 z) n = Z.testbit z n.
Proof. intros Hn. unfold u8. apply Z.mod_pow2_bits_low. lia. Qed.

Lemma byte_bit j bi : 0 <= j -> 0 <= bi -> j / 8 = bi / 8 -> j `mod` 8 = bi `mod` 8 -> j = bi.
Proof. intros. rewrite (Z.div_mod j 8), (Z.div_mod bi 8) by lia. lia. Qed.

(** Setting and clearing a bit. *)
Lemma bit_clear_set d bi j : 0 <= bi -> 0 <= j ->
  bit_clear (set_bit d bi) j = if decide (j = bi) then false else bit_clear d j.
Proof.
  intros Hb Hj. pose proof (bit_index bi Hb). pose proof (bit_index j Hj).
  rewrite !bit_clear_testbit by done. unfold set_bit, bit_mask. rewrite ld8_st8.
  case_decide as Eb.
  - rewrite u8_testbit, Z.lor_spec, Z.shiftl_1_l by done. case_decide as E.
    + subst j. by rewrite Z.pow2_bits_true, orb_true_r by lia.
    + rewrite Z.pow2_bits_false, orb_false_r; [by rewrite Eb|]. intros Em. by apply E, byte_bit.
  - case_decide as E; [by subst|done].
Qed.

Lemma bit_clear_clear d bi j : 0 <= bi -> 0 <= j ->
  bit_clear (clear_bit d bi) j = if decide (j = bi) then true else bit_clear d j.
Proof.
  intros Hb Hj. pose proof (bit_index bi Hb). pose proof (bit_index j Hj).
  rewrite !bit_clear_testbit by done. unfold clear_bit, bit_mask. rewrite ld8_st8.
  case_decide as Eb.
  - rewrite u8_testbit, Z.land_spec, Z.lnot_spec, Z.shiftl_1_l by lia. case_decide as E.
    + subst j. by rewrite Z.pow2_bits_true, andb_false_r by lia.
    + rewrite Z.pow2_bits_false, andb_true_r; [by rewrite Eb|]. intros Em. by apply E, byte_bit.
  - case_decide as E; [by subst|done].
Qed.

Lemma find_clear_spec k d b size bi :
  match find_clear k d b size bi with
  | Some r => bi <= r < bi + Z.of_nat k /\ b + r < size /\ bit_clear d r = true /\
      forall j, bi <= j < r -> bit_clear d j = false
  | None => forall j, bi <= j < bi + Z.of_nat k -> b + j < size -> bit_clear d j = false
  end.
Proof.
  revert bi. induction k as [|k IH]; intros bi; cbn [find_clear]; [intros; lia|].
  destruct (b + bi <? size) eqn:Es; [|intros; lia]. destruct (bit_clear d bi) eqn:Eb.
  - split; [lia|]. split; [lia|]. split; [done|]. intros; lia.
  - specialize (IH (bi + 1)). destruct (find_clear k d b size (bi + 1)) as [r|].
    + destruct IH as (H1 & H2 & H3 & H4). split; [lia|]. split; [done|]. split; [done|].
      intros j Hj. destruct (decide (j = bi)) as [->|]; [done|]. apply H4. lia.
    + intros j Hj Hsz. destruct (decide (j = bi)) as [->|]; [done|]. apply IH; lia.
Qed.


Lemma bitmap_first_free :
  find_clear (Z.to_nat BPB) (set_bit (set_bit ∅ 0) 1) 0 2000 0 = Some 2 /\
  find_clear (Z.to_nat BPB) (set_bit (set_bit ∅ 0) 1) 0 2 0 = None.
Proof. by vm_compute. Qed.

(** ** Path names *)

(** The elements of a path: the maximal runs of characters other than '/', up to
    the terminating NUL; [cur] is the run being read. *)
Definition run_of (cur : list Z) : list (list Z) := match cur with [] => [] | _ => [cur] end.

Fixpoint components (path cur : list Z) : list (list Z) :=
  match path with
  | [] => run_of cur
  | c :: rest =>
      if c =? 0 then run_of cur else
      if c =? slash then run_of cur ++ components rest [] else components rest (cur ++ [c])
  end.

(** The string in a name buffer: up to DIRSIZ characters. *)
Fixpoint cstr (n : nat) (l : list Z) : list Z :=
  match n, l with
  | S n, c :: l => if c =? 0 then [] else c :: cstr n l
  | _, _ => []
  end.

(** The names that repeated calls of skipelem() extract, as namex() makes them. *)
Fixpoint path_names (k : nat) (path name : list Z) : list (list Z) :=
  match k with
  | O => []
  | S k =>
      match skipelem path name with
      | None => []
      | Some (path, name) => cstr DIRSIZ name :: path_names k path name
      end
  end.

Lemma components_skip path : components (skip_slashes path) [] = components path [].
Proof.
  induction path as [|c path IH]; [done|]. cbn. destruct (c =? slash) eqn:E; [|by cbn; rewrite E].
  apply Z.eqb_eq in E as ->. exact IH.
Qed.

Lemma length_skip path : (length (skip_slashes path) <= length path)%nat.
Proof. induction path as [|c path IH]; [done|]. cbn. destruct (c =? slash); cbn; lia. Qed.

Lemma components_elem path cur :
  let '(s, rest) := path_elem path in components path cur = run_of (cur ++ s) ++ components rest [].
Proof.
  revert cur. induction path as [|c path IH]; intros cur; cbn; [by rewrite !app_nil_r|].
  destruct (c =? slash) eqn:Es; cbn.
  - apply Z.eqb_eq in Es as ->. cbn. by rewrite app_nil_r.
  - destruct (c =? 0) eqn:E0; cbn; [by rewrite E0, !app_nil_r|].
    specialize (IH (cur ++ [c])). destruct (path_elem path) as [s rest]. by rewrite IH, <- app_assoc.
Qed.

Lemma path_elem_parts path :
  let '(s, rest) := path_elem path in path = s ++ rest /\ Forall (fun c => c <> 0) s.
Proof.
  induction path as [|c path IH]; cbn; [by split; [|constructor]|].
  destruct (c =? slash) eqn:Es; cbn; [by split; [|constructor]|].
  destruct (c =? 0) eqn:E0; cbn; [by split; [|constructor]|].
  destruct (path_elem path) as [s rest]. destruct IH as [-> H]. split; [done|]. constructor; [lia|done].
Qed.

Lemma cstr_name n s tail : Forall (fun c => c <> 0) s ->
  cstr n (if (length s <? n)%nat then s ++ 0 :: tail else take n s) = take n s.
Proof.
  revert n. induction s as [|c s IH]; intros n H; [by destruct n|]. apply Forall_cons in H as [Hc H].
  destruct n as [|n]; [done|]. specialize (IH n H).
  change (length (c :: s) <? S n)%nat with (length s <? n)%nat.
  destruct (length s <? n)%nat; cbn in *; rewrite (proj2 (Z.eqb_neq c 0) Hc); by rewrite IH.
Qed.

Lemma skip_head path : match skip_slashes path with c :: _ => c <> slash | [] => True end.
Proof. induction path as [|c path IH]; [done|]. cbn. destruct (c =? slash) eqn:E; [done|]. lia. Qed.

(** C28: skipelem() parses paths. Called repeatedly, as namex() does, it yields
    exactly the elements of the path, the runs of characters between slashes, in
    order and each cut to DIRSIZ characters, however many slashes separate them;
    it then reports the end, after at most as many calls as the path has
    characters. *)
Theorem path_elements path name :
  path_names (S (length path)) path name = map (take DIRSIZ) (components path []).
Proof.
  enough (forall k path name, (length path < k)%nat ->
    path_names k path name = map (take DIRSIZ) (components path [])) as H by (apply H; lia).
  clear. induction k as [|k IH]; intros path name Hk; [lia|]. cbn [path_names]. unfold skipelem.
  rewrite <- components_skip. pose proof (length_skip path) as Hl. pose proof (skip_head path) as Hh.
  set (q := skip_slashes path) in *. clearbody q.
  destruct (at_end q) eqn:Ee.
  { destruct q as [|c q]; [done|]. cbn in Ee |- *. by rewrite Ee. }
  pose proof (components_elem q []) as Ec. pose proof (path_elem_parts q) as Ep.
  destruct q as [|c q]; [done|]. cbn in Ee, Ec, Ep |- *.
  rewrite (proj2 (Z.eqb_neq c slash) Hh), Ee in *. cbn in Ec, Ep |- *.
  destruct (path_elem q) as [s rest]. cbn in Ec. rewrite Ec. cbn [map app run_of].
  destruct Ep as [[= ->] Hs]. f_equal.
  - exact (cstr_name DIRSIZ (c :: s) _ Hs).
  - rewrite IH; [by rewrite components_skip|]. pose proof (length_skip rest). cbn in Hl. rewrite length_app in Hl. lia.
Qed.
