(* ===== verification/Mkfs.v ===== *)
(** mkfs/mkfs.c: the program that builds the initial file-system image on the host.

    The image is a map from sectors to blocks; a sector that was never written is
    past the end of the file, where read() fails. The host is little endian. A
    failed assert() or a die() is a panic. The host's files are arguments: for each
    name, the pieces read() returns, or [None] when it cannot be opened. What mkfs
    prints is not modelled. *)
From S2P Require Import Prelude Riscv Machine Spinlock KString Kalloc Vm Sched Keeps FsIface File Proc.
From S2P Require Import FsState Sleeplock Bio Log Console Fs.

Abbreviation NINODES := (200) (only parsing).
Abbreviation nbitmap := (FSSIZE / (BSIZE * 8) + 1) (only parsing).
Abbreviation ninodeblocks := (NINODES / IPB + 1) (only parsing).
Abbreviation nlog := (LOGSIZE) (only parsing).
Definition nmeta : Z := 2 + nlog + ninodeblocks + nbitmap.
Abbreviation nblocks := (FSSIZE - nmeta) (only parsing).

Record mkst := mkmkst { mk_img : gmap Z block; mk_freeinode : Z; mk_freeblock : Z }.

Abbreviation MK := (K mkst).

(** The little-endian value of the bytes stored one by one. *)
Definition xshort (x : Z) : Z := ld 2 (st8 (st8 ∅ 0 x) 1 (Z.shiftr x 8)) 0.
Definition xint (x : Z) : Z :=
  ld32 (st8 (st8 (st8 (st8 ∅ 0 x) 1 (Z.shiftr x 8)) 2 (Z.shiftr x 16)) 3 (Z.shiftr x 24)) 0.

Definition mkfs_sb : superblock :=
  mksuperblock FSMAGIC (xint FSSIZE) (xint nblocks) (xint NINODES) (xint nlog) (xint 2) (xint (2 + nlog))
    (xint (2 + nlog + ninodeblocks)).

Definition wsect (sec : Z) (d : block) : MK unit :=
  modify (fun k => mkmkst (<[sec := d]> (mk_img k)) (mk_freeinode k) (mk_freeblock k)).

Definition rsect (sec : Z) : MK block :=
  d <- gets (fun k => mk_img k !! sec) ;;
  match d with Some d => ret d | None => panic "read" end.

Definition winode (inum : Z) (ip : inode) : MK unit :=
  let bn := IBLOCK inum mkfs_sb in
  buf <- rsect bn ;;
  wsect bn (put_dinode buf (dinode_off inum) ip).

Definition rinode (inum : Z) : MK inode :=
  let bn := IBLOCK inum mkfs_sb in
  buf <- rsect bn ;;
  ret (get_dinode buf (dinode_off inum) zero_inode).

Definition mk_ialloc (type : Z) : MK Z :=
  inum <- gets mk_freeinode ;;
  modify (fun k => mkmkst (mk_img k) (u32 (mk_freeinode k + 1)) (mk_freeblock k)) ;;
  winode inum (set_i_size (xint 0) (set_i_nlink (xshort 1) (set_i_type (xshort type) zero_inode))) ;;
  ret inum.

(** freeblock++ *)
Definition next_block : MK Z :=
  b <- gets mk_freeblock ;;
  modify (fun k => mkmkst (mk_img k) (mk_freeinode k) (u32 (mk_freeblock k + 1))) ;;
  ret b.

(** The loop that sets the bits below [used]. *)
Fixpoint set_bits (n : nat) (d : block) : block :=
  match n with
  | O => d
  | S n => set_bit (set_bits n d) (Z.of_nat n)
  end.

Definition mk_balloc (used : Z) : MK unit :=
  if negb (used <? BSIZE * 8) then panic "assert" else
  wsect (sb_bmapstart mkfs_sb) (set_bits (Z.to_nat used) ∅).

(** The block for [fbn], allocated if it is missing: x and the inode. *)
Definition iappend_block (din : inode) (fbn : Z) : MK (Z * inode) :=
  if fbn <? NDIRECT then
    let i := Z.to_nat fbn in
    din <- (if xint (addr i din) =? 0 then b <- next_block ;; ret (set_addr i (xint b) din) else ret din) ;;
    ret (xint (addr i din), din)
  else
    let i := Z.to_nat NDIRECT in
    din <- (if xint (addr i din) =? 0 then b <- next_block ;; ret (set_addr i (xint b) din) else ret din) ;;
    let a := xint (addr i din) in
    indirect <- rsect a ;;
    let o := 4 * (fbn - NDIRECT) in
    indirect <- (if ld32 indirect o =? 0 then
                   b <- next_block ;;
                   wsect a (st32 indirect o (xint b)) ;;
                   ret (st32 indirect o (xint b))
                 else ret indirect) ;;
    ret (xint (ld32 indirect o), din).

(** The loop of iappend(); an iteration stores at least one byte. *)
Fixpoint iappend_loop (fuel : nat) (p : list Z) (din : inode) (off : Z) : MK (inode * Z) :=
  match p, fuel with
  | [], _ => ret (din, off)
  | _, O => out_of_fuel
  | _, S fuel =>
      let fbn := off / BSIZE in
      if negb (fbn <? MAXFILE) then panic "assert" else
      r <- iappend_block din fbn ;;
      let '(x, din) := r in
      let n1 := Z.min (Z.of_nat (length p)) (u32 ((fbn + 1) * BSIZE - off)) in
      buf <- rsect x ;;
      wsect x (write_bytes buf (off - fbn * BSIZE) (take (Z.to_nat n1) p)) ;;
      iappend_loop fuel (drop (Z.to_nat n1) p) din (u32 (off + n1))
  end.

Definition iappend (inum : Z) (p : list Z) : MK unit :=
  din <- rinode inum ;;
  let off := xint (i_size din) in
  r <- iappend_loop (length p) p din off ;;
  let '(din, off) := r in
  winode inum (set_i_size (xint off) din).

(** A struct dirent whose name is at most DIRSIZ bytes, padded with zeros. *)
Definition mk_dirent (inum : Z) (name : list Z) : list Z :=
  let name := take DIRSIZ name in
  dirent (xshort inum) (name ++ replicate (DIRSIZ - length name) 0).

Definition shortname (path : list Z) : list Z :=
  if bool_decide (take 5 path = bytes "user/") then drop 5 path else path.

Definition skip_underscore (name : list Z) : list Z :=
  match name with c :: rest => if c =? 95 then rest else name | [] => name end.

(** while((cc = read(fd, buf, sizeof(buf))) > 0) iappend(inum, buf, cc); *)
Fixpoint append_all (inum : Z) (l : list (list Z)) : MK unit :=
  match l with
  | [] => ret tt
  | p :: l => iappend inum p ;; append_all inum l
  end.

Fixpoint add_files (rootino : Z) (files : list (list Z * option (list (list Z)))) : MK unit :=
  match files with
  | [] => ret tt
  | (path, contents) :: files =>
      let name := shortname path in
      if existsb (fun c => c =? 47) name then panic "assert" else
      match contents with
      | None => panic "die"
      | Some l =>
          inum <- mk_ialloc T_FILE ;;
          iappend rootino (mk_dirent inum (skip_underscore name)) ;;
          append_all inum l ;;
          add_files rootino files
      end
  end.

(** The superblock as the first bytes of a block. *)
Definition sb_block : block :=
  let b := mkfs_sb in
  st32 (st32 (st32 (st32 (st32 (st32 (st32 (st32 ∅ 0 (sb_magic b)) 4 (sb_size b)) 8 (sb_nblocks b)) 12 (sb_ninodes b))
    16 (sb_nlog b)) 20 (sb_logstart b)) 24 (sb_inodestart b)) 28 (sb_bmapstart b).

Definition mkfs_main (files : list (list Z * option (list (list Z)))) : MK unit :=
  modify (fun k => mkmkst (mk_img k) (mk_freeinode k) nmeta) ;;
  for_ 0 (Z.to_nat FSSIZE) (fun i => wsect (Z.of_nat i) ∅) ;;
  wsect 1 sb_block ;;
  rootino <- mk_ialloc T_DIR ;;
  if negb (rootino =? ROOTINO) then panic "assert" else
  iappend rootino (mk_dirent rootino (bytes ".")) ;;
  iappend rootino (mk_dirent rootino (bytes "..")) ;;
  add_files rootino files ;;
  din <- rinode rootino ;;
  let off := xint (i_size din) in
  let off := u32 ((off / BSIZE + 1) * BSIZE) in
  winode rootino (set_i_size (xint off) din) ;;
  used <- gets mk_freeblock ;;
  mk_balloc (s32 used).

(** The globals before main(). *)
Definition mkfs_start : mkst := mkmkst ∅ 1 0.
