(* ===== verification/MkfsSpec.v ===== *)
(** What mkfs builds: the contents of the files in an image, and the proof that
    iappend() appends to one of them and leaves the others alone.

    A file's blocks are numbered by slots in the order of allocation: slots 0 to 11
    are the direct blocks, 12 the indirect block itself, 13 on the blocks it lists. *)
From S2P Require Import Prelude Riscv Machine Spinlock KString Kalloc Vm UserMem Sched Keeps FsIface File Proc.
From S2P Require Import FsState Sleeplock Bio Log Console Fs FsFormat Mkfs.

Local Transparent st.

Lemma xint_u32 x : xint x = u32 x.
Proof.
  unfold xint. rewrite !Z.shiftr_div_pow2 by lia.
  change (2 ^ 16) with (2 ^ 8 * 2 ^ 8). change (2 ^ 24) with (2 ^ 8 * 2 ^ 8 * 2 ^ 8). rewrite <- !Z.div_div by lia.
  exact (ld_st_same 4 ∅ 0 x).
Qed.

Lemma xshort_u16 x : xshort x = u16 x.
Proof. unfold xshort. rewrite Z.shiftr_div_pow2 by lia. exact (ld_st_same 2 ∅ 0 x). Qed.

Lemma xint_small x : 0 <= x < 2 ^ 32 -> xint x = x.
Proof. intros. rewrite xint_u32. by apply Z.mod_small. Qed.

Lemma IBLOCK_mkfs j : 0 <= j < 208 -> IBLOCK j mkfs_sb = j / 16 + 32.
Proof.
  intros Hj. unfold IBLOCK. change (sb_inodestart mkfs_sb) with (xint 32). rewrite xint_small by lia.
  change IPB with 16. apply Z.mod_small. pose proof (Z.div_pos j 16). pose proof (Z.div_lt_upper_bound j 16 208). lia.
Qed.

Lemma nmeta_pos : 0 < nmeta.
Proof. by vm_compute. Qed.

(** The bytes of a sector. *)
Definition sec (img : gmap Z block) (x : Z) : block := default ∅ (img !! x).

Lemma sec_insert img x d y : sec (<[x := d]> img) y = if decide (y = x) then d else sec img y.
Proof.
  unfold sec. case_decide as E; [by rewrite E, lookup_insert_eq|by rewrite lookup_insert_ne].
Qed.

(** ** Slots *)

Definition slot_of (fbn : Z) : Z := if fbn <? 12 then fbn else fbn + 1.

(** The slots in use by a file of [size] bytes. *)
Definition nslots (size : Z) : Z :=
  let nb := (size + 1023) / 1024 in if nb <=? 12 then nb else nb + 1.

(** The block in a slot of inode [j], 0 for none. *)
Definition ptr (D : Z -> inode) (img : gmap Z block) (j i : Z) : Z :=
  if i <=? 12 then addr (Z.to_nat i) (D j) else
  if addr 12 (D j) =? 0 then 0 else ld32 (sec img (addr 12 (D j))) (4 * (i - 13)).

Definition max_slot : Z := 268.

(** Blocks are handed out one by one from [nmeta] on and never shared: [c j] slots
    of each of the inodes 1, ..., [n] - 1 are in use, and what is not handed out yet
    is zero. *)
Record slots_ok (n : Z) (c : Z -> Z) (D : Z -> inode) (img : gmap Z block) (fb : Z) : Prop := {
  so_used : forall j i, 1 <= j < n -> 0 <= i <= max_slot -> ptr D img j i <> 0 <-> i < c j;
  so_range : forall j i, 1 <= j < n -> 0 <= i <= max_slot -> ptr D img j i <> 0 -> nmeta <= ptr D img j i < fb;
  so_inj : forall j i j' i', 1 <= j < n -> 0 <= i <= max_slot -> 1 <= j' < n -> 0 <= i' <= max_slot ->
    ptr D img j i = ptr D img j' i' -> ptr D img j i <> 0 -> j = j' /\ i = i';
  so_fresh : forall x o, fb <= x -> ld8 (sec img x) o = 0;
  so_img : forall x, 0 <= x < FSSIZE -> is_Some (img !! x);
  so_fb : nmeta <= fb <= FSSIZE;
  so_count : forall j, 1 <= j < n -> 0 <= c j <= max_slot + 1;
  so_inode : forall j, 1 <= j < n -> inode_in (D j) }.

Definition upd {A} (f : Z -> A) (j : Z) (v : A) (x : Z) : A := if x =? j then v else f x.

Lemma upd_eq {A} (f : Z -> A) j v : upd f j v j = v.
Proof. unfold upd. by rewrite Z.eqb_refl. Qed.

Lemma upd_ne {A} (f : Z -> A) j v x : x <> j -> upd f j v x = f x.
Proof. intros H. unfold upd. by rewrite (proj2 (Z.eqb_neq _ _)). Qed.

Local Opaque st.

Lemma addr_set i v ip : length (i_addrs ip) = 13%nat -> (i < 13)%nat -> addr i (set_addr i v ip) = v.
Proof. intros Hl Hi. unfold addr, set_addr. cbn. rewrite nth_lookup, list_lookup_insert_eq by lia. done. Qed.

Lemma addr_set_ne i i' v ip : i <> i' -> addr i' (set_addr i v ip) = addr i' ip.
Proof. intros H. unfold addr, set_addr. cbn. by rewrite !nth_lookup, list_lookup_insert_ne. Qed.

Lemma set_addr_in i v ip : inode_in ip -> 0 <= v < 2 ^ 32 -> inode_in (set_addr i v ip).
Proof.
  intros (H1 & H2 & H3 & H4) Hv. split; [done|]. split; [done|]. cbn. split; [by rewrite length_insert|].
  by apply Forall_insert.
Qed.

Lemma addr_range i ip : inode_in ip -> 0 <= addr i ip < 2 ^ 32.
Proof.
  intros (_ & _ & _ & H). unfold addr. rewrite nth_lookup. destruct (i_addrs ip !! i) as [a|] eqn:E; cbn; [|lia].
  rewrite Forall_lookup in H. by eapply H.
Qed.

Section Slots.
Context (n : Z) (c : Z -> Z) (D : Z -> inode) (img : gmap Z block) (fb : Z) (Hok : slots_ok n c D img fb).

(** One more slot of inode [j]. *)
Lemma slots_extend D' img' j :
  1 <= j < n -> c j <= max_slot -> fb < FSSIZE ->
  (forall j' i', 1 <= j' < n -> 0 <= i' <= max_slot ->
     ptr D' img' j' i' = if decide (j' = j /\ i' = c j) then fb else ptr D img j' i') ->
  (forall x o, fb < x -> ld8 (sec img' x) o = ld8 (sec img x) o) ->
  (forall x, 0 <= x < FSSIZE -> is_Some (img' !! x)) ->
  (forall j', 1 <= j' < n -> inode_in (D' j')) ->
  slots_ok n (upd c j (c j + 1)) D' img' (fb + 1).
Proof.
  intros Hj Hc Hfb Hptr Hfresh Himg Hin. destruct Hok as [H1 H2 H3 H4 H5 H6 H7 H8]. pose proof nmeta_pos.
  split; try done; [| | |by intros x o Hx; rewrite Hfresh by lia; apply H4; lia|lia|].
  - intros j' i' Hj' Hi'. rewrite Hptr by done. case_decide as E.
    + destruct E as [-> ->]. rewrite upd_eq. lia.
    + rewrite H1 by done. destruct (decide (j' = j)) as [->|Hne]; [|by rewrite upd_ne]. rewrite upd_eq.
      assert (i' <> c j) by tauto. lia.
  - intros j' i' Hj' Hi'. rewrite Hptr by done. case_decide as E; [lia|]. intros Hne. specialize (H2 j' i' Hj' Hi' Hne). lia.
  - intros j1 i1 j2 i2 Hj1 Hi1 Hj2 Hi2. rewrite !Hptr by done. intros E Hne.
    destruct (decide (j1 = j /\ i1 = c j)) as [E1|E1], (decide (j2 = j /\ i2 = c j)) as [E2|E2]; [by destruct E1, E2; subst| | |by apply H3].
    + specialize (H2 j2 i2 Hj2 Hi2). rewrite <- E in H2. lia.
    + specialize (H2 j1 i1 Hj1 Hi1 Hne). lia.
  - intros j' Hj'. destruct (decide (j' = j)) as [->|Hne]; [rewrite upd_eq; specialize (H7 j Hj); lia|rewrite upd_ne by done; by apply H7].
Qed.

Lemma slots_add_direct j : 1 <= j < n -> c j <= 12 -> fb < FSSIZE ->
  let D' := upd D j (set_addr (Z.to_nat (c j)) fb (D j)) in
  slots_ok n (upd c j (c j + 1)) D' img (fb + 1) /\
  forall j' i', 1 <= j' < n -> 0 <= i' <= max_slot ->
    ptr D' img j' i' = if decide (j' = j /\ i' = c j) then fb else ptr D img j' i'.
Proof.
  intros Hj Hc Hfb D'. pose proof (so_count _ _ _ _ _ Hok j Hj) as Hcj.
  pose proof (so_inode _ _ _ _ _ Hok j Hj) as Hin. pose proof (so_fb _ _ _ _ _ Hok) as Hfb'.
  pose proof nmeta_pos. assert (FSSIZE < 2 ^ 32) as HF by (by vm_compute).
  assert (length (i_addrs (D j)) = 13%nat) as Hl by apply Hin.
  assert (forall j' i', 1 <= j' < n -> 0 <= i' <= max_slot ->
    ptr D' img j' i' = if decide (j' = j /\ i' = c j) then fb else ptr D img j' i') as Hptr.
  { intros j' i' Hj' Hi'. unfold D', ptr. destruct (decide (j' = j)) as [->|Hne].
    2: { rewrite upd_ne by done. by rewrite decide_False by (by intros [? _]). }
    rewrite upd_eq. destruct (Z.leb_spec i' 12) as [Hle|Hgt].
    - case_decide as E; [destruct E as [_ ->]; apply addr_set; lia|]. apply addr_set_ne. lia.
    - rewrite (decide_False (P := j = j /\ i' = c j)) by lia. destruct (decide (c j = 12)) as [E|E].
      + rewrite E. change (Z.to_nat 12) with 12%nat. rewrite addr_set by lia. rewrite (proj2 (Z.eqb_neq fb 0)) by lia.
        assert (addr 12 (D j) = 0) as ->.
        { pose proof (so_used _ _ _ _ _ Hok j 12 Hj ltac:(unfold max_slot; lia)) as Hu. unfold ptr in Hu. cbn [Z.leb Z.compare Pos.compare Pos.compare_cont] in Hu.
          change (Z.to_nat 12) with 12%nat in Hu. lia. }
        cbn [Z.eqb]. rewrite (ld_ext 4 _ ∅); [by vm_compute|]. intros x Hx. rewrite (so_fresh _ _ _ _ _ Hok) by lia. done.
      + rewrite addr_set_ne by lia. done. }
  split; [|done]. apply slots_extend; try done; [unfold max_slot; lia|apply (so_img _ _ _ _ _ Hok)|].
  intros j' Hj'. unfold D'. destruct (decide (j' = j)) as [->|Hne]; [rewrite upd_eq; apply set_addr_in; [done|lia]|].
  rewrite upd_ne by done. by apply (so_inode _ _ _ _ _ Hok).
Qed.

Lemma ptr_12 j : ptr D img j 12 = addr 12 (D j).
Proof. done. Qed.

Lemma ptr_indirect j i : 1 <= j < n -> 12 < i <= max_slot -> 12 < c j ->
  ptr D img j i = ld32 (sec img (ptr D img j 12)) (4 * (i - 13)).
Proof.
  intros Hj Hi Hc. rewrite ptr_12. pose proof (so_used _ _ _ _ _ Hok j 12 Hj ltac:(unfold max_slot; lia)) as H. rewrite ptr_12 in H.
  unfold ptr. rewrite (proj2 (Z.leb_gt i 12)) by lia. rewrite (proj2 (Z.eqb_neq (addr 12 (D j)) 0)); [done|tauto].
Qed.

(** Different slots, different blocks. *)
Lemma ptr_ne j i j' i' : 1 <= j < n -> 0 <= i < c j -> 1 <= j' < n -> 0 <= i' < c j' -> (j, i) <> (j', i') ->
  ptr D img j i <> ptr D img j' i'.
Proof.
  intros Hj Hi Hj' Hi' Hne E. pose proof (so_count _ _ _ _ _ Hok j Hj). pose proof (so_count _ _ _ _ _ Hok j' Hj').
  destruct (so_inj _ _ _ _ _ Hok j i j' i') as [-> ->]; try done; try lia.
  apply (so_used _ _ _ _ _ Hok); [done|lia|lia].
Qed.

(** A block replaced leaves the pointers of inodes whose indirect block it is not. *)
Lemma ptr_insert a d j' i' : addr 12 (D j') <> a -> ptr D (<[a := d]> img) j' i' = ptr D img j' i'.
Proof. intros Hne. unfold ptr. repeat case_match; try done. by rewrite sec_insert, decide_False. Qed.

Lemma slots_add_indirect j : 1 <= j < n -> 13 <= c j <= max_slot -> fb < FSSIZE ->
  let a := ptr D img j 12 in
  let img' := <[a := st32 (sec img a) (4 * (c j - 13)) fb]> img in
  slots_ok n (upd c j (c j + 1)) D img' (fb + 1) /\
  forall j' i', 1 <= j' < n -> 0 <= i' <= max_slot ->
    ptr D img' j' i' = if decide (j' = j /\ i' = c j) then fb else ptr D img j' i'.
Proof.
  intros Hj Hc Hfb a img'. pose proof (so_fb _ _ _ _ _ Hok) as Hfb'. pose proof nmeta_pos.
  assert (FSSIZE < 2 ^ 32) as HF by (by vm_compute).
  assert (a <> 0) as Ha by (apply (so_used _ _ _ _ _ Hok); [done|unfold max_slot; lia|lia]).
  pose proof (so_range _ _ _ _ _ Hok j 12 Hj ltac:(unfold max_slot; lia) Ha) as Har. fold a in Har.
  assert (forall j' i', 1 <= j' < n -> 0 <= i' <= max_slot ->
    ptr D img' j' i' = if decide (j' = j /\ i' = c j) then fb else ptr D img j' i') as Hptr.
  { intros j' i' Hj' Hi'. destruct (decide (j' = j)) as [->|Hne].
    - destruct (Z.leb_spec i' 12) as [Hle|Hgt].
      { unfold ptr. rewrite (proj2 (Z.leb_le i' 12)) by lia. by rewrite decide_False by lia. }
      unfold ptr. rewrite (proj2 (Z.leb_gt i' 12)) by lia. change (addr 12 (D j)) with a.
      rewrite (proj2 (Z.eqb_neq a 0)) by done. unfold img'. rewrite sec_insert, decide_True by done. case_decide as E.
      + destruct E as [_ ->]. rewrite ld_st_same. apply Z.mod_small. lia.
      + apply ld_st_disj. lia.
    - rewrite decide_False by (by intros [? _]). apply ptr_insert. rewrite <- ptr_12. intros E.
      destruct (so_inj _ _ _ _ _ Hok j' 12 j 12 Hj' ltac:(unfold max_slot; lia) Hj ltac:(unfold max_slot; lia) E); [by rewrite E|done]. }
  split; [|done]. apply slots_extend; try done; [lia| | |apply (so_inode _ _ _ _ _ Hok)].
  - intros x o Hx. unfold img'. by rewrite sec_insert, decide_False by lia.
  - intros x Hx. unfold img'. destruct (decide (x = a)) as [->|Hne]; [rewrite lookup_insert_eq; by eexists|].
    rewrite lookup_insert_ne by done. by apply (so_img _ _ _ _ _ Hok).
Qed.

(** Writing a data block. *)
Lemma slots_write j i d : 1 <= j < n -> 0 <= i < c j -> i <> 12 ->
  let img' := <[ptr D img j i := d]> img in
  slots_ok n c D img' fb /\ forall j' i', 1 <= j' < n -> 0 <= i' <= max_slot -> ptr D img' j' i' = ptr D img j' i'.
Proof.
  intros Hj Hi Hne img'. pose proof (so_count _ _ _ _ _ Hok j Hj) as Hcj.
  assert (ptr D img j i <> 0) as H0 by (apply (so_used _ _ _ _ _ Hok); [done|lia|lia]).
  pose proof (so_range _ _ _ _ _ Hok j i Hj ltac:(lia) H0) as Hr.
  assert (forall j' i', 1 <= j' < n -> 0 <= i' <= max_slot -> ptr D img' j' i' = ptr D img j' i') as Hptr.
  { intros j' i' Hj' Hi'. apply ptr_insert. rewrite <- ptr_12. intros E.
    destruct (so_inj _ _ _ _ _ Hok j' 12 j i Hj' ltac:(unfold max_slot; lia) Hj ltac:(lia) E) as [_ E']; [by rewrite E|by destruct Hne]. }
  split; [|done]. destruct Hok as [H1 H2 H3 H4 H5 H6 H7 H8]. split; try done.
  - intros j' i' Hj' Hi'. rewrite Hptr by done. by apply H1.
  - intros j' i' Hj' Hi'. rewrite Hptr by done. by apply H2.
  - intros j1 i1 j2 i2 Hj1 Hi1 Hj2 Hi2. rewrite !Hptr by done. by apply H3.
  - intros x o Hx. unfold img'. rewrite sec_insert, decide_False by lia. by apply H4.
  - intros x Hx. unfold img'. destruct (decide (x = ptr D img j i)) as [->|Hx']; [rewrite lookup_insert_eq; by eexists|].
    rewrite lookup_insert_ne by done. by apply H5.
Qed.
End Slots.

(** ** Allocation *)

Definition data (D : Z -> inode) (img : gmap Z block) (j i o : Z) : Z := ld8 (sec img (ptr D img j i)) o.

(** More slots; the data of the old ones stays, the new ones are zero. *)
Record grown (n : Z) (c : Z -> Z) (D : Z -> inode) (img : gmap Z block)
    (c' : Z -> Z) (D' : Z -> inode) (img' : gmap Z block) : Prop := {
  gr_more : forall j, 1 <= j < n -> c j <= c' j;
  gr_data : forall j i o, 1 <= j < n -> 0 <= i < c j -> i <> 12 -> data D' img' j i o = data D img j i o;
  gr_new : forall j i o, 1 <= j < n -> c j <= i < c' j -> i <> 12 -> data D' img' j i o = 0;
  gr_low : forall x, x < nmeta -> sec img' x = sec img x;
  gr_inode : forall j, exists l, D' j = set_i_addrs l (D j) }.

Lemma set_i_addrs_same ip : set_i_addrs (i_addrs ip) ip = ip.
Proof. by destruct ip. Qed.

Lemma grown_refl n c D img : grown n c D img c D img.
Proof. split; try done; [lia|]. intros j. exists (i_addrs (D j)). by rewrite set_i_addrs_same. Qed.

Lemma grown_trans n c D img c1 D1 img1 c2 D2 img2 : (forall j, 1 <= j < n -> 0 <= c j) ->
  grown n c D img c1 D1 img1 -> grown n c1 D1 img1 c2 D2 img2 -> grown n c D img c2 D2 img2.
Proof.
  intros Hc [A1 A2 A3 A4 A5] [B1 B2 B3 B4 B5]. split.
  - intros j Hj. specialize (A1 j Hj). specialize (B1 j Hj). lia.
  - intros j i o Hj Hi Hne. specialize (A1 j Hj). rewrite B2 by (done || lia). by apply A2.
  - intros j i o Hj Hi Hne. specialize (Hc j Hj). destruct (decide (i < c1 j)) as [Hlt|Hge].
    + rewrite B2 by (done || lia). apply A3; [done|lia|done].
    + apply B3; [done|lia|done].
  - intros x Hx. by rewrite B4, A4.
  - intros j. destruct (A5 j) as [l1 E1], (B5 j) as [l2 E2]. exists l2. rewrite E2, E1. done.
Qed.

(** One slot more, by the pointers. *)
Lemma grown_add n c D img fb D' img' j :
  slots_ok n c D img fb -> 1 <= j < n -> fb < FSSIZE -> c j <= max_slot ->
  (forall j' i', 1 <= j' < n -> 0 <= i' <= max_slot ->
    ptr D' img' j' i' = if decide (j' = j /\ i' = c j) then fb else ptr D img j' i') ->
  (forall x o, 12 < c j /\ x = ptr D img j 12 \/ ld8 (sec img' x) o = ld8 (sec img x) o) ->
  (forall x, x < nmeta -> sec img' x = sec img x) ->
  (forall j', exists l, D' j' = set_i_addrs l (D j')) ->
  grown n c D img (upd c j (c j + 1)) D' img'.
Proof.
  intros Hok Hj Hfb Hc Hptr Hsec Hlow HD. split; [| | |done|done].
  - intros j' Hj'. destruct (decide (j' = j)) as [->|Hne]; [rewrite upd_eq; lia|rewrite upd_ne by done; lia].
  - intros j' i o Hj' Hi Hne. pose proof (so_count _ _ _ _ _ Hok j' Hj'). unfold data. rewrite Hptr by (done || lia).
    rewrite decide_False by (intros [-> ->]; lia). destruct (Hsec (ptr D img j' i) o) as [[H12 E]|E]; [|done].
    destruct (ptr_ne _ _ _ _ _ Hok j' i j 12 Hj' ltac:(lia) Hj ltac:(lia) ltac:(congruence) E).
  - intros j' i o Hj' Hi Hne. destruct (decide (j' = j)) as [->|Hne']; [|rewrite upd_ne in Hi by done; lia].
    rewrite upd_eq in Hi. assert (i = c j) as -> by lia. pose proof (so_count _ _ _ _ _ Hok j Hj).
    unfold data. rewrite Hptr, decide_True by (done || lia). destruct (Hsec fb o) as [[H12 E]|E].
    + pose proof (so_used _ _ _ _ _ Hok j 12 Hj ltac:(unfold max_slot; lia)) as Hu.
      pose proof (so_range _ _ _ _ _ Hok j 12 Hj ltac:(unfold max_slot; lia)). rewrite <- E in *. lia.
    + rewrite E. apply (so_fresh _ _ _ _ _ Hok). lia.
Qed.

Lemma add_direct n c D img fb j : slots_ok n c D img fb -> 1 <= j < n -> c j <= 12 -> fb < FSSIZE ->
  let D' := upd D j (set_addr (Z.to_nat (c j)) fb (D j)) in
  slots_ok n (upd c j (c j + 1)) D' img (fb + 1) /\ grown n c D img (upd c j (c j + 1)) D' img /\ ptr D' img j (c j) = fb.
Proof.
  intros Hok Hj Hc Hfb D'. destruct (slots_add_direct _ _ _ _ _ Hok j Hj Hc Hfb) as [Hok' Hptr].
  pose proof (so_count _ _ _ _ _ Hok j Hj). split; [done|]. split; [|by rewrite Hptr, decide_True by (unfold max_slot; lia)].
  apply (grown_add _ _ _ _ fb); try done; [unfold max_slot; lia|by right|].
  intros j'. unfold D'. destruct (decide (j' = j)) as [->|Hne]; [rewrite upd_eq; by eexists|rewrite upd_ne by done].
  exists (i_addrs (D j')). by rewrite set_i_addrs_same.
Qed.

Lemma add_indirect n c D img fb j : slots_ok n c D img fb -> 1 <= j < n -> 13 <= c j <= max_slot -> fb < FSSIZE ->
  let a := ptr D img j 12 in
  let img' := <[a := st32 (sec img a) (4 * (c j - 13)) fb]> img in
  slots_ok n (upd c j (c j + 1)) D img' (fb + 1) /\ grown n c D img (upd c j (c j + 1)) D img' /\ ptr D img' j (c j) = fb.
Proof.
  intros Hok Hj Hc Hfb a img'. destruct (slots_add_indirect _ _ _ _ _ Hok j Hj Hc Hfb) as [Hok' Hptr].
  split; [done|]. split; [|by rewrite Hptr, decide_True by lia].
  assert (nmeta <= a) as Ha.
  { apply (so_range _ _ _ _ _ Hok j 12 Hj ltac:(unfold max_slot; lia)). apply (so_used _ _ _ _ _ Hok); [done|unfold max_slot; lia|lia]. }
  apply (grown_add _ _ _ _ fb); try done; [lia| | |].
  - intros x o. unfold img'. rewrite sec_insert. case_decide as E; [left; split; [lia|done]|by right].
  - intros x Hx. unfold img'. by rewrite sec_insert, decide_False by lia.
  - intros j'. exists (i_addrs (D j')). by rewrite set_i_addrs_same.
Qed.

(** ** iappend() *)

Local Arguments xint : simpl never.
Local Opaque ld.

(** The slots before the block [fbn] are there; with it, those up to it are. *)
Definition before (fbn cj : Z) : Prop := cj = slot_of fbn + 1 \/ cj = nslots (fbn * 1024).

Lemma nslots_blocks fbn : nslots (fbn * 1024) = if fbn <=? 12 then fbn else fbn + 1.
Proof.
  unfold nslots. replace ((fbn * 1024 + 1023) / 1024) with fbn; [done|].
  rewrite Z.div_add_l by lia. change (1023 / 1024) with 0. lia.
Qed.

(** The result of allocating the slots of inode [j] up to slot [t]. *)
Definition allocated {A} (n : Z) (c : Z -> Z) (D : Z -> inode) (img : gmap Z block) (fi fb j t : Z)
    (v : (Z -> inode) -> gmap Z block -> A) (r : outcome mkst A) : Prop :=
  exists c' D' img',
    r = Ret (v D' img') (mkmkst img' fi (fb + (t + 1 - c j))) /\
    slots_ok n c' D' img' (fb + (t + 1 - c j)) /\ grown n c D img c' D' img' /\
    c' j = t + 1 /\ forall j', j' <> j -> c' j' = c j' /\ D' j' = D j'.

Lemma allocated_here {A} n c D img fi fb j t (v : _ -> _ -> A) :
  slots_ok n c D img fb -> c j = t + 1 -> allocated n c D img fi fb j t v (Ret (v D img) (mkmkst img fi fb)).
Proof.
  intros Hok Ht. exists c, D, img. rewrite Ht. replace (fb + (t + 1 - (t + 1))) with fb by lia.
  split; [done|]. split; [done|]. split; [apply grown_refl|]. done.
Qed.

Lemma allocated_next {A} n c D img fi fb j t (v : _ -> _ -> A) c1 D1 img1 r :
  slots_ok n c D img fb -> 1 <= j < n ->
  grown n c D img c1 D1 img1 -> c1 = upd c j (c j + 1) -> (forall j', j' <> j -> D1 j' = D j') ->
  allocated n c1 D1 img1 fi (fb + 1) j t v r -> allocated n c D img fi fb j t v r.
Proof.
  intros Hok Hj Hg -> HD (c2 & D2 & img2 & -> & Hok2 & Hg2 & Hc2 & Hoth). rewrite upd_eq in *.
  replace (fb + 1 + (t + 1 - (c j + 1))) with (fb + (t + 1 - c j)) in * by lia.
  exists c2, D2, img2. split; [done|]. split; [done|]. split.
  { eapply grown_trans; [|done|done]. intros j' Hj'. by apply (so_count _ _ _ _ _ Hok). }
  split; [done|]. intros j' Hne. destruct (Hoth j' Hne) as [-> ->]. rewrite upd_ne by done. auto.
Qed.

Lemma xint_ptr n c D img fb j i : slots_ok n c D img fb -> 1 <= j < n -> 0 <= i <= max_slot ->
  xint (ptr D img j i) = ptr D img j i.
Proof.
  intros Hok Hj Hi. destruct (decide (ptr D img j i = 0)) as [->|Hne]; [done|].
  pose proof (so_range _ _ _ _ _ Hok j i Hj Hi Hne). pose proof (so_fb _ _ _ _ _ Hok). pose proof nmeta_pos.
  apply xint_small. assert (FSSIZE < 2 ^ 32) by (by vm_compute). lia.
Qed.

Lemma ptr_zero n c D img fb j i : slots_ok n c D img fb -> 1 <= j < n -> 0 <= i <= max_slot ->
  (ptr D img j i =? 0) = negb (i <? c j).
Proof.
  intros Hok Hj Hi. pose proof (so_used _ _ _ _ _ Hok j i Hj Hi).
  destruct (Z.eqb_spec (ptr D img j i) 0), (Z.ltb_spec i (c j)); cbn; try done; lia.
Qed.

(** if(xint(din.addrs[i]) == 0) din.addrs[i] = xint(freeblock++); *)
Lemma alloc_addr n c D img fi fb j i :
  slots_ok n c D img fb -> 1 <= j < n -> 0 <= i <= 12 -> c j = i \/ c j = i + 1 -> fb + (i + 1 - c j) <= FSSIZE ->
  allocated n c D img fi fb j i (fun D' _ => D' j)
    ((if xint (addr (Z.to_nat i) (D j)) =? 0 then
        b <- next_block ;; ret (set_addr (Z.to_nat i) (xint b) (D j)) else ret (D j)) (mkmkst img fi fb)).
Proof.
  intros Hok Hj Hi Hc Hfb. assert (addr (Z.to_nat i) (D j) = ptr D img j i) as Ha.
  { unfold ptr. by rewrite (proj2 (Z.leb_le i 12)) by lia. }
  rewrite Ha, (xint_ptr _ _ _ _ _ _ _ Hok), (ptr_zero _ _ _ _ _ _ _ Hok) by (done || unfold max_slot; lia).
  pose proof (so_fb _ _ _ _ _ Hok). pose proof nmeta_pos. assert (FSSIZE < 2 ^ 31) by (by vm_compute).
  destruct (Z.ltb_spec i (c j)) as [Hlt|Hge]; cbn [negb].
  { apply (allocated_here _ _ _ _ _ _ _ _ (fun D' _ => D' j)); [done|lia]. }
  assert (c j = i) as Hci by lia. cbn. rewrite xint_small by lia. rewrite u32_small by lia.
  destruct (add_direct _ _ _ _ _ j Hok Hj ltac:(lia) ltac:(lia)) as (Hok' & Hg & _). rewrite Hci in *.
  eapply allocated_next; [done|done|exact Hg|by rewrite Hci| |].
  - intros j' Hne. by rewrite upd_ne.
  - pose proof (allocated_here _ _ _ _ fi _ j i (fun D' _ => D' j) Hok' (upd_eq _ _ _)) as H'. cbn beta in H'. by rewrite upd_eq in H'.
Qed.

Lemma rsect_sec n c D img fi fb x : slots_ok n c D img fb -> 0 <= x < FSSIZE ->
  rsect x (mkmkst img fi fb) = Ret (sec img x) (mkmkst img fi fb).
Proof. intros Hok Hx. destruct (so_img _ _ _ _ _ Hok x Hx) as [d E]. unfold rsect, sec. cbn. by rewrite E. Qed.

Lemma ptr_bounds n c D img fb j i : slots_ok n c D img fb -> 1 <= j < n -> 0 <= i < c j ->
  nmeta <= ptr D img j i < fb /\ 0 <= ptr D img j i < FSSIZE.
Proof.
  intros Hok Hj Hi. pose proof (so_count _ _ _ _ _ Hok j Hj). pose proof (so_fb _ _ _ _ _ Hok). pose proof nmeta_pos.
  assert (nmeta <= ptr D img j i < fb); [|lia].
  apply (so_range _ _ _ _ _ Hok); [done|lia|]. apply (so_used _ _ _ _ _ Hok); [done|lia|lia].
Qed.

(** The block listed in the indirect block. *)
Lemma alloc_listed n c D img fi fb j t :
  slots_ok n c D img fb -> 1 <= j < n -> 12 < t <= max_slot -> 12 < c j -> c j = t \/ c j = t + 1 ->
  fb + (t + 1 - c j) <= FSSIZE ->
  allocated n c D img fi fb j t (fun D' img' => (ptr D' img' j t, D' j))
    ((let a := xint (addr 12 (D j)) in
      indirect <- rsect a ;;
      let o := 4 * (t - 13) in
      indirect <- (if ld32 indirect o =? 0 then
                     b <- next_block ;;
                     wsect a (st32 indirect o (xint b)) ;;
                     ret (st32 indirect o (xint b))
                   else ret indirect) ;;
      ret (xint (ld32 indirect o), D j)) (mkmkst img fi fb)).
Proof.
  intros Hok Hj Ht H12 Hc Hfb. pose proof (xint_ptr _ _ _ _ _ j 12 Hok Hj ltac:(unfold max_slot; lia)) as Hx.
  rewrite ptr_12 in Hx. cbv zeta. rewrite Hx, <- (ptr_12 D img j).
  destruct (ptr_bounds _ _ _ _ _ j 12 Hok Hj ltac:(lia)) as [Hb1 Hb2].
  unfold kbind at 1. rewrite (rsect_sec _ _ _ _ _ _ _ Hok Hb2). cbn -[rsect Z.mul Z.sub Z.add ptr].
  rewrite <- (ptr_indirect _ _ _ _ _ Hok j t Hj ltac:(lia) H12).
  rewrite (ptr_zero _ _ _ _ _ _ _ Hok) by (done || lia).
  pose proof (so_fb _ _ _ _ _ Hok). assert (FSSIZE < 2 ^ 31) by (by vm_compute). pose proof nmeta_pos.
  destruct (Z.ltb_spec t (c j)) as [Hlt|Hge]; cbn -[rsect Z.mul Z.sub Z.add ptr].
  { rewrite <- (ptr_indirect _ _ _ _ _ Hok j t Hj ltac:(lia) H12), (xint_ptr _ _ _ _ _ _ _ Hok) by (done || lia).
    apply (allocated_here _ _ _ _ _ _ _ _ (fun D' img' => (ptr D' img' j t, D' j))); [done|lia]. }
  assert (c j = t) as Hct by lia. rewrite (xint_small fb), u32_small by lia.
  destruct (add_indirect _ _ _ _ _ j Hok Hj ltac:(lia) ltac:(lia)) as (Hok' & Hg & Hp). rewrite Hct in *.
  rewrite ld_st_same. rewrite (Z.mod_small fb), (xint_small fb) by (cbn; lia).
  eapply allocated_next; [done|done|exact Hg|by rewrite Hct|done|].
  pose proof (allocated_here _ _ _ _ fi _ j t (fun D' img' => (ptr D' img' j t, D' j)) Hok' (upd_eq _ _ _)) as H'.
  cbn beta in H'. by rewrite Hp in H'.
Qed.

Lemma allocated_trans {A} n c D img fi fb j t1 t (v1 : _ -> _ -> inode) (v : _ -> _ -> A) r1 (f : inode -> MK A) :
  slots_ok n c D img fb -> 1 <= j < n ->
  allocated n c D img fi fb j t1 v1 r1 ->
  (forall c1 D1 img1, slots_ok n c1 D1 img1 (fb + (t1 + 1 - c j)) -> c1 j = t1 + 1 ->
     allocated n c1 D1 img1 fi (fb + (t1 + 1 - c j)) j t v (f (v1 D1 img1) (mkmkst img1 fi (fb + (t1 + 1 - c j))))) ->
  allocated n c D img fi fb j t v (kbind (fun _ => r1) f (mkmkst img fi fb)).
Proof.
  intros Hok Hj (c1 & D1 & img1 & -> & Hok1 & Hg1 & Hc1 & Ho1) Hf. cbn.
  destruct (Hf c1 D1 img1 Hok1 Hc1) as (c2 & D2 & img2 & -> & Hok2 & Hg2 & Hc2 & Ho2). rewrite Hc1 in *.
  replace (fb + (t1 + 1 - c j) + (t + 1 - (t1 + 1))) with (fb + (t + 1 - c j)) in * by lia.
  exists c2, D2, img2. split; [done|]. split; [done|]. split.
  { eapply grown_trans; [|done|done]. intros j' Hj'. by apply (so_count _ _ _ _ _ Hok). }
  split; [done|]. intros j' Hne. destruct (Ho2 j' Hne) as [-> ->]. by apply Ho1.
Qed.

Lemma iappend_block_spec n c D img fi fb j fbn :
  slots_ok n c D img fb -> 1 <= j < n -> 0 <= fbn < 268 -> before fbn (c j) -> fb + (slot_of fbn + 1 - c j) <= FSSIZE ->
  allocated n c D img fi fb j (slot_of fbn) (fun D' img' => (ptr D' img' j (slot_of fbn), D' j))
    (iappend_block (D j) fbn (mkmkst img fi fb)).
Proof.
  intros Hok Hj Hfbn Hbef Hfb. unfold before in Hbef. rewrite nslots_blocks in Hbef.
  unfold iappend_block. change NDIRECT with 12. unfold slot_of in *. destruct (Z.ltb_spec fbn 12) as [Hlt|Hge].
  - rewrite (proj2 (Z.leb_le fbn 12)) in Hbef by lia.
    destruct (alloc_addr n c D img fi fb j fbn Hok Hj ltac:(lia) ltac:(lia) Hfb) as (c1 & D1 & img1 & E & Hok1 & Hg1 & Hc1 & Ho1).
    exists c1, D1, img1. cbv zeta. unfold kbind at 1. rewrite E. cbn -[ptr Z.to_nat].
    pose proof (xint_ptr _ _ _ _ _ j fbn Hok1 Hj ltac:(unfold max_slot; lia)) as Hx.
    assert (addr (Z.to_nat fbn) (D1 j) = ptr D1 img1 j fbn) as ->.
    { unfold ptr. by rewrite (proj2 (Z.leb_le fbn 12)) by lia. }
    by rewrite Hx.
  - assert (c j = fbn + 1 + 1 \/ c j = fbn + 1 /\ 12 < fbn \/ c j = 12 /\ fbn = 12) as Hc
      by (revert Hbef; destruct (Z.leb_spec fbn 12); lia). clear Hbef.
    assert (forall c1 D1 img1 fb1, slots_ok n c1 D1 img1 fb1 -> 12 < c1 j -> c1 j = fbn + 1 \/ c1 j = fbn + 1 + 1 ->
      fb1 + (fbn + 1 + 1 - c1 j) <= FSSIZE -> _) as Hlist
      by exact (fun c1 D1 img1 fb1 H1 H2 => alloc_listed n c1 D1 img1 fi fb1 j (fbn + 1) H1 Hj ltac:(unfold max_slot; lia) H2).
    cbv zeta in Hlist. replace (fbn + 1 - 13) with (fbn - 12) in Hlist by lia. cbv zeta.
    destruct (decide (c j <= 13)) as [Hle|Hgt].
    + assert (fbn = 12) as -> by lia.
      refine (allocated_trans n c D img fi fb j 12 (12 + 1) (fun D' _ => D' j) _ _ _ Hok Hj
        (alloc_addr n c D img fi fb j 12 Hok Hj ltac:(lia) _ _) _); [lia|lia|].
      intros c1 D1 img1 Hok1 Hc1. apply Hlist; [done|lia|lia|]. rewrite Hc1. lia.
    + assert ((xint (addr 12 (D j)) =? 0) = false) as E0.
      { pose proof (ptr_zero _ _ _ _ _ j 12 Hok Hj ltac:(unfold max_slot; lia)) as E.
        rewrite <- (xint_ptr _ _ _ _ _ _ _ Hok) in E by (done || unfold max_slot; lia).
        rewrite ptr_12, (proj2 (Z.ltb_lt 12 (c j))) in E by lia. exact E. }
      change (Z.to_nat 12) with 12%nat. rewrite E0. apply Hlist; [done|lia|lia|done].
Qed.

(** ** The contents of the files *)

Definition size (l : list Z) : Z := Z.of_nat (length l).

Definition byte (l : list Z) (i : Z) : Z := nth (Z.to_nat i) l 0.

(** The blocks of inode [j] hold [F j], the last one filled with zeros. *)
Definition contents (n : Z) (c : Z -> Z) (D : Z -> inode) (img : gmap Z block) (F : Z -> list Z) : Prop :=
  forall j, 1 <= j < n -> c j = nslots (size (F j)) /\ size (F j) <= 268 * 1024 /\
  forall fbn o, 0 <= fbn -> slot_of fbn < c j -> 0 <= o < 1024 ->
    data D img j (slot_of fbn) o = byte (F j) (fbn * 1024 + o).

Lemma byte_app_l l q i : 0 <= i < size l -> byte (l ++ q) i = byte l i.
Proof. unfold byte, size. intros H. apply app_nth1. lia. Qed.

Lemma byte_app l q i : 0 <= i ->
  byte (l ++ q) i = if decide (i < size l) then byte l i else byte q (i - size l).
Proof.
  intros Hi. case_decide; [apply byte_app_l; lia|]. unfold byte, size in *. rewrite app_nth2 by lia. f_equal. lia.
Qed.

Lemma byte_out l i : size l <= i -> byte l i = 0.
Proof. unfold byte, size. intros H. apply nth_overflow. lia. Qed.

Lemma size_app l q : size (l ++ q) = size l + size q.
Proof. unfold size. rewrite length_app. lia. Qed.

Lemma ld8_write_byte d o q x : Forall (fun b => 0 <= b < 256) q ->
  ld8 (write_bytes d o q) x = if decide (o <= x < o + size q) then byte q (x - o) else ld8 d x.
Proof.
  intros Hq. rewrite ld8_write_bytes. unfold byte, size. rewrite nth_lookup. destruct (decide (o <= x < o + Z.of_nat (length q))) as [H|H].
  - destruct (q !! Z.to_nat (x - o)) as [b|] eqn:E; [|apply lookup_ge_None in E; lia].
    rewrite decide_True by lia. cbn. rewrite Forall_lookup in Hq. apply Z.mod_small. by eapply Hq.
  - destruct (q !! Z.to_nat (x - o)) as [b|] eqn:E; [|done]. apply lookup_lt_Some in E. by rewrite decide_False by lia.
Qed.

Lemma nslots_in k i : 0 <= k -> k * 1024 < i <= (k + 1) * 1024 -> nslots i = slot_of k + 1.
Proof.
  intros Hk Hi. unfold nslots, slot_of. replace ((i + 1023) / 1024) with (k + 1); [|Z.div_mod_to_equations; lia].
  destruct (Z.leb_spec (k + 1) 12), (Z.ltb_spec k 12); lia.
Qed.

Lemma before_size i : 0 <= i -> before (i / 1024) (nslots i).
Proof.
  intros Hi. destruct (decide (i `mod` 1024 = 0)) as [E|E].
  - right. f_equal. Z.div_mod_to_equations. lia.
  - left. apply nslots_in; Z.div_mod_to_equations; lia.
Qed.

Lemma slot_of_inj k k' : slot_of k = slot_of k' -> k = k'.
Proof. unfold slot_of. destruct (Z.ltb_spec k 12), (Z.ltb_spec k' 12); lia. Qed.

Lemma slot_of_mono k k' : k < k' -> slot_of k < slot_of k'.
Proof. unfold slot_of. destruct (Z.ltb_spec k 12), (Z.ltb_spec k' 12); lia. Qed.

Lemma slot_of_12 k : slot_of k <> 12.
Proof. unfold slot_of. destruct (Z.ltb_spec k 12); lia. Qed.

Lemma slot_before k cj k' : before k cj -> k' < k -> slot_of k' < cj.
Proof.
  intros [->| ->] Hlt; [pose proof (slot_of_mono k' k Hlt); lia|]. rewrite nslots_blocks. unfold slot_of.
  destruct (Z.leb_spec k 12), (Z.ltb_spec k' 12); lia.
Qed.

(** The block of the end of the file, before the new bytes are stored. *)
Lemma last_block n c D img fb c' D' img' F j o :
  slots_ok n c D img fb -> contents n c D img F -> 1 <= j < n -> grown n c D img c' D' img' ->
  let fbn := size (F j) / 1024 in
  c' j = slot_of fbn + 1 -> 0 <= o < 1024 -> data D' img' j (slot_of fbn) o = byte (F j) (fbn * 1024 + o).
Proof.
  intros Hok HF Hj Hg fbn Hc' Ho. destruct (HF j Hj) as (Hc & Hs & Hd). pose proof (slot_of_12 fbn) as H12.
  assert (0 <= size (F j)) by (unfold size; lia). assert (0 <= fbn) by (apply Z.div_pos; lia).
  destruct (decide (slot_of fbn < c j)) as [Hlt|Hge].
  - rewrite (gr_data _ _ _ _ _ _ _ Hg) by (assumption || (split; [unfold slot_of; case_match; lia|assumption])). by apply Hd.
  - rewrite (gr_new _ _ _ _ _ _ _ Hg) by (assumption || lia). symmetry. apply byte_out.
    destruct (decide (size (F j) `mod` 1024 = 0)) as [E|E]; [subst fbn; Z.div_mod_to_equations; lia|].
    rewrite Hc, (nslots_in fbn) in Hge; [lia|done|]. subst fbn. Z.div_mod_to_equations. lia.
Qed.

Lemma contents_write n c D img fb c' D' img' fb' F j q :
  slots_ok n c D img fb -> contents n c D img F -> 1 <= j < n -> grown n c D img c' D' img' -> slots_ok n c' D' img' fb' ->
  (forall j', j' <> j -> c' j' = c j') ->
  let fbn := size (F j) / 1024 in
  let x := ptr D' img' j (slot_of fbn) in
  c' j = slot_of fbn + 1 -> fbn < 268 -> 0 < size q -> size (F j) + size q <= (fbn + 1) * 1024 -> Forall (fun b => 0 <= b < 256) q ->
  contents n c' D' (<[x := write_bytes (sec img' x) (size (F j) - fbn * 1024) q]> img') (upd F j (F j ++ q)).
Proof.
  intros Hok HF Hj Hg Hok' Hoth fbn x Hc' Hmax Hq0 Hq Hbytes. set (img2 := <[x := _]> img').
  assert (0 <= size (F j)) as Hs0 by (unfold size; lia). assert (0 <= fbn) as Hf0 by (apply Z.div_pos; lia).
  assert (fbn * 1024 <= size (F j) < (fbn + 1) * 1024) as Hfbn by (subst fbn; Z.div_mod_to_equations; lia).
  assert (0 <= slot_of fbn) as Hs by (unfold slot_of; case_match; lia).
  destruct (slots_write _ _ _ _ _ Hok' j (slot_of fbn) (write_bytes (sec img' x) (size (F j) - fbn * 1024) q) Hj ltac:(lia) (slot_of_12 _)) as [_ Hptr].
  fold x img2 in Hptr. intros j' Hj'. destruct (HF j' Hj') as (Hc & Hsz & Hd).
  pose proof (so_count _ _ _ _ _ Hok' j' Hj') as Hcnt.
  assert (forall k o, 0 <= k -> slot_of k < c' j' -> 0 <= o < 1024 -> (j', k) <> (j, fbn) ->
    data D' img2 j' (slot_of k) o = byte (F j') (k * 1024 + o)) as Hrest.
  { intros k o Hk Hlt Ho Hne. assert (0 <= slot_of k) by (unfold slot_of; case_match; lia).
    unfold data. rewrite Hptr by (done || lia). unfold img2. rewrite sec_insert, decide_False.
    2: { apply (ptr_ne _ _ _ _ _ Hok'); try done; try lia. intros [= -> E]. apply slot_of_inj in E. by subst. }
    assert (slot_of k < c j').
    { destruct (decide (j' = j)) as [->|Hne']; [|by rewrite <- Hoth]. rewrite Hc. eapply slot_before; [by apply before_size|].
      fold fbn. destruct (Z.lt_trichotomy k fbn) as [?|[->|Hgt]]; [done|done|]. apply slot_of_mono in Hgt. lia. }
    rewrite <- Hd by done. apply (gr_data _ _ _ _ _ _ _ Hg); [done|lia|apply slot_of_12]. }
  destruct (decide (j' = j)) as [->|Hne].
  2: { rewrite Hoth, upd_ne by done. split; [done|]. split; [done|]. intros k o Hk Hlt Ho.
       apply Hrest; [done|by rewrite Hoth|done|congruence]. }
  rewrite upd_eq, size_app. split; [rewrite Hc'; symmetry; apply nslots_in; lia|]. split; [lia|].
  intros k o Hk Hlt Ho. destruct (decide (k = fbn)) as [->|Hne].
  - unfold data. rewrite Hptr by (done || lia). unfold img2. rewrite sec_insert, decide_True by done.
    rewrite ld8_write_byte, byte_app by (done || lia).
    pose proof (last_block _ _ _ _ _ _ _ _ _ _ o Hok HF Hj Hg Hc' Ho) as Hl. fold fbn in Hl. unfold data in Hl. fold x in Hl. rewrite Hl.
    destruct (decide (fbn * 1024 + o < size (F j))); [by rewrite decide_False by lia|].
    case_decide; [f_equal; lia|]. rewrite !byte_out by lia. done.
  - assert (k < fbn) by (destruct (Z.lt_trichotomy k fbn) as [?|[?|Hgt]]; [done|done|apply slot_of_mono in Hgt; lia]).
    rewrite Hrest by (done || congruence). symmetry. apply byte_app_l. lia.
Qed.

Lemma holds_ext n c D img F F' : (forall j, F' j = F j) -> contents n c D img F -> contents n c D img F'.
Proof. intros HF H j Hj. rewrite HF. by apply H. Qed.

Lemma nslots_mono i i' : i <= i' -> nslots i <= nslots i'.
Proof.
  intros H. unfold nslots. assert ((i + 1023) / 1024 <= (i' + 1023) / 1024) by (apply Z.div_le_mono; lia).
  destruct (Z.leb_spec ((i + 1023) / 1024) 12), (Z.leb_spec ((i' + 1023) / 1024) 12); lia.
Qed.

(** [p] is appended to the file of inode [j]. *)
Definition appended {A} (n : Z) (c : Z -> Z) (D : Z -> inode) (img : gmap Z block) (fi fb : Z) (F : Z -> list Z) (j : Z) (p : list Z)
    (v : (Z -> inode) -> A) (r : outcome mkst A) : Prop :=
  exists c' D' img', let fb' := fb + (nslots (size (F j ++ p)) - c j) in
    r = Ret (v D') (mkmkst img' fi fb') /\
    slots_ok n c' D' img' fb' /\ contents n c' D' img' (upd F j (F j ++ p)) /\
    (forall x, x < nmeta -> sec img' x = sec img x) /\
    (exists l, D' j = set_i_addrs l (D j)) /\ forall j', j' <> j -> D' j' = D j'.

Lemma appended_nil {A} n c D img fi fb F j (v : _ -> A) :
  slots_ok n c D img fb -> contents n c D img F -> 1 <= j < n ->
  appended n c D img fi fb F j [] v (Ret (v D) (mkmkst img fi fb)).
Proof.
  intros Hok HF Hj. exists c, D, img. cbv zeta. rewrite app_nil_r. destruct (HF j Hj) as (-> & _).
  replace (fb + (nslots (size (F j)) - nslots (size (F j)))) with fb by lia.
  split; [done|]. split; [done|]. split; [|split; [done|]; split; [|done]; exists (i_addrs (D j)); by rewrite set_i_addrs_same].
  revert HF. apply holds_ext. intros j'. destruct (decide (j' = j)) as [->|Hne]; [by rewrite upd_eq|by rewrite upd_ne].
Qed.

Lemma appended_app {A} n c D img fi fb F j q p (v : _ -> A) r c1 D1 img1 fb1 :
  fb1 = fb + (c1 j - c j) -> c1 j = nslots (size (F j ++ q)) -> (forall x, x < nmeta -> sec img1 x = sec img x) ->
  (exists l, D1 j = set_i_addrs l (D j)) -> (forall j', j' <> j -> D1 j' = D j') ->
  appended n c1 D1 img1 fi fb1 (upd F j (F j ++ q)) j p v r -> appended n c D img fi fb F j (q ++ p) v r.
Proof.
  intros -> Hc1 Hlow [l El] Hoth (c2 & D2 & img2 & -> & Hok2 & HF2 & Hlow2 & [l2 El2] & Hoth2).
  rewrite upd_eq, <- app_assoc in *.
  replace (fb + (c1 j - c j) + (nslots (size (F j ++ q ++ p)) - c1 j)) with (fb + (nslots (size (F j ++ q ++ p)) - c j)) in * by lia.
  exists c2, D2, img2. cbv zeta. split; [done|]. split; [done|]. split.
  { revert HF2. apply holds_ext. intros j'. destruct (decide (j' = j)) as [->|Hne]; [by rewrite !upd_eq|by rewrite !upd_ne]. }
  split; [intros x Hx; by rewrite Hlow2, Hlow|]. split; [exists l2; by rewrite El2, El|].
  intros j' Hne. by rewrite Hoth2, Hoth.
Qed.

Lemma iappend_loop_spec fuel : forall p n c D img fi fb F j,
  (length p <= fuel)%nat -> slots_ok n c D img fb -> contents n c D img F -> 1 <= j < n ->
  size (F j ++ p) <= 268 * 1024 -> Forall (fun b => 0 <= b < 256) p -> fb + (nslots (size (F j ++ p)) - c j) <= FSSIZE ->
  appended n c D img fi fb F j p (fun D' => (D' j, size (F j ++ p)))
    (iappend_loop fuel p (D j) (size (F j)) (mkmkst img fi fb)).
Proof.
  induction fuel as [|fuel IH]; intros p n c D img fi fb F j Hfuel Hok HF Hj Hmax Hb Hfb.
  all: destruct p as [|b0 p]; [rewrite app_nil_r; by apply (appended_nil _ _ _ _ _ _ _ _ (fun D' => (D' j, size (F j))))|try (cbn in Hfuel; lia)].
  cbn [iappend_loop]. set (pp := b0 :: p) in *. change MAXFILE with 268. change BSIZE with 1024 in *.
  assert (0 < size pp) as Hp0 by (unfold size, pp; cbn; lia). clearbody pp. clear b0 p. rewrite size_app in *.
  assert (0 <= size (F j)) as Hs0 by (unfold size; lia). set (fbn := size (F j) / 1024) in *.
  assert (0 <= fbn) as Hf0 by (apply Z.div_pos; lia).
  assert (fbn * 1024 <= size (F j) < (fbn + 1) * 1024) as Hfbn by (subst fbn; Z.div_mod_to_equations; lia).
  rewrite (proj2 (Z.ltb_lt fbn 268)) by lia. cbn [negb]. rewrite (u32_small ((fbn + 1) * 1024 - _)) by lia.
  change (Z.of_nat (length pp)) with (size pp). set (n1 := Z.min (size pp) ((fbn + 1) * 1024 - size (F j))) in *.
  set (q := take (Z.to_nat n1) pp). assert (size q = n1) as Hq by (unfold size, q in *; rewrite length_take; lia).
  assert (size pp = n1 + size (drop (Z.to_nat n1) pp)) as Hd by (unfold size in *; rewrite length_drop; lia).
  assert (nslots (size (F j ++ q)) = slot_of fbn + 1) as Hns by (apply nslots_in; rewrite ?size_app; lia).
  assert (nslots (size (F j ++ q)) <= nslots (size (F j) + size pp)) as Hmono by (apply nslots_mono; rewrite size_app; unfold size in *; lia).
  destruct (HF j Hj) as (Hc & _).
  destruct (iappend_block_spec n c D img fi fb j fbn Hok Hj ltac:(lia)) as (c1 & D1 & img1 & E & Hok1 & Hg1 & Hc1 & Hoth1);
    [rewrite Hc; by apply before_size|lia|].
  unfold kbind at 1. rewrite E. cbn [obind].
  destruct (ptr_bounds _ _ _ _ _ j (slot_of fbn) Hok1 Hj) as [Hx1 Hx2]; [rewrite Hc1; unfold slot_of; case_match; lia|].
  unfold kbind at 1. rewrite (rsect_sec _ _ _ _ _ _ _ Hok1 Hx2). cbn [obind].
  unfold kbind, wsect, modify. cbn [obind mk_img mk_freeinode mk_freeblock]. set (x := ptr D1 img1 j (slot_of fbn)) in *.
  rewrite u32_small by lia.
  pose proof (contents_write _ _ _ _ _ _ _ _ _ _ j q Hok HF Hj Hg1 Hok1 (fun j' H => proj1 (Hoth1 j' H)) Hc1 ltac:(lia) ltac:(lia) ltac:(lia)
    ltac:(by apply Forall_take)) as HF1. fold fbn x in HF1.
  destruct (slots_write _ _ _ _ _ Hok1 j (slot_of fbn) (write_bytes (sec img1 x) (size (F j) - fbn * 1024) q) Hj) as [Hok2 _];
    [rewrite Hc1; unfold slot_of; case_match; lia|apply slot_of_12|]. fold x in Hok2.
  assert (length (drop (Z.to_nat n1) pp) <= fuel)%nat as Hlen by (unfold size in *; rewrite length_drop; lia).
  rewrite <- (take_drop (Z.to_nat n1) pp) at 1. fold q.
  eapply appended_app; [reflexivity|by rewrite Hns| | | |].
  4: {
    epose proof (IH (drop (Z.to_nat n1) pp) n c1 D1 _ fi _ _ j Hlen Hok2 HF1 Hj) as IH'. rewrite upd_eq, !size_app, Hq in IH'.
    replace (size (F j) + n1 + size (drop (Z.to_nat n1) pp)) with (size (F j) + size pp) in IH' by lia.
    rewrite Hc1 in *. apply IH'; [lia|by apply Forall_drop|lia]. }
  - intros y Hy. rewrite sec_insert, decide_False by lia. by apply (gr_low _ _ _ _ _ _ _ Hg1).
  - apply (gr_inode _ _ _ _ _ _ _ Hg1).
  - intros j' Hne. by apply Hoth1.
Qed.
