(* ===== verification/MkfsImage.v ===== *)
(** The image mkfs builds: iappend(), ialloc() and main() on whole images, whose
    inodes are read back from their blocks. *)
From S2P Require Import Prelude Riscv Machine Spinlock KString Kalloc Vm UserMem Sched Keeps FsIface File Proc.
From S2P Require Import FsState Sleeplock Bio Log Console Fs FsFormat Mkfs MkfsSpec.

Local Arguments xint : simpl never.
Local Opaque ld st.

(** The inode [j] of an image. *)
Definition rd (img : gmap Z block) (j : Z) : inode := get_dinode (sec img (IBLOCK j mkfs_sb)) (dinode_off j) zero_inode.

Lemma nmeta_46 : nmeta = 46.
Proof. by vm_compute. Qed.

Lemma IBLOCK_low j : 0 <= j < 208 -> 32 <= IBLOCK j mkfs_sb < 45.
Proof. intros Hj. rewrite IBLOCK_mkfs by done. Z.div_mod_to_equations. lia. Qed.

(** ** The same file system *)

(** Images that agree from [nmeta] on, with inodes that have the same blocks. *)
Section Transfer.
Context (n : Z) (c c' : Z -> Z) (D D' : Z -> inode) (img img' : gmap Z block) (fb : Z).
Context (Hok : slots_ok n c D img fb).
Context (HD : forall j, 1 <= j < n -> c' j = c j /\ i_addrs (D' j) = i_addrs (D j) /\ inode_in (D' j)).
Context (Hsec : forall x, nmeta <= x -> sec img' x = sec img x).
Context (Himg : forall x, 0 <= x < FSSIZE -> is_Some (img' !! x)).

Lemma ptr_transfer j i : 1 <= j < n -> ptr D' img' j i = ptr D img j i.
Proof.
  intros Hj. destruct (HD j Hj) as (_ & Ha & _). unfold ptr, addr. rewrite Ha. case_match; [done|].
  destruct (Z.eqb_spec (nth 12 (i_addrs (D j)) 0) 0) as [E|E]; [done|]. rewrite Hsec; [done|].
  apply (so_range _ _ _ _ _ Hok j 12 Hj); [unfold max_slot; lia|exact E].
Qed.

Lemma slots_transfer : slots_ok n c' D' img' fb.
Proof.
  pose proof Hok as [H1 H2 H3 H4 H5 H6 H7 H8]. split; try done.
  - intros j i Hj Hi. rewrite ptr_transfer by done. destruct (HD j Hj) as (-> & _). by apply H1.
  - intros j i Hj Hi. rewrite ptr_transfer by done. by apply H2.
  - intros j i j' i' Hj Hi Hj' Hi'. rewrite !ptr_transfer by done. by apply H3.
  - intros x o Hx. rewrite Hsec by lia. by apply H4.
  - intros j Hj. destruct (HD j Hj) as (-> & _). by apply H7.
  - intros j Hj. by apply HD.
Qed.

Lemma contents_transfer F : contents n c D img F -> contents n c' D' img' F.
Proof.
  intros HF j Hj. destruct (HF j Hj) as (H1 & H2 & H3). destruct (HD j Hj) as (-> & _).
  split; [done|]. split; [done|]. intros k o Hk Hlt Ho. rewrite <- H3 by done. unfold data. rewrite ptr_transfer by done.
  rewrite Hsec; [done|]. pose proof (so_count _ _ _ _ _ Hok j Hj).
  assert (0 <= slot_of k) by (unfold slot_of; case_match; lia).
  apply (ptr_bounds _ _ _ _ _ j (slot_of k) Hok); [done|lia].
Qed.
End Transfer.

(** ** Inodes on the image *)

Lemma rd_winode img fi fb j ip d : 0 <= j < 208 -> inode_in ip -> img !! IBLOCK j mkfs_sb = Some d ->
  exists img', winode j ip (mkmkst img fi fb) = Ret tt (mkmkst img' fi fb) /\
    same_contents ip (rd img' j) /\ (forall j', 0 <= j' < 208 -> j' <> j -> rd img' j' = rd img j') /\
    (forall x, x <> IBLOCK j mkfs_sb -> sec img' x = sec img x) /\ (forall x, is_Some (img !! x) -> is_Some (img' !! x)).
Proof.
  intros Hj Hin Hd. eexists. split.
  { unfold winode, rsect. cbn. rewrite Hd. cbn. reflexivity. }
  assert (sec img (IBLOCK j mkfs_sb) = d) as Hs by (unfold sec; by rewrite Hd).
  split; [unfold rd; rewrite sec_insert, decide_True by done; by apply get_put_dinode|]. split.
  { intros j' Hj' Hne. unfold rd. rewrite sec_insert. case_decide as E; [|done]. rewrite E, Hs. apply get_dinode_ext. intros a Ha.
    apply put_dinode_out; [apply Hin|]. rewrite !IBLOCK_mkfs in E by done. unfold dinode_off in *. change IPB with 16 in *.
    Z.div_mod_to_equations. lia. }
  split; [intros x Hx; by rewrite sec_insert, decide_False|]. intros x Hx.
  destruct (decide (x = IBLOCK j mkfs_sb)) as [->|Hne]; [rewrite lookup_insert_eq; by eexists|by rewrite lookup_insert_ne].
Qed.

Lemma same_contents_in ip x : same_contents ip x -> inode_in ip -> inode_in x.
Proof. intros (E1 & E2 & E3 & E4 & E5 & E6) (H1 & H2 & H3 & H4). unfold inode_in. by rewrite E1, E2, E3, E4, E5, E6. Qed.

(** ** Images *)

(** Inodes 1, ..., [n] - 1 are files of type [T j] with contents [F j] in blocks of
    their own below [fb]; the other inodes are free, the log is empty. *)
Record fs_image (n : Z) (T : Z -> Z) (F : Z -> list Z) (fb : Z) (img : gmap Z block) : Prop := {
  im_n : 1 <= n <= NINODES;
  im_slots : slots_ok n (fun j => nslots (size (F j))) (rd img) img fb;
  im_contents : contents n (fun j => nslots (size (F j))) (rd img) img F;
  im_inode : forall j, 1 <= j < n ->
    i_type (rd img j) = T j /\ i_nlink (rd img j) = 1 /\ i_size (rd img j) = size (F j);
  im_free : forall j, 0 <= j < NINODES -> ~ (1 <= j < n) -> i_type (rd img j) = 0;
  im_super : sec img 1 = sb_block;
  im_log : forall x o, 2 <= x < 32 -> ld8 (sec img x) o = 0 }.

Lemma size_max l : size l <= 268 * 1024 -> 0 <= size l < 2 ^ 32.
Proof. unfold size. lia. Qed.

Lemma set_size_addrs_in s l ip : inode_in ip -> inode_in (set_i_addrs l ip) -> 0 <= s < 2 ^ 32 ->
  inode_in (set_i_size s (set_i_addrs l ip)).
Proof. intros (H1 & _) (_ & _ & H3 & H4) Hs. exact (conj H1 (conj Hs (conj H3 H4))). Qed.

Lemma inode_block n c D img fb j : slots_ok n c D img fb -> 0 <= j < 208 -> exists d, img !! IBLOCK j mkfs_sb = Some d.
Proof. intros Hok Hj. apply (so_img _ _ _ _ _ Hok). pose proof (IBLOCK_low j Hj). assert (FSSIZE = 2000) by done. lia. Qed.

Lemma iappend_spec n T F fb img j p :
  fs_image n T F fb img -> 1 <= j < n -> size (F j ++ p) <= 268 * 1024 -> Forall (fun b => 0 <= b < 256) p ->
  let fb' := fb + (nslots (size (F j ++ p)) - nslots (size (F j))) in
  fb' <= FSSIZE ->
  exists img', iappend j p (mkmkst img n fb) = Ret tt (mkmkst img' n fb') /\ fs_image n T (upd F j (F j ++ p)) fb' img'.
Proof.
  intros [Hn Hok HF Hi Hfree Hsup Hlog] Hj Hmax Hb fb' Hfb. change NINODES with 200 in *. pose proof nmeta_46 as H46.
  destruct (inode_block _ _ _ _ _ j Hok ltac:(lia)) as [d Hd].
  assert (sec img (IBLOCK j mkfs_sb) = d) as Hs by (unfold sec; by rewrite Hd).
  unfold iappend, rinode, rsect. cbn -[iappend_loop winode IBLOCK dinode_off get_dinode mkfs_sb zero_inode i_size]. rewrite Hd.
  cbn -[iappend_loop winode IBLOCK dinode_off get_dinode mkfs_sb zero_inode i_size]. rewrite <- Hs. fold (rd img j).
  destruct (Hi j Hj) as (HT & Hl & Hsz). rewrite Hsz, xint_small by (apply size_max, (HF j Hj)).
  destruct (iappend_loop_spec (length p) p n _ (rd img) img n fb F j ltac:(lia) Hok HF Hj Hmax Hb Hfb)
    as (c1 & D1 & img1 & E & Hok1 & HF1 & Hlow & [l El] & Hoth). fold fb' in E, Hok1.
  unfold kbind at 1. rewrite E. cbn [obind]. rewrite xint_small by by apply size_max.
  destruct (inode_block _ _ _ _ _ j Hok1 ltac:(lia)) as [d1 Hd1].
  pose proof (so_inode _ _ _ _ _ Hok j Hj) as Hin. pose proof (so_inode _ _ _ _ _ Hok1 j Hj) as Hin1. rewrite El in Hin1.
  pose proof (set_size_addrs_in (size (F j ++ p)) l _ Hin Hin1 (size_max _ Hmax)) as Hin2. rewrite <- El in Hin2.
  destruct (rd_winode img1 n fb' j _ d1 ltac:(lia) Hin2 Hd1) as (img2 & E2 & Hsame & Hrd & Hsec2 & Hsome).
  pose proof (IBLOCK_low j ltac:(lia)) as Hlowj.
  assert (forall j', 0 <= j' < 208 -> j' <> j -> rd img2 j' = rd img j') as Hrd'.
  { intros j' Hj' Hne. rewrite Hrd by done. unfold rd. by rewrite Hlow by (pose proof (IBLOCK_low j' Hj'); lia). }
  exists img2. split; [exact E2|].
  assert (forall j', 1 <= j' < n -> nslots (size (upd F j (F j ++ p) j')) = c1 j' /\ i_addrs (rd img2 j') = i_addrs (D1 j') /\ inode_in (rd img2 j')) as Ht.
  { intros j' Hj'. destruct (HF1 j' Hj') as (-> & _). split; [done|]. destruct (decide (j' = j)) as [->|Hne].
    - split; [|by eapply same_contents_in]. by destruct Hsame as (_ & _ & _ & _ & _ & ->).
    - rewrite Hrd', Hoth by (done || lia). split; [done|]. by apply (so_inode _ _ _ _ _ Hok). }
  split; try done.
  - eapply slots_transfer; [exact Hok1|exact Ht| |].
    + intros x Hx. apply Hsec2. lia.
    + intros x Hx. apply Hsome. by apply (so_img _ _ _ _ _ Hok1).
  - eapply contents_transfer; [exact Hok1|exact Ht| |exact HF1]. intros x Hx. apply Hsec2. lia.
  - intros j' Hj'. destruct (decide (j' = j)) as [->|Hne].
    + rewrite upd_eq. destruct Hsame as (-> & _ & _ & -> & -> & _). rewrite El. auto.
    + rewrite upd_ne, Hrd' by (done || lia). by apply Hi.
  - intros j' Hj' Hnot. change NINODES with 200 in *. rewrite Hrd' by lia. by apply Hfree.
  - rewrite Hsec2, Hlow by lia. done.
  - intros x o Hx. rewrite Hsec2, Hlow by lia. by apply Hlog.
Qed.

(** A new inode without blocks. *)
Lemma ptr_new D img j i : i_addrs (D j) = replicate 13 0 -> ptr D img j i = 0.
Proof.
  intros E. unfold ptr, addr. rewrite E, !nth_lookup. change (replicate 13 0 !! 12%nat) with (Some 0). cbn [default Z.eqb].
  case_match; [|done]. destruct (replicate 13 0 !! Z.to_nat i) as [v|] eqn:Ev; [|done]. by apply lookup_replicate in Ev as [-> _].
Qed.

Lemma slots_new n c D img fb : slots_ok n c D img fb -> 1 <= n -> i_addrs (D n) = replicate 13 0 -> inode_in (D n) -> c n = 0 ->
  slots_ok (n + 1) c D img fb.
Proof.
  intros [H1 H2 H3 H4 H5 H6 H7 H8] Hn HD Hin Hc. assert (forall j, 1 <= j < n + 1 -> j = n \/ 1 <= j < n) as Hj by lia.
  pose proof (fun i => ptr_new D img n i HD) as Hp. split; try done.
  - intros j i [->|H]%Hj Hi; [rewrite Hp; lia|by apply H1].
  - intros j i [->|H]%Hj Hi; [by rewrite Hp|by apply H2].
  - intros j i j' i' [->|H]%Hj Hi [->|H']%Hj Hi' E Hne; [by rewrite Hp in Hne|by rewrite Hp in Hne|by rewrite E, Hp in Hne|by apply H3].
  - intros j [->|H]%Hj; [unfold max_slot; lia|by apply H7].
  - intros j [->|H]%Hj; [done|by apply H8].
Qed.

Lemma contents_new n c D img F : contents n c D img F -> 1 <= n -> c n = 0 -> F n = [] -> contents (n + 1) c D img F.
Proof.
  intros HF Hn Hc HFn j Hj. destruct (decide (j = n)) as [->|Hne]; [|apply HF; lia]. rewrite Hc, HFn.
  split; [done|]. split; [done|]. intros k o Hk Hlt. unfold slot_of in Hlt. case_match; lia.
Qed.

Definition new_inode (type : Z) : inode := set_i_size 0 (set_i_nlink 1 (set_i_type type zero_inode)).

Lemma mk_ialloc_spec n T F fb img type : fs_image n T F fb img -> n < NINODES -> 0 < type < 2 ^ 15 ->
  exists img', mk_ialloc type (mkmkst img n fb) = Ret n (mkmkst img' (n + 1) fb) /\
    fs_image (n + 1) (upd T n type) (upd F n []) fb img'.
Proof.
  intros [Hn Hok HF Hi Hfree Hsup Hlog] Hlt Ht. change NINODES with 200 in *. pose proof nmeta_46 as H46.
  destruct (inode_block _ _ _ _ _ n Hok ltac:(lia)) as [d Hd].
  assert (inode_in (new_inode type)) as Hin.
  { split; [|split; [cbn; lia|split; [done|]]].
    - intros v Hv. apply list_elem_of_In in Hv. cbn in Hv. lia.
    - cbn [i_addrs new_inode]. apply Forall_forall. intros a Ha. change (a ∈ replicate 13 0) in Ha. apply elem_of_replicate in Ha as [-> _]. lia. }
  destruct (rd_winode img (n + 1) fb n _ d ltac:(lia) Hin Hd) as (img2 & E2 & Hsame & Hrd & Hsec & Hsome).
  pose proof (IBLOCK_low n ltac:(lia)) as Hlow. exists img2. split.
  { unfold mk_ialloc. cbn -[winode xshort u32]. rewrite u32_small by lia. rewrite xint_small, !xshort_u16 by lia.
    unfold u16. rewrite (Z.mod_small type), (Z.mod_small 1) by lia. fold (new_inode type). unfold kbind. rewrite E2. done. }
  assert (forall j, 1 <= j < n -> nslots (size (upd F n [] j)) = nslots (size (F j)) /\ i_addrs (rd img2 j) = i_addrs (rd img j) /\ inode_in (rd img2 j)) as Htr.
  { intros j Hj. rewrite upd_ne, Hrd by lia. split; [done|]. split; [done|]. by apply (so_inode _ _ _ _ _ Hok). }
  split; [change NINODES with 200; lia| | | | | |].
  - apply slots_new; [|lia|by destruct Hsame as (_ & _ & _ & _ & _ & ->)|by eapply same_contents_in|by rewrite upd_eq].
    eapply slots_transfer; [exact Hok|exact Htr| |].
    + intros x Hx. apply Hsec. lia.
    + intros x Hx. apply Hsome. by apply (so_img _ _ _ _ _ Hok).
  - apply contents_new; [|lia|by rewrite upd_eq|by rewrite upd_eq].
    apply holds_ext with (F := fun j => if decide (j = n) then [] else F j).
    { intros j. case_decide as E; [subst; by rewrite upd_eq|by rewrite upd_ne]. }
    eapply contents_transfer; [exact Hok|exact Htr|intros x Hx; apply Hsec; lia|].
    intros j Hj. rewrite decide_False by lia. by apply HF.
  - intros j Hj. destruct (decide (j = n)) as [->|Hne].
    + rewrite !upd_eq. by destruct Hsame as (-> & _ & _ & -> & -> & _).
    + rewrite !upd_ne, Hrd by lia. apply Hi. lia.
  - intros j Hj Hnot. change NINODES with 200 in *. rewrite Hrd by lia. apply Hfree; lia.
  - rewrite Hsec by lia. done.
  - intros x o Hx. rewrite Hsec by lia. by apply Hlog.
Qed.

(** ** Files *)

Lemma fs_image_ext n T T' F F' fb img : (forall j, T' j = T j) -> (forall j, F' j = F j) ->
  fs_image n T F fb img -> fs_image n T' F' fb img.
Proof.
  intros HT HF [Hn Hok HF0 Hi Hfree Hsup Hlog]. split; try done.
  - eapply slots_transfer; [exact Hok| |done|apply (so_img _ _ _ _ _ Hok)]. intros j Hj. rewrite HF. split; [done|].
    split; [done|]. by apply (so_inode _ _ _ _ _ Hok).
  - eapply holds_ext; [exact HF|]. intros j Hj. rewrite HF. by apply HF0.
  - intros j Hj. rewrite HT, HF. by apply Hi.
Qed.

Lemma append_all_spec l : forall n T F fb img j,
  fs_image n T F fb img -> 1 <= j < n -> size (F j ++ concat l) <= 268 * 1024 -> Forall (fun b => 0 <= b < 256) (concat l) ->
  let fb' := fb + (nslots (size (F j ++ concat l)) - nslots (size (F j))) in
  fb' <= FSSIZE ->
  exists img', append_all j l (mkmkst img n fb) = Ret tt (mkmkst img' n fb') /\ fs_image n T (upd F j (F j ++ concat l)) fb' img'.
Proof.
  induction l as [|p l IH]; intros n T F fb img j Him Hj Hmax Hb fb' Hfb; subst fb'; cbn [concat append_all] in *.
  - exists img. rewrite app_nil_r. rewrite Z.sub_diag, Z.add_0_r. split; [done|]. revert Him.
    apply fs_image_ext; [done|]. intros j'. destruct (decide (j' = j)) as [->|Hne]; [by rewrite upd_eq|by rewrite upd_ne].
  - apply Forall_app in Hb as [Hb1 Hb2]. rewrite app_assoc in *.
    assert (size (F j ++ p) <= size ((F j ++ p) ++ concat l)) as Hle by (rewrite (size_app (F j ++ p)); unfold size; lia).
    pose proof (nslots_mono _ _ Hle). destruct (iappend_spec n T F fb img j p Him Hj ltac:(lia) Hb1) as (img1 & E1 & Him1); [lia|].
    destruct (IH _ _ _ _ _ j Him1 Hj) as (img2 & E2 & Him2); rewrite ?upd_eq; [done|done|lia|].
    rewrite upd_eq in E2, Him2. exists img2. unfold kbind. rewrite E1. cbn [obind].
    replace (fb + (nslots (size (F j ++ p)) - nslots (size (F j))) + (nslots (size ((F j ++ p) ++ concat l)) - nslots (size (F j ++ p))))
      with (fb + (nslots (size ((F j ++ p) ++ concat l)) - nslots (size (F j)))) in * by lia.
    split; [done|]. revert Him2. apply fs_image_ext; [done|]. intros j'.
    destruct (decide (j' = j)) as [->|Hne]; [by rewrite !upd_eq|by rewrite !upd_ne].
Qed.

(** A file of the host that can be read: its path and the pieces read. *)
Abbreviation hostfile := (list Z * list (list Z))%type.

Definition opened (f : hostfile) : list Z * option (list (list Z)) := (fst f, Some (snd f)).

Definition file_name (f : hostfile) : list Z := skip_underscore (shortname (fst f)).

Definition is_bytes (l : list Z) : Prop := Forall (fun b => 0 <= b < 256) l.

Definition file_ok (f : hostfile) : Prop :=
  existsb (fun c => c =? 47) (shortname (fst f)) = false /\ is_bytes (fst f) /\ is_bytes (concat (snd f)) /\
  size (concat (snd f)) <= 268 * 1024.

(** The directory entries for the files, which get the inodes [n], [n] + 1, ... *)
Fixpoint entries (n : Z) (files : list hostfile) : list Z :=
  match files with
  | [] => []
  | f :: files => mk_dirent n (file_name f) ++ entries (n + 1) files
  end.

Fixpoint built (n : Z) (F : Z -> list Z) (files : list hostfile) : Z -> list Z :=
  match files with
  | [] => F
  | f :: files => built (n + 1) (upd (upd F 1 (F 1 ++ mk_dirent n (file_name f))) n (concat (snd f))) files
  end.

Fixpoint types (n : Z) (T : Z -> Z) (files : list hostfile) : Z -> Z :=
  match files with
  | [] => T
  | _ :: files => types (n + 1) (upd T n T_FILE) files
  end.

Fixpoint file_blocks (files : list hostfile) : Z :=
  match files with
  | [] => 0
  | f :: files => nslots (size (concat (snd f))) + file_blocks files
  end.

Lemma file_blocks_pos files : 0 <= file_blocks files.
Proof.
  induction files as [|f files IH]; cbn; [done|]. assert (0 <= nslots (size (concat f.2))); [|lia].
  apply (nslots_mono 0). unfold size. lia.
Qed.

Lemma is_bytes_drop k l : is_bytes l -> is_bytes (drop k l).
Proof. apply Forall_drop. Qed.

Lemma file_name_bytes f : is_bytes (fst f) -> is_bytes (file_name f).
Proof.
  intros H. unfold file_name, skip_underscore, shortname. assert (is_bytes (if bool_decide (take 5 f.1 = bytes "user/") then drop 5 f.1 else f.1)) as H'.
  { case_match; [by apply is_bytes_drop|done]. }
  destruct (if bool_decide _ then _ else _) as [|c l]; [done|]. case_match; [|done]. by apply Forall_cons in H' as [_ ?].
Qed.

Lemma le_bytes_bytes k v : is_bytes (le_bytes k v).
Proof. revert v. induction k as [|k IH]; intros v; cbn; [by constructor|]. constructor; [apply u8_range|apply IH]. Qed.

Lemma mk_dirent_bytes n name : is_bytes name -> is_bytes (mk_dirent n name).
Proof.
  intros H. unfold mk_dirent, dirent. apply Forall_app. split; [apply le_bytes_bytes|]. apply Forall_app. split; [by apply Forall_take|].
  apply Forall_replicate. lia.
Qed.

Lemma built_other n F files j : j <> 1 -> j < n -> built n F files j = F j.
Proof.
  revert n F. induction files as [|f files IH]; intros n F H1 Hj; [done|]. cbn. rewrite IH by lia. by rewrite !upd_ne by lia.
Qed.

Lemma built_root n F files : 1 < n -> built n F files 1 = F 1 ++ entries n files.
Proof.
  revert n F. induction files as [|f files IH]; intros n F Hn; cbn; [by rewrite app_nil_r|].
  rewrite IH by lia. by rewrite upd_ne, upd_eq, <- app_assoc by lia.
Qed.

Lemma built_file n F files i f : 1 < n -> files !! i = Some f -> built n F files (n + Z.of_nat i) = concat (snd f).
Proof.
  revert n F i. induction files as [|g files IH]; intros n F [|i] Hn Hf; try done; cbn in Hf |- *.
  - injection Hf as ->. rewrite Z.add_0_r, built_other by lia. apply upd_eq.
  - replace (n + Z.of_nat (S i)) with (n + 1 + Z.of_nat i) by lia. apply IH; [lia|done].
Qed.

Lemma types_other n T files j : j < n -> types n T files j = T j.
Proof.
  revert n T. induction files as [|f files IH]; intros n T Hj; [done|]. cbn. rewrite IH by lia. by rewrite upd_ne by lia.
Qed.

Lemma types_file n T files i f : files !! i = Some f -> types n T files (n + Z.of_nat i) = T_FILE.
Proof.
  revert n T i. induction files as [|g files IH]; intros n T [|i] Hf; try done; cbn in Hf |- *.
  - rewrite Z.add_0_r, types_other by lia. apply upd_eq.
  - replace (n + Z.of_nat (S i)) with (n + 1 + Z.of_nat i) by lia. by apply IH.
Qed.

Lemma add_files_spec files : forall n T F fb img,
  fs_image n T F fb img -> 1 < n -> n + Z.of_nat (length files) <= NINODES -> Forall file_ok files ->
  size (F 1 ++ entries n files) <= 268 * 1024 ->
  let fb' := fb + (nslots (size (F 1 ++ entries n files)) - nslots (size (F 1))) + file_blocks files in
  fb' <= FSSIZE ->
  exists img', add_files 1 (map opened files) (mkmkst img n fb) = Ret tt (mkmkst img' (n + Z.of_nat (length files)) fb') /\
    fs_image (n + Z.of_nat (length files)) (types n T files) (built n F files) fb' img'.
Proof.
  induction files as [|f files IH]; intros n T F fb img Him Hn Hlen Hfiles Hmax fb' Hfb; subst fb'; cbn [map add_files length entries file_blocks built types] in *.
  { exists img. rewrite app_nil_r, Z.sub_diag, !Z.add_0_r. by split. }
  apply Forall_cons in Hfiles as [(Hname & Hbp & Hbc & Hsz) Hfiles]. unfold opened at 1. rewrite Hname.
  destruct (mk_ialloc_spec n T F fb img T_FILE Him ltac:(lia) ltac:(done)) as (img1 & E1 & Him1).
  set (de := mk_dirent n (file_name f)) in *. rewrite app_assoc in *. pose proof (file_blocks_pos files) as Hpos.
  assert (size (F 1 ++ de) <= size ((F 1 ++ de) ++ entries (n + 1) files)) as Hle by (rewrite (size_app (F 1 ++ de)); unfold size; lia).
  pose proof (nslots_mono _ _ Hle) as Hmono. assert (0 <= nslots (size (concat f.2))) as Hpos' by (apply (nslots_mono 0); unfold size; lia).
  destruct (iappend_spec _ _ _ _ _ 1 de Him1) as (img2 & E2 & Him2);
    rewrite ?(upd_ne F n) by lia; [lia|lia|by apply mk_dirent_bytes, file_name_bytes|lia|]. rewrite upd_ne in E2, Him2 by lia.
  destruct (append_all_spec (snd f) _ _ _ _ _ n Him2) as (img3 & E3 & Him3);
    rewrite ?upd_ne, ?upd_eq by lia; cbn [app]; [lia|done|done|change (nslots (size [])) with 0; lia|].
  rewrite (upd_ne _ 1), !upd_eq in E3, Him3 by lia. cbn [app] in E3, Him3. change (nslots (size [])) with 0 in *.
  set (F3 := upd (upd F 1 (F 1 ++ de)) n (concat f.2)).
  assert (fs_image (n + 1) (upd T n T_FILE) F3 (fb + (nslots (size (F 1 ++ de)) - nslots (size (F 1))) + (nslots (size (concat f.2)) - 0)) img3) as Him4.
  { revert Him3. apply fs_image_ext; [done|]. intros j. unfold F3. destruct (decide (j = n)) as [->|Hne]; [by rewrite !upd_eq|].
    rewrite !(upd_ne _ n) by done. unfold upd. repeat case_match; try done. lia. }
  assert (F3 1 = F 1 ++ de) as HF31 by (unfold F3; by rewrite upd_ne, upd_eq by lia).
  destruct (IH _ _ _ _ _ Him4) as (img4 & E4 & Him5); rewrite ?HF31; [lia|lia|done|done|lia|]. rewrite HF31 in E4, Him5.
  replace (n + Z.of_nat (S (length files))) with (n + 1 + Z.of_nat (length files)) by lia.
  match type of E4 with _ = Ret _ (mkmkst _ _ ?e) =>
    replace e with (fb + (nslots (size ((F 1 ++ de) ++ entries (n + 1) files)) - nslots (size (F 1))) +
      (nslots (size (concat f.2)) + file_blocks files)) in E4, Him5 by lia end.
  exists img4. split; [|done]. unfold kbind. rewrite E1. cbn [obind]. fold (file_name f). fold de. rewrite E2. cbn [obind].
  rewrite E3. cbn [obind]. exact E4.
Qed.

(** ** main() *)

Lemma for_wsect k : forall i img fi fb,
  exists img', for_ i k (fun x => wsect (Z.of_nat x) ∅) (mkmkst img fi fb) = Ret tt (mkmkst img' fi fb) /\
    (forall x, Z.of_nat i <= x < Z.of_nat (i + k) -> img' !! x = Some ∅) /\
    (forall x, ~ (Z.of_nat i <= x < Z.of_nat (i + k)) -> img' !! x = img !! x).
Proof.
  induction k as [|k IH]; intros i img fi fb; cbn [for_].
  - exists img. split; [done|]. split; [lia|done].
  - destruct (IH (S i) (<[Z.of_nat i := ∅]> img) fi fb) as (img' & E & H1 & H2). exists img'. split; [exact E|]. split.
    + intros x Hx. destruct (decide (x = Z.of_nat i)) as [->|Hne]; [rewrite H2 by lia; apply lookup_insert_eq|apply H1; lia].
    + intros x Hx. rewrite H2 by lia. apply lookup_insert_ne. lia.
Qed.

Local Transparent ld.
Lemma ld_empty k a : ld k (∅ : memory) a = 0.
Proof. revert a. induction k as [|k IH]; intros a; [done|]. change (ld (S k) ∅ a) with (ld8 ∅ a + 2 ^ 8 * ld k ∅ (a + 1)). by rewrite IH. Qed.
Local Opaque ld.

(** An image of zeros with a superblock. *)
Lemma fs_image_start img T F : (forall x, 0 <= x < FSSIZE -> x <> 1 -> img !! x = Some ∅) -> img !! 1 = Some sb_block ->
  (forall x, ~ 0 <= x < FSSIZE -> img !! x = None) -> fs_image 1 T F nmeta img.
Proof.
  intros H0 H1 Hout. pose proof nmeta_46 as H46. assert (FSSIZE = 2000) as HF by done.
  assert (forall x, x <> 1 -> sec img x = ∅) as Hs.
  { intros x Hx. unfold sec. destruct (decide (0 <= x < FSSIZE)) as [H|H]; [by rewrite H0|by rewrite Hout]. }
  split; [done| |intros j Hj; lia|intros j Hj; lia| | |].
  - split; try (intros; lia).
    + intros x o Hx. rewrite Hs by lia. done.
    + intros x Hx. destruct (decide (x = 1)) as [->|Hne]; [by eexists|]. rewrite H0 by done. by eexists.
  - intros j Hj _. change NINODES with 200 in *. unfold rd. rewrite Hs by (pose proof (IBLOCK_low j); lia).
    unfold get_dinode. cbn. by rewrite ld_empty.
  - unfold sec. by rewrite H1.
  - intros x o Hx. by rewrite Hs by lia.
Qed.

Lemma size_mk_dirent n name : size (mk_dirent n name) = 16.
Proof.
  unfold size, mk_dirent, dirent. rewrite !length_app, length_le_bytes, length_replicate, length_take. unfold DIRSIZ. lia.
Qed.

Lemma size_entries files : forall n, size (entries n files) = 16 * Z.of_nat (length files).
Proof.
  induction files as [|f files IH]; intros n; [done|]. cbn [entries length]. rewrite size_app, size_mk_dirent, IH. lia.
Qed.

(** The root directory. *)
Definition root_dir (files : list hostfile) : list Z :=
  mk_dirent 1 (bytes ".") ++ mk_dirent 1 (bytes "..") ++ entries 2 files.

Lemma size_root_dir files : size (root_dir files) = 32 + 16 * Z.of_nat (length files).
Proof. unfold root_dir. rewrite !size_app, !size_mk_dirent, size_entries. lia. Qed.

Definition built_files (files : list hostfile) : Z -> list Z :=
  built 2 (upd (fun _ => []) 1 (mk_dirent 1 (bytes ".") ++ mk_dirent 1 (bytes ".."))) files.

Definition built_types (files : list hostfile) : Z -> Z := types 2 (upd (fun _ => 0) 1 T_DIR) files.

(** The first free block when mkfs is done. *)
Definition used_blocks (files : list hostfile) : Z := nmeta + nslots (size (root_dir files)) + file_blocks files.

Lemma fits files : Z.of_nat (length files) <= 198 -> size (root_dir files) <= 268 * 1024.
Proof. intros H. rewrite size_root_dir. lia. Qed.

Lemma nslots_pos i : 0 <= i -> 0 <= nslots i.
Proof. apply (nslots_mono 0). Qed.

(** main() up to the files: the image with "." and "..". *)
Lemma mkfs_root_spec :
  exists img, (forall rest : Z -> MK unit, (modify (fun k => mkmkst (mk_img k) (mk_freeinode k) nmeta) ;;
    for_ 0 (Z.to_nat FSSIZE) (fun i => wsect (Z.of_nat i) ∅) ;;
    wsect 1 sb_block ;;
    rootino <- mk_ialloc T_DIR ;;
    if negb (rootino =? ROOTINO) then panic "assert" else
    iappend rootino (mk_dirent rootino (bytes ".")) ;;
    iappend rootino (mk_dirent rootino (bytes "..")) ;;
    rest rootino) mkfs_start = rest 1 (mkmkst img 2 (nmeta + 1))) /\
  fs_image 2 (upd (fun _ => 0) 1 T_DIR) (upd (fun _ => []) 1 (mk_dirent 1 (bytes ".") ++ mk_dirent 1 (bytes ".."))) (nmeta + 1) img.
Proof.
  destruct (for_wsect (Z.to_nat FSSIZE) 0 ∅ 1 nmeta) as (img0 & E0 & H1 & H2).
  assert (FSSIZE = 2000) as HF by done. pose proof nmeta_46 as H46.
  assert (fs_image 1 (fun _ => 0) (fun _ => []) nmeta (<[1 := sb_block]> img0)) as Him0.
  { apply fs_image_start.
    - intros x Hx Hne. rewrite lookup_insert_ne by done. apply H1. lia.
    - apply lookup_insert_eq.
    - intros x Hx. rewrite lookup_insert_ne by lia. rewrite H2 by lia. apply lookup_empty. }
  destruct (mk_ialloc_spec _ _ _ _ _ T_DIR Him0 ltac:(done) ltac:(done)) as (img1 & E1 & Him1).
  destruct (iappend_spec _ _ _ _ _ 1 (mk_dirent 1 (bytes ".")) Him1) as (img2 & E2 & Him2);
    [lia|by vm_compute|by apply mk_dirent_bytes; repeat constructor|by vm_compute|].
  destruct (iappend_spec _ _ _ _ _ 1 (mk_dirent 1 (bytes "..")) Him2) as (img3 & E3 & Him3);
    [lia|by vm_compute|by apply mk_dirent_bytes; repeat constructor|by vm_compute|].
  exists img3. split.
  - intros rest. rewrite kbind_modify, (kbind_Ret _ _ _ _ _ E0), (kbind_Ret _ _ _ tt (mkmkst (<[1 := sb_block]> img0) 1 nmeta)) by done.
    rewrite (kbind_Ret _ _ _ _ _ E1). change (negb (1 =? ROOTINO)) with false. cbv iota.
    rewrite (kbind_Ret _ _ _ _ _ E2), (kbind_Ret _ _ _ _ _ E3). done.
  - revert Him3. apply fs_image_ext; intros j; unfold upd; by repeat case_match.
Qed.

Lemma set_size_in s ip : inode_in ip -> 0 <= s < 2 ^ 32 -> inode_in (set_i_size s ip).
Proof. intros (H1 & _ & H3 & H4) Hs. exact (conj H1 (conj Hs (conj H3 H4))). Qed.

Lemma bmapstart_45 : sb_bmapstart mkfs_sb = 45.
Proof. by vm_compute. Qed.

(** The image before and after the size of the root directory is rounded up and
    the bitmap is written. *)
Lemma mkfs_main_spec files : Forall file_ok files -> Z.of_nat (length files) <= 198 -> used_blocks files <= FSSIZE ->
  exists img img', let n := 2 + Z.of_nat (length files) in
    mkfs_main (map opened files) mkfs_start = Ret tt (mkmkst img' n (used_blocks files)) /\
    fs_image n (built_types files) (built_files files) (used_blocks files) img /\
    same_contents (set_i_size ((size (root_dir files) / 1024 + 1) * 1024) (rd img 1)) (rd img' 1) /\
    (forall j, 0 <= j < 208 -> j <> 1 -> rd img' j = rd img j) /\
    (forall x, x <> 32 -> x <> 45 -> sec img' x = sec img x) /\
    sec img' 45 = set_bits (Z.to_nat (used_blocks files)) ∅ /\
    (forall x, is_Some (img !! x) -> is_Some (img' !! x)).
Proof.
  intros Hfiles Hlen Hused. destruct mkfs_root_spec as (img0 & E0 & Him0). pose proof (fits files Hlen) as Hfit.
  set (n := 2 + Z.of_nat (length files)). assert (FSSIZE = 2000) as HF by done. pose proof nmeta_46 as H46.
  set (r := mk_dirent 1 (bytes ".") ++ mk_dirent 1 (bytes "..")) in *. set (F0 := upd (fun _ => []) 1 r) in *.
  assert (F0 1 ++ entries 2 files = root_dir files) as Hroot by (unfold F0; rewrite upd_eq; unfold r, root_dir; by rewrite <- app_assoc).
  assert (nmeta + 1 + (nslots (size (F0 1 ++ entries 2 files)) - nslots (size (F0 1))) + file_blocks files = used_blocks files) as Hfb.
  { rewrite Hroot. assert (nslots (size (F0 1)) = 1) as -> by (by vm_compute). unfold used_blocks. lia. }
  destruct (add_files_spec files 2 _ F0 _ _ Him0 ltac:(lia)) as (img1 & E1 & Him1);
    [change NINODES with 200; lia|done|by rewrite Hroot|by rewrite Hfb|]. rewrite Hfb in E1, Him1. fold n in E1, Him1.
  change (built 2 F0 files) with (built_files files) in Him1. fold (built_types files) in Him1. pose proof (im_slots _ _ _ _ _ Him1) as Hok.
  assert (1 <= 1 < n) as H1 by lia. destruct (im_inode _ _ _ _ _ Him1 1 H1) as (_ & _ & Hsz).
  assert (built_files files 1 = root_dir files) as Hb1 by (unfold built_files; rewrite built_root by lia; done). rewrite Hb1 in Hsz.
  destruct (inode_block _ _ _ _ _ 1 Hok ltac:(lia)) as [d Hd]. pose proof (size_root_dir files) as Hs.
  set (off := (size (root_dir files) / 1024 + 1) * 1024).
  assert (0 <= off < 2 ^ 31) as Hoff by (unfold off; Z.div_mod_to_equations; lia).
  destruct (rd_winode img1 n (used_blocks files) 1 (set_i_size off (rd img1 1)) d ltac:(lia)) as (img2 & E2 & Hsame & Hrd & Hsec & Hsome);
    [apply set_size_in; [by apply (so_inode _ _ _ _ _ Hok)|lia]|done|].
  change (IBLOCK 1 mkfs_sb) with 32 in Hd, Hsec.
  exists img1, (<[45 := set_bits (Z.to_nat (used_blocks files)) ∅]> img2). cbv zeta. split; [|split; [done|]].
  - unfold mkfs_main. rewrite E0, (kbind_Ret _ _ _ _ _ E1).
    rewrite (kbind_Ret _ _ _ (rd img1 1) (mkmkst img1 n (used_blocks files))).
    2: { unfold rinode, rsect, rd, sec. change (IBLOCK 1 mkfs_sb) with 32. cbn -[get_dinode dinode_off zero_inode]. by rewrite Hd. }
    cbv zeta. rewrite Hsz. change BSIZE with 1024. rewrite (xint_small (size _)) by lia. fold off. rewrite u32_small by lia. rewrite xint_small by lia.
    rewrite (kbind_Ret _ _ _ _ _ E2), kbind_gets. cbn [mk_freeblock]. unfold mk_balloc, wsect, modify.
    rewrite s32_small by (pose proof (so_fb _ _ _ _ _ Hok); lia). change (1024 * 8) with 8192.
    rewrite (proj2 (Z.ltb_lt (used_blocks files) _)) by (change (BSIZE * 8) with 8192; lia). cbn [negb mk_img mk_freeinode mk_freeblock].
    by rewrite bmapstart_45.
  - assert (forall j, 0 <= j < 208 -> rd (<[45 := set_bits (Z.to_nat (used_blocks files)) ∅]> img2) j = rd img2 j) as Hrd'.
    { intros j Hj. unfold rd. by rewrite sec_insert, decide_False by (pose proof (IBLOCK_low j Hj); lia). }
    rewrite Hrd' by lia. split; [done|]. split; [intros j Hj Hne; by rewrite Hrd', Hrd|].
    split; [intros x Hx Hx'; by rewrite sec_insert, decide_False, Hsec|]. split; [by rewrite sec_insert, decide_True|].
    intros x Hx. destruct (decide (x = 45)) as [->|Hne]; [rewrite lookup_insert_eq; by eexists|].
    rewrite lookup_insert_ne by done. by apply Hsome.
Qed.

(** ** The files of the image *)

(** Block [k] of a file, as bmap() finds it, and byte [o] of the file. *)
Definition file_block (img : gmap Z block) (j k : Z) : Z :=
  if k <? NDIRECT then addr (Z.to_nat k) (rd img j)
  else ld32 (sec img (addr 12 (rd img j))) (4 * (k - NDIRECT)).

Definition file_byte (img : gmap Z block) (j o : Z) : Z := ld8 (sec img (file_block img j (o / BSIZE))) (o `mod` BSIZE).

Lemma file_block_ptr n c img fb j k : slots_ok n c (rd img) img fb -> 1 <= j < n -> 0 <= k < 268 -> slot_of k < c j ->
  file_block img j k = ptr (rd img) img j (slot_of k).
Proof.
  intros Hok Hj Hk Hlt. unfold file_block. change NDIRECT with 12. unfold slot_of in *. destruct (Z.ltb_spec k 12) as [H|H].
  - unfold ptr. by rewrite (proj2 (Z.leb_le k 12)) by lia.
  - rewrite (ptr_indirect _ _ _ _ _ Hok j (k + 1)) by (done || unfold max_slot; lia).
    rewrite ptr_12. f_equal. lia.
Qed.

Lemma slot_in k s : 0 <= k -> k * 1024 < s -> slot_of k < nslots s.
Proof.
  intros Hk Hs. pose proof (nslots_mono (k * 1024 + 1) s ltac:(lia)) as H. rewrite (nslots_in k) in H by lia. lia.
Qed.

Lemma root_size_range files : Z.of_nat (length files) <= 198 -> 0 <= (size (root_dir files) / 1024 + 1) * 1024 < 2 ^ 32.
Proof. intros H. rewrite size_root_dir. Z.div_mod_to_equations. lia. Qed.

(** The contents of the final image. *)
Lemma mkfs_final files : Forall file_ok files -> Z.of_nat (length files) <= 198 -> used_blocks files <= FSSIZE ->
  exists img, let n := 2 + Z.of_nat (length files) in let F := built_files files in
    mkfs_main (map opened files) mkfs_start = Ret tt (mkmkst img n (used_blocks files)) /\
    sec img 1 = sb_block /\ (forall x o, 2 <= x < 32 -> ld8 (sec img x) o = 0) /\
    (forall j, 0 <= j < NINODES -> ~ 1 <= j < n -> i_type (rd img j) = 0) /\
    (forall j, 1 <= j < n -> i_type (rd img j) = built_types files j /\ i_nlink (rd img j) = 1 /\
       i_size (rd img j) = if j =? 1 then (size (root_dir files) / 1024 + 1) * 1024 else size (F j)) /\
    slots_ok n (fun j => nslots (size (F j))) (rd img) img (used_blocks files) /\
    contents n (fun j => nslots (size (F j))) (rd img) img F /\
    sec img 45 = set_bits (Z.to_nat (used_blocks files)) ∅.
Proof.
  intros Hfiles Hlen Hused. destruct (mkfs_main_spec files Hfiles Hlen Hused) as (img & img' & E & Him & Hsame & Hrd & Hsec & Hbm & Hsome).
  destruct Him as [Hn Hok HF Hi Hfree Hsup Hlog]. set (n := 2 + Z.of_nat (length files)) in *. pose proof nmeta_46 as H46.
  exists img'. cbv zeta. split; [exact E|]. split; [by rewrite Hsec|]. split; [intros x o Hx; rewrite Hsec by lia; by apply Hlog|].
  split; [intros j Hj Hnot; change NINODES with 200 in *; rewrite Hrd by lia; by apply Hfree|].
  assert (forall j, 1 <= j < n -> nslots (size (built_files files j)) = nslots (size (built_files files j)) /\
    i_addrs (rd img' j) = i_addrs (rd img j) /\ inode_in (rd img' j)) as Ht.
  { intros j Hj. split; [done|]. pose proof (so_inode _ _ _ _ _ Hok j Hj) as Hin. destruct (decide (j = 1)) as [->|Hne].
    - split; [by destruct Hsame as (_ & _ & _ & _ & _ & ->)|]. eapply same_contents_in; [exact Hsame|]. apply set_size_in; [done|].
      apply root_size_range; lia.
    - rewrite Hrd by (change NINODES with 200 in *; lia). split; [reflexivity|exact Hin]. }
  assert (forall x, nmeta <= x -> sec img' x = sec img x) as Hhigh by (intros x Hx; apply Hsec; lia).
  split.
  { intros j Hj. destruct (Hi j Hj) as (H1 & H2 & H3). destruct (Z.eqb_spec j 1) as [->|Hne].
    - destruct Hsame as (-> & _ & _ & -> & -> & _). exact (conj H1 (conj H2 eq_refl)).
    - rewrite Hrd by (change NINODES with 200 in *; lia). exact (conj H1 (conj H2 H3)). }
  split; [|split; [eapply contents_transfer; [exact Hok|exact Ht|exact Hhigh|exact HF]|exact Hbm]].
  eapply slots_transfer; [exact Hok|exact Ht|exact Hhigh|]. intros x Hx. by apply Hsome, (so_img _ _ _ _ _ Hok).
Qed.

Lemma contents_byte n F img fb j o : slots_ok n (fun j => nslots (size (F j))) (rd img) img fb ->
  contents n (fun j => nslots (size (F j))) (rd img) img F -> 1 <= j < n -> 0 <= o < size (F j) ->
  file_byte img j o = byte (F j) o.
Proof.
  intros Hok HF Hj Ho. destruct (HF j Hj) as (_ & Hmax & Hd). unfold file_byte. change BSIZE with 1024.
  assert (0 <= o / 1024 < 268) as Hk by (Z.div_mod_to_equations; lia).
  assert (slot_of (o / 1024) < nslots (size (F j))) as Hs by (apply slot_in; Z.div_mod_to_equations; lia).
  rewrite (file_block_ptr _ _ _ _ j _ Hok Hj Hk Hs).
  specialize (Hd (o / 1024) (o `mod` 1024) ltac:(lia) Hs ltac:(apply Z.mod_pos_bound; lia)). unfold data in Hd. rewrite Hd.
  f_equal. Z.div_mod_to_equations. lia.
Qed.

Lemma bit_clear_bits k : forall b, 0 <= b -> bit_clear (set_bits k ∅) b = negb (b <? Z.of_nat k).
Proof.
  induction k as [|k IH]; intros b Hb.
  - rewrite bit_clear_testbit by done. change (ld8 (set_bits 0 ∅) (b / 8)) with 0. rewrite Z.bits_0.
    destruct (Z.ltb_spec b (Z.of_nat 0)); [lia|done].
  - cbn [set_bits]. rewrite bit_clear_set, IH by lia.
    destruct (decide (b = Z.of_nat k)), (Z.ltb_spec b (Z.of_nat k)), (Z.ltb_spec b (Z.of_nat (S k))); try done; lia.
Qed.

(** C13: mkfs copies the files. For host files that can be read, whose names have no
    slash and which fit into inodes and blocks, mkfs does not stop half-way, and in
    the image it leaves file number [i] is inode [i] + 2: a regular file with one
    link, the size of the host's file and, read through its block addresses, its
    bytes. Inode 1 is a directory whose first bytes are the entries for ".", ".." and
    each of the files under its name without "user/" and the leading underscore, its
    size rounded up to whole blocks. Block 1 is the superblock. *)
Theorem mkfs_files files : Forall file_ok files -> Z.of_nat (length files) <= 198 -> used_blocks files <= FSSIZE ->
  exists k, mkfs_main (map opened files) mkfs_start = Ret tt k /\
  let img := mk_img k in
  sec img 1 = sb_block /\
  (i_type (rd img 1) = T_DIR /\ i_nlink (rd img 1) = 1 /\ i_size (rd img 1) = (size (root_dir files) / BSIZE + 1) * BSIZE /\
   forall o, 0 <= o < size (root_dir files) -> file_byte img 1 o = byte (root_dir files) o) /\
  forall i f, files !! i = Some f ->
    let j := 2 + Z.of_nat i in
    i_type (rd img j) = T_FILE /\ i_nlink (rd img j) = 1 /\ i_size (rd img j) = size (concat (snd f)) /\
    forall o, 0 <= o < size (concat (snd f)) -> file_byte img j o = byte (concat (snd f)) o.
Proof.
  intros Hfiles Hlen Hused. destruct (mkfs_final files Hfiles Hlen Hused) as (img & E & Hsup & _ & _ & Hi & Hok & HF & _).
  eexists. split; [exact E|]. cbn [mk_img]. split; [exact Hsup|]. clear E Hfiles Hsup. change BSIZE with 1024.
  assert (built_files files 1 = root_dir files) as H1 by (unfold built_files; by rewrite built_root by lia). split.
  - destruct (Hi 1 ltac:(lia)) as (Ht & Hl & Hs). split; [rewrite Ht; unfold built_types; by rewrite types_other by lia|].
    split; [exact Hl|]. split; [exact Hs|]. intros o Ho. rewrite <- H1. rewrite <- H1 in Ho.
    exact (contents_byte _ _ _ _ 1 o Hok HF ltac:(lia) Ho).
  - intros i f Hf. set (j := 2 + Z.of_nat i). pose proof (lookup_lt_Some _ _ _ Hf) as Hlt.
    assert (built_files files j = concat (snd f)) as Hj by (by apply built_file).
    destruct (Hi j ltac:(lia)) as (Ht & Hl & Hs). rewrite (proj2 (Z.eqb_neq j 1)) in Hs by lia. rewrite Hj in Hs.
    split; [rewrite Ht; by eapply types_file|]. split; [exact Hl|]. split; [exact Hs|]. intros o Ho. rewrite <- Hj. rewrite <- Hj in Ho.
    exact (contents_byte _ _ _ _ j o Hok HF ltac:(lia) Ho).
Qed.

Definition demo_files : list hostfile :=
  [(bytes "user/_cat", [[127; 69; 76; 70]; [2; 1]]); (bytes "README", [bytes "xv6"; []])].

Lemma demo_files_ok : Forall file_ok demo_files.
Proof. repeat constructor; try done; by vm_compute. Qed.

Lemma mkfs_files_witness :
  exists k, mkfs_main (map opened demo_files) mkfs_start = Ret tt k /\
    i_size (rd (mk_img k) 2) = 6 /\ file_byte (mk_img k) 2 4 = 2 /\ file_byte (mk_img k) 1 32 = 2 /\
    file_byte (mk_img k) 1 34 = 99 /\ i_type (rd (mk_img k) 3) = T_FILE.
Proof.
  destruct (mkfs_files demo_files demo_files_ok) as (k & E & H); [by vm_compute|by vm_compute|].
  destruct H as (_ & (_ & _ & _ & Hroot) & Hf). exists k. split; [exact E|]. clear E.
  destruct (Hf 0%nat _ eq_refl) as (_ & _ & Hs & Hb). destruct (Hf 1%nat _ eq_refl) as (Ht & _).
  split; [exact Hs|]. split; [refine (Hb 4 _); by vm_compute|]. split; [refine (Hroot 32 _); by vm_compute|].
  split; [refine (Hroot 34 _); by vm_compute|]. exact Ht.
Defined.

(** C14: the image of mkfs is consistent. The blocks in use are exactly those below
    [used_blocks], in the bitmap as bfree() and balloc() read it; the blocks of the
    files, indirect blocks included, are among them past the metadata, and no two
    files and no two places of one file share a block. The inodes mkfs did not hand
    out are free and the log is empty. *)
Theorem mkfs_consistent files : Forall file_ok files -> Z.of_nat (length files) <= 198 -> used_blocks files <= FSSIZE ->
  exists k, mkfs_main (map opened files) mkfs_start = Ret tt k /\
  let img := mk_img k in
  let slots j := nslots (size (built_files files j)) in
  mk_freeblock k = used_blocks files /\
  (forall b, 0 <= b < BSIZE * 8 -> bit_clear (sec img (sb_bmapstart mkfs_sb)) b = negb (b <? used_blocks files)) /\
  (forall j i, 1 <= j < mk_freeinode k -> 0 <= i < slots j -> nmeta <= ptr (rd img) img j i < used_blocks files) /\
  (forall j i j' i', 1 <= j < mk_freeinode k -> 0 <= i < slots j -> 1 <= j' < mk_freeinode k -> 0 <= i' < slots j' ->
     (j, i) <> (j', i') -> ptr (rd img) img j i <> ptr (rd img) img j' i') /\
  (forall j, 0 <= j < NINODES -> ~ 1 <= j < mk_freeinode k -> i_type (rd img j) = 0) /\
  forall x o, 2 <= x < sb_inodestart mkfs_sb -> ld8 (sec img x) o = 0.
Proof.
  intros Hfiles Hlen Hused. destruct (mkfs_final files Hfiles Hlen Hused) as (img & E & _ & Hlog & Hfree & _ & Hok & HF & Hbm).
  eexists. split; [exact E|]. cbn [mk_img mk_freeblock mk_freeinode]. clear E Hfiles. split; [reflexivity|].
  pose proof (so_fb _ _ _ _ _ Hok). pose proof nmeta_46. split.
  { intros b Hb. rewrite bmapstart_45, Hbm, bit_clear_bits by lia. do 2 f_equal. lia. }
  split; [intros j i Hj Hi; exact (proj1 (ptr_bounds _ _ _ _ _ j i Hok Hj Hi))|].
  split; [intros j i j' i'; exact (ptr_ne _ _ _ _ _ Hok j i j' i')|].
  split; [exact Hfree|]. change (sb_inodestart mkfs_sb) with 32. exact Hlog.
Qed.

Lemma mkfs_consistent_witness :
  exists k, mkfs_main (map opened demo_files) mkfs_start = Ret tt k /\
    bit_clear (sec (mk_img k) 45) 48 = false /\ bit_clear (sec (mk_img k) 45) 49 = true /\
    ptr (rd (mk_img k)) (mk_img k) 2 0 <> ptr (rd (mk_img k)) (mk_img k) 3 0.
Proof.
  destruct (mkfs_consistent demo_files demo_files_ok) as (k & E & H); [by vm_compute|by vm_compute|].
  pose proof E as E'. destruct H as (Hfb & Hbm & _ & Hne & _). exists k. split; [exact E|]. clear E.
  rewrite bmapstart_45 in Hbm. change (BSIZE * 8) with 8192 in Hbm. split; [rewrite Hbm by lia; by vm_compute|]. split; [rewrite Hbm by lia; by vm_compute|].
  assert (mk_freeinode k = 4) as Hfi by (destruct (mkfs_final demo_files demo_files_ok) as (img & E & _); [by vm_compute|by vm_compute|];
    rewrite E in E'; by injection E' as <-).
  clear E'. refine (Hne 2 0 3 0 _ _ _ _ _); [rewrite Hfi; lia|by vm_compute|rewrite Hfi; lia|by vm_compute|congruence].
Defined.
