(* ===== verification/FsRead.v ===== *)
(** Reading files: fsinit(), bmap(), readi(), iget(), ilock(), iunlockput() and
    dirlookup() of kernel/fs.c over the buffer cache, without contention, on any disk
    whose blocks and inode table are in order. *)
From stdpp Require Import functions.
From S2P Require Import Prelude Riscv Machine Spinlock KString Kalloc Vm UserMem Sched Keeps FsIface File Proc.
From S2P Require Import FsState Quiet Sleeplock Bio BioSpec Log LogSpec BlockSpec Console Fs FsFormat.

Local Opaque ld st.

Section Read.
Context `{L : Layout} `{Fuel0 : Fuel} `{World0 : World} `{Dev : BlockDev} `{!BlockDevOk Dev} (dev : Z) (p : nat) (pid : Z).
Implicit Types f : fsys.

(** ** States *)

Abbreviation nolk := (fun _ : Z => false).

(** The cache is in order with a buffer to spare; block [n] reads [V n]; [sb] and
    [l] are the superblock and the inode table. *)
Record fstate f (V : Z -> block) (sb : superblock) (l : list inode) : Prop := {
  fst_cache : exists R D b, cst dev f V R nolk D b /\ b < Z.of_nat NBUF /\ forall k, 0 <= R k < 2 ^ 31 - 1;
  fst_sb : fs_sb f = sb;
  fst_inodes : fs_inodes f = l }.

Lemma fstate_ext f V V' sb l : (forall n, V' n = V n) -> fstate f V sb l -> fstate f V' sb l.
Proof.
  intros HV [(R & D & b & Hc & H) Hs Hl]. split; [|done|done]. exists R, D, b. split; [|done]. by eapply cst_ext.
Qed.

Section Same.
Context f f' (Eb : fs_bufs f' = fs_bufs f) (Ed : fs_disk f' = fs_disk f) (Ev : fs_vdisk f' = fs_vdisk f).

Lemma get_buf_same i : get_buf i f' = get_buf i f.
Proof. unfold get_buf. by rewrite Eb. Qed.

Lemma linked_same x l : linked f' x l <-> linked f x l.
Proof. revert x. induction l as [|y l IH]; intros x; cbn; [done|]. by rewrite !get_buf_same, IH. Qed.

Lemma cache_ok_same : cache_ok dev f -> cache_ok dev f'.
Proof.
  intros [(l & (H1 & H2 & H3 & H4) & Hp) Hu Hb Hn]. unfold matches, buf_ok, disk_block in *.
  split; unfold matches, buf_ok, disk_block.
  - exists l. split; [|done]. split; [by rewrite Eb|]. split; [done|]. split; [done|]. by apply linked_same.
  - intros i j n. rewrite !get_buf_same. apply Hu.
  - intros i Hi. rewrite get_buf_same, Ed. by apply Hb.
  - intros i Hi. rewrite get_buf_same. by apply Hn.
Qed.

Lemma bufof_same n : bufof dev f' n = bufof dev f n.
Proof. unfold bufof. induction (seq 0 NBUF) as [|i l IH]; [done|]. cbn. unfold matches at 1 3. by rewrite get_buf_same, IH. Qed.

Lemma cst_same V R Lk D b : cst dev f V R Lk D b -> cst dev f' V R Lk D b.
Proof.
  intros [[H1 H2] HV HR HL HD Hb]. split.
  - split; [by apply cache_ok_same|by rewrite Ev].
  - intros m. rewrite <- HV. unfold view, disk_block. rewrite bufof_same, Ed. destruct (bufof dev f m); [|done]. by rewrite get_buf_same.
  - intros m. rewrite <- HR. unfold ref. rewrite bufof_same. destruct (bufof dev f m); [|done]. by rewrite get_buf_same.
  - intros m. rewrite <- HL. unfold lockd. rewrite bufof_same. destruct (bufof dev f m); [|done]. by rewrite get_buf_same.
  - intros m. rewrite <- HD. unfold disk_block. by rewrite Ed.
  - rewrite <- Hb. unfold busy. apply count_ext. intros i _. unfold in_use. by rewrite get_buf_same.
Qed.

Lemma held_same n i : held dev pid f n i -> held dev pid f' n i.
Proof. intros [H1 H2 H3 H4 H5]. split; rewrite ?get_buf_same, ?bufof_same; done. Qed.
End Same.

Lemma fstate_inodes f V sb l l' : fstate f V sb l -> fstate (set_fs_inodes l' f) V sb l'.
Proof.
  intros [(R & D & b & Hc & Hb) Hs Hl]. split; [|done|done]. exists R, D, b. split; [|done]. by apply (cst_same f).
Qed.

Lemma fstate_upd f V sb l i g : fstate f V sb l -> fstate (upd_inode i g f) V sb (alter g i l).
Proof. intros H. unfold upd_inode. rewrite (fst_inodes _ _ _ _ H). by apply (fstate_inodes _ _ _ l). Qed.

(** ** Blocks *)

(** A block is read, the inode table may change, and the buffer is released. *)
Lemma read_block f V sb l n : fstate f V sb l -> 0 <= n < 2 ^ 31 ->
  exists i f1, eval p pid [] (bread dev n) [] f i f1 /\ b_data (get_buf i f1) = V n /\ fs_sb f1 = sb /\ fs_inodes f1 = l /\
    forall l', exists f2, eval p pid [] (brelse i) [] (set_fs_inodes l' f1) tt f2 /\ fstate f2 V sb l'.
Proof.
  intros [(R & D & b & Hc & Hb & HR) Hs Hl] Hn.
  destruct (cst_bread dev p pid f V R nolk D b n) as (i & f1 & E1 & C1 & F1 & _ & H1 & _); [done|done|by right|apply HR|done|].
  exists i, f1. split; [exact E1|]. split; [by rewrite <- (held_view dev pid f1 n i H1), (s_view _ _ _ _ _ _ _ C1)|].
  split; [by rewrite (fr_sb _ _ F1)|]. split; [by rewrite (fr_inodes _ _ F1)|]. intros l'.
  assert (cst dev (set_fs_inodes l' f1) V (<[n := R n + 1]> R) (<[n := true]> nolk) D (b + if R n =? 0 then 1 else 0)) as C1'
    by (by apply (cst_same f1)).
  destruct (cst_brelse dev p pid _ _ _ _ _ _ n i C1') as (f2 & E2 & C2 & F2 & _).
  { by apply (held_same f1). }
  { fn_simpl. intros E. symmetry. apply (cst_unref dev f V R nolk D b); [done|lia]. }
  exists f2. split; [exact E2|]. split; [|by rewrite (fr_sb _ _ F2), <- Hs, <- (fr_sb _ _ F1)|by rewrite (fr_inodes _ _ F2)].
  exists R, D, b. split; [|done]. eapply cst_ext; [exact C2|done|..].
  - intros m. destruct (decide (m = n)) as [->|Hne]; fn_simpl; lia.
  - intros m. by destruct (decide (m = n)) as [->|Hne]; fn_simpl.
  - done.
  - specialize (HR n). fn_simpl. destruct (R n =? 0) eqn:E0, (R n + 1 =? 1) eqn:E1'; lia.
Qed.

Lemma set_inodes_id f : set_fs_inodes (fs_inodes f) f = f.
Proof. by destruct f. Qed.

(** ** fsinit() *)

(** The lock of the log after initlock(). *)
Definition init_log_lock (s : kstate fsys) : kstate fsys :=
  set_k_locks (<[L_log := mkspinlock false (Some "log") None]> (k_locks s)) s.

Lemma quiet_init_log_lock s : quiet p pid s -> quiet p pid (init_log_lock s).
Proof.
  intros [H1 H2 H3 H4 H5 H6 H7 H8 H9 H10 H11 H12]. split; try done.
  - apply kstate_ext; try reflexivity. exact (f_equal k_cpus H2).
  - intros k Hk. destruct (decide (k = L_log)) as [->|Hne].
    + eexists. apply lookup_insert_eq.
    + destruct (H9 k Hk) as [nm E]. exists nm. unfold init_log_lock. cbn. by rewrite lookup_insert_ne.
  - intros k Hk. destruct (H10 k Hk) as [nm E]. exists nm. unfold init_log_lock. cbn. by rewrite lookup_insert_ne.
Qed.

Lemma readsb_spec f D b : cst dev f D (fun _ => 0) nolk D b -> b < Z.of_nat NBUF -> u32 dev = dev ->
  exists f', eval p pid [] (readsb dev) [] f tt f' /\ cst dev f' D (fun _ => 0) nolk D b /\ fs_sb f' = sb_of (D 1) /\
    fs_log f' = fs_log f /\ fs_inodes f' = fs_inodes f.
Proof.
  intros Hc Hb Hd. destruct (cst_bread dev p pid f D (fun _ => 0) nolk D b 1) as (i & f1 & E1 & C1 & F1 & _ & H1 & _); [done|done|by right|lia|lia|].
  assert (cst dev (set_fs_sb (sb_of (D 1)) f1) D (<[1 := 0 + 1]> (fun _ => 0)) (<[1 := true]> nolk) D (b + 1)) as C1' by (by apply (cst_same f1)).
  destruct (cst_brelse dev p pid _ _ _ _ _ _ 1 i C1') as (f2 & E2 & C2 & F2 & _); [by apply (held_same f1)|done|].
  exists f2. split.
  { unfold readsb. rewrite Hd. eapply eval_bind; [exact E1|]. cbn beta. eapply eval_bind; [apply eval_gets|]. cbn beta.
    rewrite <- (held_view dev pid f1 1 i H1), (s_view _ _ _ _ _ _ _ C1). eapply eval_bind; [apply eval_modify|exact E2]. }
  split; [|split; [by rewrite (fr_sb _ _ F2)|split; [by rewrite (fr_log _ _ F2), <- (fr_log _ _ F1)|by rewrite (fr_inodes _ _ F2), <- (fr_inodes _ _ F1)]]].
  eapply cst_ext; [exact C2|done|..].
  - intros m. by destruct (decide (m = 1)) as [->|Hne]; fn_simpl.
  - intros m. by destruct (decide (m = 1)) as [->|Hne]; fn_simpl.
  - done.
  - fn_simpl. change (0 + 1 =? 1) with true. cbv iota. lia.
Qed.

(** fsinit() on a disk with an empty log: the superblock is read and only the
    header of the log is written. *)
Lemma fsinit_spec s D b : quiet p pid s -> cst dev (k_fs s) D (fun _ => 0) nolk D b -> b + 1 < Z.of_nat NBUF -> u32 dev = dev ->
  length (lg_block (fs_log (k_fs s))) = Z.to_nat LOGSIZE ->
  let sb := sb_of (D 1) in let start := s32 (sb_logstart sb) in
  sb_magic sb = FSMAGIC -> 0 <= start < 2 ^ 31 -> lh_n (D start) = 0 ->
  exists f' D', resolves (fsinit dev s) tt (set_k_fs f' (init_log_lock s)) /\
    fstate f' D' sb (fs_inodes (k_fs s)) /\ forall m, m <> start -> D' m = D m.
Proof.
  intros Hq Hc Hb Hd Hlb sb start Hmagic Hs Hn. destruct (readsb_spec (k_fs s) D b Hc ltac:(lia) Hd) as (f1 & E1 & C1 & Esb & Elog & Ein).
  set (f2 := upd_log (set_lg_dev dev) (upd_log (set_lg_size (s32 (sb_nlog sb))) (upd_log (set_lg_start start) f1))).
  destruct (recover_clean start D Hs Hn) as [Hsh HD].
  destruct (eval_recover dev p pid start f2 D b) as (f3 & b3 & E3 & Hb3 & C3 & _ & Fr & _);
    [by do 3 apply cst_log|split; [done|done|by cbn; rewrite Elog]|done|rewrite Hn; done|done|].
  exists f3, (apply_writes (recover_writes start D) D). split; [|split; [|exact HD]].
  - set (s1 := init_log_lock s). assert (quiet p pid (set_k_fs f2 s1)) as Hq2 by (by apply quiet_fs, quiet_init_log_lock).
    specialize (E3 _ Hq2 eq_refl). cbn [holds] in E3. rewrite set_fs_set in E3.
    specialize (E1 s Hq eq_refl). cbn [holds] in E1. unfold fsinit. eapply resolves_bind; [exact E1|].
    cbn beta. unfold the_sb, fs_gets. rewrite kbind_gets. change (k_fs (set_k_fs f1 s)) with f1. rewrite Esb. fold sb. rewrite Hmagic, Z.eqb_refl. cbn [negb].
    unfold initlog. change (sizeof_logheader >=? BSIZE) with false. cbv iota. exact E3.
  - split; [|by rewrite (lf_sb _ _ Fr)|by rewrite (lf_inodes _ _ Fr)]. exists (fun _ => 0), (apply_writes (recover_writes start D) D), b3.
    split; [exact C3|]. split; [lia|]. intros k. lia.
Qed.

(** ** The blocks of a file *)

(** Block [k] of an inode, with the blocks [V]. *)
Definition iblock (V : Z -> block) (x : inode) (k : Z) : Z :=
  if k <? NDIRECT then addr (Z.to_nat k) x else ld32 (V (addr 12 x)) (4 * (k - NDIRECT)).

(** Block [k] is there. *)
Definition has_block (V : Z -> block) (x : inode) (k : Z) : Prop :=
  0 <= k < MAXFILE /\ 0 < iblock V x k < 2 ^ 31 /\ (NDIRECT <= k -> 0 < addr 12 x < 2 ^ 31).

Lemma get_inode_at f V sb l ip x : fstate f V sb l -> l !! ip = Some x -> get_inode ip f = x.
Proof. intros H E. unfold get_inode. by rewrite (fst_inodes _ _ _ _ H), E. Qed.

Lemma bmap_spec f V sb l ip x k : fstate f V sb l -> l !! ip = Some x -> i_dev x = dev -> has_block V x k ->
  exists f', eval p pid [] (bmap ip k) [] f (iblock V x k) f' /\ fstate f' V sb l.
Proof.
  intros Hf Hx Hdev (Hk & Hb & Hi). pose proof (get_inode_at _ _ _ _ _ _ Hf Hx) as Ex. unfold bmap, iblock in *.
  assert (forall f i, get_inode ip f = x -> addr i x <> 0 -> eval p pid [] (bmap_addr ip i) [] f (addr i x) f) as Haddr.
  { intros f0 i E0 Ha. unfold bmap_addr. eapply eval_bind; [apply eval_gets|]. cbn beta. unfold id. rewrite E0.
    rewrite (proj2 (Z.eqb_neq _ _) Ha). apply eval_ret. }
  destruct (Z.ltb_spec k NDIRECT) as [Hlt|Hge]; [exists f; split; [apply Haddr; [done|lia]|done]|].
  specialize (Hi Hge). rewrite (proj2 (Z.ltb_lt (k - NDIRECT) NINDIRECT)) by (change MAXFILE with 268 in *; change NINDIRECT with 256; lia).
  change (Z.to_nat NDIRECT) with 12%nat. destruct (read_block f V sb l (addr 12 x) Hf ltac:(lia)) as (i & f1 & E1 & Hd & _ & Hl1 & H2).
  destruct (H2 (fs_inodes f1)) as (f2 & E2 & Hf2). rewrite set_inodes_id in E2. rewrite Hl1 in Hf2. exists f2. split; [|done].
  eapply eval_bind; [apply Haddr; [done|lia]|]. cbn beta. rewrite (proj2 (Z.eqb_neq (addr 12 x) 0)) by lia.
  eapply eval_bind; [apply eval_gets|]. cbn beta. rewrite Ex, Hdev. eapply eval_bind; [exact E1|]. cbn beta.
  eapply eval_bind; [apply eval_gets|]. cbn beta. rewrite Hd. rewrite (proj2 (Z.eqb_neq (ld32 _ _) 0)) by lia. cbn [negb].
  eapply eval_bind; [apply eval_ret|]. cbn beta. eapply eval_bind; [exact E2|]. apply eval_ret.
Qed.

(** ** readi() *)

(** Byte [o] of the file, and the [n] bytes from [off] on. *)
Definition fbyte (V : Z -> block) (x : inode) (o : Z) : Z := ld8 (V (iblock V x (o / BSIZE))) (o `mod` BSIZE).

Definition fbytes (V : Z -> block) (x : inode) (off n : Z) : list Z := map (fun i => fbyte V x (off + i)) (seqZ 0 n).

Lemma read_bytes_map d a n : read_bytes d a n = map (fun i => ld8 d (a + i)) (seqZ 0 (Z.of_nat n)).
Proof.
  revert a. induction n as [|n IH]; intros a; [done|]. cbn [read_bytes]. rewrite Nat2Z.inj_succ, seqZ_cons by lia.
  cbn [map]. rewrite Z.add_0_r. f_equal. rewrite IH, Z.pred_succ. change (Z.succ 0) with (1 + 0). rewrite <- (fmap_add_seqZ 1 0 (Z.of_nat n)).
  change (map ?g ?l) with (g <$> l). rewrite <- list_fmap_compose. apply list_fmap_ext. intros _ i _. unfold compose. f_equal. lia.
Qed.

Lemma block_bytes_file V x off m : 0 <= off -> 0 <= m <= BSIZE - off `mod` BSIZE ->
  block_bytes (V (iblock V x (off / BSIZE))) (off `mod` BSIZE) m = fbytes V x off m.
Proof.
  intros Ho Hm. unfold block_bytes, fbytes. change BSIZE with 1024 in *. rewrite read_bytes_map, Z2Nat.id by lia.
  apply map_ext_in. intros i Hi%list_elem_of_In%elem_of_seqZ. unfold fbyte. change BSIZE with 1024.
  replace ((off + i) / 1024) with (off / 1024) by (Z.div_mod_to_equations; lia). f_equal. Z.div_mod_to_equations. lia.
Qed.

Lemma fbytes_app V x off m n : 0 <= m -> 0 <= n -> fbytes V x off (m + n) = fbytes V x off m ++ fbytes V x (off + m) n.
Proof.
  intros Hm Hn. unfold fbytes. rewrite (seqZ_app 0 m n) by lia. rewrite map_app, (Z.add_comm 0 m). f_equal.
  rewrite <- (fmap_add_seqZ m 0 n). change (map ?g ?l) with (g <$> l). rewrite <- list_fmap_compose. apply list_fmap_ext.
  intros _ i _. unfold compose. f_equal. lia.
Qed.

Definition needs (r o : Z) : Z := if r =? 0 then 0 else (r + o + 1023) / 1024.

Lemma readi_loop_spec copy V sb l ip x :
  (forall dst bs f, eval p pid [] (copy dst bs) [] f 0 f) -> l !! ip = Some x -> i_dev x = dev ->
  forall k dst off n tot acc f, fstate f V sb l -> 0 <= off -> 0 <= tot <= n -> off + (n - tot) < 2 ^ 32 ->
    needs (n - tot) (off `mod` 1024) < Z.of_nat k ->
    (forall b, off <= b < off + (n - tot) -> has_block V x (b / 1024)) ->
    exists f', eval p pid [] (readi_loop k copy ip dst off n tot acc) [] f (n, acc ++ fbytes V x off (n - tot)) f' /\ fstate f' V sb l.
Proof.
  intros Hcopy Hx Hdev. induction k as [|k IH]; intros dst off n tot acc f Hf Ho Ht Hlt Hk Hb.
  { unfold needs in Hk. destruct (Z.eqb_spec (n - tot) 0); [lia|]. Z.div_mod_to_equations. lia. }
  cbn [readi_loop]. change BSIZE with 1024 in *. destruct (Z.ltb_spec tot n) as [Hlt'|Hge]; cbn [negb].
  2: { exists f. replace (n - tot) with 0 by lia. replace n with tot by lia. cbn. rewrite app_nil_r. split; [apply eval_ret|done]. }
  pose proof (Hb off ltac:(lia)) as Hblk. destruct (bmap_spec f V sb l ip x (off / 1024) Hf Hx Hdev Hblk) as (f1 & E1 & Hf1).
  destruct Hblk as (_ & Hpos & _). set (a := iblock V x (off / 1024)) in *.
  destruct (read_block f1 V sb l a Hf1 ltac:(lia)) as (i & f2 & E2 & Hd & _ & Hl2 & H3).
  destruct (H3 (fs_inodes f2)) as (f3 & E3 & Hf3). rewrite set_inodes_id in E3. rewrite Hl2 in Hf3.
  set (m := Z.min (n - tot) (1024 - off `mod` 1024)).
  assert (0 < m <= n - tot /\ m <= 1024 - off `mod` 1024) as Hm by (pose proof (Z.mod_pos_bound off 1024); lia).
  destruct (IH (u64 (dst + m)) (u32 (off + m)) n (tot + m) (acc ++ block_bytes (V a) (off `mod` 1024) m) f3 Hf3) as (f4 & E4 & Hf4);
    rewrite ?(u32_small (off + m)) by lia; [lia|lia|lia| | |].
  { unfold needs in *. rewrite (proj2 (Z.eqb_neq (n - tot) 0)) in Hk by lia. destruct (Z.eqb_spec (n - (tot + m)) 0); [Z.div_mod_to_equations; lia|].
    assert (m = 1024 - off `mod` 1024) by lia. Z.div_mod_to_equations. lia. }
  { intros b Hb'. apply Hb. lia. }
  exists f4. split; [|done]. rewrite (u32_small (off + m)) in E4 by lia.
  eapply eval_bind; [exact E1|]. cbn beta. rewrite (proj2 (Z.eqb_neq a 0)) by lia.
  eapply eval_bind; [apply eval_gets|]. cbn beta. rewrite (get_inode_at _ _ _ _ _ _ Hf1 Hx), Hdev.
  eapply eval_bind; [exact E2|]. cbn beta. eapply eval_bind; [apply eval_gets|]. cbn beta. rewrite Hd.
  eapply eval_bind; [apply Hcopy|]. cbn beta. change (0 =? -1) with false. cbv iota.
  eapply eval_bind; [exact E3|]. cbn beta. replace (n - tot) with (m + (n - (tot + m))) by lia.
  pose proof (block_bytes_file V x off m Ho ltac:(change BSIZE with 1024; lia)) as Hbb. change BSIZE with 1024 in Hbb. fold a in Hbb.
  rewrite fbytes_app, app_assoc by lia. rewrite Hbb in E4 |- *. exact E4.
Qed.

(** The bytes a call reads: those before the end of the file. *)
Definition readable (x : inode) (off n : Z) : Z := Z.max 0 (Z.min n (i_size x - off)).

Lemma readi_local_spec f V sb l ip x off n : fstate f V sb l -> l !! ip = Some x -> i_dev x = dev ->
  0 <= off -> 0 <= n -> off + n < 2 ^ 32 -> 0 <= i_size x < 2 ^ 32 ->
  (forall b, off <= b < off + readable x off n -> has_block V x (b / 1024)) ->
  exists f', eval p pid [] (readi_local ip off n) [] f (readable x off n, fbytes V x off (readable x off n)) f' /\ fstate f' V sb l.
Proof.
  intros Hf Hx Hdev Ho Hn Hon Hs Hb. unfold readi_local, readi_with. pose proof (get_inode_at _ _ _ _ _ _ Hf Hx) as Ex.
  unfold readable in *. rewrite (u32_small (off + n)) by lia. rewrite (proj2 (Z.ltb_ge (off + n) off)) by lia.
  assert (0 <= Z.max 0 (Z.min n (i_size x - off))) by lia. set (m := Z.max 0 (Z.min n (i_size x - off))) in *.
  destruct (Z.gtb_spec off (i_size x)) as [Hgt|Hle].
  { exists f. replace m with 0 by lia. split; [|done]. eapply eval_bind; [apply eval_gets|]. cbn beta. rewrite Ex, orb_false_r.
    rewrite (proj2 (Z.gtb_lt off (i_size x))) by lia. apply eval_ret. }
  destruct (readi_loop_spec (fun _ _ => ret 0) V sb l ip x) with (k := io_fuel m) (dst := 0) (off := off) (n := m) (tot := 0)
    (acc := @nil Z) (f := f) as (f' & E & Hf'); try done; try lia.
  { intros. apply eval_ret. }
  { unfold needs, io_fuel. change BSIZE with 1024. pose proof (Z.mod_pos_bound off 1024). destruct (m - 0 =? 0); [lia|].
    rewrite Nat2Z.inj_add, Z2Nat.id by (apply Z.div_pos; lia). Z.div_mod_to_equations. lia. }
  { intros b Hb'. apply Hb. lia. }
  exists f'. split; [|done]. eapply eval_bind; [apply eval_gets|]. cbn beta. rewrite Ex, orb_false_r. rewrite (Z.gtb_ltb off), (proj2 (Z.ltb_ge (i_size x) off)) by lia.
  rewrite Z.sub_0_r in E. cbv zeta.
  replace (if off + n >? i_size x then u32 (i_size x - off) else n) with m; [exact E|].
  destruct (Z.gtb_spec (off + n) (i_size x)); [rewrite u32_small by lia; lia|lia].
Qed.

(** ** The inode table *)

Lemma alter_insert {A} (g : A -> A) (l : list A) i x : l !! i = Some x -> alter g i l = <[i := g x]> l.
Proof. revert i. induction l as [|y l IH]; intros [|i] E; try done; cbn in *; [by injection E as ->|]. by f_equal; apply IH. Qed.

Lemma fstate_set f V sb l ip x g : fstate f V sb l -> l !! ip = Some x -> fstate (upd_inode ip g f) V sb (<[ip := g x]> l).
Proof. intros H E. rewrite <- (alter_insert g l ip x E). by apply fstate_upd. Qed.

Lemma find_index_Some {A} (g : A -> bool) l : forall k i, find_index g l k = Some i ->
  (k <= i)%nat /\ exists x, l !! (i - k)%nat = Some x /\ g x = true.
Proof.
  induction l as [|y l IH]; intros k i E; [done|]. cbn in E. destruct (g y) eqn:Eg.
  - injection E as ->. split; [lia|]. exists y. by rewrite Nat.sub_diag.
  - destruct (IH _ _ E) as (Hle & x & Hx & Hg). split; [lia|]. exists x. by replace (i - k)%nat with (S (i - S k)) by lia.
Qed.

Lemma find_index_None {A} (g : A -> bool) l i x : forall k, l !! i = Some x -> g x = true -> find_index g l k <> None.
Proof.
  revert i. induction l as [|y l IH]; intros [|i] k Hx Hg; try done; cbn in *.
  - injection Hx as ->. by rewrite Hg.
  - destruct (g y); [done|]. by apply (IH i).
Qed.

(** iget() of inode [inum] returns entry [ip] and leaves the table [l']. *)
Definition gets_inode V sb l (inum : Z) (ip : nat) l' : Prop :=
  forall f, fstate f V sb l -> exists f', eval p pid [] (iget dev inum) [] f ip f' /\ fstate f' V sb l'.

(** A new entry of the table. *)
Definition fresh (d inum : Z) (x : inode) : inode := set_i_valid 0 (set_i_ref 1 (set_i_inum inum (set_i_dev d x))).

Lemma iget_miss V sb l inum ip x : find_index (in_table dev inum) l 0 = None ->
  find_index (fun x => i_ref x =? 0) l 0 = Some ip -> l !! ip = Some x ->
  gets_inode V sb l inum ip (<[ip := fresh dev inum x]> l).
Proof.
  intros H1 H2 Hx f Hf. pose proof (lookup_lt_Some _ _ _ Hx) as Hlt.
  assert (forall y, <[ip := y]> l !! ip = Some y) as Hi by (intros y; by apply list_lookup_insert_eq).
  eexists. split.
  { unfold iget. eapply eval_bind; [apply eval_acquire; [done|not_in]|]. cbn beta. eapply eval_bind; [apply eval_gets|]. cbn beta.
    rewrite (fst_inodes _ _ _ _ Hf), H1, H2. do 4 (eapply eval_bind; [apply eval_modify|]; cbn beta).
    eapply eval_bind; [apply eval_release; [done|not_in]|]. apply eval_ret. }
  pose proof (fstate_set _ _ _ _ _ _ (set_i_dev dev) Hf Hx) as Hf1.
  pose proof (fstate_set _ _ _ _ _ _ (set_i_inum inum) Hf1 (Hi _)) as Hf2. rewrite list_insert_insert_eq in Hf2.
  pose proof (fstate_set _ _ _ _ _ _ (set_i_ref 1) Hf2 (Hi _)) as Hf3. rewrite list_insert_insert_eq in Hf3.
  pose proof (fstate_set _ _ _ _ _ _ (set_i_valid 0) Hf3 (Hi _)) as Hf4. by rewrite list_insert_insert_eq in Hf4.
Qed.

Lemma iget_hit V sb l inum ip x : find_index (in_table dev inum) l 0 = Some ip -> l !! ip = Some x ->
  gets_inode V sb l inum ip (<[ip := set_i_ref (s32 (i_ref x + 1)) x]> l).
Proof.
  intros H1 Hx f Hf. eexists. split.
  { unfold iget. eapply eval_bind; [apply eval_acquire; [done|not_in]|]. cbn beta. eapply eval_bind; [apply eval_gets|]. cbn beta.
    rewrite (fst_inodes _ _ _ _ Hf), H1. eapply eval_bind; [apply eval_modify|]; cbn beta.
    eapply eval_bind; [apply eval_release; [done|not_in]|]. apply eval_ret. }
  exact (fstate_set _ _ _ _ _ _ (fun x => set_i_ref (s32 (i_ref x + 1)) x) Hf Hx).
Qed.

Definition lock_inode (x : inode) : inode := set_i_lock (locked_by pid (i_lock x)) x.
Definition unlock_inode (x : inode) : inode := set_i_lock (unlocked (i_lock x)) x.

(** The entry with the contents of its dinode. *)
Definition loaded (V : Z -> block) (sb : superblock) (x : inode) : inode :=
  set_i_valid 1 (get_dinode (V (IBLOCK (i_inum x) sb)) (dinode_off (i_inum x)) x).

Lemma ilock_spec f V sb l ip x : fstate f V sb l -> l !! ip = Some x -> (ip < NINODE)%nat ->
  1 <= i_ref x -> sl_locked (i_lock x) = false -> i_valid x = 0 -> i_dev x = dev -> 0 <= IBLOCK (i_inum x) sb < 2 ^ 31 ->
  let x' := loaded V sb (lock_inode x) in
  i_type x' <> 0 ->
  exists f', eval p pid [] (ilock ip) [] f tt f' /\ fstate f' V sb (<[ip := x']> l).
Proof.
  intros Hf Hx Hip Hr Hl Hv Hdev Hblk x' Ht. pose proof (lookup_lt_Some _ _ _ Hx) as Hlt.
  assert (forall y, <[ip := y]> l !! ip = Some y) as Hi by (intros y; by apply list_lookup_insert_eq).
  set (y := lock_inode x). assert (fstate (upd_slk (SL_inode ip) (locked_by pid) f) V sb (<[ip := y]> l)) as Hf1
    by exact (fstate_set _ _ _ _ _ _ (fun x => set_i_lock (locked_by pid (i_lock x)) x) Hf Hx).
  destruct (read_block _ V sb _ (IBLOCK (i_inum x) sb) Hf1 Hblk) as (i & f2 & E2 & Hd & Hs2 & Hl2 & H3).
  set (d := V (IBLOCK (i_inum x) sb)) in *. set (z := get_dinode d (dinode_off (i_inum x)) y).
  destruct (H3 (<[ip := z]> l)) as (f3 & E3 & Hf3).
  pose proof (fstate_set _ _ _ _ _ _ (set_i_valid 1) Hf3 (Hi _)) as Hf4. rewrite list_insert_insert_eq in Hf4.
  eexists. split; [|exact Hf4]. unfold ilock.
  eapply eval_bind; [apply eval_gets|]. cbn beta. rewrite (get_inode_at _ _ _ _ _ _ Hf Hx), (proj2 (Z.ltb_ge _ _)) by lia.
  eapply eval_bind; [apply eval_acquiresleep; [by apply Nat.ltb_lt|cbn; by rewrite (get_inode_at _ _ _ _ _ _ Hf Hx)]|]. cbn beta.
  eapply eval_bind; [apply eval_gets|]. cbn beta. rewrite (get_inode_at _ _ _ _ _ _ Hf1 (Hi _)). unfold id.
  change (i_valid y) with (i_valid x). rewrite Hv. cbn [Z.eqb].
  eapply eval_bind; [apply eval_gets|]. cbn beta. rewrite (fst_sb _ _ _ _ Hf1). change (i_dev y) with (i_dev x). rewrite Hdev.
  change (i_inum y) with (i_inum x). eapply eval_bind; [exact E2|]. cbn beta. eapply eval_bind; [apply eval_gets|]. cbn beta. rewrite Hd.
  eapply eval_bind; [apply eval_modify|]. cbn beta.
  assert (upd_inode ip (fun y => get_dinode d (dinode_off (i_inum x)) y) f2 = set_fs_inodes (<[ip := z]> l) f2) as Eu.
  { unfold upd_inode. rewrite Hl2, (alter_insert _ _ _ _ (Hi y)), list_insert_insert_eq. done. }
  rewrite Eu. eapply eval_bind; [exact E3|]. cbn beta. eapply eval_bind; [apply eval_modify|]. cbn beta.
  eapply eval_bind; [apply eval_gets|]. cbn beta. rewrite (get_inode_at _ _ _ _ _ _ Hf4 (Hi _)).
  change (i_type (set_i_valid 1 z)) with (i_type x'). rewrite (proj2 (Z.eqb_neq _ _) Ht). apply eval_ret.
Qed.

(** An entry nobody has locked, which agrees with its dinode if it was read. *)
Definition cached V sb (x : inode) : Prop := same_contents x (loaded V sb x).

Record entry_ok V sb (x : inode) : Prop := {
  en_unlocked : sl_locked (i_lock x) = false;
  en_ref : 0 <= i_ref x < 2 ^ 31 - 1;
  en_cached : 0 < i_ref x -> i_valid x <> 0 -> cached V sb x }.

(** [y] is the entry of inode [inum] with one more reference than [x]. *)
Record got V sb (inum : Z) (x y : inode) : Prop := {
  got_dev : i_dev y = dev;
  got_inum : i_inum y = inum;
  got_ref : i_ref y = i_ref x + 1;
  got_unlocked : sl_locked (i_lock y) = false;
  got_cached : i_valid y <> 0 -> cached V sb y }.

(** iget() finds the inode in the table or takes a free entry. *)
Lemma iget_total V sb l inum :
  (forall ip x, l !! ip = Some x -> i_ref x = 0 \/ in_table dev inum x = true -> entry_ok V sb x) ->
  (exists i x, l !! i = Some x /\ i_ref x = 0) ->
  exists ip x y, l !! ip = Some x /\ (i_ref x = 0 \/ in_table dev inum x = true) /\ entry_ok V sb x /\ got V sb inum x y /\
    gets_inode V sb l inum ip (<[ip := y]> l).
Proof.
  intros Hok (i0 & x0 & Hi0 & Hr0). destruct (find_index (in_table dev inum) l 0) as [ip|] eqn:E.
  - destruct (find_index_Some _ _ _ _ E) as (_ & x & Hx & Ht). rewrite Nat.sub_0_r in Hx.
    pose proof (Hok ip x Hx (or_intror Ht)) as Hen. pose proof Hen as [Hu Hr Hc]. exists ip, x, (set_i_ref (s32 (i_ref x + 1)) x).
    split; [done|]. split; [by right|]. split; [done|]. split; [|by apply iget_hit].
    unfold in_table in Ht. rewrite !andb_true_iff in Ht. destruct Ht as [[Ht1 Ht2] Ht3]. split; cbn; try lia; try done.
    + by rewrite s32_small by lia.
    + intros Hv. apply Hc; [lia|done].
  - destruct (find_index (fun x => i_ref x =? 0) l 0) as [ip|] eqn:E0; [|by destruct (find_index_None (fun x => i_ref x =? 0) l i0 x0 0 Hi0); [apply Z.eqb_eq|]].
    destruct (find_index_Some _ _ _ _ E0) as (_ & x & Hx & Ht%Z.eqb_eq). rewrite Nat.sub_0_r in Hx.
    pose proof (Hok ip x Hx (or_introl Ht)) as Hen. exists ip, x, (fresh dev inum x).
    split; [done|]. split; [by left|]. split; [done|]. split; [|by apply iget_miss].
    split; cbn; try done; [lia|]. apply Hen.
Qed.

(** ilock() of an entry that iget() returned. *)
Lemma ilock_got f V sb l ip inum x y : fstate f V sb l -> l !! ip = Some y -> (ip < NINODE)%nat ->
  got V sb inum x y -> 0 <= i_ref x -> 0 <= IBLOCK inum sb < 2 ^ 31 -> i_type (loaded V sb y) <> 0 ->
  exists z f', eval p pid [] (ilock ip) [] f tt f' /\ fstate f' V sb (<[ip := z]> l) /\ same_contents z (loaded V sb y) /\
    i_dev z = dev /\ i_inum z = inum /\ i_ref z = i_ref x + 1 /\ i_lock z = locked_by pid (i_lock y).
Proof.
  intros Hf Hy Hip [Hd Hn Hr Hu Hc] Hx Hb Ht. destruct (decide (i_valid y = 0)) as [Hv|Hv].
  - destruct (ilock_spec f V sb l ip y Hf Hy Hip) as (f' & E & Hf'); [lia|done|done|done|by rewrite Hn|exact Ht|].
    eexists _, f'. split; [exact E|]. split; [exact Hf'|]. by repeat split.
  - specialize (Hc Hv). eexists (lock_inode y), _. split; [|split; [exact (fstate_set _ _ _ _ _ _ lock_inode Hf Hy)|by repeat (split; [done|])]].
    unfold ilock. eapply eval_bind; [apply eval_gets|]. cbn beta. rewrite (get_inode_at _ _ _ _ _ _ Hf Hy), (proj2 (Z.ltb_ge _ _)) by lia.
    eapply eval_bind; [apply eval_acquiresleep; [by apply Nat.ltb_lt|cbn; by rewrite (get_inode_at _ _ _ _ _ _ Hf Hy)]|]. cbn beta.
    eapply eval_bind; [apply eval_gets|]. cbn beta.
    rewrite (get_inode_at _ V sb (<[ip := lock_inode y]> l) _ (lock_inode y)); [|exact (fstate_set _ _ _ _ _ _ lock_inode Hf Hy)|].
    + unfold id. change (i_valid (lock_inode y)) with (i_valid y). rewrite (proj2 (Z.eqb_neq _ _) Hv). apply eval_ret.
    + apply list_lookup_insert_eq. by eapply lookup_lt_Some.
Qed.

Lemma iunlock_spec f V sb l ip x : fstate f V sb l -> l !! ip = Some x -> (ip < NINODE)%nat ->
  1 <= i_ref x -> sl_locked (i_lock x) = true -> sl_pid (i_lock x) = pid ->
  exists f', eval p pid [] (iunlock ip) [] f tt f' /\ fstate f' V sb (<[ip := unlock_inode x]> l).
Proof.
  intros Hf Hx Hip Hr Hl Hp. pose proof (get_inode_at _ _ _ _ _ _ Hf Hx) as Ex. eexists. split.
  { unfold iunlock. eapply eval_bind; [apply eval_holdingsleep; by apply Nat.ltb_lt|]. cbn beta. cbn [get_slk]. rewrite Ex, Hl, Hp, Z.eqb_refl.
    cbn [andb negb]. eapply eval_bind; [apply eval_gets|]. cbn beta. rewrite Ex, (proj2 (Z.ltb_ge _ _)) by lia.
    apply eval_releasesleep. by apply Nat.ltb_lt. }
  exact (fstate_set _ _ _ _ _ _ (fun x => set_i_lock (unlocked (i_lock x)) x) Hf Hx).
Qed.

(** iput() of an inode with links. *)
Lemma iput_spec f V sb l ip x : fstate f V sb l -> l !! ip = Some x -> i_nlink x <> 0 ->
  exists f', eval p pid [] (iput ip) [] f tt f' /\ fstate f' V sb (<[ip := set_i_ref (s32 (i_ref x - 1)) x]> l).
Proof.
  intros Hf Hx Hn. pose proof (get_inode_at _ _ _ _ _ _ Hf Hx) as Ex. eexists. split.
  { unfold iput. eapply eval_bind; [apply eval_acquire; [done|not_in]|]. cbn beta. eapply eval_bind; [apply eval_gets|]. cbn beta.
    rewrite Ex. unfold id. rewrite (proj2 (Z.eqb_neq _ _) Hn), andb_false_r. eapply eval_bind; [apply eval_ret|]. cbn beta.
    eapply eval_bind; [apply eval_modify|]. cbn beta. apply eval_release; [done|not_in]. }
  exact (fstate_set _ _ _ _ _ _ (fun x => set_i_ref (s32 (i_ref x - 1)) x) Hf Hx).
Qed.

Lemma iunlockput_spec f V sb l ip x : fstate f V sb l -> l !! ip = Some x -> (ip < NINODE)%nat ->
  1 <= i_ref x -> sl_locked (i_lock x) = true -> sl_pid (i_lock x) = pid -> i_nlink x <> 0 ->
  exists f', eval p pid [] (iunlockput ip) [] f tt f' /\ fstate f' V sb (<[ip := set_i_ref (s32 (i_ref x - 1)) (unlock_inode x)]> l).
Proof.
  intros Hf Hx Hip Hr Hl Hp Hn. destruct (iunlock_spec _ _ _ _ _ _ Hf Hx Hip Hr Hl Hp) as (f1 & E1 & Hf1).
  pose proof (lookup_lt_Some _ _ _ Hx) as Hlt.
  destruct (iput_spec f1 V sb _ ip (unlock_inode x) Hf1) as (f2 & E2 & Hf2); [by apply list_lookup_insert_eq|done|].
  rewrite list_insert_insert_eq in Hf2. exists f2. split; [|done]. eapply eval_bind; [exact E1|]. exact E2.
Qed.

(** A table of such entries with two to spare. *)
Record table_ok V sb l : Prop := {
  tb_length : length l = NINODE;
  tb_entry : forall ip x, l !! ip = Some x -> entry_ok V sb x;
  tb_room : exists a b x y, a <> b /\ l !! a = Some x /\ l !! b = Some y /\ i_ref x = 0 /\ i_ref y = 0 }.

Lemma table_put V sb l ip x x' : table_ok V sb l -> l !! ip = Some x -> entry_ok V sb x' -> i_ref x' = i_ref x ->
  table_ok V sb (<[ip := x']> l).
Proof.
  intros [Hl He (a & b & y & z & Hne & Ha & Hb & Hy & Hz)] Hx Hx' Hr. pose proof (lookup_lt_Some _ _ _ Hx) as Hlt.
  assert (forall c w, l !! c = Some w -> i_ref w = 0 -> exists w', <[ip := x']> l !! c = Some w' /\ i_ref w' = 0) as Hc.
  { intros c w Hc Hw. destruct (decide (ip = c)) as [<-|Hne']; [|exists w; by rewrite list_lookup_insert_ne].
    exists x'. rewrite list_lookup_insert_eq by done. split; [done|]. rewrite Hr. congruence. }
  split; [by rewrite length_insert| |].
  - intros c w. destruct (decide (ip = c)) as [<-|Hne']; [rewrite list_lookup_insert_eq by done; by intros [= <-]|].
    rewrite list_lookup_insert_ne by done. apply He.
  - destruct (Hc a y Ha Hy) as (y' & ? & ?), (Hc b z Hb Hz) as (z' & ? & ?). by exists a, b, y', z'.
Qed.

(** iunlockput() of an inode that was got and locked. *)
Lemma release_entry f V sb l ip x y z : fstate f V sb l -> l !! ip = Some z -> (ip < NINODE)%nat ->
  entry_ok V sb x -> i_ref z = i_ref x + 1 -> i_lock z = locked_by pid (i_lock y) -> i_inum z = i_inum y ->
  same_contents z (loaded V sb y) -> i_nlink (loaded V sb y) <> 0 ->
  exists x' f', eval p pid [] (iunlockput ip) [] f tt f' /\ fstate f' V sb (<[ip := x']> l) /\ entry_ok V sb x' /\ i_ref x' = i_ref x.
Proof.
  intros Hf Hz Hip [Hu Hr Hc] Hrz Hlz Hnz Hs Hl. assert (i_nlink z = i_nlink (loaded V sb y)) as El by (by destruct Hs as (_ & _ & _ & -> & _)).
  destruct (iunlockput_spec f V sb l ip z Hf Hz Hip) as (f' & E & Hf'); [lia|by rewrite Hlz|by rewrite Hlz|by rewrite El|].
  exists (set_i_ref (s32 (i_ref z - 1)) (unlock_inode z)), f'. split; [exact E|]. split; [exact Hf'|].
  assert (s32 (i_ref z - 1) = i_ref x) as Es by (rewrite s32_small by lia; lia). rewrite Es. split; [|done]. split; [done|done|].
  intros _ _. unfold cached, same_contents, loaded in *. cbn in *. by rewrite Hnz.
Qed.

(** ** Directories *)

(** The entries of directory [x] before number [idx] do not match the name, and
    that entry does; [E k] are the 16 bytes of entry [k]. *)
Record found_at (V : Z -> block) (x : inode) (E : nat -> list Z) (name : cptr) (idx : nat) : Prop := {
  fa_bytes : forall k, (k <= idx)%nat -> fbytes V x (16 * Z.of_nat k) 16 = E k;
  fa_blocks : forall b, 0 <= b < 16 * (Z.of_nat idx + 1) -> has_block V x (b / 1024);
  fa_skip : forall k, (k < idx)%nat -> de_inum (E k) = 0 \/ namecmp name (in_buf (de_name (E k))) <> 0;
  fa_inum : de_inum (E idx) <> 0;
  fa_match : namecmp name (in_buf (de_name (E idx))) = 0;
  fa_size : 16 * (Z.of_nat idx + 1) <= i_size x < 2 ^ 31 }.

Lemma dirlookup_loop_spec V sb l l' dp x E name idx ip : found_at V x E name idx -> l !! dp = Some x -> i_dev x = dev ->
  gets_inode V sb l (de_inum (E idx)) ip l' ->
  forall m k n f, (idx - k = m)%nat -> (k <= idx)%nat -> (m < n)%nat -> fstate f V sb l ->
  exists f', eval p pid [] (dirlookup_loop n dp name (16 * Z.of_nat k)) [] f (Some (ip, 16 * Z.of_nat idx)) f' /\
    fstate f' V sb l'.
Proof.
  intros [Hbytes Hblk Hskip Hinum Hmatch Hsize] Hx Hdev Hget. induction m as [|m IH]; intros k n f Em Hk Hn Hf.
  all: destruct n as [|n]; [lia|]; cbn [dirlookup_loop].
  all: assert (readable x (16 * Z.of_nat k) sizeof_dirent = 16) as Hr by (unfold readable, sizeof_dirent; lia).
  all: destruct (readi_local_spec f V sb l dp x (16 * Z.of_nat k) sizeof_dirent Hf Hx Hdev) as (f1 & E1 & Hf1');
    [lia|unfold sizeof_dirent; lia|unfold sizeof_dirent; lia|lia|rewrite Hr; intros b Hb; apply Hblk; lia|];
    rewrite Hr, Hbytes in E1 by lia.
  - assert (k = idx) as -> by lia. destruct (Hget f1 Hf1') as (f2 & E2 & Hf2'). exists f2. split; [|done].
    eapply eval_bind; [apply eval_gets|]. cbn beta. rewrite (get_inode_at _ _ _ _ _ _ Hf Hx), (proj2 (Z.ltb_lt _ (i_size x))) by lia. cbn [negb].
    eapply eval_bind; [exact E1|]. cbn beta. cbn [fst snd]. change (16 =? sizeof_dirent) with true. cbn [negb].
    rewrite (proj2 (Z.eqb_neq _ 0) Hinum), Hmatch. cbn [Z.eqb]. eapply eval_bind; [apply eval_gets|]. cbn beta.
    rewrite (get_inode_at _ _ _ _ _ _ Hf1' Hx), Hdev. eapply eval_bind; [exact E2|]. apply eval_ret.
  - destruct (IH (S k) n f1 ltac:(lia) ltac:(lia) ltac:(lia) Hf1') as (f2 & E2 & Hf2'). exists f2. split; [|done].
    replace (16 * Z.of_nat (S k)) with (u32 (16 * Z.of_nat k + sizeof_dirent)) in E2
      by (unfold sizeof_dirent; rewrite u32_small by lia; lia).
    eapply eval_bind; [apply eval_gets|]. cbn beta. rewrite (get_inode_at _ _ _ _ _ _ Hf Hx), (proj2 (Z.ltb_lt _ (i_size x))) by lia. cbn [negb].
    eapply eval_bind; [exact E1|]. cbn beta. cbn [fst snd]. change (16 =? sizeof_dirent) with true. cbn [negb].
    destruct (Hskip k ltac:(lia)) as [H0|H0]; [rewrite H0; exact E2|].
    rewrite (proj2 (Z.eqb_neq (namecmp _ _) 0) H0). destruct (_ =? 0); exact E2.
Qed.

Lemma dirlookup_spec V sb l l' dp x E name idx ip f : found_at V x E name idx -> l !! dp = Some x -> i_dev x = dev -> i_type x = T_DIR ->
  gets_inode V sb l (de_inum (E idx)) ip l' ->
  fstate f V sb l ->
  exists f', eval p pid [] (dirlookup dp name) [] f (Some (ip, 16 * Z.of_nat idx)) f' /\
    fstate f' V sb l'.
Proof.
  intros Hfa Hx Hdev Ht Hget Hf.
  destruct (dirlookup_loop_spec V sb l l' dp x E name idx ip Hfa Hx Hdev Hget idx 0 (dir_fuel (i_size x)) f) as (f' & Ev & Hf'); [lia|lia| |done|].
  { pose proof (fa_size _ _ _ _ _ Hfa). unfold dir_fuel, sizeof_dirent.
    assert (Z.of_nat idx <= i_size x / 16) by (apply Z.div_le_lower_bound; lia). lia. }
  exists f'. split; [|done]. unfold dirlookup. eapply eval_bind; [apply eval_gets|]. cbn beta. rewrite (get_inode_at _ _ _ _ _ _ Hf Hx).
  unfold id. rewrite Ht. change (T_DIR =? T_DIR) with true. cbn [negb]. exact Ev.
Qed.
End Read.
