(* ===== verification/MkfsKernel.v ===== *)
(** The kernel on an image of mkfs: namei(), ilock() and readi() find each file by its
    name in the root directory and read the bytes that mkfs copied. *)
From S2P Require Import Prelude Riscv Machine Spinlock KString Kalloc Vm UserMem Sched Keeps FsIface File Proc.
From S2P Require Import FsState Quiet Sleeplock Bio BioSpec Log LogSpec BlockSpec Console Fs FsFormat Mkfs MkfsSpec MkfsImage FsRead.

Local Opaque ld st.

(** ** Names *)

(** A name as namex() passes it to dirlookup(), and in a directory entry. *)
Definition name_ok (nm : list Z) : Prop := Forall (fun c => 0 < c < 256 /\ c <> slash) nm.

Lemma skipelem_name nm : name_ok nm -> (0 < length nm < DIRSIZ)%nat ->
  skipelem (slash :: nm) (replicate DIRSIZ 0) = Some ([], nm ++ [0] ++ drop (S (length nm)) (replicate DIRSIZ 0)).
Proof.
  intros Hn Hl. assert (path_elem nm = (nm, [])) as Hpe.
  { clear Hl. induction Hn as [|c nm [Hc Hs] _ IH]; [done|]. cbn. rewrite (proj2 (Z.eqb_neq c slash)), (proj2 (Z.eqb_neq c 0)) by lia.
    cbn [orb]. by rewrite IH. }
  unfold skipelem. destruct nm as [|c nm]; [cbn in Hl; lia|]. apply Forall_cons in Hn as [[Hc Hs] _].
  cbn [skip_slashes]. change (slash =? slash) with true. cbv iota. rewrite (proj2 (Z.eqb_neq c slash)) by done.
  cbn [at_end]. rewrite (proj2 (Z.eqb_neq c 0)) by lia. rewrite Hpe. rewrite (proj2 (Nat.ltb_lt _ _)) by lia. done.
Qed.

Lemma in_buf_range l i : Forall (fun c => 0 <= c < 256) l -> 0 <= in_buf l i < 256.
Proof.
  intros H. unfold in_buf. rewrite nth_lookup. destruct (l !! i) as [c|] eqn:E; cbn; [|lia]. rewrite Forall_lookup in H. by eapply H.
Qed.

Lemma in_buf_l (l r : list Z) i : (i < length l)%nat -> in_buf (l ++ r) i = nth i l 0.
Proof. intros H. unfold in_buf. by apply app_nth1. Qed.

Lemma name_bytes nm : name_ok nm -> Forall (fun c => 0 <= c < 256) nm.
Proof. intros H. eapply Forall_impl; [exact H|]. cbn. lia. Qed.

Lemma name_nonzero nm i : name_ok nm -> (i < length nm)%nat -> nth i nm 0 <> 0.
Proof.
  intros H Hi. rewrite nth_lookup. destruct (nm !! i) as [c|] eqn:E; [|apply lookup_ge_None in E; lia].
  unfold name_ok in H. rewrite Forall_lookup in H. specialize (H i c E). cbn in *. lia.
Qed.

(** The name field of an entry. *)
Definition name_field (t : list Z) : list Z := take DIRSIZ t ++ replicate (DIRSIZ - length (take DIRSIZ t)) 0.

Lemma name_field_nth t i : (i < DIRSIZ)%nat -> nth i (name_field t) 0 = nth i t 0.
Proof.
  intros Hi. unfold name_field. destruct (decide (i < length t)%nat) as [Hlt|Hge].
  - rewrite app_nth1 by (rewrite length_take; lia). rewrite !nth_lookup, lookup_take_lt by done. done.
  - rewrite app_nth2 by (rewrite length_take; lia). rewrite (nth_overflow t) by lia. rewrite nth_lookup.
    destruct (replicate _ 0 !! _) as [v|] eqn:E; [|done]. by apply lookup_replicate in E as [-> _].
Qed.

Lemma namecmp_entry nm t r : name_ok nm -> name_ok t -> (length nm < DIRSIZ)%nat -> Forall (fun c => 0 <= c < 256) r ->
  namecmp (in_buf (nm ++ [0] ++ r)) (in_buf (name_field t)) = 0 <-> t = nm.
Proof.
  intros Hn Ht Hl Hr. unfold namecmp. rewrite strncmp_zero.
  2: { intros i. split; apply in_buf_range; [apply Forall_app; split; [by apply name_bytes|apply Forall_app; split; [repeat constructor; lia|done]]|].
       unfold name_field. apply Forall_app. split; [by apply Forall_take, name_bytes|apply Forall_replicate; lia]. }
  assert (in_buf (nm ++ [0] ++ r) (length nm) = 0) as Hend by (unfold in_buf; rewrite app_nth2, Nat.sub_diag by lia; done).
  split.
  - intros H. assert (forall i, (i <= length nm)%nat -> nth i t 0 = nth i nm 0) as Hag.
    { intros i Hi. rewrite <- (name_field_nth t i) by lia. change (nth i (name_field t) 0) with (in_buf (name_field t) i). rewrite <- H.
      - destruct (decide (i = length nm)) as [->|Hne]; [rewrite Hend; symmetry; apply nth_overflow; lia|]. apply in_buf_l. lia.
      - lia.
      - intros j Hj. rewrite in_buf_l by lia. apply name_nonzero; [done|lia]. }
    assert (length t = length nm) as El.
    { destruct (Nat.lt_trichotomy (length t) (length nm)) as [Hlt|[?|Hgt]]; [|done|].
      - pose proof (Hag (length t) ltac:(lia)) as E. rewrite nth_overflow in E by lia. by destruct (name_nonzero nm (length t) Hn Hlt).
      - pose proof (Hag (length nm) ltac:(lia)) as E. rewrite (nth_overflow nm) in E by lia. by destruct (name_nonzero t (length nm) Ht Hgt). }
    apply (nth_ext _ _ 0 0); [done|]. intros i Hi. apply Hag. lia.
  - intros -> i Hi Hj. destruct (decide (i < length nm)%nat) as [Hlt|Hge].
    + rewrite in_buf_l by done. unfold in_buf. by rewrite name_field_nth by lia.
    + destruct (decide (i = length nm)) as [->|Hne]; [|destruct (Hj (length nm)); [lia|done]].
      rewrite Hend. unfold in_buf. rewrite name_field_nth by lia. symmetry. apply nth_overflow. lia.
Qed.

(** ** The root directory *)

Lemma mk_dirent_inum n t : 0 <= n < 2 ^ 16 -> de_inum (mk_dirent n t) = n.
Proof.
  intros Hn. unfold mk_dirent, dirent. rewrite xshort_u16. unfold u16. rewrite Z.mod_small by done. cbn [le_bytes app nth].
  unfold u8. rewrite (Z.mod_small (n / 2 ^ 8)) by (Z.div_mod_to_equations; lia). pose proof (Z.div_mod n (2 ^ 8) ltac:(lia)). lia.
Qed.

Lemma mk_dirent_name n t : de_name (mk_dirent n t) = name_field t.
Proof. done. Qed.

Lemma length_mk_dirent n t : length (mk_dirent n t) = 16%nat.
Proof. pose proof (size_mk_dirent n t) as H. unfold size in H. lia. Qed.

Lemma entries_at files : forall n i f, files !! i = Some f ->
  take 16 (drop (16 * i) (entries n files)) = mk_dirent (n + Z.of_nat i) (file_name f).
Proof.
  induction files as [|g files IH]; intros n [|i] f Hf; try done; cbn [entries].
  - injection Hf as ->. rewrite Z.add_0_r. apply take_app_length'. by rewrite length_mk_dirent.
  - rewrite drop_app_ge by (rewrite length_mk_dirent; lia). rewrite length_mk_dirent.
    replace (16 * S i - 16)%nat with (16 * i)%nat by lia. rewrite (IH (n + 1) i f Hf). f_equal. lia.
Qed.

(** Entry [k] of the root directory. *)
Definition root_entry (files : list hostfile) (k : nat) : list Z := take 16 (drop (16 * k) (root_dir files)).

Lemma root_entry_dot files : root_entry files 0 = mk_dirent 1 (bytes ".").
Proof. unfold root_entry, root_dir. apply take_app_length'. by rewrite length_mk_dirent. Qed.

Lemma root_entry_dotdot files : root_entry files 1 = mk_dirent 1 (bytes "..").
Proof.
  unfold root_entry, root_dir. rewrite drop_app_ge by (rewrite length_mk_dirent; lia). rewrite length_mk_dirent.
  apply take_app_length'. by rewrite length_mk_dirent.
Qed.

Lemma root_entry_file files i f : files !! i = Some f ->
  root_entry files (2 + i) = mk_dirent (2 + Z.of_nat i) (file_name f).
Proof.
  intros Hf. unfold root_entry, root_dir. rewrite !drop_app_ge by (rewrite ?length_mk_dirent; lia). rewrite !length_mk_dirent.
  replace (16 * (2 + i) - 16 - 16)%nat with (16 * i)%nat by lia. by apply entries_at.
Qed.

(** ** Bytes *)

Lemma bytes_slice (g : Z -> Z) (l : list Z) off n : 0 <= off -> 0 <= n -> off + n <= size l ->
  (forall o, 0 <= o < size l -> g o = byte l o) ->
  map (fun i => g (off + i)) (seqZ 0 n) = take (Z.to_nat n) (drop (Z.to_nat off) l).
Proof.
  intros Ho Hn Hl Hg. unfold size in *. apply (list_eq_same_length _ _ (Z.to_nat n)).
  - change (map ?h ?k) with (h <$> k). rewrite length_take, length_drop. lia.
  - change (map ?h ?k) with (h <$> k). by rewrite length_fmap, length_seqZ.
  - intros i a b Hi. change (map ?h ?k) with (h <$> k). rewrite list_lookup_fmap, lookup_seqZ_lt by lia. cbn.
    rewrite lookup_take_lt, lookup_drop by done. intros [= <-] Hb. rewrite Hg by lia. unfold byte.
    rewrite nth_lookup. replace (Z.to_nat (off + (0 + Z.of_nat i))) with (Z.to_nat off + i)%nat by lia. by rewrite Hb.
Qed.

(** ** The inodes of the image *)

Section Image.
Context (files : list hostfile) (img : gmap Z block).
Let n := 2 + Z.of_nat (length files).
Let F := built_files files.
Context (Hlen : Z.of_nat (length files) <= 198).
Context (Hi : forall j, 1 <= j < n -> i_type (rd img j) = built_types files j /\ i_nlink (rd img j) = 1 /\
  i_size (rd img j) = if j =? 1 then (size (root_dir files) / 1024 + 1) * 1024 else size (F j)).
Context (Hok : slots_ok n (fun j => nslots (size (F j))) (rd img) img (used_blocks files)).
Context (HF : contents n (fun j => nslots (size (F j))) (rd img) img F).

Lemma image_block j k : 1 <= j < n -> 0 <= k -> k * 1024 < size (F j) -> 0 < file_block img j k < 2 ^ 31.
Proof.
  intros Hj Hk Hs. destruct (HF j Hj) as (_ & Hmax & _). pose proof (slot_in k _ Hk Hs) as Hsl.
  rewrite (file_block_ptr _ _ _ _ j k Hok Hj ltac:(lia) Hsl).
  assert (0 <= slot_of k) by (unfold slot_of; case_match; lia).
  destruct (ptr_bounds _ _ _ _ _ j (slot_of k) Hok Hj ltac:(lia)) as [H1 H2]. rewrite nmeta_46 in H1. change FSSIZE with 2000 in H2. lia.
Qed.

Lemma image_has_block x j k : i_addrs x = i_addrs (rd img j) -> 1 <= j < n -> 0 <= k -> k * 1024 < size (F j) ->
  has_block (sec img) x k.
Proof.
  intros Hx Hj Hk Hs. destruct (HF j Hj) as (_ & Hmax & _).
  assert (iblock (sec img) x k = file_block img j k) as Eb by (unfold iblock, file_block, addr; by rewrite Hx).
  split; [change MAXFILE with 268; lia|]. split; [rewrite Eb; by apply image_block|]. intros Hge. change NDIRECT with 12 in Hge.
  assert (addr 12 x = ptr (rd img) img j 12) as -> by (rewrite ptr_12; unfold addr; by rewrite Hx).
  pose proof (slot_in k _ Hk Hs) as Hsl. unfold slot_of in Hsl. rewrite (proj2 (Z.ltb_ge k 12)) in Hsl by lia.
  destruct (ptr_bounds _ _ _ _ _ j 12 Hok Hj ltac:(lia)) as [H1 H2]. rewrite nmeta_46 in H1. change FSSIZE with 2000 in H2. lia.
Qed.

Lemma image_bytes x j off m : i_addrs x = i_addrs (rd img j) -> 1 <= j < n -> 0 <= off -> 0 <= m -> off + m <= size (F j) ->
  fbytes (sec img) x off m = take (Z.to_nat m) (drop (Z.to_nat off) (F j)).
Proof.
  intros Hx Hj Ho Hm Hs. apply bytes_slice; [done|done|done|]. intros o Ho'.
  rewrite <- (contents_byte _ _ _ _ j o Hok HF Hj Ho'). unfold fbyte, file_byte, iblock, file_block, addr. by rewrite Hx.
Qed.

Lemma image_root : F 1 = root_dir files.
Proof. unfold F, built_files. by rewrite built_root by lia. Qed.

(** The entry of a file in the root directory, whose inode is [x]. *)
Lemma image_found x i f nm r : same_contents x (rd img 1) -> files !! i = Some f -> file_name f = nm ->
  Forall (fun g => name_ok (file_name g)) files -> (length nm < DIRSIZ)%nat -> nm <> bytes "." -> nm <> bytes ".." ->
  (forall k g, (k < i)%nat -> files !! k = Some g -> file_name g <> nm) -> Forall (fun c => 0 <= c < 256) r ->
  found_at (sec img) x (root_entry files) (in_buf (nm ++ [0] ++ r)) (2 + i).
Proof.
  intros (_ & _ & _ & _ & Es & Ea) Hf En Hnames Hnl Hdot Hdots Hfirst Hr. pose proof (lookup_lt_Some _ _ _ Hf) as Hlt.
  pose proof (size_root_dir files) as Hsz. destruct (Hi 1 ltac:(lia)) as (_ & _ & Hs). rewrite Z.eqb_refl in Hs.
  assert (forall k g, files !! k = Some g -> name_ok (file_name g)) as Hnm by (rewrite Forall_lookup in Hnames; exact Hnames).
  assert (forall t j, name_ok t -> namecmp (in_buf (nm ++ [0] ++ r)) (in_buf (de_name (mk_dirent j t))) = 0 <-> t = nm) as Hcmp.
  { intros t j Ht. rewrite mk_dirent_name. apply namecmp_entry; try done. rewrite <- En. by eapply Hnm. }
  split.
  - intros k Hk. rewrite (image_bytes x 1) by (done || rewrite ?image_root; lia). rewrite image_root. unfold root_entry. do 2 f_equal. lia.
  - intros b Hb. apply (image_has_block x 1); [done|lia|Z.div_mod_to_equations; lia|rewrite image_root; Z.div_mod_to_equations; lia].
  - intros [|[|k]] Hk; right.
    + rewrite root_entry_dot, Hcmp; [congruence|]. repeat constructor; done.
    + rewrite root_entry_dotdot, Hcmp; [congruence|]. repeat constructor; done.
    + destruct (lookup_lt_is_Some_2 files k) as [g Hg]; [lia|]. change (S (S k)) with (2 + k)%nat. rewrite (root_entry_file files k g Hg), Hcmp; [|by eapply Hnm].
      apply (Hfirst k); [lia|done].
  - rewrite (root_entry_file files i f Hf), mk_dirent_inum by lia. lia.
  - rewrite (root_entry_file files i f Hf), Hcmp; [done|by eapply Hnm].
  - rewrite <- Es, Hs. Z.div_mod_to_equations. lia.
Qed.
End Image.

(** ** The kernel *)

(** What exec() and open() followed by read() do with a path. *)
Definition read_path `{L : Layout} `{Fuel0 : Fuel} `{World0 : World} `{Dev : BlockDev} (path : list Z) (off m : Z) :
    K (kstate fsys) (option (Z * list Z)) :=
  ip <- namei path ;;
  match ip with
  | None => ret None
  | Some ip => ilock ip ;; r <- readi_local ip off m ;; iunlockput ip ;; ret (Some r)
  end.

Section Kernel.
Context `{L : Layout} `{Fuel0 : Fuel} `{World0 : World} `{Dev : BlockDev} `{!BlockDevOk Dev} (p : nat) (pid : Z).
Context (files : list hostfile) (img : gmap Z block).
Let n := 2 + Z.of_nat (length files).
Let F := built_files files.
Context (Hlen : Z.of_nat (length files) <= 198).
Context (Hi : forall j, 1 <= j < n -> i_type (rd img j) = built_types files j /\ i_nlink (rd img j) = 1 /\
  i_size (rd img j) = if j =? 1 then (size (root_dir files) / 1024 + 1) * 1024 else size (F j)).
Context (Hok : slots_ok n (fun j => nslots (size (F j))) (rd img) img (used_blocks files)).
Context (HF : contents n (fun j => nslots (size (F j))) (rd img) img F).

Context (i : nat) (g : hostfile) (nm : list Z) (Hg : files !! i = Some g) (En : file_name g = nm).
Context (Hnames : Forall (fun g => name_ok (file_name g)) files).
Context (Hnl : (0 < length nm < DIRSIZ)%nat) (Hdot : nm <> bytes ".") (Hdots : nm <> bytes "..").
Context (Hfirst : forall k g, (k < i)%nat -> files !! k = Some g -> file_name g <> nm).

Let V := sec img.
Let j := 2 + Z.of_nat i.

Lemma loaded_rd x k : i_inum x = k -> same_contents (rd img k) (loaded V mkfs_sb x).
Proof. by intros <-. Qed.

Lemma same_trans x y z : same_contents x y -> same_contents y z -> same_contents x z.
Proof. unfold same_contents. intros (-> & -> & -> & -> & -> & ->). done. Qed.

Lemma same_sym x y : same_contents x y -> same_contents y x.
Proof. unfold same_contents. intros (-> & -> & -> & -> & -> & ->). done. Qed.

Lemma image_j : 1 <= j < n.
Proof. pose proof (lookup_lt_Some _ _ _ Hg). unfold j, n. lia. Qed.

Lemma inode_block_range k : 1 <= k < n -> 0 <= IBLOCK k mkfs_sb < 2 ^ 31.
Proof. intros Hk. pose proof (IBLOCK_low k). unfold n in *. lia. Qed.

Lemma namei_mkfs f l : fstate ROOTDEV f V mkfs_sb l -> table_ok V mkfs_sb l ->
  exists ip x y l' f', eval p pid [] (namei (slash :: nm)) [] f (Some ip) f' /\
    fstate ROOTDEV f' V mkfs_sb (<[ip := y]> l') /\ table_ok V mkfs_sb l' /\ l' !! ip = Some x /\ got ROOTDEV V mkfs_sb j x y.
Proof.
  intros Hf Ht. pose proof Ht as [Hl He (a & b & xa & xb & Hab & Ha & Hb & Hra & Hrb)]. pose proof image_j as Hj.
  destruct (iget_total ROOTDEV p pid V mkfs_sb l ROOTINO) as (r & x & x1 & Hr & Hrf & Hex & Hgot & Hget).
  { intros ip x Hx _. by eapply He. }
  { by exists a, xa. }
  pose proof (lookup_lt_Some _ _ _ Hr) as Hrl. destruct (Hget f Hf) as (f1 & E1 & Hf1).
  destruct (Hi 1 ltac:(lia)) as (Hty & Hli & _). pose proof (loaded_rd x1 1 (got_inum _ _ _ _ _ _ Hgot)) as Hld.
  assert (i_type (loaded V mkfs_sb x1) = T_DIR) as Hdir by (destruct Hld as (-> & _); rewrite Hty; unfold built_types; by rewrite types_other by lia).
  destruct (ilock_got ROOTDEV p pid f1 V mkfs_sb _ r ROOTINO x x1 Hf1) as (x2 & f2 & E2 & Hf2 & Hs2 & Hd2 & Hn2 & Hr2 & Hl2);
    [by apply list_lookup_insert_eq|lia|done|apply Hex|apply (inode_block_range 1); lia|by rewrite Hdir|].
  rewrite list_insert_insert_eq in Hf2. set (l2 := <[r := x2]> l) in *.
  assert (l2 !! r = Some x2) as Hx2 by (by apply list_lookup_insert_eq).
  assert (forall k z, l2 !! k = Some z -> i_ref z = 0 \/ in_table ROOTDEV j z = true -> k <> r /\ l !! k = Some z) as Hother.
  { intros k z Hk Hz. destruct (decide (k = r)) as [->|Hne]; [|split; [done|]; unfold l2 in Hk; by rewrite list_lookup_insert_ne in Hk].
    rewrite Hx2 in Hk. injection Hk as <-. pose proof (en_ref _ _ _ Hex). destruct Hz as [Hz|Hz]; [lia|].
    unfold in_table in Hz. rewrite !andb_true_iff in Hz. destruct Hz as [_ Hz%Z.eqb_eq]. unfold j in *. lia. }
  destruct (iget_total ROOTDEV p pid V mkfs_sb l2 j) as (ip & y & y' & Hy & Hyf & Hey & Hgoty & Hgety).
  { intros k z Hk Hz. destruct (Hother k z Hk Hz) as [_ Hk']. by eapply He. }
  { destruct (decide (a = r)) as [->|Hne]; [exists b, xb|exists a, xa]; unfold l2; by rewrite list_lookup_insert_ne. }
  destruct (Hother ip y Hy Hyf) as [Hne Hy']. pose proof (lookup_lt_Some _ _ _ Hy') as Hipl.
  set (name := drop (S (length nm)) (replicate DIRSIZ 0)).
  assert (Forall (fun c => 0 <= c < 256) name) as Hname by (apply Forall_drop, Forall_replicate; lia).
  assert (same_contents x2 (rd img 1)) as Hsame by (eapply same_trans; [exact Hs2|by apply same_sym]).
  pose proof (image_found files img Hlen Hi Hok HF x2 i g nm name Hsame Hg En Hnames ltac:(lia) Hdot Hdots Hfirst Hname) as Hfound.
  assert (de_inum (root_entry files (2 + i)) = j) as Einum by (rewrite (root_entry_file files i g Hg), mk_dirent_inum by (unfold j, n in *; lia); done).
  destruct (dirlookup_spec ROOTDEV p pid V mkfs_sb l2 (<[ip := y']> l2) r x2 _ _ _ ip f2 Hfound Hx2 Hd2) as (f3 & E3 & Hf3);
    [by destruct Hs2 as (<- & _)|by rewrite Einum|exact Hf2|].
  destruct (release_entry ROOTDEV p pid f3 V mkfs_sb _ r x x1 x2 Hf3) as (x' & f4 & E4 & Hf4 & Hex' & Hrx');
    [by rewrite list_lookup_insert_ne|lia|done|done|done|by rewrite Hn2, (got_inum _ _ _ _ _ _ Hgot)|done|by destruct Hld as (_ & _ & _ & -> & _); rewrite Hli|].
  rewrite list_insert_insert_ne in Hf4 by done. unfold l2 in Hf4. rewrite list_insert_insert_eq in Hf4.
  exists ip, y, y', (<[r := x']> l), f4. split; [|split; [done|split; [by eapply table_put|split; [by rewrite list_lookup_insert_ne|done]]]].
  unfold namei, namex. cbn [nth]. change (slash =? slash) with true. cbv iota. cbn [length].
  eapply (eval_bind _ _ _ _ _ _ _ _ (Some ip, nm ++ [0] ++ name) f4); [|apply eval_ret].
  eapply eval_bind; [exact E1|]. cbn beta. cbn [namex_loop].
  rewrite (skipelem_name nm) by (done || (rewrite <- En; rewrite Forall_lookup in Hnames; by eapply Hnames)). fold name.
  eapply eval_bind; [exact E2|]. cbn beta. eapply eval_bind; [apply eval_gets|]. cbn beta.
  rewrite (get_inode_at _ _ _ _ _ _ _ Hf2 Hx2). replace (i_type x2) with T_DIR by (destruct Hs2 as (<- & _); done).
  change (negb (T_DIR =? T_DIR)) with false. cbn [andb]. eapply eval_bind; [exact E3|]. cbn beta iota.
  eapply eval_bind; [exact E4|]. apply eval_ret.
Qed.

(** The file's bytes. *)
Lemma read_mkfs f l off m : fstate ROOTDEV f V mkfs_sb l -> table_ok V mkfs_sb l -> 0 <= off -> 0 <= m -> off + m < 2 ^ 32 ->
  let bs := take (Z.to_nat m) (drop (Z.to_nat off) (concat (snd g))) in
  exists l' f', eval p pid [] (read_path (slash :: nm) off m) [] f (Some (size bs, bs)) f' /\
    fstate ROOTDEV f' V mkfs_sb l' /\ table_ok V mkfs_sb l'.
Proof.
  intros Hf Ht Ho Hm Hom bs. pose proof image_j as Hj. destruct (namei_mkfs f l Hf Ht) as (ip & x & y & l1 & f1 & E1 & Hf1 & Ht1 & Hx & Hgot).
  pose proof (lookup_lt_Some _ _ _ Hx) as Hlt. rewrite (tb_length _ _ _ Ht1) in Hlt. pose proof (tb_entry _ _ _ Ht1 ip x Hx) as Hex.
  assert (F j = concat (snd g)) as HFj by (by apply built_file). destruct (Hi j Hj) as (Hty & Hli & Hsz).
  assert (j <> 1) as Hj1 by (unfold j; lia). rewrite (proj2 (Z.eqb_neq j 1) Hj1), HFj in Hsz.
  pose proof (loaded_rd y j (got_inum _ _ _ _ _ _ Hgot)) as Hld.
  destruct (ilock_got ROOTDEV p pid f1 V mkfs_sb _ ip j x y Hf1) as (z & f2 & E2 & Hf2 & Hs2 & Hd2 & Hn2 & Hr2 & Hl2);
    [by apply list_lookup_insert_eq; rewrite (tb_length _ _ _ Ht1)|done|done|apply Hex|by apply inode_block_range| |].
  { destruct Hld as (-> & _). rewrite Hty. unfold built_types. unfold j. by rewrite (types_file _ _ _ _ _ Hg). }
  rewrite list_insert_insert_eq in Hf2. assert (<[ip := z]> l1 !! ip = Some z) as Hz by (apply list_lookup_insert_eq; by rewrite (tb_length _ _ _ Ht1)).
  assert (same_contents z (rd img j)) as (_ & _ & _ & _ & Es & Ea) by (eapply same_trans; [exact Hs2|by apply same_sym]).
  destruct (HF j Hj) as (_ & Hmax & _). rewrite HFj in Hmax. assert (0 <= size (concat (snd g))) as Hpos by (unfold size; lia).
  assert (readable z off m = size bs) as Er.
  { unfold readable, bs. rewrite <- Es, Hsz. unfold size in *. rewrite length_take, length_drop. lia. }
  assert (readable z off m = 0 \/ 0 <= readable z off m /\ off + readable z off m <= size (F j)) as Hrd.
  { rewrite HFj. unfold readable. rewrite <- Es, Hsz. lia. }
  destruct (readi_local_spec ROOTDEV p pid f2 V mkfs_sb _ ip z off m Hf2 Hz Hd2 Ho Hm Hom) as (f3 & E3 & Hf3).
  { rewrite <- Es, Hsz. lia. }
  { intros b Hb. apply (image_has_block files img Hok HF z j); [done|done|Z.div_mod_to_equations; lia|]. change (built_files files) with F. Z.div_mod_to_equations. lia. }
  destruct (release_entry ROOTDEV p pid f3 V mkfs_sb _ ip x y z Hf3 Hz) as (x' & f4 & E4 & Hf4 & Hex' & Hrx');
    [done|done|done|done|by rewrite Hn2, (got_inum _ _ _ _ _ _ Hgot)|done|by destruct Hld as (_ & _ & _ & -> & _); rewrite Hli|].
  rewrite list_insert_insert_eq in Hf4. exists (<[ip := x']> l1), f4. split; [|split; [done|by eapply table_put]].
  assert (fbytes V z off (readable z off m) = bs) as Eb.
  { destruct Hrd as [H0|[H0 H1]].
    - rewrite H0. rewrite H0 in Er. unfold size in Er. by destruct bs.
    - unfold V. rewrite (image_bytes files img Hok HF z j) by done. change (built_files files j) with (F j). rewrite HFj, Er. unfold size, bs. rewrite Nat2Z.id.
      by rewrite <- (firstn_all (take (Z.to_nat m) _)) at 2; rewrite take_take, length_take; f_equal; lia. }
  rewrite Er in Eb. rewrite Er, Eb in E3. unfold read_path. eapply eval_bind; [exact E1|]. cbn beta iota.
  eapply eval_bind; [exact E2|]. cbn beta. eapply eval_bind; [exact E3|]. cbn beta. eapply eval_bind; [exact E4|]. apply eval_ret.
Qed.
End Kernel.

(** ** From boot to a file *)

Lemma sb_of_block : sb_of sb_block = mkfs_sb.
Proof. by vm_compute. Qed.

Lemma header_zero img : (forall x o, 2 <= x < 32 -> ld8 (sec img x) o = 0) -> lh_n (sec img (s32 (sb_logstart mkfs_sb))) = 0.
Proof.
  intros H. change (s32 (sb_logstart mkfs_sb)) with 2. unfold lh_n.
  rewrite (ld_ext 4 (sec img 2) ∅ 0) by (intros x Hx; by rewrite H by lia). by rewrite ld_empty.
Qed.

Lemma file_name_ok g : file_ok g -> Forall (fun c => c <> 0) (fst g) -> name_ok (file_name g).
Proof.
  intros (Hs & Hb & _) Hz. unfold file_name. assert (Forall (fun c => 0 < c < 256) (shortname (fst g))) as H1.
  { assert (Forall (fun c => 0 < c < 256) (fst g)) as H by (apply Forall_forall; intros c Hc; rewrite Forall_forall in Hz; unfold is_bytes in Hb;
      rewrite Forall_forall in Hb; specialize (Hz c Hc); specialize (Hb c Hc); cbn in *; lia).
    unfold shortname. case_match; [by apply Forall_drop|done]. }
  assert (name_ok (shortname (fst g))) as H2.
  { apply Forall_forall. intros c Hc. rewrite Forall_forall in H1. split; [by apply H1|]. intros ->.
    assert (existsb (fun c => c =? 47) (shortname (fst g)) = true); [|congruence]. apply existsb_exists. exists slash.
    by rewrite <- list_elem_of_In. }
  unfold skip_underscore. destruct (shortname (fst g)) as [|c l]; [done|]. case_match; [|done]. by apply Forall_cons in H2 as [_ ?].
Qed.

(** The image with another block 2, the header of the log. *)
Section Header.
Context (files : list hostfile) (img : gmap Z block) (d : block).
Let n := 2 + Z.of_nat (length files).
Let F := built_files files.
Let img' := <[2 := d]> img.

Lemma rd_header j : 0 <= j < 208 -> rd img' j = rd img j.
Proof. intros Hj. unfold rd, img'. rewrite sec_insert, decide_False; [done|]. pose proof (IBLOCK_low j Hj). lia. Qed.

Lemma sec_header x : nmeta <= x -> sec img' x = sec img x.
Proof. intros Hx. unfold img'. rewrite sec_insert, decide_False; [done|]. rewrite nmeta_46 in Hx. lia. Qed.

Context (Hlen : Z.of_nat (length files) <= 198).
Context (Hok : slots_ok n (fun j => nslots (size (F j))) (rd img) img (used_blocks files)).

Lemma header_inodes j : 1 <= j < n -> nslots (size (F j)) = nslots (size (F j)) /\ i_addrs (rd img' j) = i_addrs (rd img j) /\ inode_in (rd img' j).
Proof. intros Hj. rewrite rd_header by (unfold n in *; lia). split; [done|]. split; [done|]. by apply (so_inode _ _ _ _ _ Hok). Qed.

Lemma header_slots : slots_ok n (fun j => nslots (size (F j))) (rd img') img' (used_blocks files).
Proof.
  eapply slots_transfer; [exact Hok|exact header_inodes|exact sec_header|]. intros x Hx. unfold img'.
  destruct (decide (x = 2)) as [->|Hne]; [rewrite lookup_insert_eq; by eexists|]. rewrite lookup_insert_ne by done. by apply (so_img _ _ _ _ _ Hok).
Qed.

Lemma header_contents : contents n (fun j => nslots (size (F j))) (rd img) img F ->
  contents n (fun j => nslots (size (F j))) (rd img') img' F.
Proof. intros HF. eapply contents_transfer; [exact Hok|exact header_inodes|exact sec_header|exact HF]. Qed.
End Header.

Section Boot.
Context `{L : Layout} `{Fuel0 : Fuel} `{World0 : World} `{Dev : BlockDev} `{!BlockDevOk Dev} (p : nat) (pid : Z).

(** The file system's state before fsinit(): binit() and iinit() have run on zeroed
    memory, the driver is idle and the disk is [img]. *)
Record boot_state (img : gmap Z block) (f : fsys) : Prop := {
  bt_bufs : fs_bufs f = binit_bufs (replicate (S NBUF) zero_buf);
  bt_disk : forall n, disk_block n f = sec img n;
  bt_vdisk : dev_ok (fs_vdisk f);
  bt_log : length (lg_block (fs_log f)) = Z.to_nat LOGSIZE;
  bt_table : length (fs_inodes f) = NINODE;
  bt_inodes : forall i x, fs_inodes f !! i = Some x -> i_ref x = 0 /\ sl_locked (i_lock x) = false }.

Lemma boot_cst img f : boot_state img f -> cst ROOTDEV f (sec img) (fun _ => 0) (fun _ => false) (sec img) 0.
Proof.
  intros [Hb Hd Hv _ _ _]. destruct (boot_cache ROOTDEV f) as (_ & Hc & Hbusy & Hno); [done|done|].
  split; [by split| | | |exact Hd|exact Hbusy]; intros n; unfold view, ref, lockd; rewrite Hno; [apply Hd|done|done].
Qed.

Lemma boot_table img V f : boot_state img f -> table_ok V mkfs_sb (fs_inodes f).
Proof.
  intros [_ _ _ _ Hl Hi]. split; [done| |].
  - intros k x Hx. destruct (Hi k x Hx) as [Hr Hu]. split; [done|lia|lia].
  - destruct (lookup_lt_is_Some_2 (fs_inodes f) 0) as [x Hx]; [rewrite Hl; unfold NINODE; lia|].
    destruct (lookup_lt_is_Some_2 (fs_inodes f) 1) as [y Hy]; [rewrite Hl; unfold NINODE; lia|].
    exists 0%nat, 1%nat, x, y. by destruct (Hi _ _ Hx), (Hi _ _ Hy).
Qed.


(** C4: from mkfs to the running kernel. A kernel that boots from the disk image
    mkfs built — fsinit() reads the superblock and runs the log's recovery, through
    the buffer cache and the driver — and looks up "/" followed by the name of one
    of the files, locks the inode namei() returns and reads it with readi(), gets
    the bytes of the host's file that [off] and [m] select, cut off at its end. *)
Theorem boot_reads_file files i g nm off m : Forall file_ok files -> Z.of_nat (length files) <= 198 -> used_blocks files <= FSSIZE ->
  Forall (fun g => Forall (fun c => c <> 0) (fst g)) files ->
  files !! i = Some g -> file_name g = nm -> (0 < length nm < DIRSIZ)%nat -> nm <> bytes "." -> nm <> bytes ".." ->
  (forall k g, (k < i)%nat -> files !! k = Some g -> file_name g <> nm) ->
  0 <= off -> 0 <= m -> off + m < 2 ^ 32 ->
  exists k, mkfs_main (map opened files) mkfs_start = Ret tt k /\
  forall s, quiet p pid s -> boot_state (mk_img k) (k_fs s) ->
  let bs := take (Z.to_nat m) (drop (Z.to_nat off) (concat (snd g))) in
  exists s', resolves ((fsinit ROOTDEV ;; read_path (slash :: nm) off m) s) (Some (size bs, bs)) s'.
Proof.
  intros Hfiles Hlen Hused Hnz Hg En Hnl Hdot Hdots Hfirst Ho Hm Hom.
  destruct (mkfs_final files Hfiles Hlen Hused) as (img & E & Hsup & Hlog & _ & Hi & Hok & HF & _).
  eexists. split; [exact E|]. cbn [mk_img]. clear E. intros s Hq Hbt. set (bs := take (Z.to_nat m) _). pose proof (boot_cst _ _ Hbt) as Hc.
  assert (Forall (fun g => name_ok (file_name g)) files) as Hnames.
  { rewrite Forall_lookup in Hfiles, Hnz |- *. intros k h Hh. apply file_name_ok; [by eapply Hfiles|by eapply Hnz]. }
  destruct (fsinit_spec ROOTDEV p pid s (sec img) 0 Hq Hc) as (f1 & D1 & E1 & Hf1 & HD1); rewrite ?Hsup, ?sb_of_block;
    [done|done|apply Hbt|done|done|by apply header_zero|].
  rewrite Hsup, sb_of_block in Hf1, HD1. change (s32 (sb_logstart mkfs_sb)) with 2 in HD1.
  set (img' := <[2 := D1 2]> img).
  assert (fstate ROOTDEV f1 (sec img') mkfs_sb (fs_inodes (k_fs s))) as Hf1'.
  { eapply fstate_ext; [|exact Hf1]. intros x. unfold img'. rewrite sec_insert. case_decide as Ex; [by subst|by rewrite HD1]. }
  destruct (read_mkfs p pid files img' Hlen) with (i := i) (g := g) (nm := nm) (f := f1) (l := fs_inodes (k_fs s)) (off := off) (m := m)
    as (l2 & f2 & E2 & _); try done.
  { intros j Hj. assert (0 <= j < 208) as Hj2 by lia. unfold img'. rewrite (rd_header files img (D1 2) j Hj2). exact (Hi j Hj). }
  { by apply header_slots. }
  { by apply header_contents. }
  { by eapply boot_table. }
  exists (set_k_fs f2 (set_k_fs f1 (init_log_lock s))). eapply resolves_bind; [exact E1|].
  refine (E2 (set_k_fs f1 (init_log_lock s)) _ eq_refl). by apply quiet_fs, quiet_init_log_lock.
Qed.
End Boot.
