(* ===== verification/FsInst.v ===== *)
(** The file system as the process and file layers see it: the instance of
    [FsOps] that kernel/fs.c, kernel/log.c and kernel/console.c give, and the proof
    that it keeps the invariants of the rest of the kernel. *)
From S2P Require Import Prelude Riscv Machine Spinlock KString Kalloc Vm Sched Keeps FsIface File Proc.
From S2P Require Import FsState Quiet Sleeplock Bio Log Console Fs.

Section Inst.
Context `{L : Layout} `{Fuel0 : Fuel} `{Dev : BlockDev}.

(** What the padding of a struct stat on the kernel stack holds. *)
Context (stat_pad : list Z).

#[export] Instance fs_ops : FsOps fsys := {|
  FsIface.begin_op := begin_op;
  FsIface.end_op := end_op;
  FsIface.idup := idup;
  FsIface.iput := iput;
  FsIface.ilock := ilock;
  FsIface.iunlock := iunlock;
  FsIface.namei := namei;
  FsIface.stati := stati stat_pad;
  readi_user ip dst off n := readi ip true dst off (u32 n);
  writei_user ip src off n := writei ip true src off (u32 n);
  devsw_read major := if major =? CONSOLE then Some (consoleread true) else None;
  devsw_write major := if major =? CONSOLE then Some (consolewrite true) else None
|}.
End Inst.

(** ** Frames *)

Class BlockDevKeeps (Dev : BlockDev) :=
  dev_keeps I R J `{!Stable J} `{!Resumes I R J} b w : keeps I R J (virtio_disk_rw b w).

Lemma keeps_fs_idup I R J `{!StableLow J} ip : keeps I R J (idup ip).
Proof.
  unfold idup. apply keeps_bind; [keeps_auto|intros _]. apply keeps_bind; [|keeps_auto].
  apply keeps_modify. intros s H. by apply stable_fs.
Qed.

Section Keep.
Context `{L : Layout} `{Fuel0 : Fuel} `{Dev : BlockDev} `{!BlockDevKeeps Dev}.
Context (I : kstate fsys -> Prop) (R : kstate fsys -> kstate fsys -> Prop) (J : kstate fsys -> Prop).
Context `{!Stable J} `{!Resumes I R J}.

Lemma keeps_fs_gets {A} (g : fsys -> A) : keeps I R J (fs_gets g).
Proof. apply keeps_gets. Qed.

Lemma keeps_fs_modify g : keeps I R J (fs_modify g).
Proof. apply keeps_modify. intros s H. by apply stable_fs. Qed.

Lemma keeps_mmio_write a v : keeps I R J (mmio_write a v).
Proof. apply keeps_fs_modify. Qed.

Lemma keeps_forever {A} : keeps I R J (forever (A := A)).
Proof. by intros s H. Qed.
#[local] Hint Resolve keeps_fs_gets keeps_fs_modify keeps_forever : keeps.
#[local] Hint Extern 1 (keeps _ _ _ (virtio_disk_rw _ _)) => apply dev_keeps : keeps.

Lemma keeps_acquiresleep lk : keeps I R J (acquiresleep lk).
Proof.
  assert (forall k, keeps I R J (acquiresleep_loop k lk)).
  { induction k as [|k IH]; cbn [acquiresleep_loop]; keeps_auto. }
  unfold acquiresleep. keeps_auto.
Qed.

Lemma keeps_releasesleep lk : keeps I R J (releasesleep lk).
Proof. unfold releasesleep. keeps_auto. Qed.

Lemma keeps_holdingsleep lk : keeps I R J (holdingsleep lk).
Proof. unfold holdingsleep. keeps_auto. Qed.
#[local] Hint Resolve keeps_acquiresleep keeps_releasesleep keeps_holdingsleep : keeps.

Lemma keeps_find_cached k dev n b : keeps I R J (find_cached k dev n b).
Proof. revert b. induction k as [|k IH]; intros b; cbn [find_cached]; keeps_auto. Qed.

Lemma keeps_find_unused k b : keeps I R J (find_unused k b).
Proof. revert b. induction k as [|k IH]; intros b; cbn [find_unused]; keeps_auto. Qed.
#[local] Hint Resolve keeps_find_cached keeps_find_unused : keeps.

Lemma keeps_bread dev n : keeps I R J (bread dev n).
Proof. unfold bread, bget. keeps_auto. Qed.

Lemma keeps_bwrite b : keeps I R J (bwrite b).
Proof. unfold bwrite. keeps_auto. Qed.

Lemma keeps_brelse b : keeps I R J (brelse b).
Proof. unfold brelse. keeps_auto. Qed.

Lemma keeps_bpin b : keeps I R J (bpin b).
Proof. unfold bpin. keeps_auto. Qed.

Lemma keeps_bunpin b : keeps I R J (bunpin b).
Proof. unfold bunpin. keeps_auto. Qed.
#[local] Hint Resolve keeps_bread keeps_bwrite keeps_brelse keeps_bpin keeps_bunpin : keeps.

Lemma keeps_for_tail body : (forall i, keeps I R J (body i)) -> keeps I R J (for_tail body).
Proof.
  intros Hb. assert (forall k i, keeps I R J (tail_loop k i body)).
  { induction k as [|k IH]; intros i; cbn [tail_loop]; keeps_auto. }
  unfold for_tail. keeps_auto.
Qed.
#[local] Hint Extern 1 (keeps _ _ _ (for_tail _)) => apply keeps_for_tail; intros ? : keeps.

Lemma keeps_install_trans r : keeps I R J (install_trans r).
Proof. unfold install_trans, install_body, bread_log, bread_home, copy_data. keeps_auto. Qed.

Lemma keeps_write_log : keeps I R J write_log.
Proof. unfold write_log, write_log_body, bread_log, bread_home, copy_data. keeps_auto. Qed.

Lemma keeps_write_head : keeps I R J write_head.
Proof. unfold write_head. keeps_auto. Qed.

Lemma keeps_read_head : keeps I R J read_head.
Proof. unfold read_head. keeps_auto. Qed.
#[local] Hint Resolve keeps_install_trans keeps_write_log keeps_write_head keeps_read_head : keeps.

Lemma keeps_recover_from_log : keeps I R J recover_from_log.
Proof. unfold recover_from_log. keeps_auto. Qed.
#[local] Hint Resolve keeps_recover_from_log keeps_initlock : keeps.

Lemma keeps_initlog dev sb : keeps I R J (initlog dev sb).
Proof. unfold initlog. destruct (_ >=? _); keeps_auto. Qed.

Lemma keeps_begin_op : keeps I R J begin_op.
Proof.
  assert (forall k, keeps I R J (begin_op_loop k)).
  { induction k as [|k IH]; cbn [begin_op_loop]; keeps_auto. }
  unfold begin_op. keeps_auto.
Qed.

Lemma keeps_end_op : keeps I R J end_op.
Proof. unfold end_op, commit. keeps_auto. Qed.

Lemma keeps_log_write b : keeps I R J (log_write b).
Proof. unfold log_write. keeps_auto. Qed.
#[local] Hint Resolve keeps_initlog keeps_begin_op keeps_end_op keeps_log_write : keeps.

(** *** The console *)

Lemma keeps_write_THR c : keeps I R J (write_THR c).
Proof. unfold write_THR. keeps_auto. Qed.
#[local] Hint Resolve keeps_write_THR : keeps.

Lemma keeps_consputc c : keeps I R J (consputc c).
Proof. unfold consputc, uartputc_sync. keeps_auto. Qed.
#[local] Hint Resolve keeps_consputc : keeps.

Lemma keeps_consputs cs : keeps I R J (consputs cs).
Proof. induction cs as [|c cs IH]; cbn [consputs]; keeps_auto. Qed.
#[local] Hint Resolve keeps_consputs : keeps.

Lemma keeps_printf fmt ap : keeps I R J (printf fmt ap).
Proof. unfold printf. keeps_auto. Qed.
#[local] Hint Resolve keeps_printf : keeps.

Lemma keeps_procdump : keeps I R J procdump.
Proof. unfold procdump. keeps_auto. Qed.

Lemma keeps_uartstart : keeps I R J uartstart.
Proof.
  unfold uartstart. generalize (S (Z.to_nat UART_TX_BUF_SIZE)).
  induction n as [|n IH]; cbn [uartstart_loop]; unfold read_LSR; keeps_auto.
Qed.
#[local] Hint Resolve keeps_procdump keeps_uartstart : keeps.

Lemma keeps_uartputc c : keeps I R J (uartputc c).
Proof.
  assert (forall k, keeps I R J (uartputc_wait k)).
  { induction k as [|k IH]; cbn [uartputc_wait]; keeps_auto. }
  unfold uartputc. keeps_auto.
Qed.

Lemma keeps_either_copyout u d bs : keeps I R J (either_copyout u d bs).
Proof. unfold either_copyout. keeps_auto. Qed.

Lemma keeps_either_copyin u a n : keeps I R J (either_copyin u a n).
Proof. unfold either_copyin. keeps_auto. Qed.
#[local] Hint Resolve keeps_uartputc keeps_either_copyout keeps_either_copyin : keeps.

Lemma keeps_consolewrite u src n : keeps I R J (consolewrite u src n).
Proof.
  unfold consolewrite. generalize 0 as i. generalize (Z.to_nat n) as k.
  induction k as [|k IH]; intros i; cbn [consolewrite_loop]; keeps_auto.
Qed.

Lemma keeps_consoleread u dst n : keeps I R J (consoleread u dst n).
Proof.
  assert (forall k, keeps I R J (consoleread_wait k)).
  { induction k as [|k IH]; cbn [consoleread_wait]; keeps_auto. }
  assert (forall k a t m, keeps I R J (consoleread_loop k u a t m)).
  { induction k as [|k IH]; intros a t m; cbn [consoleread_loop]; keeps_auto. }
  unfold consoleread. keeps_auto.
Qed.

Lemma keeps_consoleintr c : keeps I R J (consoleintr c).
Proof.
  assert (forall k, keeps I R J (kill_line k)).
  { induction k as [|k IH]; cbn [kill_line]; keeps_auto. }
  unfold consoleintr. keeps_auto.
Qed.
#[local] Hint Resolve keeps_consoleintr : keeps.

Lemma keeps_uartintr : keeps I R J uartintr.
Proof.
  assert (forall k, keeps I R J (uartintr_loop k)).
  { induction k as [|k IH]; cbn [uartintr_loop]; unfold uartgetc, read_LSR, read_RHR; keeps_auto. }
  unfold uartintr. keeps_auto.
Qed.

(** *** fs.c *)

Lemma keeps_buf_data b : keeps I R J (buf_data b).
Proof. unfold buf_data. keeps_auto. Qed.

Lemma keeps_set_data b g : keeps I R J (set_data b g).
Proof. unfold set_data. keeps_auto. Qed.

Lemma keeps_the_sb : keeps I R J the_sb.
Proof. unfold the_sb. keeps_auto. Qed.

Lemma keeps_ifield {A} (g : inode -> A) ip : keeps I R J (ifield g ip).
Proof. unfold ifield. keeps_auto. Qed.
#[local] Hint Resolve keeps_buf_data keeps_set_data keeps_the_sb keeps_ifield : keeps.

Lemma keeps_fsinit dev : keeps I R J (fsinit dev).
Proof. unfold fsinit, readsb. keeps_auto. Qed.

Lemma keeps_bzero dev b : keeps I R J (bzero dev b).
Proof. unfold bzero. keeps_auto. Qed.
#[local] Hint Resolve keeps_bzero : keeps.

Lemma keeps_balloc dev : keeps I R J (balloc dev).
Proof.
  assert (forall k b, keeps I R J (balloc_loop k dev b)).
  { induction k as [|k IH]; intros b; cbn [balloc_loop]; keeps_auto. }
  unfold balloc. keeps_auto.
Qed.

Lemma keeps_bfree dev b : keeps I R J (bfree dev b).
Proof. unfold bfree. keeps_auto. Qed.

Lemma keeps_iget dev i : keeps I R J (iget dev i).
Proof. unfold iget. keeps_auto. Qed.
#[local] Hint Resolve keeps_balloc keeps_bfree keeps_iget : keeps.

Lemma keeps_ialloc dev ty : keeps I R J (ialloc dev ty).
Proof.
  assert (forall k i, keeps I R J (ialloc_loop k dev ty i)).
  { induction k as [|k IH]; intros i; cbn [ialloc_loop]; keeps_auto. }
  unfold ialloc. keeps_auto.
Qed.

Lemma keeps_iupdate ip : keeps I R J (iupdate ip).
Proof. unfold iupdate. keeps_auto. Qed.

Lemma keeps_ilock ip : keeps I R J (ilock ip).
Proof. unfold ilock. keeps_auto. Qed.

Lemma keeps_iunlock ip : keeps I R J (iunlock ip).
Proof. unfold iunlock. keeps_auto. Qed.
#[local] Hint Resolve keeps_ialloc keeps_iupdate keeps_ilock keeps_iunlock : keeps.

Lemma keeps_itrunc ip : keeps I R J (itrunc ip).
Proof. unfold itrunc, itrunc_direct. keeps_auto. Qed.
#[local] Hint Resolve keeps_itrunc : keeps.

Lemma keeps_iput ip : keeps I R J (iput ip).
Proof. unfold iput. keeps_auto. Qed.
#[local] Hint Resolve keeps_iput : keeps.

Lemma keeps_iunlockput ip : keeps I R J (iunlockput ip).
Proof. unfold iunlockput. keeps_auto. Qed.

Lemma keeps_bmap ip bn : keeps I R J (bmap ip bn).
Proof. unfold bmap, bmap_addr. keeps_auto. Qed.
#[local] Hint Resolve keeps_iunlockput keeps_bmap : keeps.

Lemma keeps_readi_with copy ip dst off n :
  (forall d bs, keeps I R J (copy d bs)) -> keeps I R J (readi_with copy ip dst off n).
Proof.
  intros Hc. assert (forall k dst off n tot acc, keeps I R J (readi_loop k copy ip dst off n tot acc)).
  { induction k as [|k IH]; intros; cbn [readi_loop]; keeps_auto. }
  unfold readi_with. keeps_auto.
Qed.

Lemma keeps_writei_with fetch ip src off n :
  (forall a m, keeps I R J (fetch a m)) -> keeps I R J (writei_with fetch ip src off n).
Proof.
  intros Hc. assert (forall k src off n tot, keeps I R J (writei_loop k fetch ip src off n tot)).
  { induction k as [|k IH]; intros; cbn [writei_loop]; keeps_auto. }
  unfold writei_with. keeps_auto.
Qed.

Lemma keeps_readi ip u dst off n : keeps I R J (readi ip u dst off n).
Proof. unfold readi. apply keeps_bind; [|keeps_auto]. apply keeps_readi_with. keeps_auto. Qed.

Lemma keeps_readi_local ip off n : keeps I R J (readi_local ip off n).
Proof. apply keeps_readi_with. keeps_auto. Qed.

Lemma keeps_writei ip u src off n : keeps I R J (writei ip u src off n).
Proof. apply keeps_writei_with. keeps_auto. Qed.

Lemma keeps_writei_local ip bs off : keeps I R J (writei_local ip bs off).
Proof. apply keeps_writei_with. keeps_auto. Qed.
#[local] Hint Resolve keeps_readi keeps_readi_local keeps_writei keeps_writei_local : keeps.

Lemma keeps_dirlookup dp name : keeps I R J (dirlookup dp name).
Proof.
  assert (forall k off, keeps I R J (dirlookup_loop k dp name off)).
  { induction k as [|k IH]; intros; cbn [dirlookup_loop]; keeps_auto. }
  unfold dirlookup. keeps_auto.
Qed.
#[local] Hint Resolve keeps_dirlookup : keeps.

Lemma keeps_dirlink dp name i : keeps I R J (dirlink dp name i).
Proof.
  assert (forall k off, keeps I R J (dirlink_loop k dp off)).
  { induction k as [|k IH]; intros; cbn [dirlink_loop]; keeps_auto. }
  unfold dirlink. keeps_auto.
Qed.

#[local] Hint Resolve keeps_fs_idup : keeps.

Lemma keeps_namex path par name : keeps I R J (namex path par name).
Proof.
  assert (forall k ip path name, keeps I R J (namex_loop k ip path par name)).
  { induction k as [|k IH]; intros; cbn [namex_loop]; keeps_auto. }
  unfold namex. keeps_auto.
Qed.
#[local] Hint Resolve keeps_namex : keeps.

Lemma keeps_namei path : keeps I R J (namei path).
Proof. unfold namei. keeps_auto. Qed.
End Keep.

#[export] Hint Resolve keeps_begin_op keeps_end_op keeps_ilock keeps_iunlock keeps_iput keeps_iunlockput
  keeps_namei keeps_namex keeps_readi keeps_readi_local keeps_writei keeps_writei_local keeps_dirlookup
  keeps_dirlink keeps_ialloc keeps_iupdate keeps_itrunc keeps_printf keeps_fsinit keeps_uartintr
  keeps_mmio_write keeps_fs_idup keeps_fs_gets keeps_fs_modify keeps_ifield keeps_either_copyout keeps_either_copyin : keeps.

#[export] Instance fs_ops_keeps `{L : Layout} `{Fuel0 : Fuel} `{Dev : BlockDev} `{!BlockDevKeeps Dev} pad :
  FsKeeps (fs_ops pad).
Proof.
  split; intros; cbn; try by keeps_auto.
  - apply keeps_bind; [keeps_auto|]. keeps_auto.
  - unfold devsw_read, fs_ops in H. destruct (m =? CONSOLE); [|done]. injection H as <-.
    by apply keeps_consoleread.
  - unfold devsw_write, fs_ops in H. destruct (m =? CONSOLE); [|done]. injection H as <-.
    by apply keeps_consolewrite.
Qed.
