(* ===== verification/Virtio.v ===== *)
(** kernel/virtio_disk.c: the driver of the disk.

    The descriptors and the two rings are memory the driver shares with the
    device; what the device does with them is not the kernel's code. It reads the
    chains the driver makes available, transfers the data, writes the status
    byte, and adds the chain to the used ring; then it interrupts. *)
From S2P Require Import Prelude Riscv Machine Spinlock KString Kalloc Vm Sched Keeps FsIface.
From S2P Require Import FsState Quiet Sleeplock Bio.

Definition NUM : nat := 8.
Abbreviation VRING_DESC_F_NEXT := (1).
Abbreviation VRING_DESC_F_WRITE := (2).
Abbreviation VIRTIO_BLK_T_IN := (0).
Abbreviation VIRTIO_BLK_T_OUT := (1).
Abbreviation VIRTIO_CONFIG_S_ACKNOWLEDGE := (1).
Abbreviation VIRTIO_CONFIG_S_DRIVER := (2).
Abbreviation VIRTIO_CONFIG_S_DRIVER_OK := (4).
Abbreviation VIRTIO_CONFIG_S_FEATURES_OK := (8).

(** R(VIRTIO_MMIO_...): the registers written. *)
Abbreviation MMIO_DRIVER_FEATURES := (VIRTIO0 + 0x020).
Abbreviation MMIO_QUEUE_SEL := (VIRTIO0 + 0x030).
Abbreviation MMIO_QUEUE_NUM := (VIRTIO0 + 0x038).
Abbreviation MMIO_QUEUE_READY := (VIRTIO0 + 0x044).
Abbreviation MMIO_STATUS := (VIRTIO0 + 0x070).
Abbreviation MMIO_QUEUE_DESC_LOW := (VIRTIO0 + 0x080).
Abbreviation MMIO_QUEUE_DESC_HIGH := (VIRTIO0 + 0x084).
Abbreviation MMIO_DRIVER_DESC_LOW := (VIRTIO0 + 0x090).
Abbreviation MMIO_DRIVER_DESC_HIGH := (VIRTIO0 + 0x094).
Abbreviation MMIO_DEVICE_DESC_LOW := (VIRTIO0 + 0x0a0).
Abbreviation MMIO_DEVICE_DESC_HIGH := (VIRTIO0 + 0x0a4).

(** The features the driver refuses: VIRTIO_BLK_F_RO, _SCSI, _CONFIG_WCE, _MQ,
    VIRTIO_F_ANY_LAYOUT, VIRTIO_RING_F_EVENT_IDX and _INDIRECT_DESC. *)
Definition refused : list Z := [5; 7; 11; 12; 27; 29; 28].
Definition negotiated (features : Z) : Z :=
  foldl (fun x b => Z.land x (Z.lnot (Z.shiftl 1 b))) features refused.

(** The registers read in virtio_disk_init(): R(VIRTIO_MMIO_...). *)
Class VirtioRegs := {
  R_MAGIC_VALUE : Z;
  R_VERSION : Z;
  R_DEVICE_ID : Z;
  R_VENDOR_ID : Z;
  R_STATUS : Z;
  R_DEVICE_FEATURES : Z;
  R_QUEUE_READY : Z;
  R_QUEUE_NUM_MAX : Z
}.

Definition zero_desc : vdesc := mkvdesc V_null 0 0 0.
Definition get_desc (i : nat) (w : vdisk) : vdesc := default zero_desc (vd_desc w !! i).
Definition upd_desc (i : nat) (g : vdesc -> vdesc) (w : vdisk) : vdisk :=
  set_vd_desc (alter g i (vd_desc w)) w.
Definition upd_op (i : nat) (g : vreq -> vreq) (w : vdisk) : vdisk :=
  set_vd_ops (alter g i (vd_ops w)) w.

(** The first free descriptor. *)
Fixpoint first_free (l : list bool) (i : nat) : option nat :=
  match l with
  | [] => None
  | b :: l => if b : bool then Some i else first_free l (S i)
  end.

(** The three descriptors of a request (virtio_disk_rw(), lines 238 to 265). *)
Definition format_req (b : nat) (write : bool) (sector : Z) (i0 i1 i2 : nat) (w : vdisk) : vdisk :=
  let w := upd_op i0 (fun q => set_q_sector sector (set_q_reserved 0
             (set_q_type (if write then VIRTIO_BLK_T_OUT else VIRTIO_BLK_T_IN) q))) w in
  let w := upd_desc i0 (fun _ => mkvdesc (V_req i0) 16 VRING_DESC_F_NEXT (Z.of_nat i1)) w in
  let w := upd_desc i1 (fun _ => mkvdesc (V_data b) BSIZE
             (Z.lor (if write then 0 else VRING_DESC_F_WRITE) VRING_DESC_F_NEXT) (Z.of_nat i2)) w in
  let w := set_vd_info_status (<[i0 := 0xff]> (vd_info_status w)) w in
  upd_desc i2 (fun _ => mkvdesc (V_status i0) 1 VRING_DESC_F_WRITE 0) w.

(** disk.avail->ring[disk.avail->idx % NUM] = i; disk.avail->idx += 1; *)
Definition make_avail (i : nat) (w : vdisk) : vdisk :=
  set_vd_avail_idx (u16 (vd_avail_idx w + 1))
    (set_vd_avail_ring (<[Z.to_nat (vd_avail_idx w `mod` Z.of_nat NUM) := Z.of_nat i]> (vd_avail_ring w)) w).

Section Ops.
Context `{L : Layout} `{Fuel0 : Fuel} `{Regs : VirtioRegs}.
Abbreviation KM := (K (kstate fsys)).

Definition vd_modify (g : vdisk -> vdisk) : KM unit := fs_modify (upd_vdisk g).
Definition vd_gets {A} (g : vdisk -> A) : KM A := fs_gets (fun f => g (fs_vdisk f)).

Definition virtio_disk_init : KM unit :=
  initlock L_vdisk "virtio_disk" ;;
  if negb (R_MAGIC_VALUE =? 0x74726976) || negb (R_VERSION =? 2) ||
     negb (R_DEVICE_ID =? 2) || negb (R_VENDOR_ID =? 0x554d4551)
  then panic "could not find virtio disk" else
  let status := 0 in
  mmio_write MMIO_STATUS status ;;
  let status := Z.lor status VIRTIO_CONFIG_S_ACKNOWLEDGE in
  mmio_write MMIO_STATUS status ;;
  let status := Z.lor status VIRTIO_CONFIG_S_DRIVER in
  mmio_write MMIO_STATUS status ;;
  mmio_write MMIO_DRIVER_FEATURES (u32 (negotiated R_DEVICE_FEATURES)) ;;
  let status := Z.lor status VIRTIO_CONFIG_S_FEATURES_OK in
  mmio_write MMIO_STATUS status ;;
  let status := R_STATUS in
  if Z.land status VIRTIO_CONFIG_S_FEATURES_OK =? 0 then panic "virtio disk FEATURES_OK unset" else
  mmio_write MMIO_QUEUE_SEL 0 ;;
  if negb (R_QUEUE_READY =? 0) then panic "virtio disk should not be ready" else
  if R_QUEUE_NUM_MAX =? 0 then panic "virtio disk has no queue 0" else
  if R_QUEUE_NUM_MAX <? Z.of_nat NUM then panic "virtio disk max queue too short" else
  desc <- kalloc ;;
  avail <- kalloc ;;
  used <- kalloc ;;
  if (desc =? 0) || (avail =? 0) || (used =? 0) then panic "virtio disk kalloc" else
  do_memset desc 0 PGSIZE ;;
  do_memset avail 0 PGSIZE ;;
  do_memset used 0 PGSIZE ;;
  vd_modify (fun w => set_vd_desc (replicate NUM zero_desc) (set_vd_avail_idx 0
    (set_vd_avail_ring (replicate NUM 0) (set_vd_used_dev 0 (set_vd_used_ring (replicate NUM 0) w))))) ;;
  mmio_write MMIO_QUEUE_NUM (Z.of_nat NUM) ;;
  mmio_write MMIO_QUEUE_DESC_LOW (u32 desc) ;;
  mmio_write MMIO_QUEUE_DESC_HIGH (u32 (Z.shiftr desc 32)) ;;
  mmio_write MMIO_DRIVER_DESC_LOW (u32 avail) ;;
  mmio_write MMIO_DRIVER_DESC_HIGH (u32 (Z.shiftr avail 32)) ;;
  mmio_write MMIO_DEVICE_DESC_LOW (u32 used) ;;
  mmio_write MMIO_DEVICE_DESC_HIGH (u32 (Z.shiftr used 32)) ;;
  mmio_write MMIO_QUEUE_READY 1 ;;
  vd_modify (set_vd_free (replicate NUM true)) ;;
  mmio_write MMIO_STATUS (Z.lor status VIRTIO_CONFIG_S_DRIVER_OK).

Definition alloc_desc : KM (option nat) :=
  free <- vd_gets vd_free ;;
  match first_free free 0 with
  | Some i => vd_modify (fun w => set_vd_free (<[i := false]> (vd_free w)) w) ;; ret (Some i)
  | None => ret None
  end.

Definition free_desc (i : nat) : KM unit :=
  if (NUM <=? i)%nat then panic "free_desc 1" else
  free <- vd_gets (fun w => nth i (vd_free w) false) ;;
  if free : bool then panic "free_desc 2" else
  vd_modify (upd_desc i (fun _ => zero_desc)) ;;
  vd_modify (fun w => set_vd_free (<[i := true]> (vd_free w)) w) ;;
  wakeup Ch_disk.

Fixpoint free_chain_loop (k : nat) (i : nat) : KM unit :=
  match k with
  | O => out_of_fuel
  | S k =>
      d <- vd_gets (get_desc i) ;;
      free_desc i ;;
      if negb (Z.land (d_flags d) VRING_DESC_F_NEXT =? 0)
      then free_chain_loop k (Z.to_nat (d_next d))
      else ret tt
  end.

Definition free_chain (i : nat) : KM unit := free_chain_loop (S NUM) i.

Definition alloc3_desc : KM (option (nat * nat * nat)) :=
  i0 <- alloc_desc ;;
  match i0 with
  | None => ret None
  | Some i0 =>
      i1 <- alloc_desc ;;
      match i1 with
      | None => free_desc i0 ;; ret None
      | Some i1 =>
          i2 <- alloc_desc ;;
          match i2 with
          | None => free_desc i0 ;; free_desc i1 ;; ret None
          | Some i2 => ret (Some (i0, i1, i2))
          end
      end
  end.

(** while(1) { if(alloc3_desc(idx) == 0) break; sleep(&disk.free[0], ...); } *)
Fixpoint alloc_wait (k : nat) : KM (nat * nat * nat) :=
  match k with
  | O => out_of_fuel
  | S k =>
      r <- alloc3_desc ;;
      match r with
      | Some idx => ret idx
      | None => sleep Ch_disk L_vdisk ;; alloc_wait k
      end
  end.

(** while(b->disk == 1) sleep(b, &disk.vdisk_lock); *)
Fixpoint done_wait (k : nat) (b : nat) : KM unit :=
  match k with
  | O => out_of_fuel
  | S k =>
      d <- fs_gets (fun f => b_disk (get_buf b f)) ;;
      if d =? 1 then sleep (Ch_buf b) L_vdisk ;; done_wait k b else ret tt
  end.

Definition virtio_disk_rw (b : nat) (write : bool) : KM unit :=
  blockno <- fs_gets (fun f => b_blockno (get_buf b f)) ;;
  let sector := u32 (blockno * (BSIZE / 512)) in
  acquire L_vdisk ;;
  idx <- alloc_wait (S fuel) ;;
  let '(i0, i1, i2) := idx in
  vd_modify (format_req b write sector i0 i1 i2) ;;
  fs_modify (upd_buf b (set_b_disk 1)) ;;
  vd_modify (fun w => set_vd_info_b (<[i0 := Some b]> (vd_info_b w)) w) ;;
  vd_modify (make_avail i0) ;;
  done_wait (S (S fuel)) b ;;
  vd_modify (fun w => set_vd_info_b (<[i0 := None]> (vd_info_b w)) w) ;;
  free_chain i0 ;;
  release L_vdisk.

Fixpoint intr_loop (k : nat) : KM unit :=
  match k with
  | O => out_of_fuel
  | S k =>
      w <- vd_gets id ;;
      if vd_used_idx w =? vd_used_dev w then ret tt else
      let id := Z.to_nat (nth (Z.to_nat (vd_used_idx w `mod` Z.of_nat NUM)) (vd_used_ring w) 0) in
      if negb (nth id (vd_info_status w) 0 =? 0) then panic "virtio_disk_intr status" else
      match nth id (vd_info_b w) None with
      | None => panic "kerneltrap"
      | Some b =>
          fs_modify (upd_buf b (set_b_disk 0)) ;;
          wakeup (Ch_buf b) ;;
          vd_modify (fun w => set_vd_used_idx (u16 (vd_used_idx w + 1)) w) ;;
          intr_loop k
      end
  end.

Definition virtio_disk_intr : KM unit :=
  acquire L_vdisk ;;
  intr_loop (S NUM) ;;
  release L_vdisk.
End Ops.

#[export] Instance virtio_dev `{Fuel0 : Fuel} : BlockDev := virtio_disk_rw.
