(* ===== verification/VirtioSpec.v ===== *)
(** The disk driver does what the buffer cache relies on.

    [VirtioDevice] is the device, [device_request] the documented behaviour the
    driver relies on: it carries out the request whose chain the driver made
    available. While the requesting process sleeps, the device completes the
    request, its interrupt is handled by virtio_disk_intr(), and the scheduler
    finds the process runnable again: [disk_world]. *)
From S2P Require Import Prelude Riscv Machine Spinlock KString Kalloc Vm Sched Keeps FsIface.
From S2P Require Import FsState Quiet Sleeplock Bio BioSpec Virtio.

Class VirtioDevice := device : fsys -> fsys.

(** The chain that starts at descriptor [i0] is a request for block [n], whose
    data is that of buffer [b]. *)
Record is_request (w : vdisk) (write : bool) (b : nat) (n : Z) (i0 i1 i2 : nat) : Prop := {
  r_op : vd_ops w !! i0 = Some (mkvreq (if write then VIRTIO_BLK_T_OUT else VIRTIO_BLK_T_IN) 0 (2 * n));
  r_d0 : vd_desc w !! i0 = Some (mkvdesc (V_req i0) 16 VRING_DESC_F_NEXT (Z.of_nat i1));
  r_d1 : vd_desc w !! i1 = Some (mkvdesc (V_data b) BSIZE
           (Z.lor (if write then 0 else VRING_DESC_F_WRITE) VRING_DESC_F_NEXT) (Z.of_nat i2));
  r_d2 : vd_desc w !! i2 = Some (mkvdesc (V_status i0) 1 VRING_DESC_F_WRITE 0)
}.

(** The status is written and the chain added to the used ring. *)
Definition complete (i0 : nat) (w : vdisk) : vdisk :=
  set_vd_used_dev (u16 (vd_used_dev w + 1))
    (set_vd_used_ring (<[Z.to_nat (vd_used_dev w `mod` Z.of_nat NUM) := Z.of_nat i0]> (vd_used_ring w))
      (set_vd_info_status (<[i0 := 0]> (vd_info_status w)) w)).

Class VirtioDeviceOk (D : VirtioDevice) :=
  device_request f write b n i0 i1 i2 :
    is_request (fs_vdisk f) write b n i0 i1 i2 ->
    vd_avail_idx (fs_vdisk f) = u16 (vd_used_dev (fs_vdisk f) + 1) ->
    vd_avail_ring (fs_vdisk f) !! Z.to_nat (vd_used_dev (fs_vdisk f) `mod` Z.of_nat NUM) = Some (Z.of_nat i0) ->
    device f = upd_vdisk (complete i0)
      (if write then disk_write n (b_data (get_buf b f)) f
       else upd_buf b (set_b_data (disk_block n f)) f).

Section Spec.
Context `{Fuel0 : Fuel} `{Dv : VirtioDevice} `{!VirtioDeviceOk Dv}.
Implicit Types s : kstate fsys.

(** While the current process is switched out: the scheduler drops it, the
    device completes, the interrupt is handled, the scheduler runs it again. *)
#[local] Instance disk_world : World := fun s =>
  match cur s with
  | None => s
  | Some p =>
      match ((modify (upd_cpu (set_c_proc None)) ;; release (L_proc p)) ;;
             fs_modify device ;;
             virtio_disk_intr ;;
             scheduler_one p) s with
      | Swtch s' _ => s'
      | _ => s
      end
  end.

(** One completed request is waiting in the used ring. *)
Record one_done (f : fsys) (b : nat) : Prop := {
  o_used : vd_used_dev (fs_vdisk f) = u16 (vd_used_idx (fs_vdisk f) + 1);
  o_range : 0 <= vd_used_idx (fs_vdisk f) < 2 ^ 16;
  o_ring : exists i, nth (Z.to_nat (vd_used_idx (fs_vdisk f) `mod` Z.of_nat NUM)) (vd_used_ring (fs_vdisk f)) 0 =
      Z.of_nat i /\ nth i (vd_info_status (fs_vdisk f)) 0 = 0 /\ nth i (vd_info_b (fs_vdisk f)) None = Some b
}.

Definition seen (b : nat) (f : fsys) : fsys :=
  upd_vdisk (fun w => set_vd_used_idx (u16 (vd_used_idx w + 1)) w) (upd_buf b (set_b_disk 0) f).

Lemma u16_next z : 0 <= z < 2 ^ 16 -> u16 (z + 1) <> z.
Proof.
  unfold u16. intros H. destruct (decide (z + 1 = 2 ^ 16)) as [E|]; [rewrite E, Z_mod_same_full; lia|].
  rewrite Z.mod_small; lia.
Qed.

Lemma hold_fs l f s : set_k_fs f (hold l s) = hold l (set_k_fs f s).
Proof. kst. Qed.

Lemma hold_procs l ps s : set_k_procs ps (hold l s) = hold l (set_k_procs ps s).
Proof. kst. Qed.

Lemma fs_modify_hold {B} l g (k : unit -> K (kstate fsys) B) s :
  (kbind (fs_modify g) k) (hold l s) = k tt (hold l (set_k_fs (g (k_fs s)) s)).
Proof. unfold fs_modify. by rewrite kbind_modify, hold_fs. Qed.

Lemma intr_loop_end k s :
  vd_used_idx (fs_vdisk (k_fs s)) = vd_used_dev (fs_vdisk (k_fs s)) -> intr_loop (S k) s = Ret tt s.
Proof.
  intros E. cbn [intr_loop]. unfold vd_gets, fs_gets. rewrite kbind_gets. unfold id. by rewrite E, Z.eqb_refl.
Qed.

Lemma others_free_fs me f s : others_free me (set_k_fs f s) <-> others_free me s.
Proof. done. Qed.

Lemma others_free_hold me l s :
  (forall i, l <> L_proc i) -> others_free me s -> others_free me (hold l s).
Proof.
  intros Hne (Hok & Hc & Hp). split; [by apply cpu_ok_hold|]. split; [by rewrite cur_hold|].
  intros i Hi Hm. apply lock_free_hold; [|by apply Hp]. intros E. by apply (Hne i).
Qed.

Lemma intr_loop_step k s b :
  others_free None s -> length (k_procs s) = NPROC -> one_done (k_fs s) b ->
  intr_loop (S k) (hold L_vdisk s) =
    intr_loop k (hold L_vdisk (set_k_procs (woken None (Some (Ch_buf b)) (k_procs s)) (set_k_fs (seen b (k_fs s)) s))).
Proof.
  intros Ho Hlen [Hu Hr (i & Hi & Hst & Hb)]. cbn [intr_loop]. unfold vd_gets at 1, fs_gets at 1.
  rewrite kbind_gets. change (k_fs (hold L_vdisk s)) with (k_fs s). unfold id at 1 2.
  rewrite (proj2 (Z.eqb_neq _ _)) by (rewrite Hu; pose proof (u16_next _ Hr); congruence).
  cbn zeta. unfold id. rewrite Hi, Nat2Z.id, Hst, Hb. cbn [Z.eqb negb]. rewrite fs_modify_hold.
  set (s2 := set_k_fs (upd_buf b (set_b_disk 0) (k_fs s)) s).
  rewrite (kbind_Ret _ _ _ _ _ (wakeup_spec None (Some (Ch_buf b)) (hold L_vdisk s2)
    (others_free_hold None L_vdisk s2 ltac:(done) Ho) Hlen)).
  rewrite hold_procs, settle_hold by apply Ho. unfold vd_modify. rewrite fs_modify_hold. done.
Qed.

Lemma intr_run s b :
  others_free None s -> lock_free L_vdisk s -> settle s = s -> length (k_procs s) = NPROC ->
  one_done (k_fs s) b ->
  virtio_disk_intr s = Ret tt (set_k_procs (woken None (Some (Ch_buf b)) (k_procs s))
                                 (set_k_fs (seen b (k_fs s)) s)).
Proof.
  intros Ho Hl Hs Hlen Hd. pose proof Ho as (Hok & Hc & Hp). unfold virtio_disk_intr.
  rewrite (kbind_Ret _ _ _ _ _ (acquire_free L_vdisk s Hok Hl)).
  pose proof (intr_loop_step NUM s b Ho Hlen Hd) as E.
  rewrite (intr_loop_end 7 (hold L_vdisk _)) in E by exact (eq_sym (o_used _ _ Hd)).
  rewrite (kbind_Ret _ _ _ _ _ E).
  rewrite release_hold; [|done|done]. f_equal.
  transitivity (set_k_procs (woken None (Some (Ch_buf b)) (k_procs s)) (set_k_fs (seen b (k_fs s)) (settle s)));
    [kst|]. by rewrite Hs.
Qed.

(** *** Sleeping until the request is done *)

(** The process table while [p] is asleep, then woken and run again. *)
Definition resumed (p b : nat) (ps : list proc) : list proc :=
  alter (set_p_chan None) p (alter (set_p_state RUNNING) p
    (woken None (Some (Ch_buf b)) (alter (asleep (Ch_buf b)) p ps))).

Lemma resumed_same p pid b s : quiet p pid s -> resumed p b (k_procs s) = k_procs s.
Proof.
  intros Hq. apply list_eq. intros j. unfold resumed, woken. destruct (decide (j = p)) as [->|Hne].
  - rewrite !list_lookup_alter_eq, list_lookup_imap, list_lookup_alter_eq.
    destruct (k_procs s !! p) as [q|] eqn:E; [|done]. cbn. f_equal.
    pose proof (q_run _ _ _ Hq) as Hr. pose proof (q_chan _ _ _ Hq) as Hch.
    rewrite (get_proc_lookup _ _ _ E) in Hr, Hch. unfold wake, asleep.
    rewrite (bool_decide_false (Some p = None)) by done. cbn. rewrite !bool_decide_true by done. cbn. destruct q. cbn in *. by subst.
  - rewrite !list_lookup_alter_ne by done. rewrite list_lookup_imap, list_lookup_alter_ne by done.
    destruct (k_procs s !! j) as [q|] eqn:E; [|done]. cbn. f_equal.
    rewrite (bool_decide_false (Some j = None)) by done. unfold wake.
    destruct (bool_decide (p_state q = SLEEPING)) eqn:E1; [|done].
    destruct (bool_decide (p_chan q = Some (Ch_buf b))) eqn:E2; [|done].
    apply bool_decide_eq_true in E1, E2. by pose proof (q_awake _ _ _ Hq j q _ E E1 E2).
Qed.

Lemma may_sched_quiet p pid s : quiet p pid s -> may_sched p s.
Proof.
  intros Hq. split; [apply (q_cpu _ _ _ Hq)|]. split; [apply (q_cur _ _ _ Hq)|].
  split; [apply (q_noff _ _ _ Hq)|]. apply (q_plock _ _ _ Hq), (q_lt _ _ _ Hq).
Qed.

(** No process runs on this hart. *)
Definition idle_cpu s : kstate fsys := upd_cpu (set_c_proc None) s.

Lemma settle_idle s : settle s = s -> settle (idle_cpu s) = idle_cpu s.
Proof.
  intros H. transitivity (idle_cpu (settle s)); [|by rewrite H].
  apply kstate_ext; try reflexivity. cbn. rewrite !list_alter_alter. by apply list_alter_ext'.
Qed.

Lemma others_free_idle p pid s f : quiet p pid s -> others_free None (upd_proc p f (idle_cpu s)).
Proof.
  intros Hq. destruct (q_cpu _ _ _ Hq) as (Hh & Hn & Hs). split; [|split].
  - unfold cpu_ok. change (get_cpu (upd_proc p f (idle_cpu s))) with (get_cpu (idle_cpu s)).
    unfold idle_cpu. rewrite get_cpu_upd by done. cbn. by rewrite length_alter.
  - unfold cur. change (get_cpu (upd_proc p f (idle_cpu s))) with (get_cpu (idle_cpu s)).
    unfold idle_cpu. by rewrite get_cpu_upd.
  - intros i Hi _. by apply (q_plock _ _ _ Hq).
Qed.

(** The state when the scheduler has run [p] again. *)
Definition back (p b : nat) (f : fsys) s : kstate fsys :=
  running p (set_k_procs (woken None (Some (Ch_buf b)) (alter (asleep (Ch_buf b)) p (k_procs s)))
    (set_k_fs f (upd_proc p (asleep (Ch_buf b)) (idle_cpu s)))).

Lemma disk_world_run p pid b s :
  quiet p pid s -> one_done (device (k_fs s)) b ->
  disk_world (hold (L_proc p) (upd_proc p (asleep (Ch_buf b)) s)) =
    hold (L_proc p) (back p b (seen b (device (k_fs s))) s).
Proof.
  intros Hq Hd. unfold disk_world. pose proof (q_cpu _ _ _ Hq) as Hok.
  rewrite cur_hold by done. change (cur (upd_proc p (asleep (Ch_buf b)) s)) with (cur s).
  rewrite (q_cur _ _ _ Hq). set (sa := upd_proc p (asleep (Ch_buf b)) (idle_cpu s)).
  assert (others_free None sa) as Ho by by eapply others_free_idle.
  assert ((modify (upd_cpu (set_c_proc None)) ;; release (L_proc p))
            (hold (L_proc p) (upd_proc p (asleep (Ch_buf b)) s)) = Ret tt sa) as E1.
  { rewrite kbind_modify, hold_upd_cpu_proc.
    change (upd_cpu (set_c_proc None) (upd_proc p (asleep (Ch_buf b)) s)) with sa.
    rewrite release_hold; [|apply Ho|by apply (q_plock _ _ _ Hq), (q_lt _ _ _ Hq)]. f_equal.
    transitivity (upd_proc p (asleep (Ch_buf b)) (settle (idle_cpu s))); [done|].
    by rewrite settle_idle by apply (q_settled _ _ _ Hq). }
  rewrite (kbind_Ret _ _ _ _ _ E1). unfold fs_modify. rewrite kbind_modify.
  change (k_fs sa) with (k_fs s). set (sb := set_k_fs (device (k_fs s)) sa).
  assert (virtio_disk_intr sb = Ret tt (set_k_procs (woken None (Some (Ch_buf b)) (k_procs sb))
    (set_k_fs (seen b (k_fs sb)) sb))) as E2.
  { apply intr_run; [exact Ho|by apply (q_lock _ _ _ Hq)| | |exact Hd].
    - transitivity (set_k_fs (device (k_fs s)) (upd_proc p (asleep (Ch_buf b)) (settle (idle_cpu s)))); [done|].
      by rewrite settle_idle by apply (q_settled _ _ _ Hq).
    - cbn. rewrite length_alter. apply (q_procs _ _ _ Hq). }
  rewrite (kbind_Ret _ _ _ _ _ E2). set (sc := set_k_procs _ _).
  rewrite scheduler_one_run; [done|split; [apply Ho|intros i Hi; by apply (q_plock _ _ _ Hq)]|apply (q_lt _ _ _ Hq)|].
  unfold sc, get_proc. cbn. unfold woken. rewrite list_lookup_imap, list_lookup_alter_eq.
  destruct (lookup_lt_is_Some_2 (k_procs s) p) as [q Eq]; [rewrite (q_procs _ _ _ Hq); apply (q_lt _ _ _ Hq)|].
  rewrite Eq. cbn. rewrite (bool_decide_false (Some p = None)) by done.
  unfold wake, asleep. cbn. by rewrite !bool_decide_true.
Qed.

Lemma eval_sleep_disk p pid b f :
  one_done (device f) b ->
  eval p pid [L_vdisk] (sleep (Ch_buf b) L_vdisk) [L_vdisk] f tt (seen b (device f)).
Proof.
  intros Hd s Hq <-. cbn [holds].
  pose proof (may_sched_quiet _ _ _ Hq) as Hm.
  rewrite (sleep_spec p); [|done|by apply (q_lock _ _ _ Hq)|done|rewrite (q_procs _ _ _ Hq); apply (q_lt _ _ _ Hq)].
  constructor. unfold world. rewrite (disk_world_run p pid) by done.
  assert (may_sched p (back p b (seen b (device (k_fs s))) s)) as Hm'.
  { destruct (q_cpu _ _ _ Hq) as (Hh & Hn & Hs). 
    assert (get_cpu (back p b (seen b (device (k_fs s))) s) = set_c_proc (Some p) (set_c_proc None (get_cpu s))) as Eg.
    { unfold back, running. rewrite get_cpu_upd by (cbn; by rewrite length_alter). f_equal.
      change (get_cpu _) with (get_cpu (idle_cpu s)) at 1. unfold idle_cpu. by rewrite get_cpu_upd. }
    split; [|split; [|split]].
    - unfold cpu_ok. rewrite Eg. cbn. by rewrite !length_alter.
    - unfold cur. by rewrite Eg.
    - rewrite Eg. apply (q_noff _ _ _ Hq).
    - by apply (q_plock _ _ _ Hq), (q_lt _ _ _ Hq). }
  rewrite sleep_resume_spec; [|done|by apply (q_lock _ _ _ Hq)].
  assert (upd_proc p (set_p_chan None) (set_k_sie (k_sie s) (back p b (seen b (device (k_fs s))) s)) =
    set_k_fs (seen b (device (k_fs s))) s) as ->; [|constructor].
  apply kstate_ext; try reflexivity.
  - cbn. rewrite !list_alter_alter. apply list_alter_id'. intros c Hc.
    pose proof (q_cur _ _ _ Hq) as Hcur. unfold cur, get_cpu in Hcur. rewrite Hc in Hcur. cbn in Hcur.
    destruct c. cbn in *. by subst.
  - apply (resumed_same p pid b s Hq).
Qed.

(** *** virtio_disk_rw() *)

(** The driver between requests. *)
Record vd_ok (w : vdisk) : Prop := {
  v_free : vd_free w = replicate NUM true;
  v_desc : length (vd_desc w) = NUM;
  v_avail_ring : length (vd_avail_ring w) = NUM;
  v_used_ring : length (vd_used_ring w) = NUM;
  v_info_b : length (vd_info_b w) = NUM;
  v_status : length (vd_info_status w) = NUM;
  v_ops : length (vd_ops w) = NUM;
  v_used : vd_used_idx w = vd_used_dev w;
  v_avail : vd_avail_idx w = vd_used_dev w;
  v_range : 0 <= vd_used_dev w < 2 ^ 16
}.

Lemma eval_vd_gets {A} p pid H (g : vdisk -> A) f : eval p pid H (vd_gets g) H f (g (fs_vdisk f)) f.
Proof. apply eval_gets. Qed.

Lemma eval_vd_modify p pid H g f : eval p pid H (vd_modify g) H f tt (upd_vdisk g f).
Proof. apply eval_modify. Qed.

Definition taken (n : nat) : list bool := replicate n false ++ replicate (NUM - n) true.

Lemma eval_alloc_desc p pid f n :
  (n < 3)%nat -> vd_free (fs_vdisk f) = taken n ->
  eval p pid [L_vdisk] alloc_desc [L_vdisk] f (Some n) (upd_vdisk (set_vd_free (taken (S n))) f).
Proof.
  intros Hn E. unfold alloc_desc. eapply eval_bind; [apply eval_vd_gets|]. cbn beta. rewrite E.
  destruct n as [|[|[|]]]; [| | |lia]; cbn [first_free taken replicate app Nat.sub NUM];
    (eapply eval_bind; [|apply eval_ret]);
    match goal with |- eval _ _ _ (vd_modify ?g) _ _ _ (upd_vdisk ?h _) =>
      assert (upd_vdisk g f = upd_vdisk h f) as <-; [|apply eval_vd_modify] end;
    unfold upd_vdisk; f_equal; by rewrite E.
Qed.

Lemma eval_alloc_wait p pid f k :
  vd_free (fs_vdisk f) = taken 0 ->
  eval p pid [L_vdisk] (alloc_wait (S k)) [L_vdisk] f (0%nat, 1%nat, 2%nat) (upd_vdisk (set_vd_free (taken 3)) f).
Proof.
  intros E. cbn [alloc_wait]. eapply (eval_bind _ _ _ _ _ _ _ _ (Some (0%nat, 1%nat, 2%nat))); [|apply eval_ret].
  unfold alloc3_desc. eapply eval_bind; [apply (eval_alloc_desc _ _ _ 0); [lia|done]|]. cbn match.
  eapply eval_bind; [apply (eval_alloc_desc _ _ _ 1); [lia|done]|]. cbn match.
  eapply eval_bind; [apply (eval_alloc_desc _ _ _ 2); [lia|done]|]. cbn match. apply eval_ret.
Qed.

Definition freed (i : nat) (w : vdisk) : vdisk :=
  set_vd_free (<[i := true]> (vd_free w)) (upd_desc i (fun _ => zero_desc) w).

Lemma eval_free_desc p pid f i :
  (i < NUM)%nat -> nth i (vd_free (fs_vdisk f)) false = false ->
  eval p pid [L_vdisk] (free_desc i) [L_vdisk] f tt (upd_vdisk (freed i) f).
Proof.
  intros Hi E. unfold free_desc. rewrite (proj2 (Nat.leb_gt NUM i)) by done.
  eapply eval_bind; [apply eval_vd_gets|]. cbn beta. rewrite E.
  eapply eval_bind; [apply eval_vd_modify|]. eapply eval_bind; [apply eval_vd_modify|]. cbn beta.
  apply eval_wakeup; [done|intros j; not_in].
Qed.

Lemma get_desc_Some w i d : vd_desc w !! i = Some d -> get_desc i w = d.
Proof. intros E. unfold get_desc. by rewrite E. Qed.

Lemma eval_free_chain p pid f d0 d1 d2 :
  vd_free (fs_vdisk f) = taken 3 ->
  vd_desc (fs_vdisk f) !! 0%nat = Some d0 -> vd_desc (fs_vdisk f) !! 1%nat = Some d1 ->
  vd_desc (fs_vdisk f) !! 2%nat = Some d2 ->
  Z.land (d_flags d0) VRING_DESC_F_NEXT <> 0 -> d_next d0 = 1 ->
  Z.land (d_flags d1) VRING_DESC_F_NEXT <> 0 -> d_next d1 = 2 ->
  Z.land (d_flags d2) VRING_DESC_F_NEXT = 0 ->
  eval p pid [L_vdisk] (free_chain 0) [L_vdisk] f tt
    (upd_vdisk (freed 2) (upd_vdisk (freed 1) (upd_vdisk (freed 0) f))).
Proof.
  intros Ef E0 E1 E2 F0 N0 F1 N1 F2. unfold free_chain, NUM. cbn [free_chain_loop].
  eapply eval_bind; [apply eval_vd_gets|]. cbn beta. rewrite (get_desc_Some _ _ _ E0).
  eapply eval_bind; [apply eval_free_desc; [unfold NUM; lia|by rewrite Ef]|].
  rewrite (proj2 (Z.eqb_neq _ 0) F0), N0. cbn [negb]. change (Z.to_nat 1) with 1%nat.
  eapply eval_bind; [apply eval_vd_gets|]. cbn beta. rewrite (get_desc_Some _ _ d1).
  2: { cbn. by rewrite list_lookup_alter_ne. }
  eapply eval_bind; [apply eval_free_desc; [unfold NUM; lia|cbn; by rewrite Ef]|].
  rewrite (proj2 (Z.eqb_neq _ 0) F1), N1. cbn [negb]. change (Z.to_nat 2) with 2%nat.
  eapply eval_bind; [apply eval_vd_gets|]. cbn beta. rewrite (get_desc_Some _ _ d2).
  2: { cbn. by rewrite !list_lookup_alter_ne. }
  eapply eval_bind; [apply eval_free_desc; [unfold NUM; lia|cbn; by rewrite Ef]|].
  rewrite F2. apply eval_ret.
Qed.

(** The driver's state once the request is made available, and after it. *)
Definition requested (write : bool) (b : nat) (n : Z) (w : vdisk) : vdisk :=
  make_avail 0 (set_vd_info_b (<[0%nat := Some b]> (vd_info_b w))
    (format_req b write (2 * n) 0 1 2 (set_vd_free (taken 3) w))).

Definition finished (write : bool) (b : nat) (n : Z) (w : vdisk) : vdisk :=
  let w := complete 0 (requested write b n w) in
  let w := set_vd_used_idx (u16 (vd_used_idx w + 1)) w in
  let w := set_vd_info_b (<[0%nat := None]> (vd_info_b w)) w in
  freed 2 (freed 1 (freed 0 w)).

Lemma requested_ok write b n w : vd_ok w -> is_request (requested write b n w) write b n 0 1 2.
Proof.
  intros [_ Hd _ _ _ _ Ho _ _ _]. unfold NUM in *.
  destruct (lookup_lt_is_Some_2 (vd_desc w) 0) as [d0 E0]; [lia|].
  destruct (lookup_lt_is_Some_2 (vd_desc w) 1) as [d1 E1]; [lia|].
  destruct (lookup_lt_is_Some_2 (vd_desc w) 2) as [d2 E2]; [lia|].
  destruct (lookup_lt_is_Some_2 (vd_ops w) 0) as [o0 Eo]; [lia|].
  split; cbn.
  - by rewrite list_lookup_alter_eq, Eo.
  - by rewrite !list_lookup_alter_ne, list_lookup_alter_eq, E0 by done.
  - by rewrite list_lookup_alter_ne, list_lookup_alter_eq, list_lookup_alter_ne, E1 by done.
  - by rewrite list_lookup_alter_eq, !list_lookup_alter_ne, E2 by done.
Qed.

Lemma finished_ok write b n w : vd_ok w -> vd_ok (finished write b n w).
Proof.
  intros [Hf Hd Har Hur Hb Hs Ho Hu Ha Hr].
  split; cbn; rewrite ?length_alter, ?length_insert, ?length_alter, ?length_insert; try done.
  - by rewrite Hu.
  - by rewrite Ha.
  - apply Z.mod_pos_bound. lia.
Qed.

Definition transfer (write : bool) (b : nat) (n : Z) (f : fsys) : fsys :=
  if write then disk_write n (b_data (get_buf b f)) (upd_buf b (set_b_disk 0) f)
  else upd_buf b (fun x => set_b_disk 0 (set_b_data (disk_block n f) x)) f.

Lemma requested_state write b n f :
  upd_vdisk (make_avail 0) (upd_vdisk (fun w => set_vd_info_b (<[0%nat := Some b]> (vd_info_b w)) w)
    (upd_buf b (set_b_disk 1) (upd_vdisk (format_req b write (2 * n) 0 1 2) (upd_vdisk (set_vd_free (taken 3)) f)))) =
  set_fs_vdisk (requested write b n (fs_vdisk f)) (upd_buf b (set_b_disk 1) f).
Proof.
  unfold upd_vdisk, upd_buf, requested, make_avail, format_req, upd_desc, upd_op. cbn. reflexivity.
Qed.

Lemma vd_vd g w f : upd_vdisk g (set_fs_vdisk w f) = set_fs_vdisk (g w) f.
Proof. done. Qed.

Lemma buf_vd b h w f : upd_buf b h (set_fs_vdisk w f) = set_fs_vdisk w (upd_buf b h f).
Proof. done. Qed.

Lemma dw_vd n d w f : disk_write n d (set_fs_vdisk w f) = set_fs_vdisk w (disk_write n d f).
Proof. done. Qed.

Lemma buf_dw b h n d f : upd_buf b h (disk_write n d f) = disk_write n d (upd_buf b h f).
Proof. done. Qed.

Lemma upd_buf_ext b g h f : (forall x, g x = h x) -> upd_buf b g f = upd_buf b h f.
Proof. intros H. unfold upd_buf. f_equal. by apply list_alter_ext'. Qed.

Lemma eval_virtio_disk_rw p pid b f write :
  (b < length (fs_bufs f))%nat -> vd_ok (fs_vdisk f) -> 0 <= b_blockno (get_buf b f) < 2 ^ 31 ->
  let n := b_blockno (get_buf b f) in
  eval p pid [] (Virtio.virtio_disk_rw b write) [] f tt
    (set_fs_vdisk (finished write b n (fs_vdisk f)) (transfer write b n f)).
Proof.
  intros Hb Hok Hn n. pose proof Hok as [Hf Hd Har Hur Hib Hs Ho Hu Ha Hr].
  remember (requested write b n (fs_vdisk f)) as w eqn:Hw.
  set (f5 := set_fs_vdisk w (upd_buf b (set_b_disk 1) f)).
  assert (device f5 = upd_vdisk (complete 0) (if write then disk_write n (b_data (get_buf b f5)) f5
       else upd_buf b (set_b_data (disk_block n f5)) f5)) as Edev.
  { apply (device_request f5 write b n 0 1 2).
    - subst w. by apply requested_ok.
    - subst w. cbn. by rewrite Ha.
    - subst w. cbn. rewrite Ha. apply list_lookup_insert_eq. rewrite Har. unfold NUM.
      pose proof (Z.mod_pos_bound (vd_used_dev (fs_vdisk f)) 8). lia. }
  assert (fs_vdisk (device f5) = complete 0 w) as Ew by (rewrite Edev; by destruct write).
  assert (one_done (device f5) b) as Hone.
  { split; rewrite Ew, Hw; cbn; rewrite ?Hu; [done|done|]. exists 0%nat. split; [|split].
    - rewrite nth_lookup, list_lookup_insert_eq; [done|]. rewrite Hur. unfold NUM.
      pose proof (Z.mod_pos_bound (vd_used_dev (fs_vdisk f)) 8). lia.
    - rewrite nth_lookup, list_lookup_insert_eq; [done|]. rewrite length_insert, Hs. unfold NUM. lia.
    - rewrite nth_lookup, list_lookup_insert_eq; [done|]. rewrite Hib. unfold NUM. lia. }
  assert (vd_free w = taken 3) as Efr by by rewrite Hw.
  destruct (requested_ok write b n (fs_vdisk f) Hok) as [_ R0 R1 R2]. rewrite <- Hw in R0, R1, R2.
  unfold Virtio.virtio_disk_rw. eapply eval_bind; [apply eval_gets|]. cbn beta zeta. fold n.
  replace (u32 (n * (BSIZE / 512))) with (2 * n)
    by (change (BSIZE / 512) with 2; rewrite u32_small by lia; lia).
  eapply eval_bind; [apply eval_acquire; [done|not_in]|]. cbn beta.
  eapply eval_bind; [by apply eval_alloc_wait|]. cbn match.
  eapply eval_bind; [apply eval_vd_modify|]. eapply eval_bind; [apply eval_modify|].
  eapply eval_bind; [apply eval_vd_modify|]. eapply eval_bind; [apply eval_vd_modify|]. cbn beta.
  rewrite requested_state, <- Hw. fold f5.
  eapply eval_bind.
  { change (done_wait (S (S fuel)) b) with (d <- fs_gets (fun f => b_disk (get_buf b f)) ;;
      if d =? 1 then sleep (Ch_buf b) L_vdisk ;; done_wait (S fuel) b else ret tt).
    eapply eval_bind; [apply eval_gets|]. cbn beta.
    assert (b_disk (get_buf b f5) = 1) as ->.
    { change (get_buf b f5) with (get_buf b (upd_buf b (set_b_disk 1) f)). by rewrite get_buf_upd, decide_True. }
    change (1 =? 1) with true. cbn match. eapply eval_bind; [by apply eval_sleep_disk|].
    cbn [done_wait]. eapply eval_bind; [apply eval_gets|]. cbn beta.
    assert (b_disk (get_buf b (seen b (device f5))) = 0) as ->; [|apply eval_ret].
    unfold seen. change (get_buf b (upd_vdisk ?g ?x)) with (get_buf b x).
    rewrite get_buf_upd; [by rewrite decide_True|]. rewrite Edev. destruct write; cbn; by rewrite !length_alter. }
  eapply eval_bind; [apply eval_vd_modify|]. cbn beta.
  eapply eval_bind.
  { match goal with |- eval _ _ _ _ _ ?g _ _ =>
      assert (vd_free (fs_vdisk g) = vd_free w /\ vd_desc (fs_vdisk g) = vd_desc w) as [G1 G2]
        by (unfold seen; cbn; by rewrite Ew) end.
    rewrite <- G2 in R0, R1, R2.
    eapply eval_free_chain; [by rewrite G1|exact R0|exact R1|exact R2|done|done|by destruct write|done|done]. }
  cbn beta. set (f9 := upd_vdisk (freed 2) _).
  assert (f9 = set_fs_vdisk (finished write b n (fs_vdisk f)) (transfer write b n f)) as ->;
    [|apply eval_release; [done|not_in]].
  assert (b_data (get_buf b f5) = b_data (get_buf b f)) as Ed.
  { change (get_buf b f5) with (get_buf b (upd_buf b (set_b_disk 1) f)). by rewrite get_buf_upd, decide_True. }
  unfold f9, seen, finished, transfer. cbn zeta. rewrite Edev, <- Hw, Ed. unfold f5.
  destruct write; rewrite ?dw_vd, ?buf_vd, ?vd_vd, ?buf_vd, ?vd_vd, ?buf_dw, !upd_buf_upd; repeat f_equal;
    by apply upd_buf_ext.
Qed.

Lemma virtio_read p pid b f :
  (b < length (fs_bufs f))%nat -> vd_ok (fs_vdisk f) -> 0 <= b_blockno (get_buf b f) < 2 ^ 31 ->
  exists v, vd_ok v /\ eval p pid [] (Virtio.virtio_disk_rw b false) [] f tt
    (set_fs_vdisk v (transfer false b (b_blockno (get_buf b f)) f)).
Proof.
  intros Hb Hok Hn. eexists. split; [|exact (eval_virtio_disk_rw p pid b f false Hb Hok Hn)]. by apply finished_ok.
Qed.

Lemma virtio_write p pid b f :
  (b < length (fs_bufs f))%nat -> vd_ok (fs_vdisk f) -> 0 <= b_blockno (get_buf b f) < 2 ^ 31 ->
  exists v, vd_ok v /\ eval p pid [] (Virtio.virtio_disk_rw b true) [] f tt
    (set_fs_vdisk v (transfer true b (b_blockno (get_buf b f)) f)).
Proof.
  intros Hb Hok Hn. eexists. split; [|exact (eval_virtio_disk_rw p pid b f true Hb Hok Hn)]. by apply finished_ok.
Qed.

#[export] Instance virtio_dev_ok : BlockDevOk virtio_dev :=
  {| dev_ok := vd_ok; dev_read := virtio_read; dev_write := virtio_write |}.

(** C8: the disk driver and the device behind it form a disk: virtio_disk_rw()
    puts the request in three free descriptors, sleeps until the interrupt handler
    has seen its completion, and frees the descriptors; a block written from one
    buffer is what a later read of the same block puts in another, no other
    buffer's data and no other block change, and the driver is idle again. *)
Theorem disk_write_read p pid b b' f :
  (b < length (fs_bufs f))%nat -> (b' < length (fs_bufs f))%nat -> b <> b' -> vd_ok (fs_vdisk f) ->
  0 <= b_blockno (get_buf b f) < 2 ^ 31 -> b_blockno (get_buf b' f) = b_blockno (get_buf b f) ->
  exists f', eval p pid [] (Virtio.virtio_disk_rw b true ;; Virtio.virtio_disk_rw b' false) [] f tt f' /\
    b_data (get_buf b' f') = b_data (get_buf b f) /\ vd_ok (fs_vdisk f') /\
    (forall n, disk_block n f' = if decide (n = b_blockno (get_buf b f)) then b_data (get_buf b f) else disk_block n f) /\
    (forall i, i <> b' -> b_data (get_buf i f') = b_data (get_buf i f)) /\
    b_disk (get_buf b f') = 0 /\ b_disk (get_buf b' f') = 0.
Proof.
  intros Hb Hb' Hne Hok Hn En. destruct (virtio_write p pid b f Hb Hok Hn) as (v & Hv & E1).
  set (n := b_blockno (get_buf b f)) in *. set (f1 := set_fs_vdisk v (transfer true b n f)) in *.
  assert (forall i, get_buf i f1 = if decide (i = b) then set_b_disk 0 (get_buf i f) else get_buf i f) as Eg.
  { intros i. change (get_buf i f1) with (get_buf i (upd_buf b (set_b_disk 0) f)). by apply get_buf_upd. }
  assert (get_buf b' f1 = get_buf b' f) as Eg' by (by rewrite Eg, decide_False).
  assert (length (fs_bufs f1) = length (fs_bufs f)) as El by apply length_upd_buf.
  destruct (virtio_read p pid b' f1) as (v2 & Hv2 & E2); [by rewrite El|done|by rewrite Eg', En|].
  rewrite Eg', En in E2. set (f2 := set_fs_vdisk v2 (transfer false b' n f1)) in *.
  assert (forall m, disk_block m f1 = if decide (m = n) then b_data (get_buf b f) else disk_block m f) as Ed.
  { intros m. change (disk_block m f1) with (default ∅ (<[n := b_data (get_buf b f)]> (fs_disk f) !! m)).
    case_decide as E; [by rewrite E, lookup_insert_eq|by rewrite lookup_insert_ne]. }
  assert (forall i, get_buf i f2 =
    if decide (i = b') then set_b_disk 0 (set_b_data (disk_block n f1) (get_buf i f1)) else get_buf i f1) as Eg2.
  { intros i. change (get_buf i f2) with
      (get_buf i (upd_buf b' (fun x => set_b_disk 0 (set_b_data (disk_block n f1) x)) f1)).
    apply get_buf_upd. by rewrite El. }
  exists f2. split; [by eapply eval_bind|]. rewrite !Eg2, decide_True, decide_False by done.
  split; [cbn; by rewrite Ed, decide_True|]. split; [done|]. split; [exact Ed|]. split; [|split].
  - intros i Hi. rewrite Eg2, decide_False, Eg by done. by case_decide; subst.
  - by rewrite Eg, decide_True.
  - done.
Qed.
End Spec.
