(* ===== verification/SysArgs.v ===== *)
(** kernel/syscall.c: the arguments of a system call, from the trap frame and
    the memory of the calling process. *)
From S2P Require Import Prelude Riscv Machine Spinlock KString Kalloc Vm Sched Keeps FsIface File Proc.
From S2P Require Import FsState.

(** The little-endian value of the [n] bytes at [off]. *)
Fixpoint le_val (bs : list Z) : Z :=
  match bs with
  | [] => 0
  | b :: bs => b + 2 ^ 8 * le_val bs
  end.
Definition field (bs : list Z) (off n : nat) : Z := le_val (take n (drop off bs)).

Section Ops.
Context `{L : Layout}.
Abbreviation KM := (K (kstate fsys)).

(** fetchaddr(addr, &x): [None] for -1. *)
Definition fetchaddr (addr : Z) : KM (option Z) :=
  p <- curproc ;;
  q <- gets (get_proc p) ;;
  if (addr >=? p_sz q) || (u64 (addr + 8) >? p_sz q) then ret None else
  r <- copyin (p_pagetable q) addr 8 ;;
  if negb (r.1 =? 0) then ret None else ret (Some (le_val r.2)).

(** fetchstr(addr, buf, max): the result, and the bytes stored to [buf]. *)
Definition fetchstr (addr max : Z) : KM (Z * list Z) :=
  p <- curproc ;;
  pt <- gets (fun s => p_pagetable (get_proc p s)) ;;
  r <- copyinstr pt addr max ;;
  if r.1 <? 0 then ret (-1, r.2) else
  match strlen (S (length r.2)) (in_buf r.2) with
  | Some n => ret (Z.of_nat n, r.2)
  | None => out_of_fuel
  end.

Definition argraw (n : Z) : KM Z :=
  p <- curproc ;;
  if n =? 0 then tf_get p TF_a0 else
  if n =? 1 then tf_get p TF_a1 else
  if n =? 2 then tf_get p TF_a2 else
  if n =? 3 then tf_get p TF_a3 else
  if n =? 4 then tf_get p TF_a4 else
  if n =? 5 then tf_get p TF_a5 else
  panic "argraw".

(** argint() and argaddr() never fail. *)
Definition argint (n : Z) : KM Z := x <- argraw n ;; ret (s32 x).
Definition argaddr (n : Z) : KM Z := argraw n.

Definition argstr (n max : Z) : KM (Z * list Z) :=
  addr <- argaddr n ;;
  fetchstr addr max.
End Ops.
