(* ===== verification/Exec.v ===== *)
(** kernel/exec.c: replacing the memory image of a process by a program. *)
From S2P Require Import Prelude Riscv Machine Spinlock KString Kalloc Vm Sched Keeps FsIface File Proc.
From S2P Require Import FsState Quiet Sleeplock Bio Log Console Fs SysArgs.

Abbreviation ELF_MAGIC := (0x464C457F).
Abbreviation ELF_PROG_LOAD := (1).

(** struct elfhdr and struct proghdr in the bytes read from the file. *)
Definition sizeof_elfhdr : Z := 64.
Abbreviation elf_magic h := (field h 0 4) (only parsing).
Abbreviation elf_entry h := (field h 24 8) (only parsing).
Abbreviation elf_phoff h := (field h 32 8) (only parsing).
Abbreviation elf_phnum h := (field h 56 2) (only parsing).

Definition sizeof_proghdr : Z := 56.
Abbreviation ph_type h := (field h 0 4) (only parsing).
Abbreviation ph_flags h := (field h 4 4) (only parsing).
Abbreviation ph_off h := (field h 8 8) (only parsing).
Abbreviation ph_vaddr h := (field h 16 8) (only parsing).
Abbreviation ph_filesz h := (field h 32 8) (only parsing).
Abbreviation ph_memsz h := (field h 40 8) (only parsing).

Definition flags2perm (flags : Z) : Z :=
  Z.lor (if Z.land flags 1 =? 0 then 0 else PTE_X) (if Z.land flags 2 =? 0 then 0 else PTE_W).

(** The tests on a program header. *)
Definition ph_bad (ph : list Z) : bool :=
  (ph_memsz ph <? ph_filesz ph) || (u64 (ph_vaddr ph + ph_memsz ph) <? ph_vaddr ph) ||
  negb (ph_vaddr ph `mod` PGSIZE =? 0).

(** for(last=s=path; *s; s++) if( *s == '/') last = s+1; *)
Fixpoint last_elem (s last : list Z) : list Z :=
  match s with
  | [] => last
  | c :: s => if c =? 0 then last else last_elem s (if c =? slash then s else last)
  end.

(** The C string at [a]: the bytes before the first NUL. *)
Fixpoint read_cstr (m : memory) (a : Z) (n : nat) : list Z :=
  match n with
  | O => []
  | S n => if ld8 m a =? 0 then [] else ld8 m a :: read_cstr m (a + 1) n
  end.

Section Ops.
Context `{L : Layout} `{Fuel0 : Fuel} `{Dev : BlockDev}.
Abbreviation KM := (K (kstate fsys)).

Fixpoint loadseg_loop (k : nat) (pagetable va : Z) (ip : nat) (offset sz i : Z) : KM Z :=
  match k with
  | O => out_of_fuel
  | S k =>
      if negb (i <? sz) then ret 0 else
      pa <- walkaddr pagetable (u64 (va + i)) ;;
      if pa =? 0 then panic "loadseg: address should exist" else
      let n := if sz - i <? PGSIZE then sz - i else PGSIZE in
      r <- readi ip false pa (u32 (offset + i)) n ;;
      if negb (r =? n) then ret (-1)
      else loadseg_loop k pagetable va ip offset sz (u32 (i + PGSIZE))
  end.

Definition loadseg (pagetable va : Z) (ip : nat) (offset sz : Z) : KM Z :=
  loadseg_loop (S (S (Z.to_nat (sz / PGSIZE)))) pagetable va ip offset sz 0.

(** for(i=0, off=elf.phoff; i<elf.phnum; i++, off+=sizeof(ph)): the size reached,
    and whether all went well. *)
Fixpoint load_segments (k : nat) (pagetable : Z) (ip : nat) (off sz : Z) : KM (Z * bool) :=
  match k with
  | O => ret (sz, true)
  | S k =>
      r <- readi_local ip (u32 off) sizeof_proghdr ;;
      if negb (r.1 =? sizeof_proghdr) then ret (sz, false) else
      let ph := r.2 in
      let next := s32 (off + sizeof_proghdr) in
      if negb (ph_type ph =? ELF_PROG_LOAD) then load_segments k pagetable ip next sz else
      if ph_bad ph then ret (sz, false) else
      sz1 <- uvmalloc pagetable sz (u64 (ph_vaddr ph + ph_memsz ph)) (flags2perm (ph_flags ph)) ;;
      if sz1 =? 0 then ret (sz, false) else
      r <- loadseg pagetable (ph_vaddr ph) ip (u32 (ph_off ph)) (u32 (ph_filesz ph)) ;;
      if r <? 0 then ret (sz1, false) else load_segments k pagetable ip next sz1
  end.

(** for(argc = 0; argv[argc]; argc++): the stack pointer and ustack[0..argc), or
    [None] for goto bad. *)
Fixpoint push_args (argv : list Z) (argc pagetable sp stackbase : Z) (ustack : list Z) :
    KM (option (Z * list Z)) :=
  match argv with
  | [] => ret (Some (sp, ustack))
  | a :: argv =>
      if a =? 0 then ret (Some (sp, ustack)) else
      if argc >=? MAXARG then ret None else
      s <- gets (fun s => read_cstr (k_mem s) a (Z.to_nat PGSIZE)) ;;
      let sp := u64 (sp - (Z.of_nat (length s) + 1)) in
      let sp := sp - sp `mod` 16 in
      if sp <? stackbase then ret None else
      r <- copyout pagetable sp (s ++ [0]) ;;
      if r <? 0 then ret None
      else push_args argv (argc + 1) pagetable sp stackbase (ustack ++ [sp])
  end.

(** bad: once the page table exists and the inode is released. *)
Definition exec_bad (pagetable sz : Z) : KM Z :=
  proc_freepagetable pagetable sz ;; ret (-1).

(** The second half: the stack, the arguments and the commit. *)
Definition exec_commit (path argv : list Z) (pagetable sz entry : Z) : KM Z :=
  p <- curproc ;;
  oldsz <- gets (fun s => p_sz (get_proc p s)) ;;
  let sz := PGROUNDUP sz in
  sz1 <- uvmalloc pagetable sz (u64 (sz + 2 * PGSIZE)) PTE_W ;;
  if sz1 =? 0 then exec_bad pagetable sz else
  let sz := sz1 in
  uvmclear pagetable (u64 (sz - 2 * PGSIZE)) ;;
  let stackbase := u64 (sz - PGSIZE) in
  r <- push_args argv 0 pagetable sz stackbase [] ;;
  match r with
  | None => exec_bad pagetable sz
  | Some (sp, ustack) =>
      let argc := Z.of_nat (length ustack) in
      let sp := u64 (sp - (argc + 1) * 8) in
      let sp := sp - sp `mod` 16 in
      if sp <? stackbase then exec_bad pagetable sz else
      r <- copyout pagetable sp (flat_map (le_bytes 8) (ustack ++ [0])) ;;
      if r <? 0 then exec_bad pagetable sz else
      tf_set p TF_a1 sp ;;
      modify (upd_proc p (fun q => set_p_name (safestrcpy (p_name q) (in_buf (last_elem path path)) 16) q)) ;;
      oldpagetable <- gets (fun s => p_pagetable (get_proc p s)) ;;
      modify (upd_proc p (set_p_pagetable pagetable)) ;;
      modify (upd_proc p (set_p_sz sz)) ;;
      tf_set p TF_epc entry ;;
      tf_set p TF_sp sp ;;
      proc_freepagetable oldpagetable oldsz ;;
      ret argc
  end.

(** exec(path, argv): [argv] holds the addresses of the argument strings. *)
Definition exec (path argv : list Z) : KM Z :=
  p <- curproc ;;
  modify (upd_proc p (fun q => set_p_top_pid (p_pid q) q)) ;;
  begin_op ;;
  r <- namei path ;;
  match r with
  | None => end_op ;; ret (-1)
  | Some ip =>
      ilock ip ;;
      r <- readi_local ip 0 sizeof_elfhdr ;;
      let elf := r.2 in
      if negb (r.1 =? sizeof_elfhdr) || negb (elf_magic elf =? ELF_MAGIC)
      then iunlockput ip ;; end_op ;; ret (-1) else
      pagetable <- proc_pagetable p ;;
      if pagetable =? 0 then iunlockput ip ;; end_op ;; ret (-1) else
      r <- load_segments (Z.to_nat (elf_phnum elf)) pagetable ip (s32 (elf_phoff elf)) 0 ;;
      if negb r.2 then
        proc_freepagetable pagetable r.1 ;;
        iunlockput ip ;;
        end_op ;;
        ret (-1)
      else
      iunlockput ip ;;
      end_op ;;
      exec_commit path argv pagetable r.1 (elf_entry elf)
  end.
End Ops.
