(* ===== verification/Sysfile.v ===== *)
(** kernel/sysfile.c: the system calls on files, as the handlers of kernel/syscall.c
    call them; the result is the value returned. *)
From S2P Require Import Prelude Riscv Machine Spinlock KString Kalloc Vm Sched Keeps FsIface File Proc.
From S2P Require Import FsState Quiet Sleeplock Bio Log Console Fs FsInst SysArgs Exec.

Section Ops.
Context `{L : Layout} `{Fuel0 : Fuel} `{Dev : BlockDev} (stat_pad : list Z).
Abbreviation KM := (K (kstate fsys)).
#[local] Existing Instance fs_ops.

(** The operations of kernel/file.c and kernel/pipe.c on this file system. *)
Abbreviation Ops := (fs_ops stat_pad).

(** argfd(n, &fd, &f): [None] for -1. *)
Definition argfd (n : Z) : KM (option (Z * nat)) :=
  fd <- argint n ;;
  if (fd <? 0) || (fd >=? Z.of_nat NOFILE) then ret None else
  p <- curproc ;;
  f <- gets (fun s => nth (Z.to_nat fd) (p_ofile (get_proc p s)) None) ;;
  ret (match f with Some f => Some (fd, f) | None => None end).

Definition set_ofile (p : nat) (fd : nat) (f : option nat) : KM unit :=
  modify (upd_proc p (fun q => set_p_ofile (<[fd := f]> (p_ofile q)) q)).

Definition fdalloc (f : nat) : KM Z :=
  p <- curproc ;;
  r <- for_find 0 NOFILE (fun fd =>
    x <- gets (fun s => nth fd (p_ofile (get_proc p s)) None) ;;
    match x with
    | None => set_ofile p fd (Some f) ;; ret (Some fd)
    | Some _ => ret None
    end) ;;
  ret (match r with Some fd => Z.of_nat fd | None => -1 end).

Definition sys_dup : KM Z :=
  r <- argfd 0 ;;
  match r with
  | None => ret (-1)
  | Some (_, f) =>
      fd <- fdalloc f ;;
      if fd <? 0 then ret (-1) else
      filedup f ;;
      ret fd
  end.

Definition sys_read : KM Z :=
  p <- argaddr 1 ;;
  n <- argint 2 ;;
  r <- argfd 0 ;;
  match r with
  | None => ret (-1)
  | Some (_, f) => fileread (Fs := Ops) f p n
  end.

Definition sys_write : KM Z :=
  p <- argaddr 1 ;;
  n <- argint 2 ;;
  r <- argfd 0 ;;
  match r with
  | None => ret (-1)
  | Some (_, f) => filewrite (Fs := Ops) f p n
  end.

Definition sys_close : KM Z :=
  r <- argfd 0 ;;
  match r with
  | None => ret (-1)
  | Some (fd, f) =>
      p <- curproc ;;
      set_ofile p (Z.to_nat fd) None ;;
      fileclose (Fs := Ops) f ;;
      ret 0
  end.

Definition sys_fstat : KM Z :=
  st <- argaddr 1 ;;
  r <- argfd 0 ;;
  match r with
  | None => ret (-1)
  | Some (_, f) => filestat (Fs := Ops) f st
  end.

(** The buffer of a name, before skipelem() fills it. *)
Definition name_buf : list Z := replicate DIRSIZ 0.

Definition set_nlink (ip : nat) (g : Z -> Z) : KM unit :=
  fs_modify (upd_inode ip (fun x => set_i_nlink (s16 (g (i_nlink x))) x)).

Definition link_bad (ip : nat) : KM Z :=
  ilock ip ;;
  set_nlink ip (fun n => n - 1) ;;
  iupdate ip ;;
  iunlockput ip ;;
  end_op ;;
  ret (-1).

Definition sys_link : KM Z :=
  old <- argstr 0 MAXPATH ;;
  if old.1 <? 0 then ret (-1) else
  new <- argstr 1 MAXPATH ;;
  if new.1 <? 0 then ret (-1) else
  begin_op ;;
  r <- namei old.2 ;;
  match r with
  | None => end_op ;; ret (-1)
  | Some ip =>
      ilock ip ;;
      type <- ifield i_type ip ;;
      if type =? T_DIR then iunlockput ip ;; end_op ;; ret (-1) else
      set_nlink ip (fun n => n + 1) ;;
      iupdate ip ;;
      iunlock ip ;;
      r <- nameiparent new.2 name_buf ;;
      match r with
      | (None, _) => link_bad ip
      | (Some dp, name) =>
          ilock dp ;;
          ddev <- ifield i_dev dp ;;
          x <- ifield id ip ;;
          bad <- (if negb (ddev =? i_dev x) then ret true
                  else r <- dirlink dp (in_buf name) (i_inum x) ;; ret (r <? 0)) ;;
          if bad : bool then iunlockput dp ;; link_bad ip else
          iunlockput dp ;;
          iput ip ;;
          end_op ;;
          ret 0
      end
  end.

Fixpoint isdirempty_loop (k : nat) (dp : nat) (off : Z) : KM bool :=
  match k with
  | O => out_of_fuel
  | S k =>
      size <- ifield i_size dp ;;
      if negb (off <? size) then ret true else
      r <- readi_local dp (u32 off) sizeof_dirent ;;
      if negb (r.1 =? sizeof_dirent) then panic "isdirempty: readi" else
      if negb (de_inum r.2 =? 0) then ret false
      else isdirempty_loop k dp (off + sizeof_dirent)
  end.

Definition isdirempty (dp : nat) : KM bool :=
  size <- ifield i_size dp ;;
  isdirempty_loop (dir_fuel size) dp (2 * sizeof_dirent).

Definition unlink_bad (dp : nat) : KM Z :=
  iunlockput dp ;;
  end_op ;;
  ret (-1).

Definition sys_unlink : KM Z :=
  path <- argstr 0 MAXPATH ;;
  if path.1 <? 0 then ret (-1) else
  begin_op ;;
  r <- nameiparent path.2 name_buf ;;
  match r with
  | (None, _) => end_op ;; ret (-1)
  | (Some dp, name) =>
      ilock dp ;;
      if (namecmp (in_buf name) (in_buf (chars ".")) =? 0) || (namecmp (in_buf name) (in_buf (chars "..")) =? 0)
      then unlink_bad dp else
      r <- dirlookup dp (in_buf name) ;;
      match r with
      | None => unlink_bad dp
      | Some (ip, off) =>
          ilock ip ;;
          x <- ifield id ip ;;
          if i_nlink x <? 1 then panic "unlink: nlink < 1" else
          full <- (if i_type x =? T_DIR then e <- isdirempty ip ;; ret (negb e) else ret false) ;;
          if full : bool then iunlockput ip ;; unlink_bad dp else
          n <- writei_local dp (replicate (Z.to_nat sizeof_dirent) 0) off ;;
          if negb (n =? sizeof_dirent) then panic "unlink: writei" else
          type <- ifield i_type ip ;;
          (when type =? T_DIR do (set_nlink dp (fun n => n - 1) ;; iupdate dp)) ;;
          iunlockput dp ;;
          set_nlink ip (fun n => n - 1) ;;
          iupdate ip ;;
          iunlockput ip ;;
          end_op ;;
          ret 0
      end
  end.

Definition create_fail (ip dp : nat) : KM (option nat) :=
  set_nlink ip (fun _ => 0) ;;
  iupdate ip ;;
  iunlockput ip ;;
  iunlockput dp ;;
  ret None.

(** create(path, type, major, minor): the locked inode. *)
Definition create (path : list Z) (type major minor : Z) : KM (option nat) :=
  r <- nameiparent path name_buf ;;
  match r with
  | (None, _) => ret None
  | (Some dp, name) =>
      ilock dp ;;
      r <- dirlookup dp (in_buf name) ;;
      match r with
      | Some (ip, _) =>
          iunlockput dp ;;
          ilock ip ;;
          t <- ifield i_type ip ;;
          if (type =? T_FILE) && ((t =? T_FILE) || (t =? T_DEVICE)) then ret (Some ip) else
          iunlockput ip ;;
          ret None
      | None =>
          dev <- ifield i_dev dp ;;
          r <- ialloc dev type ;;
          match r with
          | None => iunlockput dp ;; ret None
          | Some ip =>
              ilock ip ;;
              fs_modify (upd_inode ip (fun x => set_i_nlink 1 (set_i_minor minor (set_i_major major x)))) ;;
              iupdate ip ;;
              inum <- ifield i_inum ip ;;
              bad <- (if type =? T_DIR then
                        r <- dirlink ip (in_buf (chars ".")) inum ;;
                        if r <? 0 then ret true else
                        pinum <- ifield i_inum dp ;;
                        r <- dirlink ip (in_buf (chars "..")) pinum ;;
                        ret (r <? 0)
                      else ret false) ;;
              if bad : bool then create_fail ip dp else
              r <- dirlink dp (in_buf name) inum ;;
              if r <? 0 then create_fail ip dp else
              (when type =? T_DIR do (set_nlink dp (fun n => n + 1) ;; iupdate dp)) ;;
              iunlockput dp ;;
              ret (Some ip)
          end
      end
  end.

Definition open_fail (ip : nat) : KM Z :=
  iunlockput ip ;;
  end_op ;;
  ret (-1).

(** The inode sys_open() opens, locked; [None] once the transaction is ended. *)
Definition open_inode (path : list Z) (omode : Z) : KM (option nat) :=
  if negb (Z.land omode O_CREATE =? 0) then
    r <- create path T_FILE 0 0 ;;
    match r with
    | None => end_op ;; ret None
    | Some ip => ret (Some ip)
    end
  else
    r <- namei path ;;
    match r with
    | None => end_op ;; ret None
    | Some ip =>
        ilock ip ;;
        type <- ifield i_type ip ;;
        if (type =? T_DIR) && negb (omode =? O_RDONLY) then iunlockput ip ;; end_op ;; ret None
        else ret (Some ip)
    end.

(** The fields of the new file. *)
Definition open_file (omode : Z) (ip : nat) (x : inode) (f : file) : file :=
  let f := if i_type x =? T_DEVICE then set_f_major (i_major x) (set_f_type FD_DEVICE f)
           else set_f_off 0 (set_f_type FD_INODE f) in
  set_f_writable (Z.b2z (negb (Z.land omode O_WRONLY =? 0) || negb (Z.land omode O_RDWR =? 0)))
    (set_f_readable (Z.b2z (Z.land omode O_WRONLY =? 0)) (set_f_ip (Some ip) f)).

Definition sys_open : KM Z :=
  omode <- argint 1 ;;
  path <- argstr 0 MAXPATH ;;
  if path.1 <? 0 then ret (-1) else
  begin_op ;;
  r <- open_inode path.2 omode ;;
  match r with
  | None => ret (-1)
  | Some ip =>
      x <- ifield id ip ;;
      if (i_type x =? T_DEVICE) && ((i_major x <? 0) || (i_major x >=? NDEV)) then open_fail ip else
      f <- filealloc ;;
      match f with
      | None => open_fail ip
      | Some f =>
          fd <- fdalloc f ;;
          if fd <? 0 then fileclose (Fs := Ops) f ;; open_fail ip else
          x <- ifield id ip ;;
          modify (upd_file f (open_file omode ip x)) ;;
          (when negb (Z.land omode O_TRUNC =? 0) && (i_type x =? T_FILE) do itrunc ip) ;;
          iunlock ip ;;
          end_op ;;
          ret fd
      end
  end.

(** ret |= (1 << fd) for each open descriptor *)
Fixpoint open_mask (l : list (option nat)) (fd : Z) : Z :=
  match l with
  | [] => 0
  | f :: l => Z.lor (match f with Some _ => Z.shiftl 1 fd | None => 0 end) (open_mask l (fd + 1))
  end.

Definition sys_opendfd : KM Z :=
  p <- curproc ;;
  gets (fun s => open_mask (p_ofile (get_proc p s)) 0).

Definition sys_mkdir : KM Z :=
  begin_op ;;
  path <- argstr 0 MAXPATH ;;
  if path.1 <? 0 then end_op ;; ret (-1) else
  r <- create path.2 T_DIR 0 0 ;;
  match r with
  | None => end_op ;; ret (-1)
  | Some ip => iunlockput ip ;; end_op ;; ret 0
  end.

Definition sys_mknod : KM Z :=
  begin_op ;;
  major <- argint 1 ;;
  minor <- argint 2 ;;
  path <- argstr 0 MAXPATH ;;
  if path.1 <? 0 then end_op ;; ret (-1) else
  r <- create path.2 T_DEVICE (s16 major) (s16 minor) ;;
  match r with
  | None => end_op ;; ret (-1)
  | Some ip => iunlockput ip ;; end_op ;; ret 0
  end.

Definition sys_chdir : KM Z :=
  p <- curproc ;;
  begin_op ;;
  path <- argstr 0 MAXPATH ;;
  if path.1 <? 0 then end_op ;; ret (-1) else
  r <- namei path.2 ;;
  match r with
  | None => end_op ;; ret (-1)
  | Some ip =>
      ilock ip ;;
      type <- ifield i_type ip ;;
      if negb (type =? T_DIR) then iunlockput ip ;; end_op ;; ret (-1) else
      iunlock ip ;;
      cwd <- gets (fun s => p_cwd (get_proc p s)) ;;
      (match cwd with Some d => iput d | None => panic "kerneltrap" end) ;;
      end_op ;;
      modify (upd_proc p (set_p_cwd (Some ip))) ;;
      ret 0
  end.

(** for(i = 0; i < NELEM(argv) && argv[i] != 0; i++) kfree(argv[i]); *)
Fixpoint free_args (argv : list Z) : KM unit :=
  match argv with
  | [] => ret tt
  | a :: argv => if a =? 0 then ret tt else kfree a ;; free_args argv
  end.

(** for(i=0;; i++): the pages of the arguments, and whether all were fetched. *)
Fixpoint fetch_args (k : nat) (uargv i : Z) (argv : list Z) : KM (list Z * bool) :=
  match k with
  | O => out_of_fuel
  | S k =>
      if i >=? MAXARG then ret (argv, false) else
      uarg <- fetchaddr (u64 (uargv + 8 * i)) ;;
      match uarg with
      | None => ret (argv, false)
      | Some uarg =>
          if uarg =? 0 then ret (argv, true) else
          a <- kalloc ;;
          if a =? 0 then ret (argv, false) else
          r <- fetchstr uarg PGSIZE ;;
          modify (upd_mem (fun m => write_bytes m a r.2)) ;;
          if r.1 <? 0 then ret (argv ++ [a], false)
          else fetch_args k uargv (i + 1) (argv ++ [a])
      end
  end.

Definition sys_exec : KM Z :=
  uargv <- argaddr 1 ;;
  path <- argstr 0 MAXPATH ;;
  if path.1 <? 0 then ret (-1) else
  r <- fetch_args (S (Z.to_nat MAXARG)) uargv 0 [] ;;
  if negb r.2 then free_args r.1 ;; ret (-1) else
  x <- exec path.2 r.1 ;;
  free_args r.1 ;;
  ret x.

Definition pipe_fail (p : nat) (fd0 fd1 : Z) (rf wf : nat) : KM Z :=
  (when fd0 >=? 0 do set_ofile p (Z.to_nat fd0) None) ;;
  (when fd1 >=? 0 do set_ofile p (Z.to_nat fd1) None) ;;
  fileclose (Fs := Ops) rf ;;
  fileclose (Fs := Ops) wf ;;
  ret (-1).

Definition sys_pipe : KM Z :=
  p <- curproc ;;
  fdarray <- argaddr 0 ;;
  r <- pipealloc (Fs := Ops) ;;
  match r with
  | None => ret (-1)
  | Some (rf, wf) =>
      fd0 <- fdalloc rf ;;
      if fd0 <? 0 then pipe_fail p (-1) (-1) rf wf else
      fd1 <- fdalloc wf ;;
      if fd1 <? 0 then pipe_fail p fd0 (-1) rf wf else
      pt <- gets (fun s => p_pagetable (get_proc p s)) ;;
      r <- copyout pt fdarray (le_bytes 4 fd0) ;;
      if r <? 0 then pipe_fail p fd0 fd1 rf wf else
      r <- copyout pt (u64 (fdarray + 4)) (le_bytes 4 fd1) ;;
      if r <? 0 then pipe_fail p fd0 fd1 rf wf else
      ret 0
  end.
End Ops.
