(* ===== verification/ShRun.v ===== *)
(** What the shell does with a command: the processes runcmd() starts, with their
    open files.

    [run] executes a user program on the parts of the kernel a shell relies on: a
    table of NOFILE descriptors per process in which open(), dup() and pipe() take
    the lowest free entries, copied by fork(). It gives the events of all the
    processes, those of a child before those of its parent. [meaning] says what a
    command should do; [runcmd] does it. *)
From S2P Require Import Prelude Riscv Machine Spinlock Vm Sched FsState Console Sysfile UserLib UProg Sh ShSpec ShText.
Import Ulib Uprintf.
Local Open Scope uprog_scope.

(** An open file. *)
Inductive desc : Type :=
| DInherited (n : Z)
| DFile (path : list Z) (omode : Z)
| DPipeRead (id : nat)
| DPipeWrite (id : nat).

Definition fdtable : Type := list (option desc).

Inductive event : Type :=
| EExec (argv : list (list Z)) (fds : fdtable)
| EWait (fds : fdtable)
| EWrite (d : desc) (bs : list Z)
| EExit (status : Z).

(** The first free entry, as fdalloc() finds it. *)
Fixpoint lowest {A} (fds : list (option A)) : option nat :=
  match fds with
  | [] => None
  | None :: _ => Some 0%nat
  | Some _ :: fds => S <$> lowest fds
  end.

Definition get_fd (fds : fdtable) (fd : Z) : option desc := if fd <? 0 then None else mjoin (fds !! Z.to_nat fd).

(** Descriptor for [d], and the table with it. *)
Definition give_fd (d : desc) (fds : fdtable) : option (nat * fdtable) :=
  match lowest fds with Some i => Some (i, <[i := Some d]> fds) | None => None end.

(** fdalloc() of the kernel gives the lowest free descriptor of the process. *)
Lemma fdalloc_lowest (f p : nat) (s : kstate fsys) :
  cpu_ok s -> cur s = Some p -> length (p_ofile (get_proc p s)) = NOFILE ->
  fdalloc f s =
  match lowest (p_ofile (get_proc p s)) with
  | Some i => Ret (Z.of_nat i) (upd_proc p (fun q => set_p_ofile (<[i := Some f]> (p_ofile q)) q) (settle s))
  | None => Ret (-1) (settle s)
  end.
Proof.
  intros Hok Hp Hlen. unfold fdalloc. rewrite (kbind_Ret _ _ _ _ _ (curproc_spec s p Hok Hp)).
  set (l := p_ofile (get_proc p s)) in *. assert (p_ofile (get_proc p (settle s)) = l) as Hl by done.
  generalize dependent (settle s). intros s' Hl.
  assert (forall n i, (i + n = length l)%nat ->
    for_find i n (fun fd => kbind (gets (fun s => nth fd (p_ofile (get_proc p s)) None))
      (fun x => match x with None => kbind (set_ofile p fd (Some f)) (fun _ => ret (Some fd)) | Some _ => ret None end)) s' =
    match lowest (drop i l) with
    | Some j => Ret (Some (i + j)%nat) (upd_proc p (fun q => set_p_ofile (<[(i + j)%nat := Some f]> (p_ofile q)) q) s')
    | None => Ret None s'
    end) as Hfind.
  { induction n as [|n IH]; intros i Hi; cbn [for_find].
    - by rewrite drop_ge by lia.
    - destruct (lookup_lt_is_Some_2 l i ltac:(lia)) as [x Hx].
      rewrite (drop_S l x i Hx). unfold kbind, gets. cbn [obind]. rewrite Hl, (nth_lookup_Some _ _ _ _ Hx).
      destruct x as [x|]; cbn [obind ret lowest fmap option_fmap option_map].
      + rewrite IH by lia. destruct (lowest (drop (S i) l)) as [j|]; cbn; [|done]. by rewrite <- Nat.add_succ_comm.
      + by rewrite Nat.add_0_r. }
  rewrite <- Hlen. unfold kbind at 1. rewrite (Hfind (length l) 0%nat eq_refl). rewrite drop_0.
  by destruct (lowest l).
Qed.

Section Run.
(** Which files open() opens and exec() runs. *)
Context (opens : list Z -> Z -> bool) (execs : list Z -> bool).

(** [n] is the number of pipes made so far. *)
Fixpoint run (p : uprog unit) (n : nat) (fds : fdtable) : nat * list event :=
  match p with
  | URet _ => (n, [])
  | UStuck => (n, [])
  | UExit st => (n, [EExit st])
  | USys c k =>
      match c with
      | Cexec path argv => if execs path then (n, [EExec argv fds]) else run (k (-1, [])) n fds
      | Copen path omode =>
          if opens path omode then
            match give_fd (DFile path omode) fds with
            | Some (fd, fds) => run (k (Z.of_nat fd, [])) n fds
            | None => run (k (-1, [])) n fds
            end
          else run (k (-1, [])) n fds
      | Cclose fd =>
          match get_fd fds fd with
          | Some _ => run (k (0, [])) n (<[Z.to_nat fd := None]> fds)
          | None => run (k (-1, [])) n fds
          end
      | Cdup fd =>
          match get_fd fds fd with
          | Some d =>
              match give_fd d fds with
              | Some (fd, fds) => run (k (Z.of_nat fd, [])) n fds
              | None => run (k (-1, [])) n fds
              end
          | None => run (k (-1, [])) n fds
          end
      | Cpipe =>
          match give_fd (DPipeRead n) fds with
          | Some (p0, fds1) =>
              match give_fd (DPipeWrite n) fds1 with
              | Some (p1, fds2) => run (k (0, [Z.of_nat p0; Z.of_nat p1])) (S n) fds2
              | None => run (k (-1, [])) n fds
              end
          | None => run (k (-1, [])) n fds
          end
      | Cfork =>
          let '(n, e) := run (k (0, [])) n fds in
          let '(n, e') := run (k (1, [])) n fds in
          (n, e ++ e')
      | Cwait => let '(n, e) := run (k (1, [])) n fds in (n, EWait fds :: e)
      | Cwrite fd bs =>
          match get_fd fds fd with
          | Some d => let '(n, e) := run (k (Z.of_nat (length bs), [])) n fds in (n, EWrite d bs :: e)
          | None => run (k (-1, [])) n fds
          end
      | _ => run (k (-1, [])) n fds
      end
  end.

(** A process with standard input, output and error, and no other descriptor. *)
Definition std (i o e : desc) : fdtable := Some i :: Some o :: Some e :: replicate 13 None.

(** A message, printed a character at a time. *)
Definition said (d : desc) (msg : list Z) : list event := (fun c => EWrite d [u8 c]) <$> msg.

(** What a command does in a process with these standard files. *)
Fixpoint meaning (u : ucmd) (n : nat) (i o e : desc) : nat * list event :=
  match u with
  | UExec [] => (n, [EExit 1])
  | UExec ((path :: _) as argv) =>
      if execs path then (n, [EExec argv (std i o e)])
      else (n, said e (bytes "exec " ++ path ++ line " failed") ++ [EExit 0])
  | URedir u op f =>
      let '(omode, fd) := op_mode op in
      if opens f omode then
        if fd =? 0 then meaning u n (DFile f omode) o e else meaning u n i (DFile f omode) e
      else (n, said e (bytes "open " ++ f ++ line " failed") ++ [EExit 1])
  | UPipe u v =>
      let '(n1, l1) := meaning u (S n) i (DPipeWrite n) e in
      let '(n2, l2) := meaning v n1 (DPipeRead n) o e in
      (n2, l1 ++ l2 ++ [EWait (std i o e); EWait (std i o e); EExit 0])
  | UList u v =>
      let '(n1, l1) := meaning u n i o e in
      let '(n2, l2) := meaning v n1 i o e in
      (n2, l1 ++ EWait (std i o e) :: l2)
  | UBack u =>
      let '(n1, l1) := meaning u n i o e in
      (n1, l1 ++ [EExit 0])
  end.

(** Printing puts the characters in front of the other events. *)
Definition after (l : list event) (r : nat * list event) : nat * list event := (fst r, l ++ snd r).

Lemma run_puts q n fds d fd l : get_fd fds fd = Some d ->
  run (ubind (puts fd l) (fun _ => q)) n fds = after (said d l) (run q n fds).
Proof.
  intros Hd. induction l as [|c l IH]; cbn [puts].
  - cbn. by destruct (run q n fds).
  - cbn [putc sys ubind run]. rewrite Hd. rewrite IH. by destruct (run q n fds).
Qed.

Lemma run_assoc {A B} (p : uprog A) (f : A -> uprog B) g n fds :
  run (ubind (ubind p f) g) n fds = run (ubind p (fun a => ubind (f a) g)) n fds.
Proof.
  revert n fds. induction p as [a|st| |c k IH]; intros n fds; [done|done|done|]. cbn [ubind run].
  destruct c; rewrite ?IH; try done; repeat (case_match; rewrite ?IH; try done).
  all: by simplify_eq.
Qed.

Lemma run_plain pre rest ap q n fds d fd : get_fd fds fd = Some d -> 37 ∉ pre ->
  run (ubind (vprintf_loop fd false (pre ++ rest) ap) (fun _ => q)) n fds =
  after (said d pre) (run (ubind (vprintf_loop fd false rest ap) (fun _ => q)) n fds).
Proof.
  intros Hd. induction pre as [|c pre IH]; intros Hp.
  - cbn [app said fmap list_fmap]. unfold after. by destruct (run _ n fds).
  - cbn [app vprintf_loop]. rewrite (proj2 (Z.eqb_neq c 37)) by set_solver. cbn [putc sys ubind run].
    rewrite Hd, IH by set_solver. by destruct (run _ n fds).
Qed.

(** A format with one %s. *)
Lemma run_message pre post s q n fds d fd : get_fd fds fd = Some d -> 37 ∉ pre -> 37 ∉ post ->
  run (fprintf fd (pre ++ 37 :: 115 :: post) [U_str s] ;; q) n fds = after (said d (pre ++ s ++ post)) (run q n fds).
Proof.
  intros Hd Hpre Hpost. unfold fprintf, vprintf. rewrite (run_plain pre _ _ _ _ _ d) by done.
  cbn [vprintf_loop Z.eqb Pos.eqb]. unfold conversion. cbn [Z.eqb Pos.eqb tl].
  rewrite run_assoc, run_assoc, (run_puts _ _ _ d) by done. cbn [ubind].
  rewrite <- (app_nil_r post) at 1. rewrite (run_plain post [] _ _ _ _ d) by done. cbn [vprintf_loop ubind].
  unfold after, said. cbn [fst snd]. by rewrite !fmap_app, !app_assoc.
Qed.

Lemma run_exec_failed s q n fds d : get_fd fds 2 = Some d ->
  run (fprintf 2 (line "exec %s failed") [U_str s] ;; q) n fds =
  after (said d (bytes "exec " ++ s ++ line " failed")) (run q n fds).
Proof. intros Hd. apply (run_message (bytes "exec ") (line " failed")); [done| |]; vm_compute; set_solver. Qed.

Lemma run_open_failed s q n fds d : get_fd fds 2 = Some d ->
  run (fprintf 2 (line "open %s failed") [U_str s] ;; q) n fds =
  after (said d (bytes "open " ++ s ++ line " failed")) (run q n fds).
Proof. intros Hd. apply (run_message (bytes "open ") (line " failed")); [done| |]; vm_compute; set_solver. Qed.

(** fork1() in a process: the child's events, then the parent's. *)
Lemma run_fork1 (f : Z -> uprog unit) n fds :
  run (ubind fork1 f) n fds =
  let '(n, e) := run (f 0) n fds in let '(n, e') := run (f 1) n fds in (n, e ++ e').
Proof. done. Qed.

Lemma run_close fd q n fds d : get_fd fds fd = Some d ->
  run (sys (Cclose fd) ;; q) n fds = run q n (<[Z.to_nat fd := None]> fds).
Proof. intros Hd. cbn [sys ubind run]. by rewrite Hd. Qed.

Lemma run_dup fd q n fds d i : get_fd fds fd = Some d -> lowest fds = Some i ->
  run (sys (Cdup fd) ;; q) n fds = run q n (<[i := Some d]> fds).
Proof. intros Hd Hi. cbn [sys ubind run]. unfold give_fd. by rewrite Hd, Hi. Qed.

Lemma run_open path omode f n fds i : lowest fds = Some i ->
  run (r <- sysn (Copen path omode) ;; f r) n fds =
  if opens path omode then run (f (Z.of_nat i)) n (<[i := Some (DFile path omode)]> fds) else run (f (-1)) n fds.
Proof. intros Hi. cbn [sysn ubind run fst]. unfold give_fd. by rewrite Hi. Qed.

Lemma run_wait q n fds : run (sys Cwait ;; q) n fds = after [EWait fds] (run q n fds).
Proof. cbn [sys ubind run]. by destruct (run q n fds). Qed.

Lemma run_pipe f n fds p0 fds1 p1 fds2 :
  give_fd (DPipeRead n) fds = Some (p0, fds1) -> give_fd (DPipeWrite n) fds1 = Some (p1, fds2) ->
  run (r <- sys Cpipe ;; f r) n fds = run (f (0, [Z.of_nat p0; Z.of_nat p1])) (S n) fds2.
Proof. intros H0 H1. cbn [sys ubind run]. by rewrite H0, H1. Qed.

(** The table of the next command, in a closed form. *)
Ltac table t :=
  match goal with |- context [run (runcmd ?m ?c) ?n ?fds] => change (run (runcmd m c) n fds) with (run (runcmd m c) n t) end.

Lemma runcmd_meaning m c u : stands (fun a w => str m a.1 = w) c u ->
  forall n i o e, run (runcmd m c) n (std i o e) = meaning u n i o e.
Proof.
  revert u. induction c as [argv|c IH file efile mode fd|c IHc d IHd|c IHc d IHd|c IH]; intros u Hu n i o e;
    destruct u as [args|u op f|u v|u v|u]; try done; cbn [stands] in Hu.
  - destruct Hu as [|[p ep] w argv args Hp Hrest]; [done|]. cbn [fst] in Hp. cbn [runcmd meaning].
    assert (map (fun a : Z * Z => str m (fst a)) argv = args) as Hargs.
    { clear -Hrest. induction Hrest as [|a w l l' Ha _ IH]; [done|]. cbn [map]. by rewrite Ha, IH. }
    cbn [map fst sys ubind run]. rewrite Hp, Hargs. case_match; [done|]. by rewrite (run_exec_failed _ _ _ _ e).
  - destruct Hu as (Hc & Hf & Hop). cbn [fst] in Hf. cbn [runcmd meaning]. rewrite <- Hop, Hf.
    assert (fd = 0 \/ fd = 1) as [-> | ->] by (destruct op; injection Hop as _ ->; auto).
    + rewrite (run_close _ _ _ _ i), (run_open _ _ _ _ _ 0) by done. case_match; [by apply IH|].
      cbn [Z.ltb Z.compare]. by rewrite (run_open_failed _ _ _ _ e).
    + rewrite (run_close _ _ _ _ o), (run_open _ _ _ _ _ 1) by done. case_match; [by apply IH|].
      cbn [Z.ltb Z.compare]. by rewrite (run_open_failed _ _ _ _ e).
  - destruct Hu as [Hc Hd]. cbn [runcmd meaning].
    rewrite (run_pipe _ n (std i o e) 3 _ 4 _ eq_refl eq_refl).
    cbn [Z.ltb Z.compare nth Z.of_nat Pos.of_succ_nat Pos.succ].
    rewrite run_fork1. cbn [Z.eqb].
    rewrite (run_close _ _ _ _ o), (run_dup _ _ _ _ (DPipeWrite n) 1), (run_close _ _ _ _ (DPipeRead n)), (run_close _ _ _ _ (DPipeWrite n)) by done.
    table (std i (DPipeWrite n) e). rewrite (IHc u Hc).
    destruct (meaning u (S n) i (DPipeWrite n) e) as [n1 l1]. rewrite run_fork1. cbn [Z.eqb].
    rewrite (run_close _ _ _ _ i), (run_dup _ _ _ _ (DPipeRead n) 0), (run_close _ _ _ _ (DPipeRead n)), (run_close _ _ _ _ (DPipeWrite n)) by done.
    table (std (DPipeRead n) o e). rewrite (IHd v Hd).
    destruct (meaning v n1 (DPipeRead n) o e) as [n2 l2].
    rewrite (run_close _ _ _ _ (DPipeRead n)), (run_close _ _ _ _ (DPipeWrite n)), !run_wait by done.
    done.
  - destruct Hu as [Hc Hd]. cbn [runcmd meaning]. rewrite run_fork1. cbn [Z.eqb]. rewrite (IHc u Hc).
    destruct (meaning u n i o e) as [n1 l1]. rewrite run_wait, (IHd v Hd). by destruct (meaning v n1 i o e).
  - cbn [runcmd meaning]. rewrite run_fork1. cbn [Z.eqb]. rewrite (IH u Hu). by destruct (meaning u n i o e).
Qed.

(** ** A line of text, executed *)

Lemma cstr_string m p w k : cstring m p w -> (length w < k)%nat -> cstr k m p = w.
Proof.
  intros [Ht H0]. revert p k Ht. induction w as [|c w IH]; intros p k Ht Hk; (destruct k as [|k]; [lia|]); cbn [cstr app] in *;
    apply text_at_cons in Ht as [-> Ht]; [done|].
  rewrite (proj2 (Z.eqb_neq c 0)) by set_solver. f_equal. apply IH; [set_solver|done|cbn in Hk; lia].
Qed.

Lemma uwords_wrap rs u : uwords (wrap rs u) = uwords u ++ rs.*2.
Proof.
  revert u. induction rs as [|[op f] rs IH]; intros u; [by rewrite app_nil_r|].
  change (wrap ((op, f) :: rs) u) with (wrap rs (URedir u op f)). rewrite IH. cbn. by rewrite <- app_assoc.
Qed.

Lemma uwords_backs k u : uwords (backs k u) = uwords u.
Proof. induction k as [|k IH]; [done|exact IH]. Qed.

Lemma item_words l w : w ∈ words l ++ (redirs l).*2 -> TWord w ∈ tokens l.
Proof.
  induction l as [|[v|op f] l IH]; [set_solver| |].
  - change (words (IWord v :: l)) with (v :: words l). change (redirs (IWord v :: l)) with (redirs l).
    change (tokens (IWord v :: l)) with (TWord v :: tokens l). cbn [app].
    intros [->|H]%elem_of_cons; [left|right; by apply IH].
  - change (words (IRedir op f :: l)) with (words l). change (redirs (IRedir op f :: l)) with ((op, f) :: redirs l).
    change (tokens (IRedir op f :: l)) with (op_token op :: TWord f :: tokens l). cbn [fmap list_fmap snd].
    rewrite elem_of_app, elem_of_cons. intros [H|[->|H]]; [|right; left|].
    + do 2 right. apply IH, elem_of_app. by left.
    + do 2 right. apply IH, elem_of_app. by right.
Qed.

Lemma grammar_words :
  (forall ts u, g_line ts u -> forall w, w ∈ uwords u -> TWord w ∈ ts) /\
  (forall ts u, g_pipe ts u -> forall w, w ∈ uwords u -> TWord w ∈ ts) /\
  (forall ts u, g_exec ts u -> forall w, w ∈ uwords u -> TWord w ∈ ts).
Proof.
  apply grammar_ind.
  - intros ts k u _ IH w. rewrite uwords_backs, elem_of_app. auto.
  - intros ts k u ts' v _ IH _ IH' w. cbn [uwords]. rewrite uwords_backs, !elem_of_app, elem_of_cons. naive_solver.
  - auto.
  - intros ts u ts' v _ IH _ IH' w. cbn [uwords]. rewrite !elem_of_app, elem_of_cons. naive_solver.
  - intros l _ w. rewrite uwords_wrap. apply item_words.
  - intros ts u rs _ IH w. rewrite uwords_wrap. rewrite elem_of_app, elem_of_cons, elem_of_app, elem_of_cons.
    intros [H|H]; [by right; left; apply IH|]. do 3 right. apply item_words. rewrite words_redir_items, redirs_redir_items. done.
Qed.

Lemma spells_word ts r w : spells ts r -> TWord w ∈ ts -> (length w <= length r)%nat.
Proof.
  induction 1 as [ws|ws t ts r _ _ _ _ IH]; [by intros ?%not_elem_of_nil|]. rewrite !length_app.
  intros [<-|H]%elem_of_cons; [cbn; lia|]. specialize (IH H). lia.
Qed.

(** C12: the shell does what the line says. When its child process parses a line of
    fewer than 100 bytes that is a sentence of the grammar and runs the command, the
    processes started are the ones the command means: every program gets exactly the
    standard files its redirections and pipes give it and no other descriptor, the
    shell waits without holding an end of a pipe, and a file that does not open or a
    program that does not run is reported on standard error. *)
Theorem shell_executes m s r ts u fuel n i o e
  (Htext : text_at m s (r ++ [0])) (Hspells : spells ts r) (Hgrammar : g_line ts u)
  (Hlen : (length r < 100)%nat) (Hfuel : (404 <= fuel)%nat) :
  run (c <- parsecmd fuel m s ;; let '(c, m) := c in runcmd m c) n (std i o e) = meaning u n i o e.
Proof.
  pose proof (spells_length _ _ Hspells).
  pose proof (parsecmd_sim m s r _ fuel Htext Hspells ltac:(lia) ltac:(lia)) as Hp.
  destruct parser_complete as [Hc _]. specialize (Hc _ u Hgrammar [] fuel eq_refl). rewrite app_nil_r in Hc.
  rewrite Hc in Hp by lia. destruct Hp as (c & -> & Hst). cbn [ubind]. apply runcmd_meaning.
  apply nulterminate_strings in Hst. revert Hst. apply stands_impl. intros a w _ Hw Ha.
  apply cstr_string; [done|]. destruct grammar_words as [Hg _]. specialize (Hg _ _ Hgrammar w Hw).
  pose proof (spells_word _ _ _ Hspells Hg). lia.
Qed.
End Run.

(** The example of ShText, where x does not open and z does not run. *)
Lemma shell_executes_witness :
  let opens := fun f (_ : Z) => negb (bool_decide (f = bytes "x")) in
  let execs := fun f => negb (bool_decide (f = bytes "z")) in
  let i := DInherited 0 in let o := DInherited 1 in let e := DInherited 2 in
  run opens execs (c <- parsecmd 404 demo_memory 4096 ;; let '(c, m) := c in runcmd m c) 0 (std i o e) =
  (1%nat, said e (bytes "open x" ++ line " failed") ++
    [EExit 1; EExec [bytes "wc"] (std (DPipeRead 0) (DFile (bytes "y") 1537) e);
     EWait (std i o e); EWait (std i o e); EExit 0; EWait (std i o e)] ++
    said e (bytes "exec z" ++ line " failed") ++ [EExit 0; EExit 0]).
Proof.
  intros opens execs i o e.
  rewrite (shell_executes opens execs demo_memory 4096 demo_line demo_tokens demo_command 404 0 i o e
    demo_text demo_spells (proj1 (print_grammar demo_command demo_args)) ltac:(vm_compute; lia) ltac:(lia)).
  vm_compute. reflexivity.
Defined.
