(* ===== verification/Syscall.v ===== *)
(** kernel/sysproc.c, and the dispatch of system calls of kernel/syscall.c. *)
From S2P Require Import Prelude Riscv Machine Spinlock KString Kalloc Vm Sched Keeps FsIface File Proc Shmem.
From S2P Require Import FsState Quiet Sleeplock Bio Log Console Fs FsInst SysArgs Exec Sysfile.

(** What a0 holds after a handler that returns no value. *)
Class Unspec := unspec : kstate fsys -> Z.

Section Ops.
Context `{L : Layout} `{Fuel0 : Fuel} `{Dev : BlockDev} (stat_pad : list Z) `{U : Unspec}.
Abbreviation KM := (K (kstate fsys)).
Abbreviation Ops := (fs_ops stat_pad).

Definition sys_exit : KM Z :=
  n <- argint 0 ;;
  exit (Fs := Ops) n ;;
  ret 0.

Definition sys_getpid : KM Z :=
  p <- curproc ;;
  gets (fun s => p_pid (get_proc p s)).

Definition sys_fork : KM Z := fork (Fs := Ops).

Definition sys_wait : KM Z :=
  p <- argaddr 0 ;;
  wait p.

Definition sys_sbrk : KM Z :=
  n <- argint 0 ;;
  p <- curproc ;;
  addr <- gets (fun s => s32 (p_sz (get_proc p s))) ;;
  r <- growproc n ;;
  ret (if r <? 0 then -1 else addr).

(** while(ticks - ticks0 < n): unsigned, so a negative n is a large one. *)
Fixpoint sleep_loop (k : nat) (ticks0 n : Z) : KM Z :=
  match k with
  | O => out_of_fuel
  | S k =>
      t <- gets k_ticks ;;
      if u32 (t - ticks0) <? u32 n then
        p <- curproc ;;
        dead <- gets (fun s => p_killed (get_proc p s)) ;;
        if negb (dead =? 0) then release L_ticks ;; ret (-1) else
        sleep Ch_ticks L_ticks ;;
        sleep_loop k ticks0 n
      else release L_ticks ;; ret 0
  end.

Definition sys_sleep : KM Z :=
  n <- argint 0 ;;
  acquire L_ticks ;;
  ticks0 <- gets k_ticks ;;
  sleep_loop (S fuel) ticks0 n.

Definition sys_kill : KM Z :=
  pid <- argint 0 ;;
  kill pid.

Definition sys_uptime : KM Z :=
  acquire L_ticks ;;
  xticks <- gets k_ticks ;;
  release L_ticks ;;
  ret xticks.

Definition sys_is_top_parent_process : KM Z :=
  b <- is_top_parent_process ;; ret (Z.b2z b).

(** page_number < 0 || page_number > SHMEM - 1 *)
Definition bad_page (n : Z) : bool := (n <? 0) || (n >? Z.of_nat SHMEM - 1).

Definition sys_shmem_access : KM Z :=
  n <- argint 0 ;;
  if bad_page n then ret 0 else get_shmem_access (Z.to_nat n) 0.

Definition sys_shmem_count : KM Z :=
  n <- argint 0 ;;
  if bad_page n then ret (-1) else count_shmem (Z.to_nat n).

Definition sys_shmem_state : KM Z :=
  n <- argint 0 ;;
  if bad_page n then ret (-1) else shmem_state (Z.to_nat n).

Definition sys_shmem_set_writable : KM unit :=
  n <- argint 0 ;;
  if bad_page n then ret tt else shmem_set_writable (Z.to_nat n).

Definition sys_shmem_set_unwritable : KM unit :=
  n <- argint 0 ;;
  if bad_page n then ret tt else shmem_set_unwritable (Z.to_nat n).

Definition sys_shmem_set_init_int : KM unit :=
  n <- argint 0 ;;
  index <- argint 1 ;;
  value <- argint 2 ;;
  if bad_page n then ret tt else shmem_set_init_int (Z.to_nat n) index value.

Definition sys_shmem_write_int : KM unit :=
  n <- argint 0 ;;
  index <- argint 1 ;;
  value <- argint 2 ;;
  if bad_page n then ret tt else shmem_write_int (Z.to_nat n) index value.

Definition sys_shmem_read_int : KM Z :=
  n <- argint 0 ;;
  index <- argint 1 ;;
  if bad_page n then ret (-1) else shmem_read_int (Z.to_nat n) index.

Definition sys_shmem_acquire_access : KM Z :=
  n <- argint 0 ;;
  if bad_page n then ret 0 else b <- shmem_acquire_access (Z.to_nat n) ;; ret (Z.b2z b).

Definition sys_shmem_release_access : KM unit :=
  n <- argint 0 ;;
  if bad_page n then ret tt else shmem_release_access (Z.to_nat n).

(** A handler declared void: its caller reads a0 all the same. *)
Definition void (c : KM unit) : KM Z := c ;; gets unspec.

(** The table syscalls[]. *)
Definition syscalls (num : Z) : option (KM Z) :=
  match num with
  | 1 => Some sys_fork
  | 2 => Some sys_exit
  | 3 => Some sys_wait
  | 4 => Some (sys_pipe stat_pad)
  | 5 => Some (sys_read stat_pad)
  | 6 => Some sys_kill
  | 7 => Some sys_exec
  | 8 => Some (sys_fstat stat_pad)
  | 9 => Some sys_chdir
  | 10 => Some sys_dup
  | 11 => Some sys_getpid
  | 12 => Some sys_sbrk
  | 13 => Some sys_sleep
  | 14 => Some sys_uptime
  | 15 => Some (sys_open stat_pad)
  | 16 => Some (sys_write stat_pad)
  | 17 => Some sys_mknod
  | 18 => Some sys_unlink
  | 19 => Some sys_link
  | 20 => Some sys_mkdir
  | 21 => Some (sys_close stat_pad)
  | 22 => Some sys_opendfd
  | 23 => Some sys_shmem_access
  | 24 => Some sys_shmem_count
  | 25 => Some sys_is_top_parent_process
  | 26 => Some sys_shmem_state
  | 27 => Some (void sys_shmem_set_writable)
  | 28 => Some (void sys_shmem_set_unwritable)
  | 29 => Some (void sys_shmem_set_init_int)
  | 30 => Some (void sys_shmem_write_int)
  | 31 => Some sys_shmem_read_int
  | 32 => Some sys_shmem_acquire_access
  | 33 => Some (void sys_shmem_release_access)
  | _ => None
  end.

Definition syscall : KM unit :=
  p <- curproc ;;
  a7 <- tf_get p TF_a7 ;;
  let num := s32 a7 in
  match syscalls num with
  | Some handler => r <- handler ;; tf_set p TF_a0 (u64 r)
  | None =>
      q <- gets (get_proc p) ;;
      printf ("%d %s: unknown sys call %d" +:+ newline) [A_int (p_pid q); A_str (c_string (p_name q)); A_int num] ;;
      tf_set p TF_a0 (u64 (-1))
  end.
End Ops.
