(* ===== verification/Trap.v ===== *)
(** Traps and boot: kernel/trap.c, kernel/plic.c, kernel/main.c and forkret() of
    kernel/proc.c.

    What a trap finds in the control registers is an argument of the handlers;
    what they leave there is their result. *)
From S2P Require Import Prelude Riscv Machine Spinlock KString Kalloc Vm Sched Keeps FsIface File Proc Shmem.
From S2P Require Import FsState Quiet Sleeplock Bio Log Console Fs FsInst Virtio SysArgs Exec Sysfile Syscall.

(** Addresses of assembly code, and of usertrap(). *)
Class TrapSyms := {
  kernelvec : Z;
  uservec : Z;
  userret : Z;
  usertrap_addr : Z
}.

(** The control registers when a trap is taken, and the interrupt the PLIC has
    pending. *)
Record trapregs := mktrapregs {
  r_sstatus : Z;
  r_scause : Z;
  r_sepc : Z;
  r_stval : Z;
  r_sip : Z;
  r_satp : Z;
  r_irq : Z
}.

Abbreviation SSTATUS_SPP := (Z.shiftl 1 8).
Abbreviation SSTATUS_SPIE := (Z.shiftl 1 5).
Abbreviation SSTATUS_SIE := (Z.shiftl 1 1).

Abbreviation SATP_SV39 := (Z.shiftl 8 60) (only parsing).
Abbreviation MAKE_SATP pagetable := (Z.lor SATP_SV39 (Z.shiftr pagetable 12)) (only parsing).

Abbreviation PLIC_SENABLE hart := (PLIC + 0x2080 + Z.of_nat hart * 0x100) (only parsing).
Abbreviation PLIC_SPRIORITY hart := (PLIC + 0x201000 + Z.of_nat hart * 0x2000) (only parsing).
Abbreviation PLIC_SCLAIM hart := (PLIC + 0x201004 + Z.of_nat hart * 0x2000) (only parsing).
Abbreviation UART0_IRQ := (10).
Abbreviation VIRTIO0_IRQ := (1).

(** The claim register is read as [r_irq]. *)
Definition plic_claim (r : trapregs) : Z := s32 (r_irq r).

(** What devintr() returns, and sip after it. *)
Record devres := mkdevres { dv_which : Z; dv_sip : Z }.

(** What usertrapret() leaves in stvec, sstatus and sepc, and its jump: to the
    code at [ur_pc] with [ur_satp] as argument. *)
Record user_return := mkuser_return {
  ur_stvec : Z;
  ur_sstatus : Z;
  ur_sepc : Z;
  ur_pc : Z;
  ur_satp : Z
}.

Section Ops.
Context `{L : Layout} `{Fuel0 : Fuel} `{Regs : VirtioRegs} `{Syms : TrapSyms} `{U : Unspec}.
Context (stat_pad : list Z).
Abbreviation KM := (K (kstate fsys)).
Abbreviation Ops := (fs_ops stat_pad).

Definition plicinit : KM unit :=
  mmio_write (PLIC + UART0_IRQ * 4) 1 ;;
  mmio_write (PLIC + VIRTIO0_IRQ * 4) 1.

Definition plicinithart : KM unit :=
  hart <- cpuid ;;
  mmio_write (PLIC_SENABLE hart) (Z.lor (Z.shiftl 1 UART0_IRQ) (Z.shiftl 1 VIRTIO0_IRQ)) ;;
  mmio_write (PLIC_SPRIORITY hart) 0.

Definition plic_complete (irq : Z) : KM unit :=
  hart <- cpuid ;;
  mmio_write (PLIC_SCLAIM hart) (u32 irq).

Definition trapinit : KM unit := initlock L_ticks "time".

(** w_stvec((uint64)kernelvec) *)
Definition trapinithart : Z := kernelvec.

Definition clockintr : KM unit :=
  acquire L_ticks ;;
  modify (fun s => set_k_ticks (u32 (k_ticks s + 1)) s) ;;
  wakeup Ch_ticks ;;
  release L_ticks.

Definition devintr (r : trapregs) : KM devres :=
  let scause := r_scause r in
  if negb (Z.land scause 0x8000000000000000 =? 0) && (Z.land scause 0xff =? 9) then
    let irq := plic_claim r in
    (if irq =? UART0_IRQ then uartintr else
     if irq =? VIRTIO0_IRQ then virtio_disk_intr else
     if negb (irq =? 0) then printf ("unexpected interrupt irq=%d" +:+ newline) [A_int irq] else ret tt) ;;
    (when negb (irq =? 0) do plic_complete irq) ;;
    ret (mkdevres 1 (r_sip r))
  else if scause =? 0x8000000000000001 then
    hart <- cpuid ;;
    (when bool_decide (hart = 0%nat) do clockintr) ;;
    ret (mkdevres 2 (Z.land (r_sip r) (Z.lnot 2)))
  else ret (mkdevres 0 (r_sip r)).

Definition usertrapret (r : trapregs) : KM user_return :=
  p <- curproc ;;
  intr_off ;;
  tf_set p TF_kernel_satp (r_satp r) ;;
  kstack <- gets (fun s => p_kstack (get_proc p s)) ;;
  tf_set p TF_kernel_sp (u64 (kstack + PGSIZE)) ;;
  tf_set p TF_kernel_trap usertrap_addr ;;
  hart <- gets k_hart ;;
  tf_set p TF_kernel_hartid (Z.of_nat hart) ;;
  epc <- tf_get p TF_epc ;;
  pt <- gets (fun s => p_pagetable (get_proc p s)) ;;
  let x := Z.land (r_sstatus r) (Z.lnot SSTATUS_SIE) in
  ret {| ur_stvec := u64 (TRAMPOLINE + (uservec - trampoline));
         ur_sstatus := Z.lor (Z.land x (Z.lnot SSTATUS_SPP)) SSTATUS_SPIE;
         ur_sepc := epc;
         ur_pc := u64 (TRAMPOLINE + (userret - trampoline));
         ur_satp := MAKE_SATP pt |}.

(** if(killed(p)) exit(-1); *)
Definition exit_if_killed (p : nat) : KM unit :=
  k <- killed p ;;
  when negb (k =? 0) do exit (Fs := Ops) (-1).

Definition usertrap (r : trapregs) : KM user_return :=
  if negb (Z.land (r_sstatus r) SSTATUS_SPP =? 0) then panic "usertrap: not from user mode" else
  p <- curproc ;;
  tf_set p TF_epc (r_sepc r) ;;
  which_dev <-
    (if r_scause r =? 8 then
       exit_if_killed p ;;
       epc <- tf_get p TF_epc ;;
       tf_set p TF_epc (u64 (epc + 4)) ;;
       intr_on ;;
       syscall stat_pad ;;
       ret 0
     else
       d <- devintr r ;;
       (when dv_which d =? 0 do
          (pid <- gets (fun s => p_pid (get_proc p s)) ;;
           printf ("usertrap(): unexpected scause %p pid=%d" +:+ newline) [A_ptr (r_scause r); A_int pid] ;;
           printf ("            sepc=%p stval=%p" +:+ newline) [A_ptr (r_sepc r); A_ptr (r_stval r)] ;;
           setkilled p)) ;;
       ret (dv_which d)) ;;
  exit_if_killed p ;;
  (when which_dev =? 2 do yield) ;;
  usertrapret r.

(** kerneltrap(): the values restored to sepc and sstatus. *)
Definition kerneltrap (r : trapregs) : KM (Z * Z) :=
  if Z.land (r_sstatus r) SSTATUS_SPP =? 0 then panic "kerneltrap: not from supervisor mode" else
  on <- intr_get ;;
  if on then panic "kerneltrap: interrupts enabled" else
  d <- devintr r ;;
  if dv_which d =? 0 then
    printf ("scause %p" +:+ newline) [A_ptr (r_scause r)] ;;
    printf ("sepc=%p stval=%p" +:+ newline) [A_ptr (r_sepc r); A_ptr (r_stval r)] ;;
    panic "kerneltrap"
  else
  (when dv_which d =? 2 do
     (p <- myproc ;;
      match p with
      | None => ret tt
      | Some p =>
          st <- gets (fun s => p_state (get_proc p s)) ;;
          when bool_decide (st = RUNNING) do yield
      end)) ;;
  ret (r_sepc r, r_sstatus r).

(** forkret() of kernel/proc.c, with the value of its static variable. *)
Definition forkret (first : bool) (r : trapregs) : KM user_return :=
  p <- curproc ;;
  release (L_proc p) ;;
  (when first do fsinit ROOTDEV) ;;
  usertrapret r.

(** What main() leaves in satp and stvec. *)
Record boot_regs := mkboot_regs { bt_satp : Z; bt_stvec : Z }.

(** kvminithart() of kernel/vm.c: the value written to satp. *)
Definition kvminithart (kernel_pagetable : Z) : Z := MAKE_SATP kernel_pagetable.

(** main() on hart 0, before scheduler(): with kvminit() the page table it
    installs in satp. *)
Definition main_boot : KM boot_regs :=
  consoleinit ;;
  printfinit ;;
  printf newline [] ;;
  printf ("xv6 kernel is booting" +:+ newline) [] ;;
  printf newline [] ;;
  kinit ;;
  kernel_pagetable <- kvmmake ;;
  procinit ;;
  trapinit ;;
  plicinit ;;
  plicinithart ;;
  binit ;;
  iinit ;;
  fileinit ;;
  virtio_disk_init ;;
  shmem_init ;;
  userinit (Fs := Ops) ;;
  ret (mkboot_regs (kvminithart kernel_pagetable) trapinithart).

(** main() on another hart, once [started] is set. *)
Definition main_other (kernel_pagetable : Z) : KM boot_regs :=
  hart <- cpuid ;;
  printf ("hart %d starting" +:+ newline) [A_int (Z.of_nat hart)] ;;
  plicinithart ;;
  ret (mkboot_regs (kvminithart kernel_pagetable) trapinithart).

Definition main (passes : nat) (started : option Z) : KM unit :=
  hart <- cpuid ;;
  (if bool_decide (hart = 0%nat) then main_boot ;; ret tt
   else match started with
        | None => fun s => Spin s
        | Some kernel_pagetable => main_other kernel_pagetable ;; ret tt
        end) ;;
  scheduler passes.
End Ops.
