(* ===== verification/SysKeeps.v ===== *)
(** Drivers, system calls and traps keep the shared-memory invariant: every
    handler of kernel/syscall.c's table, usertrap(), kerneltrap() and forkret(). *)
From S2P Require Import Prelude Riscv Machine Spinlock KString Kalloc Vm Sched Keeps FsIface File Proc Shmem ShmemInv ProcInv.
From S2P Require Import FsState Quiet Sleeplock Bio Log Console Fs FsInst Virtio SysArgs Exec Sysfile Syscall Trap.

#[local] Hint Extern 1 (FsKeeps _) => typeclasses eauto : keeps.
#[local] Hint Extern 1 (BlockDevKeeps _) => typeclasses eauto : keeps.

Section Disk.
Context `{L : Layout} `{Fuel0 : Fuel}.
Context (I : kstate fsys -> Prop) (R : kstate fsys -> kstate fsys -> Prop) (J : kstate fsys -> Prop).
Context `{!Stable J}.

Lemma keeps_vd_modify g : keeps I R J (vd_modify g).
Proof. unfold vd_modify. keeps_auto. Qed.

Lemma keeps_vd_gets {A} (g : vdisk -> A) : keeps I R J (vd_gets g).
Proof. apply keeps_gets. Qed.
#[local] Hint Resolve keeps_vd_modify keeps_vd_gets : keeps.

Lemma keeps_virtio_disk_intr : keeps I R J virtio_disk_intr.
Proof.
  assert (forall k, keeps I R J (intr_loop k)).
  { induction k as [|k IH]; cbn [intr_loop]; keeps_auto. }
  unfold virtio_disk_intr. keeps_auto.
Qed.

Context `{!Resumes I R J}.

Lemma keeps_virtio_disk_rw b w : keeps I R J (Virtio.virtio_disk_rw b w).
Proof.
  assert (forall i, keeps I R J (free_desc i)) by (intros; unfold free_desc; keeps_auto).
  assert (forall k i, keeps I R J (free_chain_loop k i)).
  { induction k as [|k IH]; intros; cbn [free_chain_loop]; keeps_auto. }
  assert (keeps I R J alloc_desc) by (unfold alloc_desc; keeps_auto).
  assert (keeps I R J alloc3_desc) by (unfold alloc3_desc; keeps_auto).
  assert (forall k, keeps I R J (alloc_wait k)).
  { induction k as [|k IH]; intros; cbn [alloc_wait]; keeps_auto. }
  assert (forall k b, keeps I R J (done_wait k b)).
  { induction k as [|k IH]; intros; cbn [done_wait]; keeps_auto. }
  unfold Virtio.virtio_disk_rw, free_chain. keeps_auto.
Qed.
End Disk.

#[export] Instance virtio_dev_keeps `{Fuel0 : Fuel} : BlockDevKeeps virtio_dev.
Proof. intros I R J ? ? b w. by apply keeps_virtio_disk_rw. Qed.

(** The arguments of a call. *)
Section Args.
Context `{L : Layout} `{Fuel0 : Fuel}.
Context (I : kstate fsys -> Prop) (R : kstate fsys -> kstate fsys -> Prop) (J : kstate fsys -> Prop).
Context `{!StableLow J}.
Abbreviation keeps_inv := (keeps I R J).

Lemma keeps_tf_get p off : keeps_inv (tf_get p off).
Proof. apply keeps_gets. Qed.

Lemma keeps_tf_set p off v : keeps_inv (tf_set p off v).
Proof. apply keeps_modify. intros s H. by apply stable_mem. Qed.

#[local] Hint Resolve keeps_tf_get keeps_tf_set : keeps.

Lemma keeps_fetchaddr a : keeps_inv (fetchaddr a).
Proof. unfold fetchaddr. keeps_auto. Qed.

Lemma keeps_fetchstr a n : keeps_inv (fetchstr a n).
Proof. unfold fetchstr. keeps_auto. Qed.

Lemma keeps_argraw n : keeps_inv (argraw n).
Proof. unfold argraw. keeps_auto. Qed.
#[local] Hint Resolve keeps_fetchaddr keeps_fetchstr keeps_argraw : keeps.

Lemma keeps_argint n : keeps_inv (argint n).
Proof. unfold argint. keeps_auto. Qed.

Lemma keeps_argaddr n : keeps_inv (argaddr n).
Proof. unfold argaddr. keeps_auto. Qed.
#[local] Hint Resolve keeps_argint keeps_argaddr : keeps.

Lemma keeps_argstr n max : keeps_inv (argstr n max).
Proof. unfold argstr. keeps_auto. Qed.

#[local] Hint Resolve keeps_argstr : keeps.

Lemma keeps_free_args argv : keeps_inv (free_args argv).
Proof. induction argv as [|a argv IH]; cbn [free_args]; keeps_auto. Qed.

Lemma keeps_fetch_args k u i argv : keeps_inv (fetch_args k u i argv).
Proof. revert i argv. induction k as [|k IH]; intros; cbn [fetch_args]; keeps_auto. Qed.
#[local] Hint Resolve keeps_free_args : keeps.

End Args.

#[export] Hint Resolve keeps_tf_get keeps_tf_set keeps_fetchaddr keeps_fetchstr keeps_argraw keeps_argint keeps_argaddr
  keeps_argstr keeps_free_args keeps_fetch_args : keeps.

Section Syscalls.
Context `{L : Layout} `{Fuel0 : Fuel} `{U : Unspec} `{Dev : BlockDev} `{!BlockDevKeeps Dev} (stat_pad : list Z).
Context (me : option nat).
Abbreviation KM := (K (kstate fsys)).
Abbreviation keeps_inv := (keeps (F := fsys) shmem_inv (resumed me) (running_as me)).

Lemma keeps_upd_proc p f : (forall q, same_use q (f q)) -> keeps_inv (modify (upd_proc p f)).
Proof. intros Hf. apply keeps_modify. intros s. by apply running_as_same. Qed.
#[local] Hint Extern 2 (keeps _ _ _ (modify (upd_proc _ _))) =>
  apply keeps_upd_proc; intros; solve [by repeat split] : keeps.

Lemma keeps_argfd n : keeps_inv (argfd n).
Proof. unfold argfd. keeps_auto. Qed.

Lemma keeps_set_ofile p fd f : keeps_inv (set_ofile p fd f).
Proof. unfold set_ofile. keeps_auto. Qed.
#[local] Hint Resolve keeps_argfd keeps_set_ofile : keeps.

Lemma keeps_fdalloc f : keeps_inv (fdalloc f).
Proof. unfold fdalloc. keeps_auto. Qed.

Lemma keeps_nameiparent path name : keeps_inv (nameiparent path name).
Proof. unfold nameiparent. keeps_auto. Qed.

Lemma keeps_set_nlink ip g : keeps_inv (set_nlink ip g).
Proof. unfold set_nlink. keeps_auto. Qed.

Lemma keeps_isdirempty dp : keeps_inv (isdirempty dp).
Proof.
  assert (forall k off, keeps_inv (isdirempty_loop k dp off)).
  { induction k as [|k IH]; intros; cbn [isdirempty_loop]; keeps_auto. }
  unfold isdirempty. keeps_auto.
Qed.
#[local] Hint Resolve keeps_fdalloc keeps_nameiparent keeps_set_nlink keeps_isdirempty : keeps.

Lemma keeps_create path ty major minor : keeps_inv (create path ty major minor).
Proof. unfold create, create_fail. keeps_auto. Qed.
#[local] Hint Resolve keeps_create : keeps.

Lemma keeps_exec_image path argv pt sz entry : keeps_inv (exec_commit path argv pt sz entry).
Proof.
  assert (forall argv argc pt sp base u, keeps_inv (push_args argv argc pt sp base u)).
  { induction argv0 as [|a argv0 IH]; intros; cbn [push_args]; keeps_auto. }
  assert (forall pt sz, keeps_inv (proc_freepagetable pt sz)) by (intros; by apply keeps_proc_freepagetable, _).
  unfold exec_commit, exec_bad. keeps_auto.
Qed.
#[local] Hint Resolve keeps_exec_image : keeps.

Lemma running_as_unshared p (f : proc -> proc) (s : kstate fsys) :
  running_as me s -> unshared (get_proc p s) ->
  (forall q, live (f q) = live q /\ p_shmem_access (f q) = p_shmem_access q) ->
  running_as me (upd_proc p f s).
Proof.
  intros [[H Hl] Hc] Hu Hf. split; [split|done].
  - apply table_inv_proc; [done|]. intros q Hq. destruct (Hf q) as [El Ea].
    rewrite (get_proc_lookup _ _ _ Hq) in Hu. split; [rewrite Ea; by eapply inv_flags|].
    intros i. specialize (Hu i). unfold uses, has_access in *. rewrite El, Ea. split; [done|congruence].
  - intros k Hk. cbn. destruct (Hl k Hk) as (q & Hq & Hlive). destruct (decide (k = p)) as [->|Hne].
    + exists (f q). rewrite list_lookup_alter_eq, Hq. split; [done|]. by rewrite (proj1 (Hf q)).
    + exists q. by rewrite list_lookup_alter_ne.
Qed.

(** exec() gives the process a new group, which the invariant allows to one that
    holds no shared page. *)
Lemma post_exec path argv s :
  running_as me s -> (forall p, me = Some p -> unshared (get_proc p s)) ->
  post shmem_inv (resumed me) (fun _ => running_as me) (exec path argv s).
Proof.
  intros H Hu.
  assert (forall k pt va ip off sz i, keeps_inv (loadseg_loop k pt va ip off sz i)).
  { induction k as [|k IH]; intros; cbn [loadseg_loop]; keeps_auto. }
  assert (forall k pt ip off sz, keeps_inv (load_segments k pt ip off sz)).
  { induction k as [|k IH]; intros; cbn [load_segments]; unfold loadseg; keeps_auto. }
  assert (forall p, keeps_inv (proc_pagetable p)) by (intros; by apply keeps_proc_pagetable, _).
  assert (forall pt sz, keeps_inv (proc_freepagetable pt sz)) by (intros; by apply keeps_proc_freepagetable, _).
  unfold exec. eapply post_bind.
  { exact (post_curproc _ _ (with_tables (running_as me) (k_mem s) (k_procs s)) s (conj H (conj eq_refl eq_refl))). }
  cbn beta. intros p s1 ((Hs & _ & Hps) & Hc & _). rewrite kbind_modify.
  assert (me = Some p) as Hme by (destruct Hs; congruence).
  apply (running_as_unshared p (fun q => set_p_top_pid (p_pid q) q)) in Hs; [|unfold get_proc; rewrite Hps; by apply Hu|done].
  revert Hs. generalize (upd_proc p (fun q => set_p_top_pid (p_pid q) q) s1) as s2.
  match goal with |- forall s2, _ -> post _ _ _ (?c s2) => change (keeps_inv c) end. keeps_auto.
Qed.

(** The calls on files. *)
Lemma keeps_file_call num h :
  num ∈ [4; 5; 8; 9; 10; 15; 16; 17; 18; 19; 20; 21; 22] -> syscalls stat_pad num = Some h -> keeps_inv h.
Proof.
  intros Hn Hh. repeat (apply elem_of_cons in Hn as [->|Hn]; [injection Hh as <-|]); [..|by apply elem_of_nil in Hn];
    unfold sys_pipe, pipe_fail, sys_read, sys_fstat, sys_chdir, sys_dup, sys_open, open_inode, open_fail,
      sys_write, sys_mknod, sys_unlink, unlink_bad, sys_link, link_bad, sys_mkdir, sys_close, sys_opendfd;
    keeps_auto.
Qed.

Lemma bad_page_range n : bad_page n = false -> (Z.to_nat n < SHMEM)%nat.
Proof. unfold bad_page, SHMEM. intros [H1%Z.ltb_ge H2]%orb_false_elim. rewrite Z.gtb_ltb, Z.ltb_ge in H2. lia. Qed.

Lemma keeps_void c : keeps_inv c -> keeps_inv (void c).
Proof. intros. unfold void. keeps_auto. Qed.

(** The calls on shared pages, which check the number of the page. *)
Lemma keeps_shmem_call num h :
  num ∈ [23; 24; 25; 26; 27; 28; 29; 30; 31; 32; 33] -> syscalls stat_pad num = Some h -> keeps_inv h.
Proof.
  intros Hn Hh.
  assert (forall i, (i < SHMEM)%nat -> keeps_inv (b <- shmem_acquire_access i ;; ret (Z.b2z b))).
  { intros i Hi. apply keeps_bind; [by apply keeps_acquire_access|keeps_auto]. }
  repeat (apply elem_of_cons in Hn as [->|Hn]; [injection Hh as <-|]); [..|by apply elem_of_nil in Hn];
    try apply keeps_void;
    unfold sys_shmem_access, sys_shmem_count, sys_is_top_parent_process, sys_shmem_state, sys_shmem_set_writable,
      sys_shmem_set_unwritable, sys_shmem_set_init_int, sys_shmem_write_int, sys_shmem_read_int,
      sys_shmem_acquire_access, sys_shmem_release_access;
    repeat (apply keeps_bind; [by keeps_auto|intros ?]);
    try (destruct (bad_page _) eqn:E; [by keeps_auto|apply bad_page_range in E]).
  - apply keeps_get_access.
  - unfold count_shmem. keeps_auto.
  - unfold is_top_parent_process. keeps_auto.
  - unfold shmem_state. keeps_auto.
  - by apply keeps_set_writable.
  - by apply keeps_set_unwritable.
  - by apply keeps_set_init_int.
  - apply keeps_write_int.
  - apply keeps_read_int.
  - auto.
  - by apply keeps_release_access.
Qed.

(** The calls on processes, exec() apart. *)
Lemma keeps_proc_call num h :
  num ∈ [1; 2; 3; 6; 11; 12; 13; 14] -> syscalls stat_pad num = Some h -> keeps_inv h.
Proof.
  intros Hn Hh.
  assert (forall n, keeps_inv (growproc n)) by (intros; apply keeps_growproc).
  assert (forall a, keeps_inv (wait a)) by (intros; apply keeps_wait).
  assert (forall k t n, keeps_inv (sleep_loop k t n)).
  { induction k as [|k IH]; intros; cbn [sleep_loop]; keeps_auto. }
  repeat (apply elem_of_cons in Hn as [->|Hn]; [injection Hh as <-|]); [..|by apply elem_of_nil in Hn];
    unfold sys_fork, sys_exit, sys_wait, sys_kill, sys_getpid, sys_sbrk, sys_sleep, sys_uptime.
  - apply keeps_fork.
  - apply keeps_bind; [keeps_auto|]. intros n s Hs. eapply post_bind; [by apply post_exit|]. done.
  - keeps_auto.
  - keeps_auto.
  - keeps_auto.
  - keeps_auto.
  - keeps_auto.
  - keeps_auto.
Qed.

Lemma keeps_call num h : num <> 7 -> syscalls stat_pad num = Some h -> keeps_inv h.
Proof.
  intros Hn Hh.
  assert (num ∈ [4; 5; 8; 9; 10; 15; 16; 17; 18; 19; 20; 21; 22] \/
          num ∈ [23; 24; 25; 26; 27; 28; 29; 30; 31; 32; 33] \/
          num ∈ [1; 2; 3; 6; 11; 12; 13; 14]) as [?|[?|?]];
    [|by eapply keeps_file_call|by eapply keeps_shmem_call|by eapply keeps_proc_call].
  destruct num as [|q|q]; [done| |done].
  do 6 (try destruct q as [q|q|]; try done); set_solver.
Qed.

(** The number of the call a process makes. *)
Definition call_number (p : nat) (s : kstate fsys) : Z :=
  s32 (ld64 (k_mem s) (p_trapframe (get_proc p s) + TF_a7)).

(** A process that calls exec() holds no shared page. *)
Definition exec_unshared (s : kstate fsys) : Prop :=
  forall p, me = Some p -> call_number p s = 7 -> unshared (get_proc p s).

Definition lone (s : kstate fsys) : Prop :=
  running_as me s /\ forall p, me = Some p -> unshared (get_proc p s).

#[export] Instance lone_low : StableLow lone.
Proof.
  split; try (intros ? s [H ?]; split; [exact H|done]).
  intros f s Hf [H Hu]. split; [by apply stable_cpu|done].
Qed.

Lemma post_sys_exec s : lone s -> post shmem_inv (resumed me) (fun _ => running_as me) (sys_exec s).
Proof.
  intros H. unfold sys_exec.
  eapply post_bind; [by apply (keeps_argaddr _ _ lone)|]. cbn beta. clear H. intros u s1 H.
  eapply post_bind; [by apply (keeps_argstr _ _ lone)|]. cbn beta. clear H. intros r s2 H.
  destruct (_ <? 0); [apply H|].
  eapply post_bind; [by apply (keeps_fetch_args _ _ lone)|]. cbn beta. clear H. intros args s3 [H Hu].
  destruct (negb _); [revert s3 H Hu|].
  - intros s3 H _. eapply post_bind; [by apply (keeps_free_args _ _ (running_as me))|]. done.
  - eapply post_bind; [by apply post_exec|]. cbn beta. intros x s4 H4.
    eapply post_bind; [by apply (keeps_free_args _ _ (running_as me))|]. done.
Qed.

Lemma post_syscall s :
  running_as me s -> exec_unshared s ->
  post shmem_inv (resumed me) (fun _ => running_as me) (syscall stat_pad s).
Proof.
  intros H Hx. unfold syscall. eapply post_bind.
  { exact (post_curproc _ _ (with_tables (running_as me) (k_mem s) (k_procs s)) s (conj H (conj eq_refl eq_refl))). }
  cbn beta. intros p s1 ((Hs & Em & Eps) & Hc & _). unfold tf_get. rewrite kbind_gets. cbv zeta.
  assert (me = Some p) as Hme by (destruct Hs; congruence).
  change (s32 (ld64 (k_mem s1) (p_trapframe (get_proc p s1) + TF_a7))) with (call_number p s1).
  assert (get_proc p s1 = get_proc p s) as Ep by (unfold get_proc; by rewrite Eps).
  assert (call_number p s1 = call_number p s) as -> by (unfold call_number; by rewrite Ep, Em).
  destruct (decide (call_number p s = 7)) as [E7|E7].
  - rewrite E7. cbn [syscalls]. eapply post_bind.
    + apply post_sys_exec. split; [done|]. intros q Hq. assert (q = p) as -> by congruence. rewrite Ep. by apply Hx.
    + cbn beta. intros r s2 H2. by apply keeps_tf_set; [apply _|].
  - destruct (syscalls stat_pad (call_number p s)) as [h|] eqn:Eh.
    + eapply post_bind; [by apply (keeps_call _ h E7 Eh)|]. cbn beta. intros r s2 H2.
      by apply keeps_tf_set; [apply _|].
    + revert s1 Hs Hc Em Eps Ep. intros s1 Hs _ _ _ _. revert s1 Hs.
      match goal with |- forall s2, _ -> post _ _ _ (?c s2) => change (keeps_inv c) end. keeps_auto.
Qed.
End Syscalls.

(** ** Traps *)

Section Traps.
Context `{L : Layout} `{Fuel0 : Fuel} `{Regs : VirtioRegs} `{Syms : TrapSyms} `{U : Unspec} (stat_pad : list Z).
Context (me : option nat).
Abbreviation KM := (K (kstate fsys)).
Abbreviation keeps_inv := (keeps (F := fsys) shmem_inv (resumed me) (running_as me)).

Lemma keeps_devintr r : keeps_inv (devintr r).
Proof.
  assert (keeps_inv virtio_disk_intr) by (apply keeps_virtio_disk_intr, _).
  unfold devintr, clockintr, plic_complete, cpuid. keeps_auto.
Qed.

Lemma keeps_exit_if_killed p : keeps_inv (exit_if_killed stat_pad p).
Proof.
  unfold exit_if_killed. apply keeps_bind; [keeps_auto|]. intros k. destruct (negb _); [|keeps_auto].
  intros s H. eapply post_mono; [by apply post_exit|]. done.
Qed.

Lemma keeps_usertrapret r : keeps_inv (usertrapret r).
Proof. unfold usertrapret, intr_off. keeps_auto. Qed.
#[local] Hint Resolve keeps_devintr keeps_exit_if_killed keeps_usertrapret : keeps.

Lemma keeps_forkret first r : keeps_inv (forkret first r).
Proof. unfold forkret. keeps_auto. Qed.

Lemma keeps_kerneltrap r : keeps_inv (kerneltrap r).
Proof. unfold kerneltrap, intr_get. keeps_auto. Qed.

(** Storing the saved program counter leaves the number of the call. *)
Lemma call_number_epc p v (s : kstate fsys) :
  call_number p (upd_mem (fun m => st64 m (p_trapframe (get_proc p s) + TF_epc) v) s) = call_number p s.
Proof. unfold call_number. cbn. f_equal. apply ld_st_disj. unfold TF_a7, TF_epc. lia. Qed.

Lemma exec_unshared_epc p v s :
  me = Some p -> exec_unshared me s ->
  exec_unshared me (upd_mem (fun m => st64 m (p_trapframe (get_proc p s) + TF_epc) v) s).
Proof.
  intros -> Hx q [= <-]. rewrite call_number_epc. by apply Hx.
Qed.

Lemma exec_unshared_same s s' :
  k_mem s' = k_mem s -> k_procs s' = k_procs s -> exec_unshared me s -> exec_unshared me s'.
Proof.
  intros Em Ep H p Hp. specialize (H p Hp). unfold call_number, get_proc in *. by rewrite Em, Ep.
Qed.

(** A process makes its call with the registers it trapped with. *)
Lemma post_call p s :
  me = Some p -> running_as me s -> exec_unshared me s ->
  post shmem_inv (resumed me) (fun _ => running_as me)
    ((exit_if_killed stat_pad p ;;
      epc <- tf_get p TF_epc ;;
      tf_set p TF_epc (u64 (epc + 4)) ;;
      intr_on ;;
      syscall stat_pad ;;
      ret 0) s).
Proof.
  intros Hme H Hx. eapply (post_bind _ _ (fun _ => with_tables (running_as me) (k_mem s) (k_procs s))).
  { unfold exit_if_killed. eapply post_bind.
    - exact (keeps_killed _ _ (with_tables (running_as me) (k_mem s) (k_procs s)) p s (conj H (conj eq_refl eq_refl))).
    - cbn beta. intros k s1 H1. destruct (negb _); [|done]. eapply post_mono; [apply post_exit, H1|done]. }
  cbn beta. intros _ s1 (H1 & Em & Ep). apply (exec_unshared_same _ s1) in Hx; [|done..].
  unfold tf_get, tf_set, intr_on. rewrite kbind_gets, !kbind_modify.
  eapply post_bind.
  - apply post_syscall.
    + by apply stable_sie, stable_mem.
    + eapply exec_unshared_same; [reflexivity..|]. by apply exec_unshared_epc.
  - done.
Qed.

Lemma post_usertrap r s :
  running_as me s -> (r_scause r = 8 -> exec_unshared me s) ->
  post shmem_inv (resumed me) (fun _ => running_as me) (usertrap stat_pad r s).
Proof.
  intros H Hx. unfold usertrap. destruct (negb _); [done|]. eapply post_bind.
  { exact (post_curproc _ _ (with_tables (running_as me) (k_mem s) (k_procs s)) s (conj H (conj eq_refl eq_refl))). }
  cbn beta. intros p s1 ((Hs & Em & Ep) & Hc & _). assert (me = Some p) as Hme by (destruct Hs; congruence).
  unfold tf_set at 1. rewrite kbind_modify.
  apply (post_bind _ _ (fun _ => running_as me)); [|intros w; match goal with |- forall s2, _ -> post _ _ _ (?c s2) => change (keeps_inv c) end; keeps_auto].
  destruct (r_scause r =? 8) eqn:E.
  - apply Z.eqb_eq in E. apply post_call; [done|by apply stable_mem|]. apply exec_unshared_epc; [done|].
    by apply (exec_unshared_same s); [..|apply Hx].
  - clear Em Ep Hc. apply (stable_mem (st64 (k_mem s1) (p_trapframe (get_proc p s1) + TF_epc) (r_sepc r))) in Hs.
    revert Hs. unfold upd_mem. generalize (set_k_mem (st64 (k_mem s1) (p_trapframe (get_proc p s1) + TF_epc) (r_sepc r)) s1).
    match goal with |- forall s2, _ -> post _ _ _ (?c s2) => change (keeps_inv c) end. keeps_auto.
Qed.
End Traps.
