(* ===== verification/Kernel.v ===== *)
(** The kernel as a system of threads: processes that trap into the kernel, give
    up the CPU inside it, and are resumed by the scheduler.

    Code between two switches runs as one step; a suspended process is the
    continuation of its [Swtch]. [reachable] is the set of configurations such a
    system can get into from boot. *)
From S2P Require Import Prelude Riscv Machine Spinlock KString Kalloc Vm Sched Keeps FsIface File Proc Shmem ShmemInv ProcInv.
From S2P Require Import FsState Quiet Sleeplock Bio Log Console Fs FsInst Virtio SysArgs Exec Sysfile Syscall Trap SysKeeps.

(** ** Boot *)

(** Memory as the loader leaves it: the process table is zero, and no process
    runs. *)
Record at_boot (s : kstate fsys) : Prop := {
  boot_procs : k_procs s = replicate NPROC zero_proc;
  boot_shmem : k_shmem s = replicate SHMEM zero_shmem;
  boot_cur : cur s = None
}.

Section Boot.
Context `{L : Layout} `{Fuel0 : Fuel} `{Regs : VirtioRegs} `{Syms : TrapSyms} (stat_pad : list Z).
Abbreviation keeps_boot J := (keeps (F := fsys) (fun _ => True) (fun _ _ => False) J).

(** Before userinit(): every slot is free, and the first [n] shared pages are set
    up. *)
Definition early (n : nat) (s : kstate fsys) : Prop :=
  cur s = None /\ length (k_procs s) = NPROC /\ length (k_shmem s) = SHMEM /\
  Forall (fun q => p_state q = UNUSED /\ length (p_shmem_access q) = SHMEM) (k_procs s) /\
  forall i h, (i < n)%nat -> k_shmem s !! i = Some h -> sh_numberofusers h = 0 /\ sh_state h = NOT_SET.

Lemma early_unused n i s : early n s -> p_state (get_proc i s) = UNUSED.
Proof.
  intros (_ & _ & _ & H & _). unfold get_proc. destruct (k_procs s !! i) as [q|] eqn:E; [|done].
  rewrite Forall_lookup in H. by apply (H i).
Qed.

Lemma early_proc n i f s :
  (forall q, p_state q = UNUSED -> p_state (f q) = UNUSED /\ p_shmem_access (f q) = p_shmem_access q) ->
  early n s -> early n (upd_proc i f s).
Proof.
  intros Hf (Hc & Hp & Hh & H & Hn). split; [done|]. cbn. rewrite length_alter. split; [done|]. split; [done|].
  split; [|done]. apply Forall_alter; [done|]. intros q Hq [E1 E2].
  destruct (Hf q E1) as [-> ->]. done.
Qed.

#[export] Instance early_stable n : Stable (early n).
Proof.
  split; [split; try (intros ? s H; exact H)|..].
  - intros f s Hf (Hc & H). split; [|done]. by rewrite cur_upd_cpu.
  - intros i v s. by apply early_proc.
  - intros i v s. by apply early_proc.
  - intros i s Hs H. by rewrite (early_unused n) in Hs.
Qed.

#[export] Instance early_resumes n : Resumes (fun _ => True) (fun _ _ => False) (early n).
Proof. split; [done|intros p s Hc (? & _); congruence..|done]. Qed.

Lemma early_running s : early SHMEM s -> running_as None s.
Proof.
  intros (Hc & Hp & Hh & H & Hn). split; [split; [|congruence]|done].
  assert (forall i j q, k_procs s !! j = Some q -> uses i q = false) as Hu.
  { intros i j q Hq. unfold uses, live. rewrite Forall_lookup in H. by destruct (H j q Hq) as [-> _]. }
  assert (forall i, count (uses i) (k_procs s) = 0) as Hcount.
  { intros i. apply count_none. eauto. }
  assert (forall i h, k_shmem s !! i = Some h -> sh_numberofusers h = 0 /\ sh_state h = NOT_SET) as Hz.
  { intros i h Hi. apply (Hn i); [|done]. apply lookup_lt_Some in Hi. lia. }
  split; [done|done|..].
  - intros j q Hq. rewrite Forall_lookup in H. by apply (H j).
  - intros i h Hi. rewrite Hcount. by apply (Hz i).
  - intros i h Hi. left. by apply (Hz i).
  - intros i h Hi. by destruct (Hz i h Hi) as [-> ->].
  - intros i h j q _ Hq E. by rewrite (Hu i j q Hq) in E.
Qed.

Lemma early_page n f s :
  (forall h, sh_numberofusers (f h) = 0 /\ sh_state (f h) = NOT_SET) ->
  early n s -> early (S n) (upd_shmem n f s).
Proof.
  intros Hf (Hc & Hp & Hh & H & Hn). split; [done|]. split; [done|]. cbn. rewrite length_alter.
  split; [done|]. split; [done|]. intros i h Hi Hl. destruct (decide (i = n)) as [->|Hne].
  - rewrite list_lookup_alter_eq in Hl. destruct (k_shmem s !! n) as [h0|]; [|done]. injection Hl as <-. apply Hf.
  - rewrite list_lookup_alter_ne in Hl by done. apply (Hn i); [lia|done].
Qed.

(** safe_physical_address() sets up one page. *)
Lemma early_step n :
  forall s, early n s ->
  post (fun _ => True) (fun _ _ => False) (fun _ => early (S n)) ((pa <- kalloc ;; safe_physical_address pa n) s).
Proof.
  intros s H. eapply post_bind; [by apply (keeps_kalloc _ _ (early n))|]. cbn beta. clear H. intros pa s1 H.
  unfold safe_physical_address, initlock. rewrite !kbind_modify.
  assert (forall v, early (S n) (upd_shmem n (set_sh_using_top_pid (-1)) (set_k_locks v
    (upd_shmem n (set_sh_state NOT_SET) (upd_shmem n (set_sh_numberofusers 0) (upd_shmem n (set_sh_PHADDR pa) s1)))))) as He.
  { intros v. apply (stable_locks v) in H.
    apply (early_page n (fun h => set_sh_using_top_pid (-1) (set_sh_state NOT_SET (set_sh_numberofusers 0 (set_sh_PHADDR pa h))))) in H;
      [|done].
    unfold early in *. cbn in *. by rewrite !list_alter_alter in *. }
  apply He.
Qed.

Lemma early_shmem_init s :
  early 0 s -> post (fun _ => True) (fun _ _ => False) (fun _ => early SHMEM) (shmem_init s).
Proof.
  intros H. unfold shmem_init, SHMEM at 2. cbn [for_].
  do 4 (eapply post_bind; [apply early_step, H|]; clear H; cbn beta; clear s; intros _ s H). done.
Qed.

(** The first process, before it is runnable. *)
#[export] Instance fresh_stable np : Stable (slot_inv (F := fsys) None fresh np).
Proof.
  split; [apply _|..].
  - intros i v s (H & Hne & q & Hq & Hf). split; [by apply stable_chan|]. split; [done|]. cbn.
    destruct (decide (i = np)) as [->|?]; [exists (set_p_chan v q)|exists q].
    + by rewrite list_lookup_alter_eq, Hq.
    + by rewrite list_lookup_alter_ne.
  - intros i v s (H & Hne & q & Hq & Hf). split; [by apply stable_killed|]. split; [done|]. cbn.
    destruct (decide (i = np)) as [->|?]; [exists (set_p_killed v q)|exists q].
    + by rewrite list_lookup_alter_eq, Hq.
    + by rewrite list_lookup_alter_ne.
  - intros i s Hs (H & Hne & q & Hq & Hf). split; [by apply stable_wake|]. split; [done|]. exists q.
    split; [|done]. cbn. rewrite list_lookup_alter_ne; [done|]. intros ->.
    rewrite (get_proc_lookup _ _ _ Hq) in Hs. destruct Hf as [Hf _]. congruence.
Qed.

#[export] Instance fresh_resumes np :
  Resumes (fun _ => True) (fun _ _ => False) (slot_inv (F := fsys) None fresh np).
Proof. split; [done|intros p s Hc ([_ ?] & _); congruence..|done]. Qed.
#[local] Hint Extern 1 (BlockDevKeeps _) => typeclasses eauto : keeps.

Lemma boot_userinit s :
  running_as None s ->
  post (fun _ => True) (fun _ _ => False) (fun _ => running_as None) (userinit (Fs := fs_ops stat_pad) s).
Proof.
  intros H. unfold userinit, tf_set. eapply post_bind; [by apply (post_allocproc _ _ None)|]. clear H.
  intros r s1 H. rewrite kbind_modify. destruct r as [np|]; [|done].
  change (slot_inv None fresh np (set_k_initproc (Some np) s1)) in H.
  set (s2 := set_k_initproc (Some np) s1) in H |- *. clearbody s2.
  rewrite kbind_gets. slot_step H. slot_mod (fresh_set (F := fsys) None np) H. slot_step H. slot_step H. slot_mod (fresh_set (F := fsys) None np) H.
  eapply post_bind; [apply (keeps_namei _ _ (slot_inv None fresh np)), H|].
  cbn beta. clear H. intros cwd s9 H. slot_mod (fresh_set (F := fsys) None np) H. rewrite kbind_modify.
  apply (slot_upd None fresh unshared np (set_p_state RUNNABLE)) in H.
  - apply slot_running in H. by apply (keeps_release _ _ (running_as None)).
  - intros q Hq Hlen. assert (unshared (set_p_state RUNNABLE q)) as Hu.
    { intros i. unfold uses. change (has_access i (set_p_state RUNNABLE q)) with (has_access i q).
      by rewrite (fresh_no_access q i Hq), andb_false_r. }
    split; [by apply fresh_unshared|done].
Qed.

(** Boot ends with the shared-memory table in order and no process running. *)
Lemma boot_inv s :
  at_boot s -> post (fun _ => True) (fun _ _ => False) (fun _ => running_as None) (main_boot stat_pad s).
Proof.
  intros [Hp Hh Hc].
  assert (early 0 s) as H.
  { split; [done|]. rewrite Hp, Hh, !length_replicate. split; [done|]. split; [done|]. split; [|lia].
    apply Forall_replicate. done. }
  assert (keeps_boot (early 0) kinit) as Hk.
  { unfold kinit, freerange. assert (forall k p e, keeps_boot (early 0) (freerange_loop k p e)).
    { induction k as [|k IH]; intros; cbn [freerange_loop]; keeps_auto. }
    keeps_auto. }
  assert (keeps_boot (early 0) kvmmake) as Hv.
  { unfold kvmmake, proc_mapstacks, kvmmap, do_memset. keeps_auto. }
  assert (keeps_boot (early 0) procinit) as Hi.
  { unfold procinit. apply keeps_bind; [keeps_auto|intros _]. apply keeps_bind; [keeps_auto|intros _].
    apply keeps_for. intros p. apply keeps_bind; [keeps_auto|intros _].
    apply keeps_bind; [|intros _]; apply keeps_modify; intros; by apply early_proc. }
  assert (forall lk n, keeps_boot (early 0) (initsleeplock lk n)) by (intros; unfold initsleeplock; keeps_auto).
  assert (keeps_boot (early 0) binit) by (unfold binit; keeps_auto).
  assert (keeps_boot (early 0) iinit) by (unfold iinit; keeps_auto).
  assert (keeps_boot (early 0) virtio_disk_init) by (unfold virtio_disk_init, vd_modify, do_memset; keeps_auto).
  unfold main_boot, consoleinit, uartinit, printfinit, trapinit, fileinit, plicinit, plicinithart, cpuid.
  do 15 slot_step H.
  eapply post_bind; [apply early_shmem_init, H|]. clear H. cbn beta. intros _ s20 H%early_running.
  eapply post_bind; [apply boot_userinit, H|]. done.
Qed.
End Boot.

(** ** Threads *)

Section Kernel.
Context `{L : Layout} `{Fuel0 : Fuel} `{Regs : VirtioRegs} `{Syms : TrapSyms} `{U : Unspec} (stat_pad : list Z).

(** A kernel thread ends by returning to user space. *)
Abbreviation cont := (kstate fsys -> outcome (kstate fsys) user_return).

(** A configuration: the state, the suspended kernel threads by process, and
    the process that runs user code, if any ([None] in the scheduler). *)
Record config := mkconfig {
  cf_state : kstate fsys;
  cf_threads : gmap nat cont;
  cf_running : option nat
}.

(** The scheduler runs the runnable process [j] on some hart. *)
Definition dispatch (j : nat) (s s' : kstate fsys) : Prop :=
  (exists p, k_procs s !! j = Some p /\ p_state p = RUNNABLE) /\
  k_procs s' = alter (set_p_state RUNNING) j (k_procs s) /\
  k_shmem s' = k_shmem s /\ cur s' = Some j.

(** The scheduler takes an interrupt between two processes. *)
Definition idle (s s' : kstate fsys) : Prop :=
  k_procs s' = k_procs s /\ k_shmem s' = k_shmem s /\ cur s' = None.

(** User code, which may change memory, traps; interrupts are off. *)
Definition user_trap (m : memory) (s : kstate fsys) : kstate fsys := set_k_sie false (set_k_mem m s).

(** Where a thread of process [j] gets to. *)
Inductive lands (j : nat) (T : gmap nat cont) : outcome (kstate fsys) user_return -> config -> Prop :=
| lands_switch s k : lands j T (Swtch s k) (mkconfig s (<[j := k]> T) None)
| lands_user r s : lands j T (Ret r s) (mkconfig s (delete j T) (Some j)).

Inductive cstep : config -> config -> Prop :=
| c_start s T j first r s' c :
    dispatch j s s' -> lands j T (forkret first r s') c -> cstep (mkconfig s T None) c
| c_resume s T j k s' c :
    T !! j = Some k -> dispatch j s s' -> lands j T (k s') c -> cstep (mkconfig s T None) c
| c_trap s T j m r c :
    (r_scause r = 8 -> exec_unshared (Some j) (user_trap m s)) ->
    lands j T (usertrap stat_pad r (user_trap m s)) c -> cstep (mkconfig s T (Some j)) c
| c_idle s T r s' x s2 :
    idle s s' -> kerneltrap r s' = Ret x s2 -> cstep (mkconfig s T None) (mkconfig s2 T None).

(** From a state that boot leaves ([boot_inv]). *)
Inductive reachable : config -> Prop :=
| reach_boot s : shmem_inv s -> reachable (mkconfig s ∅ None)
| reach_step c c' : reachable c -> cstep c c' -> reachable c'.

(** Every suspended thread keeps the invariant when it is resumed. *)
Definition thread_ok (j : nat) (k : cont) : Prop :=
  forall s, running_as (Some j) s ->
    post shmem_inv (resumed (Some j)) (fun _ => running_as (Some j)) (k s).

Definition config_inv (c : config) : Prop :=
  shmem_inv (cf_state c) /\
  (forall j k, cf_threads c !! j = Some k -> thread_ok j k) /\
  (forall j, cf_running c = Some j -> running_as (Some j) (cf_state c)).

Lemma dispatch_running j s s' : dispatch j s s' -> shmem_inv s -> running_as (Some j) s'.
Proof.
  intros ((p & Hp & Hst) & Eps & Ehs & Hc) H. split; [split|done].
  - unfold shmem_inv. rewrite Eps, Ehs. apply table_inv_same; [done|]. intros q Hq.
    assert (q = p) as -> by congruence. split; [|done]. unfold live. by rewrite Hst.
  - intros i Hi. assert (i = j) as -> by congruence. rewrite Eps.
    exists (set_p_state RUNNING p). by rewrite list_lookup_alter_eq, Hp.
Qed.

Lemma idle_running s s' : idle s s' -> shmem_inv s -> running_as None s'.
Proof.
  intros (Eps & Ehs & Hc) H. split; [split|done].
  - unfold shmem_inv. by rewrite Eps, Ehs.
  - intros i Hi. congruence.
Qed.

Lemma lands_inv j T o c :
  post shmem_inv (resumed (Some j)) (fun _ => running_as (Some j)) o ->
  (forall i k, T !! i = Some k -> thread_ok i k) -> lands j T o c -> config_inv c.
Proof.
  intros Ho HT Hl. destruct Hl as [s k|r s].
  - destruct Ho as [H Hk]. split; [done|]. split; [|done]. cbn. intros i k' Hi.
    destruct (decide (i = j)) as [->|Hne].
    + rewrite lookup_insert_eq in Hi. injection Hi as <-. intros s' [[Hs Hl] Hc]. apply Hk; [|done].
      by split.
    + rewrite lookup_insert_ne in Hi by done. by apply HT.
  - split; [apply Ho|]. split; [|by intros i [= <-]]. cbn. intros i k' Hi.
    apply lookup_delete_Some in Hi as [_ Hi]. by apply HT.
Qed.

Lemma step_inv c c' : config_inv c -> cstep c c' -> config_inv c'.
Proof.
  intros (H & HT & Hr) Hst. destruct Hst as
    [s T j f r s' c Hd Hl|s T j k s' c Hk Hd Hl|s T j m r c Hx Hl|s T r s' x s2 Hi E]; cbn in *.
  - eapply lands_inv; [|done|done]. apply keeps_forkret. by eapply dispatch_running.
  - eapply lands_inv; [|done|done]. apply (HT j k Hk). by eapply dispatch_running.
  - eapply lands_inv; [|done|done]. apply post_usertrap; [|done].
    by apply stable_sie, stable_mem, Hr.
  - pose proof (keeps_kerneltrap None r s' (idle_running _ _ Hi H)) as Hp. rewrite E in Hp.
    split; [apply Hp|]. by split.
Qed.

Lemma reachable_config_inv c : reachable c -> config_inv c.
Proof.
  induction 1 as [s Hs|c c' _ IH Hst]; [|by eapply step_inv].
  split; [done|]. split; [|done]. intros j k Hk. cbn in Hk. by rewrite lookup_empty in Hk.
Qed.
End Kernel.

