(* ===== verification/Asm.v ===== *)
(** The assembly of the kernel: trampoline.S, swtch.S, kernelvec.S and entry.S,
    and the machine-mode start-up of start.c, run by an interpreter of the
    instructions they use.

    A [hart] has the registers, the control registers these files touch, the
    program counter, the privilege mode and the physical memory. Loads and stores
    of supervisor code go through the page table that satp designates, which lies
    in that memory; in machine mode addresses are physical. A translation fault
    is [None]. Instruction fetch and the TLB are not modelled: the code lists are
    straight-line, and sfence.vma has no effect. *)
From stdpp Require Import functions.
From S2P Require Import Prelude Riscv Machine Spinlock KString Kalloc Vm PageTable UserMem Sched Keeps FsIface File.
From S2P Require Import Proc Shmem FsState Console Virtio SysArgs Exec Sysfile Syscall Trap.

Module Reg.
Inductive reg :=
| zero | ra | sp | gp | tp | t0 | t1 | t2 | s0 | s1 | a0 | a1 | a2 | a3 | a4 | a5 | a6 | a7
| s2 | s3 | s4 | s5 | s6 | s7 | s8 | s9 | s10 | s11 | t3 | t4 | t5 | t6.

#[export] Instance reg_eq_dec : EqDecision reg.
Proof. solve_decision. Defined.
End Reg.
Import Reg.

Inductive csr :=
| mstatus | mepc | mhartid | medeleg | mideleg | pmpaddr0 | pmpcfg0 | mscratch | mtvec | mie
| satp | sie | sip | sscratch | sepc.

#[export] Instance csr_eq_dec : EqDecision csr.
Proof. solve_decision. Defined.

Inductive mode := User | Supervisor | Machine.

Record hart := mkhart {
  h_reg : reg -> Z;
  h_csr : csr -> Z;
  h_pc : Z;
  h_mode : mode;
  h_mem : memory
}.

Definition getr (r : reg) (h : hart) : Z := if decide (r = zero) then 0 else h_reg h r.
Definition setr (r : reg) (v : Z) (h : hart) : hart :=
  mkhart (<[r := v]> (h_reg h)) (h_csr h) (h_pc h) (h_mode h) (h_mem h).
Definition setc (c : csr) (v : Z) (h : hart) : hart :=
  mkhart (h_reg h) (<[c := v]> (h_csr h)) (h_pc h) (h_mode h) (h_mem h).
Definition set_pc (v : Z) (h : hart) : hart := mkhart (h_reg h) (h_csr h) v (h_mode h) (h_mem h).
Definition set_mode (v : mode) (h : hart) : hart := mkhart (h_reg h) (h_csr h) (h_pc h) v (h_mem h).
Definition set_mem (v : memory) (h : hart) : hart := mkhart (h_reg h) (h_csr h) (h_pc h) (h_mode h) v.

(** ** Address translation *)

(** The root table of a satp value. *)
Definition satp_root (v : Z) : Z := Z.shiftl (Z.land v (Z.ones 44)) 12.

(** A supervisor access: the page must be mapped with the permission, and not
    for user mode. *)
Definition translate (m : memory) (v : Z) (write : bool) (va : Z) : option Z :=
  if Z.shiftr v 60 =? 0 then Some va else
  if (va <? 0) || (va >=? MAXVA) then None else
  let pte := leaf m (satp_root v) va in
  if has_flag pte PTE_V && has_flag pte (if write then PTE_W else PTE_R) && negb (has_flag pte PTE_U)
  then Some (PTE2PA pte + va `mod` PGSIZE) else None.

(** This code runs in supervisor or machine mode. *)
Definition access (write : bool) (va : Z) (h : hart) : option Z :=
  match h_mode h with
  | Machine => Some va
  | Supervisor => translate (h_mem h) (h_csr h satp) write va
  | User => None
  end.

(** ** Instructions *)

Inductive instr :=
| SD (rs : reg) (off : Z) (rb : reg)
| LD (rd : reg) (off : Z) (rb : reg)
| LI (rd : reg) (v : Z)
| ADDI (rd rs : reg) (v : Z)
| ADD (rd rs rt : reg)
| MUL (rd rs rt : reg)
| CSRW (c : csr) (rs : reg)
| CSRR (rd : reg) (c : csr)
| CSRRW (rd : reg) (c : csr) (rs : reg)
| SFENCE
| JR (rs : reg)
| SRET
| MRET.

Abbreviation MSTATUS_MPP_MASK := (Z.shiftl 3 11).
Abbreviation MSTATUS_MPP_S := (Z.shiftl 1 11).
Abbreviation MSTATUS_MIE := (Z.shiftl 1 3).

(** Bit [to] of [v] becomes bit [from]. *)
Definition copy_bit (v : Z) (to from : Z) : Z := if Z.testbit v from then Z.setbit v to else Z.clearbit v to.

(** sret: to the mode SPP names, SIE := SPIE, SPIE := 1, SPP := 0. *)
Definition do_sret (h : hart) : hart :=
  let v := h_csr h mstatus in
  set_pc (h_csr h sepc) (set_mode (if Z.testbit v 8 then Supervisor else User)
    (setc mstatus (Z.clearbit (Z.setbit (copy_bit v 1 5) 5) 8) h)).

(** mret: to the mode MPP names, MIE := MPIE, MPIE := 1, MPP := U. *)
Definition do_mret (h : hart) : hart :=
  let v := h_csr h mstatus in
  set_pc (h_csr h mepc)
    (set_mode (if Z.testbit v 12 then Machine else if Z.testbit v 11 then Supervisor else User)
      (setc mstatus (Z.clearbit (Z.clearbit (Z.setbit (copy_bit v 3 7) 7) 12) 11) h)).

Definition exec_instr (i : instr) (h : hart) : option hart :=
  match i with
  | SD rs off rb =>
      match access true (u64 (getr rb h + off)) h with
      | Some pa => Some (set_mem (st64 (h_mem h) pa (getr rs h)) h)
      | None => None
      end
  | LD rd off rb =>
      match access false (u64 (getr rb h + off)) h with
      | Some pa => Some (setr rd (ld64 (h_mem h) pa) h)
      | None => None
      end
  | LI rd v => Some (setr rd (u64 v) h)
  | ADDI rd rs v => Some (setr rd (u64 (getr rs h + v)) h)
  | ADD rd rs rt => Some (setr rd (u64 (getr rs h + getr rt h)) h)
  | MUL rd rs rt => Some (setr rd (u64 (getr rs h * getr rt h)) h)
  | CSRW c rs => Some (setc c (getr rs h) h)
  | CSRR rd c => Some (setr rd (h_csr h c) h)
  | CSRRW rd c rs => Some (setr rd (h_csr h c) (setc c (getr rs h) h))
  | SFENCE => Some h
  | JR rs => Some (set_pc (getr rs h) h)
  | SRET => Some (do_sret h)
  | MRET => Some (do_mret h)
  end.

Fixpoint run (l : list instr) (h : hart) : option hart :=
  match l with
  | [] => Some h
  | i :: l => match exec_instr i h with Some h => run l h | None => None end
  end.

(** ** The code *)

Definition swtch_code : list instr :=
  [SD ra 0 a0; SD sp 8 a0; SD s0 16 a0; SD s1 24 a0; SD s2 32 a0; SD s3 40 a0; SD s4 48 a0;
   SD s5 56 a0; SD s6 64 a0; SD s7 72 a0; SD s8 80 a0; SD s9 88 a0; SD s10 96 a0; SD s11 104 a0;
   LD ra 0 a1; LD sp 8 a1; LD s0 16 a1; LD s1 24 a1; LD s2 32 a1; LD s3 40 a1; LD s4 48 a1;
   LD s5 56 a1; LD s6 64 a1; LD s7 72 a1; LD s8 80 a1; LD s9 88 a1; LD s10 96 a1; LD s11 104 a1;
   JR ra].

Definition uservec_code : list instr :=
  [CSRW sscratch a0; LI a0 TRAPFRAME;
   SD ra 40 a0; SD sp 48 a0; SD gp 56 a0; SD tp 64 a0; SD t0 72 a0; SD t1 80 a0; SD t2 88 a0;
   SD s0 96 a0; SD s1 104 a0; SD a1 120 a0; SD a2 128 a0; SD a3 136 a0; SD a4 144 a0; SD a5 152 a0;
   SD a6 160 a0; SD a7 168 a0; SD s2 176 a0; SD s3 184 a0; SD s4 192 a0; SD s5 200 a0; SD s6 208 a0;
   SD s7 216 a0; SD s8 224 a0; SD s9 232 a0; SD s10 240 a0; SD s11 248 a0; SD t3 256 a0; SD t4 264 a0;
   SD t5 272 a0; SD t6 280 a0;
   CSRR t0 sscratch; SD t0 112 a0;
   LD sp 8 a0; LD tp 32 a0; LD t0 16 a0; LD t1 0 a0;
   SFENCE; CSRW satp t1; SFENCE; JR t0].

Definition userret_code : list instr :=
  [SFENCE; CSRW satp a0; SFENCE; LI a0 TRAPFRAME;
   LD ra 40 a0; LD sp 48 a0; LD gp 56 a0; LD tp 64 a0; LD t0 72 a0; LD t1 80 a0; LD t2 88 a0;
   LD s0 96 a0; LD s1 104 a0; LD a1 120 a0; LD a2 128 a0; LD a3 136 a0; LD a4 144 a0; LD a5 152 a0;
   LD a6 160 a0; LD a7 168 a0; LD s2 176 a0; LD s3 184 a0; LD s4 192 a0; LD s5 200 a0; LD s6 208 a0;
   LD s7 216 a0; LD s8 224 a0; LD s9 232 a0; LD s10 240 a0; LD s11 248 a0; LD t3 256 a0; LD t4 264 a0;
   LD t5 272 a0; LD t6 280 a0;
   LD a0 112 a0; SRET].

(** kernelvec up to its call of kerneltrap(), and from its return on. *)
Definition kernelvec_save : list instr :=
  [ADDI sp sp (-256);
   SD ra 0 sp; SD sp 8 sp; SD gp 16 sp; SD tp 24 sp; SD t0 32 sp; SD t1 40 sp; SD t2 48 sp; SD s0 56 sp;
   SD s1 64 sp; SD a0 72 sp; SD a1 80 sp; SD a2 88 sp; SD a3 96 sp; SD a4 104 sp; SD a5 112 sp;
   SD a6 120 sp; SD a7 128 sp; SD s2 136 sp; SD s3 144 sp; SD s4 152 sp; SD s5 160 sp; SD s6 168 sp;
   SD s7 176 sp; SD s8 184 sp; SD s9 192 sp; SD s10 200 sp; SD s11 208 sp; SD t3 216 sp; SD t4 224 sp;
   SD t5 232 sp; SD t6 240 sp].

Definition kernelvec_restore : list instr :=
  [LD ra 0 sp; LD sp 8 sp; LD gp 16 sp; LD t0 32 sp; LD t1 40 sp; LD t2 48 sp; LD s0 56 sp;
   LD s1 64 sp; LD a0 72 sp; LD a1 80 sp; LD a2 88 sp; LD a3 96 sp; LD a4 104 sp; LD a5 112 sp;
   LD a6 120 sp; LD a7 128 sp; LD s2 136 sp; LD s3 144 sp; LD s4 152 sp; LD s5 160 sp; LD s6 168 sp;
   LD s7 176 sp; LD s8 184 sp; LD s9 192 sp; LD s10 200 sp; LD s11 208 sp; LD t3 216 sp; LD t4 224 sp;
   LD t5 232 sp; LD t6 240 sp;
   ADDI sp sp 256; SRET].

(** kernelvec around a kerneltrap() that takes the hart as [call] says. *)
Definition kernelvec_code (call : hart -> hart) (h : hart) : option hart :=
  match run kernelvec_save h with
  | Some h => run kernelvec_restore (call h)
  | None => None
  end.

Definition timervec : list instr :=
  [CSRRW a0 mscratch a0; SD a1 0 a0; SD a2 8 a0; SD a3 16 a0;
   LD a1 24 a0; LD a2 32 a0; LD a3 0 a1; ADD a3 a3 a2; SD a3 0 a1;
   LI a1 2; CSRW sip a1;
   LD a3 16 a0; LD a2 8 a0; LD a1 0 a0; CSRRW a0 mscratch a0; MRET].

(** ** Machine-mode start-up: entry.S and start.c *)

Class BootSyms := { main_addr : Z; timervec_addr : Z; stack0 : Z; timer_scratch : Z }.

Abbreviation CLINT := (0x2000000) (only parsing).
Abbreviation CLINT_MTIMECMP hartid := (CLINT + 0x4000 + 8 * hartid) (only parsing).
Abbreviation CLINT_MTIME := (CLINT + 0xBFF8) (only parsing).
Abbreviation SIE_SEIE := (Z.shiftl 1 9).
Abbreviation SIE_STIE := (Z.shiftl 1 5).
Abbreviation SIE_SSIE := (Z.shiftl 1 1).
Abbreviation MIE_MTIE := (Z.shiftl 1 7).

Section Start.
Context `{Syms : BootSyms}.

Definition timerinit (h : hart) : hart :=
  let id := s32 (h_csr h mhartid) in
  let interval := 1000000 in
  let m := h_mem h in
  let m := st64 m (CLINT_MTIMECMP id) (u64 (ld64 m CLINT_MTIME + interval)) in
  let scratch := timer_scratch + 5 * 8 * id in
  let m := st64 m (scratch + 24) (CLINT_MTIMECMP id) in
  let m := st64 m (scratch + 32) interval in
  let h := setc mscratch scratch (set_mem m h) in
  let h := setc mtvec timervec_addr h in
  let h := setc mstatus (Z.lor (h_csr h mstatus) MSTATUS_MIE) h in
  setc mie (Z.lor (h_csr h mie) MIE_MTIE) h.

Definition start (h : hart) : hart :=
  let x := h_csr h mstatus in
  let x := Z.land x (Z.lnot MSTATUS_MPP_MASK) in
  let x := Z.lor x MSTATUS_MPP_S in
  let h := setc mstatus x h in
  let h := setc mepc main_addr h in
  let h := setc satp 0 h in
  let h := setc medeleg 0xffff h in
  let h := setc mideleg 0xffff h in
  let h := setc sie (Z.lor (Z.lor (Z.lor (h_csr h sie) SIE_SEIE) SIE_STIE) SIE_SSIE) h in
  let h := setc pmpaddr0 0x3fffffffffffff h in
  let h := setc pmpcfg0 0xf h in
  let h := timerinit h in
  let id := s32 (h_csr h mhartid) in
  let h := setr tp (u64 id) h in
  do_mret h.

Definition entry : list instr :=
  [LI sp stack0; LI a0 (1024 * 4); CSRR a1 mhartid; ADDI a1 a1 1; MUL a0 a0 a1; ADD sp sp a0].

Definition entry_code (h : hart) : option hart :=
  match run entry h with Some h => Some (start h) | None => None end.
End Start.

(** ** Runs of stores and loads *)

(** Memories that differ in [D] only. *)
Definition only (D : Z -> Prop) (m m' : memory) : Prop := forall x, ~ D x -> ld8 m' x = ld8 m x.

(** Accesses of [n] bytes from virtual address [va] on reach physical memory from
    [pa] on, and do so whatever is stored in [D], which contains these bytes. *)
Definition window (D : Z -> Prop) (h : hart) (va pa n : Z) : Prop :=
  0 <= va /\ va + n <= 2 ^ 64 /\ (forall x, pa <= x < pa + n -> D x) /\
  forall m w o, only D (h_mem h) m -> 0 <= o -> o + 8 <= n -> access w (va + o) (set_mem m h) = Some (pa + o).

Definition saves (b : reg) (l : list (reg * Z)) : list instr := map (fun x => SD x.1 x.2 b) l.
Definition loads (b : reg) (l : list (reg * Z)) : list instr := map (fun x => LD x.1 x.2 b) l.

Definition stored (h : hart) (pa : Z) (l : list (reg * Z)) (m : memory) : memory :=
  foldl (fun m x => st64 m (pa + x.2) (getr x.1 h)) m l.
Definition loaded (m : memory) (pa : Z) (l : list (reg * Z)) (f : reg -> Z) : reg -> Z :=
  foldl (fun f x => <[x.1 := ld64 m (pa + x.2)]> f) f l.

(** Offsets of distinct words below [n]. *)
Definition word_at (n o : Z) : bool := (o `mod` 8 =? 0) && (0 <=? o) && (o + 8 <=? n).
Definition words_in (n : Z) (l : list (reg * Z)) : bool :=
  forallb (fun x => word_at n x.2) l && bool_decide (NoDup l.*1) && bool_decide (NoDup l.*2).

Fixpoint reg_at (o : Z) (l : list (reg * Z)) : option reg :=
  match l with
  | [] => None
  | (r, o') :: l => if decide (o' = o) then Some r else reg_at o l
  end.
Fixpoint off_of (r : reg) (l : list (reg * Z)) : option Z :=
  match l with
  | [] => None
  | (r', o) :: l => if decide (r' = r) then Some o else off_of r l
  end.

Lemma word_at_spec n o : word_at n o = true -> o `mod` 8 = 0 /\ 0 <= o /\ o + 8 <= n.
Proof. unfold word_at. rewrite !andb_true_iff, Z.eqb_eq, !Z.leb_le. tauto. Qed.

Lemma words_sep o o' : o `mod` 8 = 0 -> o' `mod` 8 = 0 -> o <> o' -> o + 8 <= o' \/ o' + 8 <= o.
Proof. intros H H' Hne. pose proof (Z.div_mod o 8). pose proof (Z.div_mod o' 8). lia. Qed.

Lemma window_mem D h va pa n m : window D h va pa n -> only D (h_mem h) m -> window D (set_mem m h) va pa n.
Proof.
  intros (H1 & H2 & H3 & H4) Hm. split; [done|]. split; [done|]. split; [done|]. intros m' w o Hm' Ho Hn.
  apply (H4 m' w o); [|done|done]. intros x Hx. rewrite Hm' by done. by apply Hm.
Qed.

Lemma set_mem_id h : set_mem (h_mem h) h = h.
Proof. by destruct h. Qed.

Lemma set_mem_set m m' h : set_mem m (set_mem m' h) = set_mem m h.
Proof. done. Qed.

Lemma stored_range h pa lo hi l m x :
  forallb (fun x => (lo <=? x.2) && (x.2 + 8 <=? hi)) l = true -> ~ (pa + lo <= x < pa + hi) ->
  ld8 (stored h pa l m) x = ld8 m x.
Proof.
  revert m. induction l as [|[r o] l IH]; intros m Hl Hx; [done|]. cbn in Hl.
  apply andb_prop in Hl as [[H0%Z.leb_le H1%Z.leb_le]%andb_prop Hl].
  change (ld8 (stored h pa l (st64 m (pa + o) (getr r h))) x = ld8 m x).
  rewrite IH by done. apply ld8_st_out. lia.
Qed.

Lemma stored_out h pa n l m x :
  forallb (fun x => word_at n x.2) l = true -> ~ (pa <= x < pa + n) -> ld8 (stored h pa l m) x = ld8 m x.
Proof.
  intros Hl Hx. apply (stored_range h pa 0 n); [|by rewrite Z.add_0_r].
  rewrite forallb_forall in *. intros y Hy. destruct (word_at_spec _ _ (Hl y Hy)). lia.
Qed.

Lemma stored_only D h va pa n l m :
  window D h va pa n -> forallb (fun x => word_at n x.2) l = true -> only D (h_mem h) m ->
  only D (h_mem h) (stored h pa l m).
Proof.
  intros (_ & _ & HD & _) Hl Hm x Hx. rewrite (stored_out h pa n) by eauto. by apply Hm.
Qed.

(** A run of stores through an unchanged base register. *)
Lemma run_saves D h va pa n b l m rest :
  window D h va pa n -> getr b h = va -> only D (h_mem h) m ->
  forallb (fun x => word_at n x.2) l = true ->
  run (saves b l ++ rest) (set_mem m h) = run rest (set_mem (stored h pa l m) h).
Proof.
  intros Hwin Hb. pose proof Hwin as (Hv0 & Hv1 & HD & Hw).
  revert m. induction l as [|[r o] l IH]; intros m Hm Hl; [done|].
  cbn in Hl. apply andb_prop in Hl as [(_ & Ho0 & Ho1)%word_at_spec Hl].
  assert (exec_instr (SD r o b) (set_mem m h) = Some (set_mem (st64 m (pa + o) (getr r h)) h)) as E.
  { cbn [exec_instr]. change (getr b (set_mem m h)) with (getr b h). rewrite Hb.
    rewrite u64_small by lia. rewrite Hw by done. done. }
  cbn [saves map app run fst snd]. rewrite E. apply IH; [|done].
  intros x Hx. rewrite ld8_st_out; [by apply Hm|]. intros Hr. apply Hx, HD. lia.
Qed.

Lemma stored_lookup h pa l m o n :
  forallb (fun x => word_at n x.2) l = true -> NoDup l.*2 -> o `mod` 8 = 0 ->
  ld64 (stored h pa l m) (pa + o) = match reg_at o l with Some r => u64 (getr r h) | None => ld64 m (pa + o) end.
Proof.
  revert m. induction l as [|[r o'] l IH]; intros m Hl Hnd Ho; [done|].
  cbn in Hl. apply andb_prop in Hl as [(Hm & _ & _)%word_at_spec Hl].
  apply NoDup_cons in Hnd as [Hn Hnd]. cbn [stored foldl reg_at fst snd].
  change (foldl _ (st64 m (pa + o') (getr r h)) l) with (stored h pa l (st64 m (pa + o') (getr r h))).
  rewrite IH by done. case_decide as E.
  - subst o'. assert (reg_at o l = None) as ->; [|by rewrite ld_st_same].
    clear -Hn. induction l as [|[r' o'] l IH]; [done|]. cbn in *. apply not_elem_of_cons in Hn as [Hne Hn].
    rewrite decide_False by congruence. by apply IH.
  - destruct (reg_at o l); [done|]. apply ld_st_disj. pose proof (words_sep o o' Ho Hm). lia.
Qed.

Definition set_regs (f : reg -> Z) (h : hart) : hart := mkhart f (h_csr h) (h_pc h) (h_mode h) (h_mem h).

Lemma set_regs_id h : set_regs (h_reg h) h = h.
Proof. by destruct h. Qed.

(** A run of loads, which leaves the base register as it is or reloads it with
    its value. *)
Lemma run_loads D h va pa n b l f rest :
  window D h va pa n -> b <> zero -> f b = va -> forallb (fun x => word_at n x.2) l = true ->
  (forall o, (b, o) ∈ l -> ld64 (h_mem h) (pa + o) = va) ->
  run (loads b l ++ rest) (set_regs f h) = run rest (set_regs (loaded (h_mem h) pa l f) h).
Proof.
  intros (Hv0 & Hv1 & _ & Hw) Hz. revert f. induction l as [|[r o] l IH]; intros f Hf Hl Hb; [done|].
  cbn in Hl. apply andb_prop in Hl as [(_ & Ho0 & Ho1)%word_at_spec Hl].
  assert (exec_instr (LD r o b) (set_regs f h) = Some (set_regs (<[r := ld64 (h_mem h) (pa + o)]> f) h)) as E.
  { cbn [exec_instr]. unfold getr. rewrite decide_False by done. cbn [h_reg set_regs]. rewrite Hf.
    rewrite u64_small by lia.
    change (access false (va + o) (set_regs f h)) with (access false (va + o) (set_mem (h_mem h) h)).
    rewrite Hw by done. done. }
  cbn [loads map app run fst snd]. rewrite E. apply IH; [|done|].
  - destruct (decide (r = b)) as [->|Hne].
    + rewrite fn_lookup_insert. apply Hb. by left.
    + by rewrite fn_lookup_insert_ne.
  - intros o' Ho'. apply Hb. by right.
Qed.

Lemma loaded_lookup m pa l f r :
  NoDup l.*1 ->
  loaded m pa l f r = match off_of r l with Some o => ld64 m (pa + o) | None => f r end.
Proof.
  revert f. induction l as [|[r' o] l IH]; intros f Hnd; [done|]. apply NoDup_cons in Hnd as [Hn Hnd].
  cbn [loaded foldl off_of fst snd].
  change (foldl _ (<[r' := _]> f) l r) with (loaded m pa l (<[r' := ld64 m (pa + o)]> f) r).
  rewrite IH by done. case_decide as E.
  - subst r'. assert (off_of r l = None) as ->; [|by rewrite fn_lookup_insert].
    clear -Hn. induction l as [|[r' o'] l IH]; [done|]. cbn in *. apply not_elem_of_cons in Hn as [Hne Hn].
    rewrite decide_False by congruence. by apply IH.
  - destruct (off_of r l); [done|]. by rewrite fn_lookup_insert_ne.
Qed.

Lemma words_in_spec n l : words_in n l = true ->
  forallb (fun x => word_at n x.2) l = true /\ NoDup l.*1 /\ NoDup l.*2.
Proof. unfold words_in. rewrite !andb_true_iff, !bool_decide_eq_true. tauto. Qed.

(** A list saved and later loaded: the registers come back. *)
Lemma off_reg l r o : NoDup l.*1 -> (r, o) ∈ l -> off_of r l = Some o.
Proof.
  induction l as [|[r' o'] l IH]; intros Hnd Hin; [by apply not_elem_of_nil in Hin|].
  apply NoDup_cons in Hnd as [Hn Hnd]. cbn. apply elem_of_cons in Hin as [[= -> ->]|Hin].
  - by rewrite decide_True.
  - rewrite decide_False; [by apply IH|]. intros ->. apply Hn. exact (list_elem_of_fmap_2 fst _ _ Hin).
Qed.

Lemma reg_off l r o : NoDup l.*2 -> (r, o) ∈ l -> reg_at o l = Some r.
Proof.
  induction l as [|[r' o'] l IH]; intros Hnd Hin; [by apply not_elem_of_nil in Hin|].
  apply NoDup_cons in Hnd as [Hn Hnd]. cbn. apply elem_of_cons in Hin as [[= -> ->]|Hin].
  - by rewrite decide_True.
  - rewrite decide_False; [by apply IH|]. intros ->. apply Hn. exact (list_elem_of_fmap_2 snd _ _ Hin).
Qed.

Lemma elem_word (l : list (reg * Z)) r o n : forallb (fun x => word_at n x.2) l = true -> (r, o) ∈ l -> word_at n o = true.
Proof. rewrite forallb_forall. intros H Hin. apply (H (r, o)). by apply list_elem_of_In. Qed.

(** The registers hold 64-bit values. *)
Definition regs_ok (h : hart) : Prop := forall r, 0 <= h_reg h r < 2 ^ 64.

Lemma getr_range h r : regs_ok h -> 0 <= getr r h < 2 ^ 64.
Proof. intros H. unfold getr. case_decide; [lia|]. apply H. Qed.

Lemma u64_getr h r : regs_ok h -> u64 (getr r h) = getr r h.
Proof. intros H. apply u64_small. by apply getr_range. Qed.

(** ** swtch.S *)

(** struct context. *)
Definition ctx_regs : list (reg * Z) :=
  [(ra, 0); (sp, 8); (s0, 16); (s1, 24); (s2, 32); (s3, 40); (s4, 48); (s5, 56); (s6, 64); (s7, 72);
   (s8, 80); (s9, 88); (s10, 96); (s11, 104)].

Definition apart (p q n : Z) : Prop := p + n <= q \/ q + n <= p.

Lemma ctx_words : forallb (fun x => word_at 112 x.2) ctx_regs = true /\ NoDup ctx_regs.*1 /\ NoDup ctx_regs.*2.
Proof. apply words_in_spec. by vm_compute. Qed.

(** One switch. *)
Lemma run_swtch D h old pold new pnew :
  window D h old pold 112 -> window D h new pnew 112 -> getr a0 h = old -> getr a1 h = new ->
  let m := stored h pold ctx_regs (h_mem h) in
  let f := loaded m pnew ctx_regs (h_reg h) in
  run swtch_code h = Some (set_pc (f ra) (set_regs f (set_mem m h))).
Proof.
  intros Hold Hnew E0 E1 m f. destruct ctx_words as (Hw & _ & _).
  change swtch_code with (saves a0 ctx_regs ++ loads a1 ctx_regs ++ [JR ra]).
  rewrite <- (set_mem_id h) at 1. rewrite (run_saves D h old pold 112); [|done..].
  change (stored h pold ctx_regs (h_mem h)) with m.
  assert (only D (h_mem h) m) as Hm by by eapply stored_only.
  rewrite <- (set_regs_id (set_mem m h)).
  rewrite (run_loads D (set_mem m h) new pnew 112); [|by apply window_mem|done| |done|].
  - reflexivity.
  - exact E1.
  - intros o Ho. apply list_elem_of_In in Ho. cbn in Ho. intuition discriminate.
Qed.

Lemma ctx_load m pa f r o : (r, o) ∈ ctx_regs -> loaded m pa ctx_regs f r = ld64 m (pa + o).
Proof. intros Hr. destruct ctx_words as (_ & H1 & _). rewrite loaded_lookup by done. by rewrite (off_reg _ r o). Qed.

(** What the words of a context are after the stores to another or to itself. *)
Lemma ctx_stored h pold pnew r o m : apart pold pnew 112 -> (r, o) ∈ ctx_regs ->
  ld64 (stored h pold ctx_regs m) (pnew + o) = ld64 m (pnew + o).
Proof.
  intros Ha Hr. destruct ctx_words as (Hw & _ & _). apply ld_ext. intros x Hx.
  destruct (word_at_spec _ _ (elem_word _ _ _ _ Hw Hr)) as (_ & Ho0 & Ho1).
  apply (stored_out h pold 112); [done|]. unfold apart in Ha. lia.
Qed.

Lemma ctx_saved h pold r o m : regs_ok h -> (r, o) ∈ ctx_regs ->
  ld64 (stored h pold ctx_regs m) (pold + o) = getr r h.
Proof.
  intros Hok Hr. destruct ctx_words as (Hw & H1 & H2).
  destruct (word_at_spec _ _ (elem_word _ _ _ _ Hw Hr)) as (Hm & _ & _).
  rewrite (stored_lookup h pold ctx_regs m o 112) by done. rewrite (reg_off _ r o) by done. by apply u64_getr.
Qed.

(** C10: swtch() suspends and resumes a thread. It stores ra, sp and s0..s11 in
    the old context, loads them from the new one and continues at the new ra,
    changing no other register and no other memory; and whenever a later swtch()
    from any other context switches back to the first, with the words of that
    context untouched, execution continues after the first call with the
    callee-saved registers as they were. *)
Theorem swtch_resume D h old pold new pnew :
  window D h old pold 112 -> window D h new pnew 112 -> getr a0 h = old -> getr a1 h = new ->
  apart pold pnew 112 -> regs_ok h ->
  exists h1, run swtch_code h = Some h1 /\ h_pc h1 = ld64 (h_mem h) pnew /\
    (forall r o, (r, o) ∈ ctx_regs -> getr r h1 = ld64 (h_mem h) (pnew + o)) /\
    (forall r, (r ∉ ctx_regs.*1) -> getr r h1 = getr r h) /\
    (forall x, ~ (pold <= x < pold + 112) -> ld8 (h_mem h1) x = ld8 (h_mem h) x) /\
    forall D' h2 from pfrom, window D' h2 from pfrom 112 -> window D' h2 old pold 112 ->
      getr a0 h2 = from -> getr a1 h2 = old -> apart pfrom pold 112 ->
      (forall r o, (r, o) ∈ ctx_regs -> ld64 (h_mem h2) (pold + o) = ld64 (h_mem h1) (pold + o)) ->
      exists h3, run swtch_code h2 = Some h3 /\ h_pc h3 = getr ra h /\
        forall r o, (r, o) ∈ ctx_regs -> getr r h3 = getr r h.
Proof.
  intros Hold Hnew E0 E1 Ha Hok. destruct ctx_words as (Hw & H1 & H2).
  assert (forall r o, (r, o) ∈ ctx_regs -> r <> zero) as Hz.
  { intros r o Ho ->. apply list_elem_of_In in Ho. cbn in Ho. intuition discriminate. }
  assert (forall r h f pc, r <> zero -> getr r (set_pc pc (set_regs f h)) = f r) as Hg.
  { intros. unfold getr. by rewrite decide_False. }
  assert ((ra, 0) ∈ ctx_regs) as Hra by by left.
  eexists. split; [exact (run_swtch D h old pold new pnew Hold Hnew E0 E1)|]. split; [|split; [|split; [|split]]].
  - cbn [h_pc set_pc]. rewrite (ctx_load _ _ _ ra 0 Hra), (ctx_stored h pold pnew ra 0 _ Ha Hra). by rewrite Z.add_0_r.
  - intros r o Ho. rewrite Hg by by eapply Hz. by rewrite (ctx_load _ _ _ r o Ho), (ctx_stored h pold pnew r o _ Ha Ho).
  - intros r Hr. unfold getr. case_decide; [done|]. cbn [h_reg set_pc set_regs].
    rewrite loaded_lookup by done. destruct (off_of r ctx_regs) eqn:E; [|done]. exfalso. apply Hr.
    destruct r; try done; apply list_elem_of_In; cbn; tauto.
  - intros x Hx. exact (stored_out h pold 112 ctx_regs (h_mem h) x Hw Hx).
  - intros D' h2 from pfrom Hf Ho' F0 F1 Ha' Hsame. eexists. split; [exact (run_swtch D' h2 from pfrom old pold Hf Ho' F0 F1)|].
    assert (forall r o, (r, o) ∈ ctx_regs ->
      ld64 (stored h2 pfrom ctx_regs (h_mem h2)) (pold + o) = getr r h) as Hback.
    { intros r o Ho. rewrite (ctx_stored h2 pfrom pold r o _ Ha' Ho). rewrite (Hsame r o Ho). by apply ctx_saved. }
    split; [cbn [h_pc set_pc]; rewrite (ctx_load _ _ _ ra 0 Hra); by apply Hback|].
    intros r o Ho. rewrite Hg by by eapply Hz. rewrite (ctx_load _ _ _ r o Ho). by apply Hback.
Qed.

(** ** trampoline.S *)

(** The user registers of struct trapframe. *)
Definition tf_saved : list (reg * Z) :=
  [(ra, 40); (sp, 48); (gp, 56); (tp, 64); (t0, 72); (t1, 80); (t2, 88); (s0, 96); (s1, 104);
   (a1, 120); (a2, 128); (a3, 136); (a4, 144); (a5, 152); (a6, 160); (a7, 168); (s2, 176); (s3, 184);
   (s4, 192); (s5, 200); (s6, 208); (s7, 216); (s8, 224); (s9, 232); (s10, 240); (s11, 248); (t3, 256);
   (t4, 264); (t5, 272); (t6, 280)].
Definition tf_regs : list (reg * Z) := (a0, TF_a0) :: tf_saved.

Lemma window_ext D h h' va pa n :
  h_mode h' = h_mode h -> h_csr h' satp = h_csr h satp -> h_mem h' = h_mem h ->
  window D h va pa n -> window D h' va pa n.
Proof.
  intros E1 E2 E3 (H1 & H2 & H3 & H4). split; [done|]. split; [done|]. split; [done|].
  intros m w o. rewrite E3. intros Hm H0 Hn. rewrite <- (H4 m w o Hm H0 Hn). unfold access. cbn. by rewrite E1, E2.
Qed.

Section Trampoline.
Context `{L : Layout} `{!LayoutOk L}.

(** The trapframe page [tf] is mapped at TRAPFRAME, for the supervisor to read and
    write, and is not a page of the table itself. *)
Record tf_mapped (m : memory) (pt tf : Z) : Prop := {
  tm_wf : pt_wf m pt;
  tm_page : is_page tf;
  tm_table : ~ is_table m pt tf;
  tm_addr : PTE2PA (leaf m pt TRAPFRAME) = tf;
  tm_flags : has_flag (leaf m pt TRAPFRAME) PTE_V && has_flag (leaf m pt TRAPFRAME) PTE_R &&
    has_flag (leaf m pt TRAPFRAME) PTE_W && negb (has_flag (leaf m pt TRAPFRAME) PTE_U) = true
}.

Lemma satp_root_make pt : is_page pt -> satp_root (MAKE_SATP pt) = pt /\ Z.shiftr (MAKE_SATP pt) 60 = 8.
Proof.
  intros [Hal Hr]. pose proof kend_ram. unfold PHYSTOP, KERNBASE, PGSIZE in *.
  assert (0 <= pt / 2 ^ 12 < 2 ^ 44) as Hq by (split; [apply Z.div_pos|apply Z.div_lt_upper_bound]; lia).
  assert (Z.land (Z.shiftl 8 60) (pt / 2 ^ 12) = 0) as Hd.
  { apply Z.bits_inj'. intros n Hn. rewrite Z.land_spec, Z.bits_0. destruct (decide (n < 60)).
    - by rewrite Z.shiftl_spec_low by lia.
    - rewrite <- (Z.mod_small (pt / 2 ^ 12) (2 ^ 44)) by lia. rewrite Z.mod_pow2_bits_high by lia. apply andb_false_r. }
  assert (MAKE_SATP pt = 8 * 2 ^ 60 + pt / 2 ^ 12) as E.
  { rewrite Z.shiftr_div_pow2 by lia.
    rewrite <- Z.lxor_lor, <- Z.add_nocarry_lxor by done. by rewrite Z.shiftl_mul_pow2. }
  rewrite E. split.
  - unfold satp_root. rewrite Z.land_ones, Z.shiftl_mul_pow2 by lia.
    replace (8 * 2 ^ 60) with ((8 * 2 ^ 16) * 2 ^ 44) by done. rewrite Z.add_comm, Z_mod_plus_full, Z.mod_small by lia.
    change (2 ^ 12) with 4096. pose proof (Z.div_mod pt 4096). lia.
  - rewrite Z.shiftr_div_pow2, Z.div_add_l, Z.div_small by lia. done.
Qed.

Lemma window_trapframe h pt tf :
  h_mode h = Supervisor -> h_csr h satp = MAKE_SATP pt -> tf_mapped (h_mem h) pt tf ->
  window (fun x => tf <= x < tf + PGSIZE) h TRAPFRAME tf TF_SIZE.
Proof.
  intros Em Es [Hwf Hp Ht Ha Hf]. split; [by vm_compute|]. split; [by vm_compute|].
  split; [unfold TF_SIZE, PGSIZE; lia|]. intros m w o Hm Ho Hn.
  assert (is_page pt) as Hpt by (apply (Hwf [] pt); [split; [cbn; lia|constructor]|done]).
  destruct (satp_root_make pt Hpt) as [E1 E2].
  unfold access. cbn [h_mode set_mem h_mem h_csr]. rewrite Em, Es. unfold translate. rewrite E1, E2.
  change (8 =? 0) with false. cbn match.
  assert (0 <= o < PGSIZE) as Hop by (unfold TF_SIZE, PGSIZE in *; lia).
  assert (leaf m pt (TRAPFRAME + o) = leaf (h_mem h) pt TRAPFRAME) as El.
  { rewrite (leaf_same_page m pt TRAPFRAME).
    - apply (leaf_tables (h_mem h) m pt Hwf). intros t x Htt Hx. apply Hm. intros Hx'.
      assert (is_page t) as Hpg by (destruct Htt as (q & Hq & Hqt); by apply (Hwf q t)).
      destruct (decide (t = tf)) as [->|Hne]; [done|].
      pose proof (is_page_disjoint t tf Hpg Hp Hne). lia.
    - change (PGROUNDDOWN TRAPFRAME) with TRAPFRAME. lia. }
  rewrite El, Ha. rewrite !andb_true_iff in Hf. destruct Hf as [[[-> Hr] Hw] ->].
  change TRAPFRAME with 274877898752 in *. unfold PGSIZE in *.
  rewrite (proj2 (Z.ltb_ge _ _)) by lia.
  assert ((274877898752 + o >=? MAXVA) = false) as -> by (change MAXVA with 274877906944; lia). cbn [orb].
  assert (has_flag (leaf (h_mem h) pt 274877898752) (if w then PTE_W else PTE_R) = true) as -> by by destruct w.
  cbn [andb]. do 2 f_equal. rewrite <- Zplus_mod_idemp_l. change (274877898752 `mod` 4096) with 0.
  rewrite Z.add_0_l. apply Z.mod_small. lia.
Qed.

Lemma tf_words : forallb (fun x => word_at TF_SIZE x.2) tf_saved = true /\ NoDup tf_saved.*1 /\ NoDup tf_saved.*2.
Proof. apply words_in_spec. by vm_compute. Qed.

(** The memory after uservec: all user registers in the trapframe. *)
Definition trapped (h : hart) (tf : Z) : memory :=
  st64 (stored h tf tf_saved (h_mem h)) (tf + TF_a0) (getr a0 h).

Lemma trapped_reg h tf r o : regs_ok h -> (r, o) ∈ tf_regs -> ld64 (trapped h tf) (tf + o) = getr r h.
Proof.
  intros Hok Hr. destruct tf_words as (Hw & H1 & H2). unfold trapped. apply elem_of_cons in Hr as [[= -> ->]|Hr].
  - rewrite ld_st_same. by apply u64_getr.
  - destruct (word_at_spec _ _ (elem_word _ _ _ _ Hw Hr)) as (Hm & _ & _).
    rewrite ld_st_disj.
    + rewrite (stored_lookup h tf tf_saved _ o TF_SIZE) by done. rewrite (reg_off _ r o) by done. by apply u64_getr.
    + pose proof (words_sep o TF_a0 Hm eq_refl). enough (o <> TF_a0) by (cbn; lia).
      intros ->. apply list_elem_of_In in Hr. cbn in Hr. intuition discriminate.
Qed.

Lemma trapped_out h tf x : ~ (tf + 40 <= x < tf + TF_SIZE) -> ld8 (trapped h tf) x = ld8 (h_mem h) x.
Proof.
  intros Hx. unfold trapped. rewrite ld8_st_out by (unfold TF_a0, TF_SIZE in *; lia).
  apply (stored_range h tf 40 TF_SIZE); [by vm_compute|]. exact Hx.
Qed.

Lemma trapped_kernel h tf o : 0 <= o -> o + 8 <= 40 -> ld64 (trapped h tf) (tf + o) = ld64 (h_mem h) (tf + o).
Proof.
  intros H0 H1. apply ld_ext. intros x Hx. apply trapped_out. lia.
Qed.

Lemma stored_ext h h' pa l m :
  (forall r o, (r, o) ∈ l -> getr r h' = getr r h) -> stored h' pa l m = stored h pa l m.
Proof.
  revert m. induction l as [|[r o] l IH]; intros m H; [done|]. cbn [stored foldl fst snd].
  rewrite (H r o) by by left. apply IH. intros r' o' Hr. apply (H r' o'). by right.
Qed.

Lemma run_uservec h pt tf :
  h_mode h = Supervisor -> h_csr h satp = MAKE_SATP pt -> tf_mapped (h_mem h) pt tf ->
  let m := trapped h tf in
  exists h1, run uservec_code h = Some h1 /\ h_mem h1 = m /\ h_mode h1 = Supervisor /\
    h_pc h1 = ld64 m (tf + TF_kernel_trap) /\ getr sp h1 = ld64 m (tf + TF_kernel_sp) /\
    getr tp h1 = ld64 m (tf + TF_kernel_hartid) /\ h_csr h1 satp = ld64 m (tf + TF_kernel_satp).
Proof.
  intros Em Es Htm m. pose proof (window_trapframe h pt tf Em Es Htm) as Hwin.
  set (D := fun x => tf <= x < tf + PGSIZE) in *. destruct tf_words as (Hw & _ & _).
  set (h0 := setr a0 (u64 TRAPFRAME) (setc sscratch (getr a0 h) h)).
  set (m1 := stored h0 tf tf_saved (h_mem h)).
  assert (m1 = stored h tf tf_saved (h_mem h)) as Em1.
  { apply stored_ext. intros r o Hr. unfold getr, h0. cbn. case_decide; [done|].
    rewrite fn_lookup_insert_ne; [done|]. intros <-. apply list_elem_of_In in Hr. cbn in Hr. intuition discriminate. }
  assert (window D h0 TRAPFRAME tf TF_SIZE) as Hwin0 by by apply (window_ext D h).
  assert (only D (h_mem h0) m1) as Hm1 by by eapply stored_only.
  set (h2 := setr t0 (getr a0 h) (set_mem m1 h0)).
  assert (window D h2 TRAPFRAME tf TF_SIZE) as Hwin2.
  { apply (window_ext D (set_mem m1 h0)); [done..|]. by apply window_mem. }
  assert (stored h2 tf [(t0, TF_a0)] m1 = m) as Em2 by by rewrite Em1.
  set (l := [(sp, TF_kernel_sp); (tp, TF_kernel_hartid); (t0, TF_kernel_trap); (t1, TF_kernel_satp)]).
  set (rest := [SFENCE; CSRW satp t1; SFENCE; JR t0]).
  assert (run uservec_code h = run rest (set_regs (loaded m tf l (h_reg h2)) (set_mem m h2))) as E.
  { assert (uservec_code = [CSRW sscratch a0; LI a0 TRAPFRAME] ++ saves a0 tf_saved ++ [CSRR t0 sscratch] ++
      saves a0 [(t0, TF_a0)] ++ loads a0 l ++ rest) as -> by reflexivity.
    transitivity (run (saves a0 tf_saved ++ [CSRR t0 sscratch] ++ saves a0 [(t0, TF_a0)] ++ loads a0 l ++ rest)
      (set_mem (h_mem h) h0)); [done|].
    rewrite (run_saves D h0 TRAPFRAME tf TF_SIZE); [|done..].
    transitivity (run (saves a0 [(t0, TF_a0)] ++ loads a0 l ++ rest) (set_mem m1 h2)); [done|].
    rewrite (run_saves D h2 TRAPFRAME tf TF_SIZE); [|done..]. rewrite Em2.
    rewrite <- (set_regs_id (set_mem m h2)) at 1.
    apply (run_loads D (set_mem m h2) TRAPFRAME tf TF_SIZE); [|done..|].
    - apply (window_mem D h2); [done|]. intros x Hx. cbn [h_mem h2 setr set_mem]. rewrite <- Em2.
      change (stored h2 tf [(t0, TF_a0)] m1) with (st64 m1 (tf + TF_a0) (getr t0 h2)).
      apply ld8_st_out. unfold D, PGSIZE, TF_a0 in *. lia.
    - intros o Ho. apply list_elem_of_In in Ho. cbn in Ho. intuition discriminate. }
  eexists. split; [rewrite E; reflexivity|]. repeat split; done.
Qed.

Lemma run_userret h pt tf :
  h_mode h = Supervisor -> getr a0 h = MAKE_SATP pt -> tf_mapped (h_mem h) pt tf ->
  exists h1, run userret_code h = Some h1 /\ h_mem h1 = h_mem h /\ h_csr h1 satp = MAKE_SATP pt /\
    h_pc h1 = h_csr h sepc /\ h_mode h1 = (if Z.testbit (h_csr h mstatus) 8 then Supervisor else User) /\
    forall r o, (r, o) ∈ tf_regs -> getr r h1 = ld64 (h_mem h) (tf + o).
Proof.
  intros Em Ea Htm. set (h0 := setr a0 (u64 TRAPFRAME) (setc satp (getr a0 h) h)).
  assert (window (fun x => tf <= x < tf + PGSIZE) h0 TRAPFRAME tf TF_SIZE) as Hwin.
  { apply (window_trapframe h0 pt tf); [done| |done]. cbn. by rewrite fn_lookup_insert. }
  set (D := fun x => tf <= x < tf + PGSIZE) in *. destruct tf_words as (Hw & H1 & _).
  set (f := loaded (h_mem h) tf tf_saved (h_reg h0)).
  assert (f a0 = u64 TRAPFRAME) as Efa by (unfold f; by rewrite loaded_lookup).
  set (h1 := set_regs (<[a0 := ld64 (h_mem h) (tf + TF_a0)]> f) h0).
  assert (run userret_code h = Some (do_sret h1)) as E.
  { assert (userret_code = [SFENCE; CSRW satp a0; SFENCE; LI a0 TRAPFRAME] ++ loads a0 tf_saved ++ [LD a0 112 a0; SRET])
      as -> by reflexivity.
    transitivity (run (loads a0 tf_saved ++ [LD a0 112 a0; SRET]) (set_regs (h_reg h0) h0)); [done|].
    rewrite (run_loads D h0 TRAPFRAME tf TF_SIZE); [|done..|].
    - change (run [LD a0 112 a0; SRET] (set_regs f h0) = Some (do_sret h1)).
      assert (exec_instr (LD a0 112 a0) (set_regs f h0) = Some h1) as E1; [|cbn [run]; by rewrite E1].
      cbn [exec_instr]. assert (getr a0 (set_regs f h0) = TRAPFRAME) as -> by exact Efa.
      change (access false (u64 (TRAPFRAME + 112)) (set_regs f h0)) with
        (access false (TRAPFRAME + 112) (set_mem (h_mem h0) h0)).
      destruct Hwin as (_ & _ & _ & Hacc). rewrite Hacc; [done|done|done|by vm_compute].
    - intros o Ho. apply list_elem_of_In in Ho. cbn in Ho. intuition discriminate. }
  exists (do_sret h1). split; [done|]. split; [done|]. split; [cbn; by rewrite Ea|]. split; [done|]. split; [done|].
  intros r o Hr. unfold getr. apply elem_of_cons in Hr as [[= -> ->]|Hr]; [done|]. pose proof Hr as Hr'.
  rewrite decide_False by (intros ->; apply list_elem_of_In in Hr; cbn in Hr; intuition discriminate).
  change (h_reg (do_sret h1)) with (<[a0 := ld64 (h_mem h) (tf + TF_a0)]> f).
  rewrite fn_lookup_insert_ne by (intros <-; apply list_elem_of_In in Hr; cbn in Hr; intuition discriminate).
  unfold f. rewrite loaded_lookup by done. by rewrite (off_reg _ r o).
Qed.

(** C7: a trap from user space and the return from it preserve the user's
    registers. uservec, started in supervisor mode on the user page table, stores
    all 31 of them in the trapframe, changing no other memory, and enters the
    kernel at kernel_trap with its stack, hart id and page table from the trapframe;
    userret, on whatever hart and after whatever the kernel did, resumes user code
    at sepc on the user page table with each register as the trapframe has it
    then, so every register whose slot the kernel left alone has the value it had
    at the trap. *)
Theorem trap_roundtrip h pt tf :
  h_mode h = Supervisor -> h_csr h satp = MAKE_SATP pt -> tf_mapped (h_mem h) pt tf -> regs_ok h ->
  exists h1, run uservec_code h = Some h1 /\ h_pc h1 = ld64 (h_mem h) (tf + TF_kernel_trap) /\
    getr sp h1 = ld64 (h_mem h) (tf + TF_kernel_sp) /\ getr tp h1 = ld64 (h_mem h) (tf + TF_kernel_hartid) /\
    h_csr h1 satp = ld64 (h_mem h) (tf + TF_kernel_satp) /\
    (forall r o, (r, o) ∈ tf_regs -> ld64 (h_mem h1) (tf + o) = getr r h) /\
    (forall x, ~ (tf + 40 <= x < tf + TF_SIZE) -> ld8 (h_mem h1) x = ld8 (h_mem h) x) /\
    forall h2, h_mode h2 = Supervisor -> getr a0 h2 = MAKE_SATP pt -> tf_mapped (h_mem h2) pt tf ->
      exists h3, run userret_code h2 = Some h3 /\ h_csr h3 satp = MAKE_SATP pt /\ h_pc h3 = h_csr h2 sepc /\
        h_mode h3 = (if Z.testbit (h_csr h2 mstatus) 8 then Supervisor else User) /\ h_mem h3 = h_mem h2 /\
        (forall r o, (r, o) ∈ tf_regs -> getr r h3 = ld64 (h_mem h2) (tf + o)) /\
        (forall r o, (r, o) ∈ tf_regs -> ld64 (h_mem h2) (tf + o) = ld64 (h_mem h1) (tf + o) -> getr r h3 = getr r h).
Proof.
  intros Em Es Htm Hok. destruct (run_uservec h pt tf Em Es Htm) as (h1 & E & Emem & _ & Epc & Esp & Etp & Esat).
  exists h1. split; [done|]. rewrite Epc, Esp, Etp, Esat, Emem. rewrite !trapped_kernel by done.
  assert (forall r o, (r, o) ∈ tf_regs -> ld64 (trapped h tf) (tf + o) = getr r h) as Hsaved
    by (intros r o; by apply trapped_reg).
  repeat (split; [done|]). split; [intros x; apply trapped_out|].
  intros h2 Em2 Ea2 Htm2. destruct (run_userret h2 pt tf Em2 Ea2 Htm2) as (h3 & E3 & Em3 & Es3 & Epc3 & Emo3 & Hr3).
  exists h3. repeat (split; [done|]). intros r o Hr Hsame. rewrite (Hr3 r o Hr), Hsame. by apply Hsaved.
Qed.
End Trampoline.

(** ** kernelvec.S: traps from the kernel *)

Definition kv_back : list (reg * Z) :=
  [(ra, 0); (sp, 8); (gp, 16); (t0, 32); (t1, 40); (t2, 48); (s0, 56); (s1, 64); (a0, 72);
   (a1, 80); (a2, 88); (a3, 96); (a4, 104); (a5, 112); (a6, 120); (a7, 128); (s2, 136); (s3, 144);
   (s4, 152); (s5, 160); (s6, 168); (s7, 176); (s8, 184); (s9, 192); (s10, 200); (s11, 208); (t3, 216);
   (t4, 224); (t5, 232); (t6, 240)].
Definition kv_regs : list (reg * Z) := take 3 kv_back ++ (tp, 24) :: drop 3 kv_back.

Lemma kv_words : forallb (fun x => word_at 256 x.2) kv_regs = true /\ NoDup kv_regs.*1 /\ NoDup kv_regs.*2.
Proof. apply words_in_spec. by vm_compute. Qed.

Lemma kv_back_words : forallb (fun x => word_at 256 x.2) kv_back = true /\ NoDup kv_back.*1 /\ NoDup kv_back.*2.
Proof. apply words_in_spec. by vm_compute. Qed.

Lemma kv_back_regs r o : (r, o) ∈ kv_back -> (r, o) ∈ kv_regs.
Proof. rewrite !list_elem_of_In. cbn. tauto. Qed.

Lemma kv_back_all r : r <> zero -> r <> tp -> exists o, (r, o) ∈ kv_back.
Proof.
  intros Hz Ht. destruct (off_of r kv_back) as [o|] eqn:E; [|destruct r; done].
  exists o. destruct r; try done; injection E as <-; apply list_elem_of_In; cbn; tauto.
Qed.

(** A C function called with this frame on the stack: it returns with the stack
    pointer and the frame as they were, the stack still mapped. *)
Definition keeps_frame (D : Z -> Prop) (va pa : Z) (call : hart -> hart) : Prop :=
  forall h, getr sp h = va -> window D h va pa 256 ->
    getr sp (call h) = va /\ window D (call h) va pa 256 /\
    forall x, pa <= x < pa + 256 -> ld8 (h_mem (call h)) x = ld8 (h_mem h) x.

(** C30: an interrupt taken in the kernel is transparent to the interrupted code.
    kernelvec saves the registers in a 256-byte frame below the stack pointer,
    calls kerneltrap() and restores them: if the call keeps the frame, every
    register but tp, the stack pointer included, is as at the interrupt; tp is
    what kerneltrap() left in it, so that a thread that was moved to another hart
    has that hart's id; and execution resumes at sepc. *)
Theorem kernelvec_transparent D h pa call :
  256 <= getr sp h -> window D h (getr sp h - 256) pa 256 -> regs_ok h ->
  keeps_frame D (getr sp h - 256) pa call ->
  exists h1 h2, run kernelvec_save h = Some h1 /\ kernelvec_code call h = Some h2 /\
    (forall r, r <> tp -> getr r h2 = getr r h) /\ getr tp h2 = getr tp (call h1) /\
    h_pc h2 = h_csr (call h1) sepc /\ h_mem h2 = h_mem (call h1) /\
    (forall x, ~ (pa <= x < pa + 256) -> ld8 (h_mem h1) x = ld8 (h_mem h) x).
Proof.
  intros Hsp Hwin Hok Hcall. set (va := getr sp h - 256) in *.
  destruct kv_words as (Hw & H1 & H2), kv_back_words as (Bw & B1 & B2).
  assert (u64 va = va) as Eva by (apply u64_small; pose proof (getr_range h sp Hok); unfold va; lia).
  set (h0 := setr sp va h). assert (window D h0 va pa 256) as Hwin0 by by apply (window_ext D h).
  set (h1 := set_mem (stored h0 pa kv_regs (h_mem h)) h0).
  assert (run kernelvec_save h = Some h1) as E1.
  { transitivity (run (saves sp kv_regs ++ []) (set_mem (h_mem h) (setr sp (u64 va) h))); [done|].
    rewrite Eva. by rewrite (run_saves D h0 va pa 256). }
  assert (only D (h_mem h0) (h_mem h1)) as Hm1 by by eapply (stored_only D h0 va pa 256).
  destruct (Hcall h1) as (Esp & Hwin2 & Hsame); [done|by apply (window_mem D h0)|]. set (h2 := call h1) in *.
  assert (forall r o, (r, o) ∈ kv_back -> ld64 (h_mem h2) (pa + o) = u64 (getr r h0)) as Hframe.
  { intros r o Hr%kv_back_regs. destruct (word_at_spec _ _ (elem_word _ _ _ _ Hw Hr)) as (Hm & Ho & Ho').
    rewrite (ld_ext 8 (h_mem h2) (h_mem h1)) by (intros x Hx; apply Hsame; lia).
    cbn [h1 h_mem set_mem]. rewrite (stored_lookup h0 pa kv_regs _ o 256) by done. by rewrite (reg_off _ r o). }
  set (f := loaded (h_mem h2) pa kv_back (h_reg h2)).
  assert (f sp = va) as Efs.
  { unfold f. rewrite loaded_lookup by done. change (off_of sp kv_back) with (Some 8). cbv iota beta.
    rewrite (Hframe sp 8) by (apply list_elem_of_In; cbn; tauto). exact Eva. }
  set (h3 := do_sret (setr sp (u64 (va + 256)) (set_regs f h2))).
  assert (run kernelvec_restore h2 = Some h3) as E3.
  { transitivity (run (loads sp kv_back ++ [ADDI sp sp 256; SRET]) (set_regs (h_reg h2) h2));
      [by rewrite set_regs_id|].
    rewrite (run_loads D h2 va pa 256); [|done|done|done|done|].
    - fold f. cbn [run exec_instr]. assert (getr sp (set_regs f h2) = va) as -> by exact Efs. done.
    - intros o Ho. rewrite (Hframe sp o Ho). exact Eva. }
  exists h1, h3. split; [done|]. split; [unfold kernelvec_code; by rewrite E1|].
  assert (forall r, r <> sp -> r <> zero -> getr r h3 = f r) as Hg.
  { intros r Hs Hz. unfold getr. rewrite decide_False by done. cbn. by rewrite fn_lookup_insert_ne. }
  split; [|split; [|split; [done|split; [done|]]]].
  - intros r Ht. destruct (decide (r = zero)) as [->|Hz]; [done|]. destruct (decide (r = sp)) as [->|Hs].
    + unfold getr at 1. cbn. rewrite fn_lookup_insert. unfold va. replace (getr sp h - 256 + 256) with (getr sp h) by lia.
      by apply u64_getr.
    + destruct (kv_back_all r Hz Ht) as [o Ho]. rewrite Hg by done. unfold f. rewrite loaded_lookup by done.
      rewrite (off_reg _ r o), (Hframe r o) by done.
      assert (getr r h0 = getr r h) as -> by (unfold getr, h0; cbn; by rewrite fn_lookup_insert_ne).
      by apply u64_getr.
  - rewrite Hg by done. unfold f. rewrite loaded_lookup by done. done.
  - intros x Hx. exact (stored_out h0 pa 256 kv_regs (h_mem h) x Hw Hx).
Qed.

(** ** Machine mode: start-up and the timer *)

Class BootSymsOk (B : BootSyms) := {
  scratch_ram : KERNBASE <= timer_scratch /\ timer_scratch + 5 * 8 * Z.of_nat NCPU <= PHYSTOP;
  stack_ram : KERNBASE <= stack0 /\ stack0 + 4096 * Z.of_nat NCPU <= PHYSTOP
}.

Section Timer.
Context `{Syms : BootSyms} `{!BootSymsOk Syms}.

Definition scratch_of (id : Z) : Z := timer_scratch + 5 * 8 * id.

Lemma scratch_range id : 0 <= id < Z.of_nat NCPU ->
  KERNBASE <= scratch_of id /\ scratch_of id + 40 <= PHYSTOP /\
  CLINT_MTIMECMP id + 8 <= KERNBASE /\ 0 <= CLINT_MTIMECMP id.
Proof.
  intros H. pose proof scratch_ram. unfold scratch_of, KERNBASE in *.
  change (Z.of_nat NCPU) with 8 in *. lia.
Qed.

Lemma run_step i l h h' : exec_instr i h = Some h' -> run (i :: l) h = run l h'.
Proof. intros E. cbn [run]. by rewrite E. Qed.

Lemma step_st h r o b a h' :
  h_mode h = Machine -> u64 (getr b h + o) = a -> set_mem (st64 (h_mem h) a (getr r h)) h = h' ->
  exec_instr (SD r o b) h = Some h'.
Proof. intros E <- <-. cbn [exec_instr]. unfold access. by rewrite E. Qed.

Lemma step_ld h r o b a v :
  h_mode h = Machine -> u64 (getr b h + o) = a -> ld64 (h_mem h) a = v -> exec_instr (LD r o b) h = Some (setr r v h).
Proof. intros E <- <-. cbn [exec_instr]. unfold access. by rewrite E. Qed.

(** One timer interrupt, with the scratch area at [sc] set up for a comparator at
    [cmp]. *)
Lemma run_timervec h sc cmp interval :
  h_mode h = Machine -> h_csr h mscratch = sc -> 0 <= cmp -> cmp + 8 <= sc -> sc + 40 < 2 ^ 64 -> regs_ok h ->
  ld64 (h_mem h) (sc + 24) = cmp -> ld64 (h_mem h) (sc + 32) = interval ->
  exists h', run timervec h = Some h' /\ (forall r, getr r h' = getr r h) /\
    h_csr h' mscratch = sc /\ h_csr h' sip = 2 /\ h_pc h' = h_csr h mepc /\
    ld64 (h_mem h') cmp = u64 (ld64 (h_mem h) cmp + interval) /\
    (forall x, ~ (sc <= x < sc + 24) -> ~ (cmp <= x < cmp + 8) -> ld8 (h_mem h') x = ld8 (h_mem h) x).
Proof.
  intros Em Esc Hc Hcs Hs Hok Ecmp Eint. destruct h as [f c pc md m].
  cbn [h_mode h_csr h_mem h_pc] in *. subst md sc.
  set (sc := c mscratch) in *.
  set (m1 := st64 (st64 (st64 m sc (f a1)) (sc + 8) (f a2)) (sc + 16) (f a3)).
  set (m2 := st64 m1 cmp (u64 (ld64 m cmp + interval))).
  assert (forall o, 0 <= o -> o + 8 <= 40 -> u64 (sc + o) = sc + o) as Ea by (intros; apply u64_small; lia).
  assert (ld64 m1 (sc + 24) = cmp) as E24 by (unfold m1; rewrite !ld_st_disj by lia; done).
  assert (ld64 m1 (sc + 32) = interval) as E32 by (unfold m1; rewrite !ld_st_disj by lia; done).
  assert (ld64 m1 cmp = ld64 m cmp) as Ecm by (unfold m1; rewrite !ld_st_disj by lia; done).
  assert (u64 (cmp + 0) = cmp) as Ecu by (rewrite Z.add_0_r; apply u64_small; lia).
  assert (forall o, 0 <= o -> ld64 m2 (sc + o) = ld64 m1 (sc + o)) as E2.
  { intros o Ho. unfold m2. apply ld_st_disj. lia. }
  assert (ld64 m2 (sc + 16) = f a3 /\ ld64 m2 (sc + 8) = f a2 /\ ld64 m2 (sc + 0) = f a1) as (F3 & F2 & F1).
  { rewrite !E2 by lia. unfold m1. rewrite Z.add_0_r.
    split; [|split]; [|rewrite ld_st_disj by lia|rewrite !ld_st_disj by lia]; apply ld64_st64_same, Hok. }
  set (h0 := mkhart (<[a0 := sc]> f) (<[mscratch := f a0]> c) pc Machine m).
  set (h1 := set_mem m1 h0). set (h2 := setr a3 (ld64 m cmp) (setr a2 interval (setr a1 cmp h1))).
  set (h3 := setc sip (u64 2) (setr a1 (u64 2) (set_mem m2 (setr a3 (u64 (ld64 m cmp + interval)) h2)))).
  set (h4 := setr a1 (f a1) (setr a2 (f a2) (setr a3 (f a3) h3))).
  exists (do_mret (setr a0 (f a0) (setc mscratch sc h4))).
  split; [|split; [|split; [done|split; [done|split; [done|split]]]]].
  - assert (u64 (sc + 0) = sc) as E0 by (rewrite Ea by lia; apply Z.add_0_r).
    unfold timervec. rewrite (run_step _ _ _ h0) by exact eq_refl.
    rewrite (run_step _ _ _ (set_mem (st64 m sc (f a1)) h0)) by (by apply (step_st _ _ _ _ sc)).
    rewrite (run_step _ _ _ (set_mem (st64 (st64 m sc (f a1)) (sc + 8) (f a2)) h0))
      by (apply (step_st _ _ _ _ (sc + 8)); [done|by apply Ea|done]).
    rewrite (run_step _ _ _ h1) by (apply (step_st _ _ _ _ (sc + 16)); [done|by apply Ea|done]).
    rewrite (run_step _ _ _ (setr a1 cmp h1)) by (apply (step_ld _ _ _ _ (sc + 24)); [done|by apply Ea|done]).
    rewrite (run_step _ _ _ (setr a2 interval (setr a1 cmp h1)))
      by (apply (step_ld _ _ _ _ (sc + 32)); [done|by apply Ea|done]).
    rewrite (run_step _ _ _ h2) by (by apply (step_ld _ _ _ _ cmp)).
    rewrite (run_step _ _ _ (setr a3 (u64 (ld64 m cmp + interval)) h2)) by exact eq_refl.
    rewrite (run_step _ _ _ (set_mem m2 (setr a3 (u64 (ld64 m cmp + interval)) h2)))
      by (by apply (step_st _ _ _ _ cmp)).
    rewrite (run_step _ _ _ (setr a1 (u64 2) (set_mem m2 (setr a3 (u64 (ld64 m cmp + interval)) h2))))
      by exact eq_refl.
    rewrite (run_step _ _ _ h3) by exact eq_refl.
    rewrite (run_step _ _ _ (setr a3 (f a3) h3)) by (apply (step_ld _ _ _ _ (sc + 16)); [done|by apply Ea|done]).
    rewrite (run_step _ _ _ (setr a2 (f a2) (setr a3 (f a3) h3)))
      by (apply (step_ld _ _ _ _ (sc + 8)); [done|by apply Ea|done]).
    rewrite (run_step _ _ _ h4) by (apply (step_ld _ _ _ _ (sc + 0)); [done|by apply Ea|done]).
    rewrite (run_step _ _ _ (setr a0 (f a0) (setc mscratch sc h4))) by exact eq_refl. done.
  - intros r. unfold getr. case_decide; [done|]. cbn. by destruct r.
  - cbn. unfold m2. rewrite ld_st_same. apply u64_small, u64_range.
  - intros x Hx Hx'. cbn. unfold m2, m1. by rewrite !ld8_st_out by lia.
Qed.
Lemma mpp_bits x :
  let v := Z.lor (Z.lor (Z.land x (Z.lnot MSTATUS_MPP_MASK)) MSTATUS_MPP_S) MSTATUS_MIE in
  Z.testbit v 12 = false /\ Z.testbit v 11 = true.
Proof.
  cbn zeta. rewrite !Z.lor_spec, !Z.land_spec, !Z.lnot_spec by done.
  split; [|apply orb_true_iff; left; by rewrite orb_true_r].
  change (Z.testbit MSTATUS_MPP_MASK 12) with true. cbn [negb]. rewrite andb_false_r. done.
Qed.

(** C31: a hart that enters at _entry in machine mode arrives in main() in
    supervisor mode with paging off, its id in tp and its own stack in sp, and
    with its timer armed; from then on each machine-mode timer interrupt, handled
    by timervec, adds the interval to the hart's comparator, raises a supervisor
    software interrupt and returns with every register as it was, as long as the
    two words start() put in the hart's scratch area are left alone. *)
Theorem timer_boot h id :
  h_mode h = Machine -> h_csr h mhartid = id -> 0 <= id < Z.of_nat NCPU ->
  exists h1, entry_code h = Some h1 /\ h_mode h1 = Supervisor /\ h_pc h1 = main_addr /\
    getr tp h1 = id /\ getr sp h1 = stack0 + 4096 * (id + 1) /\ h_csr h1 satp = 0 /\
    h_csr h1 mtvec = timervec_addr /\
    ld64 (h_mem h1) (CLINT_MTIMECMP id) = u64 (ld64 (h_mem h) CLINT_MTIME + 1000000) /\
    forall h2, h_mode h2 = Machine -> h_csr h2 mscratch = h_csr h1 mscratch -> regs_ok h2 ->
      (forall x, scratch_of id + 24 <= x < scratch_of id + 40 -> ld8 (h_mem h2) x = ld8 (h_mem h1) x) ->
      exists h3, run timervec h2 = Some h3 /\ (forall r, getr r h3 = getr r h2) /\
        h_csr h3 mscratch = h_csr h2 mscratch /\ h_csr h3 sip = 2 /\ h_pc h3 = h_csr h2 mepc /\
        ld64 (h_mem h3) (CLINT_MTIMECMP id) = u64 (ld64 (h_mem h2) (CLINT_MTIMECMP id) + 1000000) /\
        (forall x, ~ (scratch_of id <= x < scratch_of id + 24) ->
           ~ (CLINT_MTIMECMP id <= x < CLINT_MTIMECMP id + 8) -> ld8 (h_mem h3) x = ld8 (h_mem h2) x).
Proof.
  intros Em Eid Hid. destruct (scratch_range id Hid) as (Hs0 & Hs1 & Hc1 & Hc0). pose proof stack_ram as [Hst0 Hst1].
  unfold KERNBASE, PHYSTOP, KERNBASE in Hs0, Hs1, Hc1, Hst0, Hst1. change (Z.of_nat NCPU) with 8 in *.
  assert (s32 id = id) as E32 by (apply s32_small; lia).
  set (c0 := u64 (ld64 (h_mem h) CLINT_MTIME + 1000000)).
  set (m1 := st64 (st64 (st64 (h_mem h) (CLINT_MTIMECMP id) c0) (scratch_of id + 24) (CLINT_MTIMECMP id))
    (scratch_of id + 32) 1000000).
  set (h0 := setr sp (u64 (u64 stack0 + u64 (u64 (1024 * 4) * u64 (id + 1))))
    (setr a0 (u64 (u64 (1024 * 4) * u64 (id + 1))) (setr a1 (u64 (id + 1)) (setr a1 id
      (setr a0 (u64 (1024 * 4)) (setr sp (u64 stack0) h)))))).
  assert (run entry h = Some h0) as E0 by (subst id; reflexivity).
  assert (h_mem (start h0) = m1) as Emem.
  { transitivity (let id := s32 (h_csr h mhartid) in st64 (st64 (st64 (h_mem h) (CLINT_MTIMECMP id) c0)
      (timer_scratch + 5 * 8 * id + 24) (CLINT_MTIMECMP id)) (timer_scratch + 5 * 8 * id + 32) 1000000); [reflexivity|].
    by rewrite Eid, E32. }
  assert (h_csr (start h0) mscratch = scratch_of id) as Escr.
  { transitivity (scratch_of (s32 (h_csr h mhartid))); [reflexivity|]. by rewrite Eid, E32. }
  exists (start h0). split; [unfold entry_code; by rewrite E0|]. split; [|split; [reflexivity|split; [|split; [|split;
    [reflexivity|split; [reflexivity|split]]]]]].
  - destruct (mpp_bits (h_csr h mstatus)) as [B12 B11]. unfold start. cbn zeta. unfold do_mret at 1. cbn [h_mode set_pc set_mode].
    match goal with |- context [Z.testbit ?v 12] => change v with (Z.lor (Z.lor (Z.land (h_csr h mstatus)
      (Z.lnot MSTATUS_MPP_MASK)) MSTATUS_MPP_S) MSTATUS_MIE) end. by rewrite B12, B11.
  - transitivity (u64 (s32 (h_csr h mhartid))); [reflexivity|]. rewrite Eid, E32. apply u64_small. lia.
  - transitivity (u64 (u64 stack0 + u64 (u64 (1024 * 4) * u64 (id + 1)))); [reflexivity|].
    rewrite (u64_small (1024 * 4)), (u64_small (id + 1)), (u64_small stack0), (u64_small (1024 * 4 * _)) by lia.
    rewrite u64_small by lia. lia.
  - rewrite Emem. unfold m1. rewrite !ld_st_disj by lia. apply ld64_st64_same, u64_range.
  - intros h2 Em2 Es2 Hok2 Hsame. rewrite Escr in Es2. rewrite Emem in Hsame.
    assert (forall o, 24 <= o -> o + 8 <= 40 ->
      ld64 (h_mem h2) (scratch_of id + o) = ld64 m1 (scratch_of id + o)) as Hw.
    { intros o H1 H2. apply ld_ext. intros x Hx. apply Hsame. lia. }
    destruct (run_timervec h2 (scratch_of id) (CLINT_MTIMECMP id) 1000000) as (h3 & E & Hr & E1 & E2 & E3 & E4 & E5);
      [done|done|done|lia|lia|done|..].
    + rewrite Hw by lia. unfold m1. rewrite ld_st_disj by lia. apply ld64_st64_same. lia.
    + rewrite Hw by lia. unfold m1. by rewrite ld_st_same.
    + exists h3. rewrite Es2. by repeat split.
Qed.
End Timer.
