(* ===== verification/Examples.v ===== *)
(** Concrete instances: a memory layout and small kernel states, on which the
    theorems of the development are applied. *)
From S2P Require Import Prelude Riscv Machine Spinlock KString Kalloc Vm PageTable UserMem.
From S2P Require Import Sched Keeps FsIface File Proc Shmem ShmemInv ProcInv ShmemSpec ShmemRefine.
From S2P Require Import FsState Quiet Sleeplock Bio BioSpec Log LogSpec Console Fs FsInst Virtio VirtioSpec.
From S2P Require Import SysArgs Exec Sysfile Syscall Trap SysKeeps Kernel.

(** The kernel image takes all of RAM but the last sixteen pages. *)
#[export] Instance demo_layout : Layout :=
  {| kend := PHYSTOP - 16 * PGSIZE; etext := KERNBASE + PGSIZE;
     trampoline := KERNBASE; forkret_addr := KERNBASE + 16 |}.

#[export] Instance demo_layout_ok : LayoutOk demo_layout.
Proof. by split; cbn; unfold PHYSTOP, KERNBASE, PGSIZE; try lia. Qed.

#[export] Instance demo_fuel : Fuel := 100%nat.

#[export] Instance demo_regs : VirtioRegs :=
  {| R_MAGIC_VALUE := 0x74726976; R_VERSION := 2; R_DEVICE_ID := 2; R_VENDOR_ID := 0x554d4551;
     R_STATUS := 11; R_DEVICE_FEATURES := 0; R_QUEUE_READY := 0; R_QUEUE_NUM_MAX := 1024 |}.

#[export] Instance demo_syms : TrapSyms :=
  {| kernelvec := KERNBASE + 64; uservec := KERNBASE; userret := KERNBASE + 128; usertrap_addr := KERNBASE + 256 |}.

#[export] Instance demo_unspec : Unspec := fun _ => 0.

Definition page (n : Z) : Z := PHYSTOP - (n + 1) * PGSIZE.

Definition free_lock : spinlock := mkspinlock false None None.

Definition demo_locks : gmap lockid spinlock :=
  list_to_map ((fun l => (l, free_lock)) <$>
    [L_kmem; L_pid; L_wait; L_ticks; L_ftable] ++ (L_proc <$> seq 0 NPROC) ++
    (L_shstate <$> seq 0 4) ++ (L_shmem <$> seq 0 4)).

Definition demo_page (n : Z) : shmem := mkshmem (page n) 0 NOT_SET (-1).

(** An idle machine with four shared pages and no process. *)
Definition quiet_machine {F} (f : F) : kstate F :=
  mkkstate ∅ 0 demo_locks (replicate NCPU zero_cpu) 0 true (replicate NPROC zero_proc) None 1
    (demo_page <$> [0; 1; 2; 3]) 0 [] ∅ [] f.

(** Process 1, in the first slot, runs on the hart. *)
Definition demo_proc (pid : Z) : proc :=
  set_p_top_pid 1 (set_p_pid pid (set_p_state RUNNING (set_p_shmem_access (replicate SHMEM false) zero_proc))).

Definition one {F} (f : F) : kstate F :=
  set_k_cpus (mkcpu (Some 0%nat) 0 true :: replicate 7 zero_cpu)
    (set_k_procs (demo_proc 1 :: replicate 63 zero_proc) (quiet_machine f)).

(** Deciding the invariant on concrete tables. *)
Definition page_check (ps : list proc) (i : nat) (h : shmem) : bool :=
  (sh_numberofusers h =? count (uses i) ps) &&
  ((sh_state h =? NOT_SET) || (sh_state h =? UNWRITABLE) || (sh_state h =? WRITABLE)) &&
  Bool.eqb (sh_state h =? NOT_SET) (sh_numberofusers h =? 0) &&
  forallb (fun p => negb (uses i p) || (p_top_pid p =? sh_using_top_pid h)) ps.

Definition table_check (ps : list proc) (hs : list shmem) : bool :=
  (length ps =? NPROC)%nat && (length hs =? SHMEM)%nat &&
  forallb (fun p => length (p_shmem_access p) =? SHMEM)%nat ps &&
  forallb (fun x => x) (imap (page_check ps) hs).

Lemma forallb_lookup {A} (f : A -> bool) l j x : forallb f l = true -> l !! j = Some x -> f x = true.
Proof. rewrite forallb_forall. intros H Hx. apply H, list_elem_of_In. by eapply list_elem_of_lookup_2. Qed.

Lemma table_check_sound ps hs : table_check ps hs = true -> table_inv ps hs.
Proof.
  unfold table_check. intros [[[H1 H2]%andb_prop H3]%andb_prop H4]%andb_prop.
  apply Nat.eqb_eq in H1, H2.
  assert (forall i h, hs !! i = Some h -> page_check ps i h = true) as Hp.
  { intros i h Hh. apply (forallb_lookup _ _ i _ H4). by rewrite list_lookup_imap, Hh. }
  assert (forall i h, hs !! i = Some h -> sh_numberofusers h = count (uses i) ps /\
    (sh_state h = NOT_SET \/ sh_state h = UNWRITABLE \/ sh_state h = WRITABLE) /\
    (sh_state h = NOT_SET <-> sh_numberofusers h = 0) /\
    forall j p, ps !! j = Some p -> uses i p = true -> p_top_pid p = sh_using_top_pid h) as Hq.
  { intros i h Hh. pose proof (Hp i h Hh) as H. unfold page_check in H.
    apply andb_prop in H as [[[E1 E2]%andb_prop E3]%andb_prop E4].
    apply Z.eqb_eq in E1. apply eqb_prop in E3. split; [done|]. split; [|split].
    - rewrite !orb_true_iff, !Z.eqb_eq in E2. naive_solver.
    - destruct (sh_state h =? NOT_SET) eqn:Ea, (sh_numberofusers h =? 0) eqn:Eb; lia.
    - intros j p Hj Hu. pose proof (forallb_lookup _ _ j p E4 Hj) as E. cbn in E.
      rewrite Hu in E. lia. }
  split; [done|done| |naive_solver..].
  intros j p Hj. apply (forallb_lookup _ _ j p H3) in Hj. by apply Nat.eqb_eq.
Qed.

Lemma quiet_machine_inv {F} (f : F) : shmem_inv (quiet_machine f).
Proof. apply table_check_sound. by vm_compute. Qed.

Definition zero_fsys : fsys :=
  mkfsys (replicate (S NBUF) zero_buf) (mklogst 0 0 0 0 0 0 (replicate 30 0)) (mksuperblock 0 0 0 0 0 0 0 0)
    (replicate NINODE zero_inode) (mkconsole (replicate 128 0) 0 0 0) (mkuart (replicate 32 0) 0 0 [] [])
    (mkvdisk (replicate NUM zero_desc) 0 (replicate NUM 0) 0 (replicate NUM 0) (replicate NUM true) 0
       (replicate NUM None) (replicate NUM 0) (replicate NUM (mkvreq 0 0 0))) ∅ [] false false [].

(** A clock interrupt that finds the scheduler idle. *)
Definition tick : trapregs := mktrapregs SSTATUS_SPP 0x8000000000000001 0 0 2 0 0.

Definition idle_machine : kstate fsys := set_k_sie false (quiet_machine zero_fsys).

(** A command that returns, in a state that passes a test. *)
Definition returns {F A} (test : A -> kstate F -> bool) (o : outcome (kstate F) A) : bool :=
  match o with Ret a s => test a s | _ => false end.

Lemma returns_spec {F A} test (o : outcome (kstate F) A) :
  returns test o = true -> exists a s, o = Ret a s /\ test a s = true.
Proof. destruct o; [eauto|done..]. Qed.

Lemma tick_runs : exists x s, kerneltrap tick idle_machine = Ret x s /\ (k_ticks s =? 1) = true.
Proof. apply (returns_spec (fun _ s => k_ticks s =? 1)). vm_compute. reflexivity. Qed.


(** ** Locks and scheduling *)

Lemma quiet_cpu {F} (f : F) : cpu_ok (quiet_machine f).
Proof. split; [cbn; lia|]. split; [done|]. by cbn. Qed.

Lemma one_cpu {F} (f : F) : cpu_ok (one f).
Proof. split; [cbn; lia|]. split; [done|]. by cbn. Qed.

Definition locks_free (ls : list lockid) (m : gmap lockid spinlock) : bool :=
  forallb (fun l => match m !! l with Some (mkspinlock false None None) => true | _ => false end) ls.

Lemma locks_free_sound {F} ls (s : kstate F) l : locks_free ls (k_locks s) = true -> l ∈ ls -> lock_free l s.
Proof.
  unfold locks_free. rewrite forallb_forall. intros H Hl. specialize (H l (proj1 (list_elem_of_In _ _) Hl)).
  destruct (k_locks s !! l) as [[[] n [?|]]|] eqn:E; try done; destruct n; try done. exists None. exact E.
Qed.

Lemma demo_proc_lock {F} (s : kstate F) i : k_locks s = demo_locks -> (i < NPROC)%nat -> lock_free (L_proc i) s.
Proof.
  intros E Hi. apply (locks_free_sound (L_proc <$> seq 0 NPROC)).
  - rewrite E. by vm_compute.
  - apply list_elem_of_fmap. exists i. split; [done|]. apply elem_of_seq. lia.
Qed.

Lemma demo_lock {F} (s : kstate F) l :
  k_locks s = demo_locks -> locks_free [l] demo_locks = true -> lock_free l s.
Proof. intros E H. apply (locks_free_sound [l]); [by rewrite E|]. by apply list_elem_of_singleton. Qed.

Lemma acquire_outcome_witness :
  acquire L_kmem (quiet_machine tt) = Ret tt (hold L_kmem (quiet_machine tt)) /\
  k_sie (hold L_kmem (quiet_machine tt)) = false.
Proof.
  pose proof (acquire_outcome L_kmem (quiet_machine tt) (quiet_cpu tt)) as H.
  change (k_locks (quiet_machine tt) !! L_kmem) with (Some free_lock) in H.
  exact (conj (proj1 H) (proj1 (proj2 H))).
Defined.

Lemma push_pop_nesting_witness :
  exists s, push_pop 2 2 (quiet_machine tt) = Ret tt s /\ k_sie s = true /\ c_noff (get_cpu s) = 0.
Proof.
  destruct (push_pop_nesting (quiet_machine tt) 1 2 (quiet_cpu tt) eq_refl (le_n _)) as (s & E & H1 & H2).
  exists s. split; [exact E|]. split; [exact H1|]. exact H2.
Defined.

Lemma kill_first_witness :
  exists s, kill 1 (one tt) = Ret 0 s /\ p_killed (get_proc 0 s) = 1.
Proof.
  destruct (kill_first (one tt) 1) as [(j & s & E & Hj & Hl & Hp)|(s & E & Hj & _)].
  - split; [apply one_cpu|]. intros i Hi. by apply demo_proc_lock.
  - reflexivity.
  - exists s. split; [exact E|]. destruct j as [|j].
    + unfold get_proc. rewrite Hp. reflexivity.
    + exfalso. apply (Hl 0%nat); [lia|reflexivity].
  - exfalso. apply (Hj 0%nat); [unfold NPROC; lia|reflexivity].
Defined.

(** Process 2, in the second slot, sleeps. *)
Definition two (ch : chan) : kstate unit :=
  set_k_procs (demo_proc 1 :: set_p_chan (Some ch) (set_p_state SLEEPING (demo_proc 2)) :: replicate 62 zero_proc) (one tt).

Lemma two_others ch : others_free (Some 0%nat) (two ch).
Proof.
  split; [split; [cbn; lia|]; split; [done|by cbn]|]. split; [reflexivity|]. intros i Hi _. by apply demo_proc_lock.
Qed.

Lemma wakeup_exact_witness :
  exists s, wakeup Ch_ticks (two Ch_ticks) = Ret tt s /\
    k_procs s !! 1%nat = Some (set_p_state RUNNABLE (set_p_chan (Some Ch_ticks) (demo_proc 2))).
Proof.
  destruct (wakeup_exact (two Ch_ticks) (Some 0%nat) Ch_ticks (two_others _) eq_refl) as (s & E & H).
  exists s. split; [exact E|]. rewrite (H 1%nat _ eq_refl). reflexivity.
Defined.


(** Process 1 is runnable, and no other. *)
Definition one_ready : kstate unit :=
  set_k_procs (set_p_state RUNNABLE (demo_proc 1) :: replicate 63 zero_proc) (quiet_machine tt).

Lemma scheduler_picks_first_witness :
  exists k, scheduler_pass one_ready = Swtch (hold (L_proc 0) (running 0 (set_k_sie true one_ready))) k.
Proof.
  apply (scheduler_picks_first one_ready).
  - split; [split; [cbn; lia|]; split; [done|by cbn]|]. intros i Hi. by apply demo_proc_lock.
  - reflexivity.
  - unfold NPROC. lia.
  - reflexivity.
  - intros j Hj. lia.
Defined.
