(* ===== verification/ExamplesMem.v ===== *)
(** The theorems on memory and on the shared pages, applied to concrete states. *)
From S2P Require Import Prelude Riscv Machine Spinlock KString Kalloc Vm PageTable UserMem.
From S2P Require Import Sched Keeps FsIface File Proc Shmem ShmemInv ProcInv ShmemSpec ShmemRefine ShmemLimits Examples.

(** ** The allocator *)

Lemma demo_is_page n : 0 <= n < 16 -> is_page (page n).
Proof.
  intros H. unfold is_page, page. split.
  - replace (PHYSTOP - (n + 1) * PGSIZE) with ((32768 + 524288 - (n + 1)) * PGSIZE)
      by (unfold PHYSTOP, KERNBASE, PGSIZE; lia).
    apply Z_mod_mult.
  - cbn. unfold PGSIZE. lia.
Qed.

(** Page 5 is the only free one. *)
Definition one_free : kstate unit := set_k_freelist (page 5) (quiet_machine tt).

Lemma one_free_pages : free_pages one_free [page 5].
Proof.
  split; [|split].
  - split; reflexivity.
  - apply NoDup_singleton.
  - apply Forall_singleton, demo_is_page. lia.
Qed.

Lemma kalloc_kfree_witness :
  exists s, kalloc one_free = Ret (page 5) s /\ free_pages s [] /\
    exists s', kfree (page 5) s = Ret tt s' /\ free_pages s' [page 5].
Proof.
  destruct (kalloc_kfree one_free [page 5] (quiet_cpu tt)) as (s & E & _ & _ & Hf & _ & s' & E' & Hf').
  - by apply demo_lock.
  - apply one_free_pages.
  - exists s. split; [exact E|]. split; [exact Hf|]. exists s'. split; [exact E'|exact Hf'].
Defined.

Lemma kinit_all_pages_witness :
  exists s l, kinit (quiet_machine tt) = Ret tt s /\ free_pages s l /\ page 3 ∈ l.
Proof.
  destruct (kinit_all_pages (quiet_machine tt) (quiet_cpu tt) eq_refl) as (s & l & E & Hf & Hl).
  exists s, l. split; [exact E|]. split; [exact Hf|]. apply Hl, demo_is_page. lia.
Defined.

(** ** Page tables *)

(** An empty root table in page 0, with two free pages for the lower levels. *)
Definition empty_table : kstate unit :=
  set_k_freelist (page 1) (set_k_mem (st64 ∅ (page 1) (page 2)) (quiet_machine tt)).

(** Children of a table, checked entry by entry. *)
Definition no_children (m : memory) (t : Z) : bool :=
  forallb (fun i => negb (has_flag (pte_at m t i) PTE_V)) (seqZ 0 512).

Definition one_child (m : memory) (t k c : Z) : bool :=
  bool_decide (child m t k = Some c) &&
  forallb (fun i => (i =? k) || negb (has_flag (pte_at m t i) PTE_V)) (seqZ 0 512).

Lemma no_children_sound m t i : no_children m t = true -> idx i -> child m t i = None.
Proof.
  unfold no_children, idx. rewrite forallb_forall. intros H Hi.
  assert (List.In i (seqZ 0 512)) as Hin by (apply list_elem_of_In, elem_of_seqZ; lia).
  specialize (H i Hin). unfold child. by destruct (has_flag _ _).
Qed.

Lemma one_child_sound m t k c i :
  one_child m t k c = true -> idx i -> child m t i = if decide (i = k) then Some c else None.
Proof.
  unfold one_child, idx. intros [H0%bool_decide_eq_true_1 H]%andb_prop Hi. rewrite forallb_forall in H.
  case_decide as E; [by subst|].
  assert (List.In i (seqZ 0 512)) as Hin by (apply list_elem_of_In, elem_of_seqZ; lia).
  specialize (H i Hin). rewrite (proj2 (Z.eqb_neq i k) E) in H. unfold child. by destruct (has_flag _ _).
Qed.

Lemma empty_wf m root : is_page root -> no_children m root = true -> pt_wf m root.
Proof.
  intros Hp Hn p a [Hl Hi] Hat. destruct p as [|i p]; cbn in Hat.
  - injection Hat as <-. split; [done|]. intros q [_ Hq] E. destruct q as [|j q]; [done|]. cbn in E.
    apply Forall_cons in Hq as [Hj _]. by rewrite (no_children_sound m root j) in E.
  - apply Forall_cons in Hi as [Hi _]. by rewrite (no_children_sound m root i) in Hat.
Qed.

Lemma empty_tables m root a : no_children m root = true -> is_table m root a -> a = root.
Proof.
  intros Hn (p & [_ Hi] & Hat). destruct p as [|i p]; cbn in Hat; [congruence|].
  apply Forall_cons in Hi as [Hi _]. by rewrite (no_children_sound m root i) in Hat.
Qed.

Lemma empty_table_ok : vm_ok empty_table (page 0) [page 1; page 2].
Proof.
  split; [split; [cbn; lia|]; split; [done|by cbn]|]. split; [by apply demo_lock|]. split; [|split].
  - split; [split; [reflexivity|split; [by vm_compute|by vm_compute]]|]. split.
    + apply NoDup_cons. split; [|apply NoDup_singleton]. rewrite list_elem_of_singleton. by vm_compute.
    + repeat (apply Forall_cons; split; [apply demo_is_page; lia|]). by apply Forall_nil.
  - apply empty_wf; [apply demo_is_page; lia|by vm_compute].
  - intros a Ha%empty_tables; [|by vm_compute]. subst a. rewrite elem_of_cons, list_elem_of_singleton.
    by vm_compute; intros [?|?].
Qed.

Lemma mappages_spec_witness :
  exists r l s, mappages (page 0) 0 (1 * PGSIZE) (page 5) (Z.lor PTE_R PTE_U) empty_table = Ret r s /\
    mapped (page 0) [page 1; page 2] empty_table 1 0 (page 5) (Z.lor PTE_R PTE_U) r l s.
Proof.
  apply (mappages_spec empty_table (page 0) [page 1; page 2] 0 1 (page 5) (Z.lor PTE_R PTE_U)).
  - apply empty_table_ok.
  - lia.
  - lia.
  - by vm_compute.
  - reflexivity.
  - by vm_compute.
  - by vm_compute.
  - reflexivity.
  - by vm_compute.
  - intros a Ha. unfold leaf. cbn [pt_at].
    by rewrite (no_children_sound _ _ (PX 2 a)); [|vm_compute|apply PX_range].
Defined.

(** Three levels of tables in pages 0 to 2 that map user page 0 to page 3. *)
Definition user_mem : memory :=
  st64 (st64 (st64 ∅ (page 0) (Z.lor (PA2PTE (page 1)) PTE_V)) (page 1) (Z.lor (PA2PTE (page 2)) PTE_V))
    (page 2) (Z.lor (PA2PTE (page 3)) (Z.lor PTE_V (Z.lor PTE_R (Z.lor PTE_W PTE_U)))).

Definition user_table : kstate unit := set_k_mem user_mem (quiet_machine tt).

(** A table with a single path, through entries [i2] and [i1]. *)
Section Path.
Context (m : memory) (i2 i1 : Z).
Hypothesis Hroot : one_child m (page 0) i2 (page 1) = true.
Hypothesis Hlevel1 : one_child m (page 1) i1 (page 2) = true.

Lemma path_tables p a :
  path p -> pt_at m (page 0) p = Some a ->
  (p = [] /\ a = page 0) \/ (p = [i2] /\ a = page 1) \/ (p = [i2; i1] /\ a = page 2).
Proof using Hroot Hlevel1.
  intros [Hl Hi] Hat. destruct p as [|i [|j [|k p]]]; cbn in Hat, Hl; [..|lia].
  - left. split; congruence.
  - apply Forall_cons in Hi as [Hi _]. rewrite (one_child_sound _ _ _ _ _ Hroot) in Hat by done.
    case_decide; [subst|done]. right. left. split; congruence.
  - apply Forall_cons in Hi as [Hi [Hj _]%Forall_cons]. rewrite (one_child_sound _ _ _ _ _ Hroot) in Hat by done.
    case_decide; [subst|done]. rewrite (one_child_sound _ _ _ _ _ Hlevel1) in Hat by done. case_decide; [subst|done].
    right. right. split; congruence.
Qed.

Lemma path_wf : pt_wf m (page 0).
Proof using Hroot Hlevel1.
  intros p a Hp Hat. pose proof (path_tables p a Hp Hat) as Ha. split.
  - destruct Ha as [[_ ->]|[[_ ->]|[_ ->]]]; apply demo_is_page; lia.
  - intros q Hq Hq2. pose proof (path_tables q a Hq Hq2) as Hb.
    unfold page, PGSIZE in Ha, Hb. intuition (subst; try done; lia).
Qed.

Lemma path_no_table n : 3 <= n -> ~ is_table m (page 0) (page n).
Proof using Hroot Hlevel1.
  intros Hn (p & Hp & Hat). apply path_tables in Hat; [|done]. unfold page, PGSIZE in Hat. intuition lia.
Qed.
End Path.

Lemma user_root : one_child user_mem (page 0) 0 (page 1) = true.
Proof. by vm_compute. Qed.

Lemma user_level1 : one_child user_mem (page 1) 0 (page 2) = true.
Proof. by vm_compute. Qed.

Lemma user_wf : pt_wf user_mem (page 0).
Proof. exact (path_wf user_mem 0 0 user_root user_level1). Qed.

Lemma user_leaf va : 0 <= va < PGSIZE -> leaf user_mem (page 0) va = pte_at user_mem (page 2) 0.
Proof.
  intros H. unfold leaf. assert (forall l, PX l va = 0) as E.
  { intros l. rewrite PX_eq. rewrite (Z.div_small va); [done|]. split; [lia|].
    apply (Z.lt_le_trans _ (2 ^ 12)); [unfold PGSIZE in H; lia|]. apply Z.pow_le_mono_r; unfold PXSHIFT; lia. }
  rewrite !E. cbn [pt_at]. rewrite (one_child_sound _ _ _ _ _ user_root) by (unfold idx; lia).
  rewrite decide_True by done. cbv iota. by rewrite (one_child_sound _ _ _ _ _ user_level1) by (unfold idx; lia).
Qed.

Lemma user_uaccess va : 0 <= va < PGSIZE -> uaccess user_mem (page 0) va = true.
Proof.
  intros H. unfold uaccess. rewrite user_leaf by done.
  rewrite (proj2 (Z.ltb_lt va MAXVA)); [by vm_compute|]. unfold PGSIZE in H.
  apply (Z.lt_trans _ 4096); [lia|by vm_compute].
Qed.

Lemma user_frame va : 0 <= va < PGSIZE -> PTE2PA (leaf user_mem (page 0) va) = page 3.
Proof. intros H. rewrite user_leaf by done. by vm_compute. Qed.

Lemma page3_no_table : ~ is_table user_mem (page 0) (page 3).
Proof. apply (path_no_table user_mem 0 0 user_root user_level1). lia. Qed.

Lemma copyout_copyin_witness :
  exists m, copyout (page 0) 10 [1; 2; 3] user_table = Ret 0 (set_k_mem m user_table) /\
    copyin (page 0) 10 3 (set_k_mem m user_table) = Ret (0, [1; 2; 3]) (set_k_mem m user_table).
Proof.
  destruct (copyout_copyin user_table (page 0) 10 [1; 2; 3]) as (m & E1 & E2 & _).
  - apply user_wf.
  - lia.
  - cbn. lia.
  - repeat (apply Forall_cons; split; [lia|]). by apply Forall_nil.
  - intros x Hx. apply user_uaccess. cbn in Hx. unfold PGSIZE. lia.
  - cbn [length]. change (Z.of_nat 3) with 3. split.
    + intros x Hx _. change (k_mem user_table) with user_mem. rewrite user_frame by (unfold PGSIZE; lia).
      split; [apply demo_is_page; lia|apply page3_no_table].
    + intros x y Hx Hy _ _ _. rewrite !PGROUNDDOWN_eq. unfold PGSIZE. rewrite !Z.div_small; [done|lia|lia].
  - exists m. split; [exact E1|exact E2].
Defined.

Lemma copyin_total_witness :
  exists r bs, copyin (page 0) 10 5 user_table = Ret (r, bs) user_table /\ copied user_mem (page 0) 10 5 r bs.
Proof.
  apply (copyin_total user_table (page 0) 10 5).
  - apply user_wf.
  - lia.
  - by vm_compute.
Defined.

Lemma uvmunmap_spec_witness :
  exists s, uvmunmap (page 0) 0 1 true user_table = Ret tt s /\
    unmapped (page 0) 0 1 [page 3] [] user_table s.
Proof.
  assert (frames user_mem (page 0) 0 1 = [page 3]) as Ef by (cbn [frames]; rewrite user_frame; [done|unfold PGSIZE; lia]).
  pose proof (uvmunmap_spec 1 (page 0) true user_table [] 0) as H. cbv zeta in H.
  change (k_mem user_table) with user_mem in H. rewrite Ef in H. apply H.
  - split; [split; [cbn; lia|]; split; [done|by cbn]|]. split; [by apply demo_lock|]. split; [|split].
    + split; [done|]. split; [apply NoDup_nil_2|by apply Forall_nil].
    + apply user_wf.
    + intros a _. apply not_elem_of_nil.
  - lia.
  - by vm_compute.
  - reflexivity.
  - intros va Hva. rewrite user_leaf by lia. split; [by vm_compute|]. by vm_compute; discriminate.
  - split; [apply NoDup_singleton|]. split; [apply Forall_singleton, demo_is_page; lia|]. split.
    + intros p _. apply not_elem_of_nil.
    + intros p Hp%list_elem_of_singleton. subst p. apply page3_no_table.
Defined.

(** ** Shared pages *)

(** Process 1 uses page 0, which is writable. *)
Definition sharing : kstate unit :=
  set_k_shmem (mkshmem (page 0) 1 WRITABLE 1 :: (demo_page <$> [1; 2; 3]))
    (set_k_procs (set_p_shmem_access [true; false; false; false] (demo_proc 1) :: replicate 63 zero_proc) (one tt)).

Lemma sharing_ready : ready 0 0 sharing.
Proof.
  split.
  - split; [cbn; lia|]. split; [done|by cbn].
  - reflexivity.
  - by apply demo_lock.
  - by apply demo_lock.
  - cbn. lia.
  - cbn. lia.
Qed.

Lemma sharing_inv : shmem_inv sharing.
Proof. apply table_check_sound. by vm_compute. Qed.

Lemma write_read_int_sharing :
  exists s, shmem_write_int 0 7 (-5) sharing = Ret tt s /\ shmem_read_int 0 7 s = Ret (-5) (settle s).
Proof.
  destruct (write_read_int sharing 0 0 7 7 (-5) sharing_ready) as (s & E1 & E2).
  - by apply demo_lock.
  - apply demo_is_page. lia.
  - reflexivity.
  - reflexivity.
  - lia.
  - lia.
  - exists s. split; [exact E1|exact E2].
Defined.

Lemma release_access_sharing :
  exists s, shmem_release_access 0 sharing = Ret tt s /\ sh_state (get_shmem 0 s) = NOT_SET /\
    sh_numberofusers (get_shmem 0 s) = 0.
Proof.
  destruct (release_access_effect sharing 0 0 sharing_ready) as (s & E & Hn & _ & Hs).
  - reflexivity.
  - by vm_compute.
  - by vm_compute.
  - exists s. split; [exact E|]. split; [apply Hs|exact Hn].
Defined.

Lemma sharing_pages : pages_ready 0 0 sharing.
Proof.
  split.
  - apply sharing_inv.
  - apply sharing_ready.
  - by apply demo_lock.
  - reflexivity.
  - unfold SHMEM. lia.
  - intros j Hj. unfold SHMEM in Hj. destruct j as [|[|[|[|j]]]]; [apply demo_is_page; lia..|lia].
  - intros j k Hj Hk Hne. unfold SHMEM in *.
    destruct j as [|[|[|[|j]]]]; [..|lia]; destruct k as [|[|[|[|k]]]]; try lia; by vm_compute.
Qed.

Lemma shmem_refines_witness :
  match aop 0 1 (Read_int 3) (abs 0 sharing) with
  | Some (r, a) => exists s, run_shop 0 (Read_int 3) sharing = Ret r s /\ abs 0 s = a
  | None => exists msg s, run_shop 0 (Read_int 3) sharing = Panic msg s
  end.
Proof.
  pose proof (shmem_refines sharing 0 0 (Read_int 3) sharing_pages) as H.
  change (p_top_pid (get_proc 0 sharing)) with 1 in H.
  destruct (aop 0 1 (Read_int 3) (abs 0 sharing)) as [[r a]|].
  - destruct H as (s & E & Ea & _); [cbn; unfold words; lia|]. exists s. split; [exact E|exact Ea].
  - apply H. cbn. unfold words. lia.
Defined.

Lemma write_int_anywhere_witness :
  exists index s, shmem_write_int 0 index 99 sharing = Ret tt s /\ ld32 (k_mem s) KERNBASE = 99.
Proof.
  destruct (write_int_anywhere sharing 0 0 KERNBASE 99 sharing_ready) as (index & s & _ & E & Es).
  - by apply demo_lock.
  - apply demo_is_page. lia.
  - reflexivity.
  - reflexivity.
  - by vm_compute.
  - reflexivity.
  - exists index, s. split; [exact E|exact Es].
Defined.

(** A process as allocproc() leaves it, running. *)
Definition newborn : kstate unit := upd_proc 0 born (one tt).

Lemma newborn_ready : ready 0 0 newborn.
Proof.
  split.
  - split; [cbn; lia|]. split; [done|by cbn].
  - reflexivity.
  - by apply demo_lock.
  - by apply demo_lock.
  - cbn. lia.
  - cbn. lia.
Qed.

Lemma first_mapping_panics_witness :
  exists s, (shmem_set_writable 0 ;; get_shmem_access 0 0) newborn = Panic "walk" s.
Proof.
  apply (first_mapping_panics newborn 0 0 true zero_proc newborn_ready).
  - reflexivity.
  - reflexivity.
  - cbn. lia.
  - reflexivity.
Defined.

(** Process 1 after an exec() that gave it a group of its own. *)
Definition regrouped : kstate unit := upd_proc 0 (set_p_top_pid 2) sharing.

Lemma exit_unshare_leak_witness :
  exists s, exit_unshare 0 0 regrouped = Ret tt s /\ sh_numberofusers (get_shmem 0 s) = 0 /\
    sh_state (get_shmem 0 s) = WRITABLE.
Proof.
  destruct (exit_unshare_leak regrouped 0 0) as (s & E & Hn & Hs & _).
  - split; [cbn; lia|]. split; [done|by cbn].
  - by apply demo_lock.
  - cbn. lia.
  - reflexivity.
  - reflexivity.
  - by vm_compute.
  - exists s. split; [exact E|]. split; [exact Hn|exact Hs].
Defined.
