(* ===== verification/ExamplesFs.v ===== *)
(** Concrete instances of the file system's theorems: a device that carries out
    the driver's requests, a process running with the file-system locks free, and
    a buffer cache that holds one modified block of an open transaction. *)
From S2P Require Import Prelude Riscv Machine Spinlock KString Kalloc Vm PageTable UserMem.
From S2P Require Import Sched Keeps FsIface File Proc Shmem ShmemInv ProcInv ShmemSpec ShmemRefine.
From S2P Require Import FsState Quiet Sleeplock Bio BioSpec Log LogSpec BlockSpec Console Fs FsInst Virtio VirtioSpec Mkfs MkfsSpec MkfsImage FsRead MkfsKernel.
From S2P Require Import SysArgs Exec Sysfile Syscall Trap SysKeeps Kernel Examples.

(** ** The device *)

(** The request at the head of the available ring, carried out. *)
#[export] Instance demo_device : VirtioDevice := fun f =>
  let w := fs_vdisk f in
  let i0 := Z.to_nat (nth (Z.to_nat (vd_used_dev w `mod` Z.of_nat NUM)) (vd_avail_ring w) 0) in
  let req := nth i0 (vd_ops w) (mkvreq 0 0 0) in
  let d0 := nth i0 (vd_desc w) zero_desc in
  let d1 := nth (Z.to_nat (d_next d0)) (vd_desc w) zero_desc in
  match d_addr d1 with
  | V_data b =>
      upd_vdisk (complete i0)
        (if q_type req =? VIRTIO_BLK_T_OUT then disk_write (q_sector req / 2) (b_data (get_buf b f)) f
         else upd_buf b (set_b_data (disk_block (q_sector req / 2) f)) f)
  | _ => f
  end.

#[export] Instance demo_device_ok : VirtioDeviceOk demo_device.
Proof.
  intros f write b n i0 i1 i2 [H1 H2 H3 H4] Ha Hr. unfold device, demo_device. cbn zeta.
  rewrite (nth_lookup_Some _ _ _ _ Hr), Nat2Z.id, (nth_lookup_Some _ _ _ _ H1), (nth_lookup_Some _ _ _ _ H2).
  cbn [d_next]. rewrite Nat2Z.id, (nth_lookup_Some _ _ _ _ H3). cbn [d_addr q_type q_sector].
  rewrite (Z.mul_comm 2), Z.div_mul by done. by destruct write.
Qed.

(** ** The machine *)

Definition fs_locks : gmap lockid spinlock :=
  list_to_map ((fun l => (l, free_lock)) <$>
    [L_bcache; L_log; L_itable; L_vdisk] ++ (L_buf <$> seq 0 NBUF) ++ (L_inode <$> seq 0 NINODE) ++
    (L_proc <$> seq 0 NPROC)).

Definition fs_machine (f : fsys) : kstate fsys := set_k_locks fs_locks (one f).

Lemma fs_lock_listed l : fs_lock l = true ->
  l ∈ [L_bcache; L_log; L_itable; L_vdisk] ++ (L_buf <$> seq 0 NBUF) ++ (L_inode <$> seq 0 NINODE).
Proof.
  intros H. rewrite !elem_of_app, !list_elem_of_fmap. destruct l; try done; cbn [fs_lock] in H;
    [left; set_solver..| |]; apply Nat.ltb_lt in H; right.
  - left. exists i. split; [done|]. apply elem_of_seq. lia.
  - right. exists i. split; [done|]. apply elem_of_seq. lia.
Qed.

Lemma fs_machine_quiet f : quiet 0 1 (fs_machine f).
Proof.
  assert (forall i, (i < NPROC)%nat -> lock_free (L_proc i) (fs_machine f)) as Hp.
  { intros i Hi. apply (locks_free_sound (L_proc <$> seq 0 NPROC)); [by vm_compute|].
    apply list_elem_of_fmap. exists i. split; [done|]. apply elem_of_seq. lia. }
  split; try reflexivity.
  - exact (one_cpu f).
  - unfold NPROC. lia.
  - intros l Hl. eapply locks_free_sound; [|by apply fs_lock_listed]. by vm_compute.
  - exact Hp.
  - intros j q ch Hj Hs. exfalso.
    pose proof (forallb_lookup (fun q => negb (bool_decide (p_state q = SLEEPING)))
      (k_procs (one tt)) j q ltac:(by vm_compute) Hj) as Hn. cbn in Hn.
    by rewrite bool_decide_true in Hn.
Qed.

(** What a command that evaluates does from that machine. *)
Lemma eval_runs `{World0 : World} {A} (c : K (kstate fsys) A) f a f' :
  eval 0 1 [] c [] f a f' -> resolves (c (fs_machine f)) a (fs_machine f').
Proof. intros H. exact (H (fs_machine f) (fs_machine_quiet f) eq_refl). Qed.

(** ** The buffer cache *)

Definition demo_data : block := {[ 0 := 77 ]}.

(** As binit() leaves it, then buffer 0 holds block 40 of device 1, modified and
    pinned by the one operation of the current transaction. *)
Definition pinned (b : buf) : buf :=
  set_b_valid 1 (set_b_dev 1 (set_b_blockno 40 (set_b_refcnt 1 (set_b_data demo_data b)))).

Definition demo_bufs : list buf := alter pinned 0%nat (binit_bufs (replicate (S NBUF) zero_buf)).

Definition demo_log : logst := mklogst 2 30 1 0 1 1 (40 :: replicate 29 0).

Definition demo_fs : fsys := set_fs_log demo_log (set_fs_bufs demo_bufs zero_fsys).

Definition demo_check (i : nat) : bool :=
  let b := get_buf i demo_fs in
  if (i =? 0)%nat
  then (b_valid b =? 1) && (b_dev b =? 1) && (b_blockno b =? 40) && (b_refcnt b =? 1) && negb (sl_locked (b_lock b))
  else boot_buf b.

Lemma demo_checked : forallb demo_check (seq 0 NBUF) = true.
Proof. vm_compute. reflexivity. Qed.

Lemma demo_checked_at i : (i < NBUF)%nat -> demo_check i = true.
Proof.
  intros Hi. exact (forallb_lookup demo_check (seq 0 NBUF) i i demo_checked
    (proj2 (lookup_seq _ _ _ _) (conj eq_refl Hi))).
Qed.

Lemma demo_buf i : (i < NBUF)%nat ->
  let b := get_buf i demo_fs in
  if (i =? 0)%nat
  then b_valid b = 1 /\ b_dev b = 1 /\ b_blockno b = 40 /\ b_refcnt b = 1 /\ sl_locked (b_lock b) = false
  else b_valid b = 0 /\ b_dev b = 0 /\ b_blockno b = 0 /\ b_refcnt b = 0 /\ sl_locked (b_lock b) = false.
Proof.
  intros Hi. pose proof (demo_checked_at i Hi) as H. revert H. unfold demo_check. cbn zeta.
  generalize (get_buf i demo_fs). intros b H.
  destruct (i =? 0)%nat; unfold boot_buf in H; rewrite !andb_true_iff, negb_true_iff in H;
    repeat split; apply H || apply Z.eqb_eq, H.
Qed.

Lemma demo_matches n i : (i < NBUF)%nat -> matches 1 n demo_fs i = (i =? 0)%nat && (n =? 40).
Proof.
  intros Hi. unfold matches. pose proof (demo_buf i Hi) as H. cbn zeta in H.
  destruct (i =? 0)%nat; destruct H as (_ & -> & -> & _); [|done]. exact (Z.eqb_sym 40 n).
Qed.

Lemma demo_bufof n : bufof 1 demo_fs n = if n =? 40 then Some 0%nat else None.
Proof.
  pose proof (bufof_spec 1 demo_fs n) as H. destruct (bufof 1 demo_fs n) as [i|].
  - destruct H as [Hi Hm]. rewrite demo_matches in Hm by done. apply andb_prop in Hm as [Hm ->].
    by apply Nat.eqb_eq in Hm as ->.
  - assert (0 < NBUF)%nat as H0 by (apply Nat.ltb_lt; reflexivity).
    specialize (H 0%nat H0). rewrite demo_matches in H by done. cbn in H. by rewrite H.
Qed.

Lemma demo_cache : cache_ok 1 demo_fs.
Proof.
  split.
  - exists (rev (seq 0 NBUF)). split; [|symmetry; apply Permutation_rev]. split; [by vm_compute|].
    split; [by apply (bool_decide_unpack _); vm_compute|]. split; [by apply (bool_decide_unpack _); vm_compute|].
    apply chained_sound. by vm_compute.
  - intros i j n Hi Hj. rewrite !demo_matches by done.
    intros [E1%Nat.eqb_eq _]%andb_prop [E2%Nat.eqb_eq _]%andb_prop. congruence.
  - intros i Hi. pose proof (demo_buf i Hi) as H. cbn zeta in H. unfold buf_ok.
    destruct (i =? 0)%nat; destruct H as (-> & -> & -> & -> & ->); (split; [lia|]); by split.
  - intros i Hi. pose proof (demo_buf i Hi) as H. cbn zeta in H.
    destruct (i =? 0)%nat; destruct H as (_ & _ & -> & _); lia.
Qed.

Lemma zero_vdisk : vd_ok (fs_vdisk zero_fsys).
Proof. by split. Qed.

Lemma demo_vdisk : vd_ok (fs_vdisk demo_fs).
Proof. by split. Qed.

#[local] Existing Instance disk_world.

Lemma demo_cst : cst 1 demo_fs (view 1 demo_fs) (ref 1 demo_fs) (fun _ => false) (fun n => disk_block n demo_fs) 1.
Proof.
  split; [split; [exact demo_cache|exact demo_vdisk]|done|done| |done|by vm_compute].
  intros n. unfold lockd. rewrite demo_bufof. by destruct (n =? 40).
Qed.

Lemma demo_ref n : ref 1 demo_fs n = if n =? 40 then 1 else 0.
Proof. unfold ref. rewrite demo_bufof. by destruct (n =? 40). Qed.

Lemma demo_ref_range n : 0 <= ref 1 demo_fs n < 2 ^ 31 - 1.
Proof. rewrite demo_ref. destruct (n =? 40); lia. Qed.

Lemma demo_log_at : log_at 1 2 [40] demo_fs.
Proof. split; try done. intros [|i] b H; by inversion H. Qed.

Lemma demo_log_shape : log_shape 2 [40].
Proof.
  split; [done|by vm_compute|by apply (bool_decide_unpack _)|].
  intros b ->%list_elem_of_singleton. cbn. lia.
Qed.

Abbreviation demo_V := (view 1 demo_fs).
Abbreviation demo_R := (ref 1 demo_fs).
Abbreviation demo_D := (fun n => disk_block n demo_fs).

(** ** Witnesses *)

Lemma binit_cache_witness :
  exists s', binit (fs_machine zero_fsys) = Ret tt s' /\ lru (k_fs s') (rev (seq 0 NBUF)) /\
    cache_ok 1 (k_fs s') /\ busy (k_fs s') = 0.
Proof.
  destruct (binit_cache 1 (fs_machine zero_fsys)) as (s' & E & H1 & H2 & H3 & _); [lia|exact eq_refl|].
  exists s'. split; [exact E|]. split; [exact H1|]. split; [exact H2|exact H3].
Defined.

Lemma block_store_load_witness :
  exists f', resolves ((store_block 1 50 demo_data ;; x <- load_block 1 40 ;; y <- load_block 1 50 ;; ret (x, y))
      (fs_machine demo_fs)) (demo_V 40, demo_data) (fs_machine f') /\
    fs_writes f' = [(50, demo_data)].
Proof.
  destruct (block_store_load 1 0 1 demo_fs demo_V demo_R demo_D 1 50 40 demo_data) as (f' & E & _ & W);
    [exact demo_cst|by vm_compute|exact demo_ref_range|lia|lia|].
  exists f'. split; [|exact W]. apply eval_runs in E. exact E.
Defined.

Lemma end_op_durable_witness :
  exists f', resolves (end_op (fs_machine demo_fs)) tt (fs_machine f') /\
    disk_block 40 f' = demo_V 40 /\ ref 1 f' 40 = 0 /\ lg_outstanding (fs_log f') = 0.
Proof.
  destruct (end_op_durable 1 0 1 2 [40] demo_fs demo_V demo_R demo_D 1)
    as (f' & E & Hd & Hr & _ & _ & Ho & _);
    [exact demo_cst|exact demo_log_at|exact demo_log_shape|by vm_compute|exact demo_ref_range| | |done|done|done|].
  - intros n ->%list_elem_of_singleton. by rewrite demo_ref.
  - intros n Hn. apply (unref_clean 1); [split; [exact demo_cache|exact demo_vdisk]|]. rewrite demo_ref.
    destruct (n =? 40) eqn:En; [|done]. exfalso. apply Hn, list_elem_of_singleton. by apply Z.eqb_eq.
  - exists f'. split; [by apply eval_runs|]. split; [apply Hd; right; cbn; lia|]. split; [|exact Ho].
    rewrite Hr. by vm_compute.
Defined.

(** The machine restarted after [k] of the writes [ws]. *)
Definition disk_after (ws : list (Z * block)) : gmap Z block := foldl (fun d w => <[w.1 := w.2]> d) ∅ ws.

Definition restarted (ws : list (Z * block)) : fsys :=
  set_fs_disk (disk_after ws)
    (set_fs_bufs (binit_bufs (replicate (S NBUF) zero_buf)) (set_fs_log demo_log zero_fsys)).

Lemma disk_after_spec ws n : default ∅ (disk_after ws !! n) = apply_writes ws demo_D n.
Proof.
  induction ws as [|[m d] ws IH] using rev_ind; [done|]. unfold disk_after. rewrite foldl_snoc, apply_writes_app.
  cbn. destruct (decide (n = m)) as [->|Hne].
  - by rewrite lookup_insert_eq, functions.fn_lookup_insert.
  - rewrite lookup_insert_ne, functions.fn_lookup_insert_ne by done. exact IH.
Qed.

Lemma restarted_cst ws :
  cst 1 (restarted ws) (apply_writes ws demo_D) (fun _ => 0) (fun _ => false) (apply_writes ws demo_D) 0.
Proof.
  assert (fs_vdisk (restarted ws) = fs_vdisk zero_fsys) as Hv
    by (unfold restarted; cbn [fs_vdisk set_fs_disk set_fs_bufs set_fs_log]; reflexivity).
  destruct (boot_cache 1 (restarted ws)) as (_ & H1 & H2 & Hno);
    [lia|unfold restarted; cbn [fs_bufs set_fs_disk set_fs_bufs set_fs_log]; reflexivity|].
  assert (forall m, disk_block m (restarted ws) = apply_writes ws demo_D m) as Hd by exact (disk_after_spec ws).
  split.
  - split; [exact H1|]. rewrite Hv. exact zero_vdisk.
  - intros m. unfold view. rewrite Hno. exact (Hd m).
  - intros m. unfold ref. rewrite Hno. reflexivity.
  - intros m. unfold lockd. rewrite Hno. reflexivity.
  - exact Hd.
  - exact H2.
Qed.

Lemma commit_crash_atomic_witness :
  exists f' ws, resolves (commit (fs_machine demo_fs)) tt (fs_machine f') /\ fs_writes f' = ws /\
    forall k, exists g', resolves (recover_from_log (fs_machine (restarted (take k ws)))) tt (fs_machine g') /\
      disk_block 40 g' = if (k <=? 1)%nat then demo_D 40 else demo_V 40.
Proof.
  destruct (commit_crash_atomic 1 0 1 2 [40] demo_fs demo_V demo_R demo_D 1) as (f' & ws & E & W & H);
    [exact demo_cst|exact demo_log_at|exact demo_log_shape|done|by vm_compute|by vm_compute
    |exact demo_ref_range| |done|].
  { intros n ->%list_elem_of_singleton. by rewrite demo_ref. }
  exists f', ws. split; [by apply eval_runs|]. split; [exact W|]. intros k.
  destruct (H k (restarted (take k ws)) (restarted_cst _)) as (g' & Eg & _ & Hg); [by split|].
  exists g'. split; [by apply eval_runs|]. rewrite Hg by (right; cbn; lia). reflexivity.
Defined.

(** Buffers 0 and 2 name the same block. *)
Definition two_bufs : fsys := upd_buf 2 (set_b_blockno 40) demo_fs.

Lemma disk_write_read_witness :
  exists f', resolves ((Virtio.virtio_disk_rw 0 true ;; Virtio.virtio_disk_rw 2 false) (fs_machine two_bufs)) tt
      (fs_machine f') /\ b_data (get_buf 2 f') = demo_data /\ disk_block 40 f' = demo_data.
Proof.
  assert (b_blockno (get_buf 0 two_bufs) = 40) as E0 by by vm_compute.
  assert (b_data (get_buf 0 two_bufs) = demo_data) as Ed by by vm_compute.
  destruct (disk_write_read 0 1 0 2 two_bufs) as (f' & E & H & _ & Hd & _);
    [apply Nat.ltb_lt; by vm_compute|apply Nat.ltb_lt; by vm_compute|done|exact zero_vdisk|rewrite E0; lia
    |by vm_compute|].
  rewrite E0, Ed in *. exists f'. split; [by apply eval_runs|]. split; [exact H|]. exact (Hd 40).
Defined.

(** ** Booting from an image *)

(** The memory after binit() and iinit(), with the disk [img]. *)
Definition boot_fs (img : gmap Z block) : fsys :=
  set_fs_disk img (set_fs_bufs (binit_bufs (replicate (S NBUF) zero_buf)) zero_fsys).

Lemma boot_fs_state img : boot_state img (boot_fs img).
Proof.
  split; [reflexivity|reflexivity|exact zero_vdisk|reflexivity|reflexivity|].
  intros i x Hx. change (replicate NINODE zero_inode !! i = Some x) in Hx. apply lookup_replicate in Hx as [-> _]. by split.
Qed.

Lemma boot_reads_file_witness :
  exists k s', mkfs_main (map opened demo_files) mkfs_start = Ret tt k /\
    resolves ((fsinit ROOTDEV ;; read_path (slash :: bytes "cat") 1 4) (fs_machine (boot_fs (mk_img k))))
      (Some (4, [69; 76; 70; 2])) s'.
Proof.
  destruct (boot_reads_file 0 1 demo_files 0 (bytes "user/_cat", [[127; 69; 76; 70]; [2; 1]]) (bytes "cat") 1 4 demo_files_ok)
    as (k & E & H); [by vm_compute|by vm_compute|repeat constructor; done|reflexivity|by vm_compute|cbn; unfold DIRSIZ; lia|by vm_compute|by vm_compute|lia|lia|lia|lia|].
  destruct (H (fs_machine (boot_fs (mk_img k))) (fs_machine_quiet _) (boot_fs_state _)) as (s' & R).
  exists k, s'. split; [exact E|exact R].
Defined.
