(* ===== verification/ExamplesAsm.v ===== *)
(** Concrete instances of the theorems on the assembly code. *)
From stdpp Require Import functions.
From S2P Require Import Prelude Riscv Machine Spinlock KString Kalloc Vm PageTable UserMem Sched Keeps FsIface File.
From S2P Require Import Proc Shmem FsState Console Virtio SysArgs Exec Sysfile Syscall Trap Asm Examples ExamplesMem.
Import Reg.

(** A supervisor hart with paging off. *)
Definition bare (f : reg -> Z) (m : memory) : hart := mkhart f (fun _ => 0) 0 Supervisor m.

Lemma bare_window h va n :
  h_mode h = Supervisor -> h_csr h satp = 0 -> 0 <= va -> va + n <= 2 ^ 64 -> window (fun _ => True) h va va n.
Proof.
  intros Em Es H0 H1. split; [done|]. split; [done|]. split; [done|]. intros m w o _ _ _.
  unfold access. cbn. by rewrite Em, Es.
Qed.

(** Registers numbered, as a value each. *)
Definition demo_file (old new : Z) : reg -> Z := <[a0 := old]> (<[a1 := new]> (fun r => if decide (r = ra) then 64 else 9)).

Lemma demo_file_ok old new m c : 0 <= old < 2 ^ 64 -> 0 <= new < 2 ^ 64 ->
  regs_ok (mkhart (demo_file old new) c 0 Supervisor m).
Proof.
  intros H1 H2 r. cbn. unfold demo_file. destruct (decide (r = a0)) as [->|Hn]; [by rewrite fn_lookup_insert|].
  rewrite fn_lookup_insert_ne by done. destruct (decide (r = a1)) as [->|Hn']; [by rewrite fn_lookup_insert|].
  rewrite fn_lookup_insert_ne by done. case_decide; lia.
Qed.

(** Contexts at 4096 and 8192: one thread switches to the other and back. *)
Lemma swtch_resume_witness :
  exists h1, run swtch_code (bare (demo_file 4096 8192) ∅) = Some h1 /\ h_pc h1 = 0 /\
    exists h3, run swtch_code (bare (demo_file 8192 4096) (h_mem h1)) = Some h3 /\ h_pc h3 = 64 /\ getr s0 h3 = 9.
Proof.
  destruct (swtch_resume (fun _ => True) (bare (demo_file 4096 8192) ∅) 4096 4096 8192 8192)
    as (h1 & E & Epc & _ & _ & _ & Hback).
  - apply bare_window; [done|done|lia|lia].
  - apply bare_window; [done|done|lia|lia].
  - done.
  - done.
  - left. lia.
  - apply demo_file_ok; lia.
  - exists h1. split; [exact E|]. split; [rewrite Epc; by vm_compute|].
    destruct (Hback (fun _ => True) (bare (demo_file 8192 4096) (h_mem h1)) 8192 8192) as (h3 & E3 & Epc3 & Hr3).
    + apply bare_window; [done|done|lia|lia].
    + apply bare_window; [done|done|lia|lia].
    + done.
    + done.
    + right. lia.
    + done.
    + exists h3. split; [exact E3|]. split; [rewrite Epc3; by vm_compute|].
      rewrite (Hr3 s0 16) by (apply list_elem_of_In; cbn; tauto). by vm_compute.
Defined.

(** A kerneltrap() that returns on another hart, with the registers a call may
    change changed. *)
Definition moved (h : hart) : hart := setr tp 3 (setr a0 77 h).

Lemma kernelvec_transparent_witness :
  exists h2, kernelvec_code moved (bare (<[sp := 8192]> (demo_file 5 6)) ∅) = Some h2 /\
    getr a0 h2 = 5 /\ getr sp h2 = 8192 /\ getr tp h2 = 3.
Proof.
  destruct (kernelvec_transparent (fun _ => True) (bare (<[sp := 8192]> (demo_file 5 6)) ∅) 7936 moved)
    as (h1 & h2 & E1 & E2 & Hr & Ht & _).
  - by vm_compute.
  - apply bare_window; [done|done|by vm_compute|by vm_compute].
  - intros r. cbn. destruct (decide (r = sp)) as [->|Hn]; [by rewrite fn_lookup_insert|].
    rewrite fn_lookup_insert_ne by done. apply (demo_file_ok 5 6 ∅ (fun _ => 0)); lia.
  - intros h Hs Hw. split; [done|]. split; [|done]. by apply (window_ext _ h).
  - exists h2. split; [exact E2|]. split; [rewrite (Hr a0) by done; by vm_compute|].
    split; [rewrite (Hr sp) by done; by vm_compute|]. rewrite Ht. by vm_compute.
Defined.

(** ** The timer *)

#[export] Instance demo_boot : BootSyms :=
  {| main_addr := KERNBASE + 0x1000; timervec_addr := KERNBASE + 0x2000;
     stack0 := KERNBASE + 0x10000; timer_scratch := KERNBASE + 0x20000 |}.

#[export] Instance demo_boot_ok : BootSymsOk demo_boot.
Proof. by split; vm_compute. Qed.

Definition reset_hart : hart := mkhart (fun _ => 0) (fun c => if decide (c = mhartid) then 1 else 0) 0 Machine ∅.

Lemma timer_boot_witness :
  exists h1, entry_code reset_hart = Some h1 /\ h_mode h1 = Supervisor /\ getr tp h1 = 1 /\
    exists h3, run timervec (mkhart (fun _ => 7) (h_csr h1) 0 Machine (h_mem h1)) = Some h3 /\
      (forall r, r <> zero -> getr r h3 = 7) /\ ld64 (h_mem h3) (CLINT_MTIMECMP 1) = 2000000.
Proof.
  destruct (timer_boot reset_hart 1) as (h1 & E & Em & _ & Et & _ & _ & _ & Ec & Hint); [done|done|by vm_compute|].
  exists h1. split; [exact E|]. split; [exact Em|]. split; [exact Et|].
  destruct (Hint (mkhart (fun _ => 7) (h_csr h1) 0 Machine (h_mem h1))) as (h3 & E3 & Hr & _ & _ & _ & Ec3 & _);
    [done|done|by intros r; cbn; lia|done|].
  exists h3. split; [exact E3|]. split.
  - intros r Hz. rewrite Hr. unfold getr. by rewrite decide_False.
  - rewrite Ec3. cbn [h_mem]. rewrite Ec. by vm_compute.
Defined.

(** ** A trap from user space *)

(** The trapframe page is page 3, mapped at TRAPFRAME by a table with one path. *)
Definition tramp_mem : memory :=
  st64 (st64 (st64 ∅ (page 0 + 8 * 255) (Z.lor (PA2PTE (page 1)) PTE_V)) (page 1 + 8 * 511)
    (Z.lor (PA2PTE (page 2)) PTE_V)) (page 2 + 8 * 510)
    (Z.lor (PA2PTE (page 3)) (Z.lor PTE_V (Z.lor PTE_R PTE_W))).

Lemma tramp_root : one_child tramp_mem (page 0) 255 (page 1) = true.
Proof. by vm_compute. Qed.

Lemma tramp_level1 : one_child tramp_mem (page 1) 511 (page 2) = true.
Proof. by vm_compute. Qed.

Lemma tramp_mapped : tf_mapped tramp_mem (page 0) (page 3).
Proof.
  split.
  - exact (path_wf _ _ _ tramp_root tramp_level1).
  - apply demo_is_page. lia.
  - apply (path_no_table _ _ _ tramp_root tramp_level1). lia.
  - by vm_compute.
  - by vm_compute.
Qed.

Definition trapping : hart :=
  mkhart (demo_file 5 6) (<[satp := MAKE_SATP (page 0)]> (fun _ => 0)) 0 Supervisor tramp_mem.

Lemma trapping_ok : regs_ok trapping.
Proof. apply demo_file_ok; lia. Qed.

Lemma trap_roundtrip_witness :
  exists h1, run uservec_code trapping = Some h1 /\ ld64 (h_mem h1) (page 3 + TF_a0) = 5 /\
    exists h3, run userret_code (mkhart (<[a0 := MAKE_SATP (page 0)]> (fun _ => 0)) (fun _ => 0) 0 Supervisor tramp_mem) =
        Some h3 /\ h_mode h3 = User /\ getr a0 h3 = ld64 tramp_mem (page 3 + TF_a0).
Proof.
  destruct (trap_roundtrip trapping (page 0) (page 3)) as (h1 & E & _ & _ & _ & _ & Hs & _ & Hret);
    [done|done|exact tramp_mapped|exact trapping_ok|].
  exists h1. split; [exact E|]. split; [rewrite (Hs a0 TF_a0); [by vm_compute|by left]|].
  destruct (Hret (mkhart (<[a0 := MAKE_SATP (page 0)]> (fun _ => 0)) (fun _ => 0) 0 Supervisor tramp_mem))
    as (h3 & E3 & _ & _ & Em & _ & Hr & _); [done|done|exact tramp_mapped|].
  exists h3. split; [exact E3|]. split; [exact Em|]. apply (Hr a0). by left.
Defined.
